(* ===== verification/_CoqProject ===== *)
-Q . S2P
Prelude.v
Text.v
Float.v
Protocol.v
RuntimeSubject.v
Evidence.v
Samples.v
Sink.v
Gap.v
Retry.v
Backoff.v
Pacer.v
Spool.v
Resident.v
SinkQueue.v
SinkLoop.v
Event.v
SensitivePaths.v
Normalize.v
Store.v
Reader.v
ReaderRun.v
Ebpf.v
EbpfOpen.v
VartioItem.v
Vartio.v
Bpf.v
Btf.v
Codegen.v
CodegenRun.v
CodegenCorrect.v
Generated.v
Enrich.v
EnrichId.v
KubeWatch.v
Cgroup.v
Knowledge.v
Registry.v
Daemon.v
Ipc.v
IpcStream.v
IpcConn.v
IpcJson.v
Mcp.v
Cli.v
Observability.v
Startup.v
Config.v
Reports.v
Agent.v
Node.v
KnowledgeFiles.v
Shipped.v
Sdk.v
Metrics.v
Oracle.v
