(* ===== verification/Prelude.v ===== *)
(** * jälki, verified

    jälki is a Kubernetes node agent. eBPF programs write fixed-layout event structs into ring
    buffers; one reader thread per probe drains its buffer, decodes and normalizes each event into
    an evidence record, gates it, binds it to the workload it came from and offers the records of
    one drain to a bounded queue; a single sink loop takes messages from the queue, delivers them,
    and keeps what the sink refuses in a bounded buffer that a spool file mirrors. Evidence that
    cannot be kept is turned into gap reports, which are evidence themselves. Around this path stand
    a registry of probes that are deployed and detached while the agent runs, a generator of probes,
    a control socket with its clients, and a knowledge base that says what events mean. This
    development follows an event along the path and then takes up what stands around it.

    ** The parts

    Shared:

    - [Prelude] (this file): [result], machine integers, decimals and bytes, list and map lemmas,
      the record-update notation, the hint database [jalki]. [Text]: the string functions of Rust's
      standard library. [Float]: IEEE-754 binary64. [Samples]: sample values.

    Evidence, from the kernel to the sink:

    - [Protocol] ([false-protocol/src]): the occurrence, its builder, [validate]. [RuntimeSubject]
      and [Evidence] ([jalki-evidence/src]): process identity, records, bindings, batches and their
      projections for the two kinds of sink.
    - [Ebpf], [EbpfOpen] ([jalki-ebpf/src]): the in-kernel programs with their maps; what the kernel
      answers is a record of functions.
    - [Event], [Normalize] ([jalki-common/src/events.rs], [jalki-evidence/src], [jalki/src/probes]):
      C layouts, decoding, and the record each event becomes. [SensitivePaths]: the two-stage path
      gate. [Store] ([jalki/src/store.rs]): the local rings and their queries.
    - [Reader], [ReaderRun] ([jalki/src/reader.rs], [emit_self_observability] of
      [jalki/src/runtime.rs]): one drain, and a reader's whole run until it stops.
    - [Enrich], [EnrichId], [KubeWatch] ([jalki-enrich/src/lib.rs], [jalki/src/enrich.rs],
      [jalki/src/kube_watch.rs]): from a cgroup to a pod, the bounded cache, the pod watcher.
      [Cgroup] ([jalki-evidence/src/cgroup.rs]): memory pressure.
    - [SinkQueue] ([jalki/src/sink_queue.rs]): the queue, as a step relation over its atomic
      accesses. [Resident]: the memory estimate it is bounded by.
    - [Gap], [Retry], [Backoff], [Pacer] ([jalki-evidence/src/retry.rs]), [Spool]
      ([jalki-evidence/src/spool.rs]): gap reports, the bounded buffer, the retry schedule, the
      drain pacer, the file, with a fault at any file-system call.
    - [SinkLoop] ([run_sink_loop] of [jalki/src/runtime.rs]): recovery, the receive and timer arms,
      memory shedding, shutdown.
    - [Sink], [VartioItem], [Vartio] ([jalki-evidence/src/sink.rs], [jalki-vartio-sink/src]): the
      interface [EvidenceSink] the loop is written against and the sinks that implement it, the
      one that delivers to Vartio over gRPC among them.
    - [Reports], [Agent], [Node]: queue and loop together with the account of every loss report, and the
      readers before them, each with its probe.

    Probes on demand:

    - [Bpf], [Btf], [Codegen], [CodegenRun], [CodegenCorrect], [Generated] ([jalki-codegen/src],
      [jalki/src/probes/generated.rs]): the encoder and a machine for the instructions, the kernel's
      type information, the generator, the run of each part of a program it makes, and the reader
      of its events.
    - [Registry], [Daemon] ([jalki/src/registry.rs], [jalki/src/runtime.rs]): deploying and
      detaching, alone and concurrently. [Startup], [Config] ([jalki/src/loader.rs],
      [jalki/src/main.rs] and others): bringing the agent up.

    Clients and knowledge:

    - [Ipc], [IpcStream], [IpcConn], [IpcJson] ([jalki/src/ipc.rs]): frames, handlers, subscriptions,
      the client. [Cli] ([jalki/src/cli]), [Mcp] ([jalki-mcp/src]): the two clients.
      [Observability], [Metrics] ([serve_metrics] of [jalki/src/runtime.rs],
      [jalki/src/metrics.rs]): the HTTP endpoints, the registry and its counters.
    - [Knowledge], [KnowledgeFiles], [Shipped] ([jalki/src/knowledge.rs], [knowledge]): lookups, the
      documents compiled into the binary, and the knowledge base they make. [Oracle]
      ([eval/oracle]): the cases they are held to.
    - [Sdk] ([jalki-sdk-meta/src], [_decode_stream_event] of the Python SDK): the constants of the
      wire, the generators that write them for a language, the conformance cases.

    A definition carries the name of the Rust item it models; where several types have a method of
    one name the type's name, or a short form of it, goes in front ([RetryBackoff_new], [pg_merge]).
    A method that changes its receiver returns the new one, last in a tuple. Struct fields carry a
    prefix of the record ([rb_], [lp_], [er_]).

    ** What is shown

    - Conservation. [Node.node_conservation], [Agent.agent_conservation] and
      [Agent.clean_shutdown_tells_all], for the agent as a whole: whatever interleaves and whatever
      fails, the evidence in what the readers drained was accepted by the sink, is on its way, or is
      in a report that was accepted, refused for good, or is still to be sent. By stage: [ReaderRun.reader_run_accounts], [Reader.ring_drops_reported],
      [SinkQueue.queue_loses_nothing_silently], [SinkLoop.sink_loop_conservation],
      [Retry.retry_buffer_conservation], [Vartio.delivered_batch_accounted] and
      [Vartio.delivered_exactly_once].
    - In the kernel. [Ebpf.socket_events_observed], [Ebpf.exec_observed],
      [EbpfOpen.sensitive_open_kept], [EbpfOpen.attempts_exact]: the record the agent decodes says
      what happened, and what is lost is counted, the divergences below apart.
    - Bounds. [Retry.enqueue_bounded_and_accounted], [SinkQueue.queue_bounded] under every
      interleaving, [Resident.resident_bytes_exact], [Store.store_holds_newest],
      [Enrich.cache_invariant], [Backoff.backoff_schedule], [Pacer.poll_wait_bounded].
    - Durability. [Spool.replay_recovers_intact_prefix], [Spool.compact_atomic],
      [Spool.append_preserves_backlog], [SinkLoop.spool_is_backlog], [SinkLoop.recover_accounts].
    - Progress. [SinkLoop.backlog_always_scheduled], [SinkLoop.flush_outcome],
      [SinkQueue.loss_reports_never_stranded].
    - Meaning of the data. [Event.decode_event_correct], [Normalize.to_evidence_valid],
      [SensitivePaths.glob_match_correct] against an inductive definition of the pattern language,
      [KubeWatch.watcher_refines_node] against the live pods of the node,
      [Enrich.cached_resolve_transparent], [VartioItem.record_reaches_the_wire] against a table of every
      key of the wire, and the theorems of [Evidence], [Protocol], [RuntimeSubject] and [Gap].
    - Generated probes. [CodegenCorrect.generated_program_correct] on a machine that gets stuck on
      what the kernel's verifier would refuse, [Generated.generated_reader_correct],
      [Btf.parse_types_roundtrip], [Btf.resolve_field_offset_correct] against the bit offsets of the
      format, bitfields apart, [CodegenCorrect.generate_total].
    - Concurrency. [Daemon.concurrent_calls_safe] for every interleaving of calls at their awaits,
      [Daemon.calls_one_at_a_time] against the calls as operations on sets of probes,
      [IpcStream.stream_exactly_once], [IpcConn.unsubscribe_exact].
    - Clients. [Ipc.call_native_answered], [IpcJson.json_roundtrip], [Mcp.every_request_answered],
      [Mcp.deploy_tools_deploy], [Sdk.stream_event_read], [Sdk.generated_protocol_agrees],
      [Observability.answer_ignores_segmentation].
    - Start-up. [Startup.degraded_start], [Startup.task_offsets_from_btf], [Config.sinks_as_configured],
      [Config.node_identity_resolved].
    - Knowledge. [Knowledge.find_probes_ranked], [Shipped.interpretation_reachable],
      [Shipped.daemon_explains], which is exact, [Oracle.oracle_passes_loads], [Sdk.find_conformance].

    Divergences between the code and what it says of itself, or means to do, are theorems about a
    run or an input that shows them: [SensitivePaths.literal_star_evades],
    [Reader.non_utf8_path_evades], [Reader.sample_rate_rounds_up],
    [ReaderRun.failing_clock_loses_message], [Event.event_layouts], [Store.query_all_misses_newest],
    [EbpfOpen.long_path_unreported], [EbpfOpen.attempt_never_truncated],
    [EbpfOpen.long_attempt_evades], [EbpfOpen.missed_exit_misattributes],
    [Spool.oversized_frame_hides_the_rest], [Spool.compact_ignores_max_bytes],
    [Pacer.oversized_batches_escape_byte_rate], [SinkLoop.rejections_reset_backoff],
    [SinkLoop.torn_tail_gets_no_gap], [Agent.restart_forgets_reports],
    [KubeWatch.taken_over_container_lost], [Btf.bitfields_resolve_elsewhere],
    [CodegenCorrect.generated_program_not_loadable], [Daemon.overlapping_calls_blind],
    [Daemon.pre_compiled_not_redeployable], [Startup.skipped_probe_stays_listed],
    [Startup.descriptor_programs], [IpcStream.same_millisecond_event_skipped],
    [IpcStream.deployed_id_silent], [IpcStream.events_not_interpreted],
    [IpcStream.success_has_no_ret], [Mcp.events_window_ignored],
    [Mcp.unreadable_line_ends_serving], [Cli.ask_never_interprets],
    [Cli.stream_repeats_events], [Cli.watch_prints_query], [Cli.errno_name_roundtrip],
    [Observability.split_character_not_found], [Metrics.documented_names_missing],
    [Metrics.events_metric_counts_status], [Shipped.advice_never_given],
    [Shipped.one_failure_reads_as_many], [Sdk.keywords_match_inside_words],
    [Oracle.oracle_passes_unloadable].

    ** Conventions and bounds

    Integers are [Z] with their width where the code can reach it: [add64], [sat_add64], [wrap]
    and the like are the operation the source names. Strings are byte strings ([slen] is Rust's
    [len]), a [HashMap] is a [gmap], a [VecDeque] or [Vec] a list. A panic is [None].

    Where a Rust loop is not structural its definition takes fuel, and a lemma beside it shows the
    fuel is enough: [length batches] for the shedding loops, since each turn takes a batch out;
    [(|value|+1)(|pattern|+1)] turns for the wildcard matcher, by a lexicographic measure;
    the length of the file for replay, since a frame is at least four bytes; the backlog's length
    for a drain pass, since each turn delivers, drops or stops; the length of a generated program for
    its run, since its jumps go forward; the number of types for a walk along an acyclic type graph.
    Loops that follow the outside world (a reader's turns, the turns of the sink loop, the frames of
    a connection, the polls of a subscription) take a list of what they meet, or are a relation that
    is closed under steps. Counters are 64 bits wide and fewer than 2^64 of anything is counted:
    where a theorem needs it, this is a hypothesis.

    What lies outside the sources is a parameter of the definitions that use it, under its
    documented behaviour only: serde_json and the MessagePack codec (decoding an encoding gives the
    value back), SHA-256, Unicode lowercasing, the hash of a [RandomState] (any [u64]), capacities and
    [size_of]s (a [MemModel], a [ByteModel]), fresh ids, clocks, the memory ratio, the sink
    ([EvidenceSink]), the file system as a plan of which calls fail and how much of a write reached
    the file, the kernel's helpers, aya's loader and maps, the [object] crate's writer, the gRPC
    channel and the receiver behind it, clap, the Kubernetes client, the Prometheus client.

    ** What is not modelled

    Log lines, sleeps and thread scheduling beyond the interleavings above; the text of the
    Prometheus registry; the gauges that mirror a counter already modelled; the generated protocol
    code of the Vartio sink, other than its message types; test doubles; [xtask], which runs cargo.
    The SDK's option types and the Python client's connection handling are left out as well. *)
From Stdlib Require Export ZArith Lia.
From Stdlib Require Import Strings.Byte Strings.Ascii.
From stdpp Require Export base tactics option list strings gmap numbers sorting pretty.

Open Scope Z_scope.

(* ------------------------------------------------------------------ *)
(** ** Fallible code *)

(** Rust's [Result<A, E>]. *)
Inductive result (E A : Type) : Type :=
| Ok (a : A)
| Err (e : E).
Arguments Ok {E A} _.
Arguments Err {E A} _.

(** The [?] operator. *)
Definition result_bind {E A B} (m : result E A) (k : A -> result E B) : result E B :=
  match m with
  | Ok a => k a
  | Err e => Err e
  end.

Declare Scope jalki_scope.
Delimit Scope jalki_scope with jalki.
Notation "x <-? m ;; k" := (result_bind m (fun x => k))
  (at level 100, m at next level, right associativity) : jalki_scope.
Open Scope jalki_scope.

Definition is_ok {E A} (r : result E A) : bool :=
  match r with Ok _ => true | Err _ => false end.

#[export] Instance result_eq_dec `{EqDecision E, EqDecision A} : EqDecision (result E A).
Proof. solve_decision. Defined.

(* ------------------------------------------------------------------ *)
(** ** Machine integers

    A [w]-bit unsigned integer is a [Z] in [0 .. 2^w - 1]. Plain [+] of an
    optimised build wraps, [saturating_*] clamps. *)

Definition u64_max : Z := 2 ^ 64 - 1.
Definition usize_max : Z := u64_max.

Definition wrap (w z : Z) : Z := z mod 2 ^ w.
Definition wrap_signed (w z : Z) : Z := (z + 2 ^ (w - 1)) mod 2 ^ w - 2 ^ (w - 1).

Definition add64 (a b : Z) : Z := wrap 64 (a + b).
Definition sub64 (a b : Z) : Z := wrap 64 (a - b).
Definition sat_add64 (a b : Z) : Z := Z.min (a + b) u64_max.
Definition sat_sub (a b : Z) : Z := Z.max (a - b) 0.
Definition sat_mul64 (a b : Z) : Z := Z.min (a * b) u64_max.

Definition is_u64 (z : Z) : Prop := 0 <= z <= u64_max.
Definition in_width (w z : Z) : Prop := 0 <= z < 2 ^ w.

(* ------------------------------------------------------------------ *)
(** ** Bytes *)

#[export] Instance byte_eq_decision : EqDecision byte := Byte.byte_eq_dec.

Definition bZ (b : byte) : Z := Z.of_N (Byte.to_N b).

Definition byte_of_Z (z : Z) : byte :=
  match Byte.of_N (Z.to_N (z mod 256)) with
  | Some b => b
  | None => x00
  end.

(** Little- and big-endian readings of a byte list ([from_le_bytes], [from_be_bytes]). *)
Fixpoint le_get (bs : list byte) : Z :=
  match bs with
  | [] => 0
  | b :: rest => bZ b + 256 * le_get rest
  end.

Definition be_get (bs : list byte) : Z := le_get (rev bs).

(** [to_le_bytes] and [to_be_bytes] of an [n]-byte integer. *)
Fixpoint le_put (n : nat) (z : Z) : list byte :=
  match n with
  | O => []
  | S n' => byte_of_Z z :: le_put n' (z / 256)
  end.

Definition be_put (n : nat) (z : Z) : list byte := rev (le_put n z).

(** [&data[off .. off + len]] *)
Definition slice (off len : nat) (bs : list byte) : list byte := take len (drop off bs).

(* ------------------------------------------------------------------ *)
(** ** Strings

    A Rust [String] is its UTF-8 byte sequence; [String.length] is [str::len]. *)

Definition slen (s : string) : Z := Z.of_nat (String.length s).
Definition bytes_of (s : string) : list byte := String.list_byte_of_string s.
Definition string_of (bs : list byte) : string := String.string_of_list_byte bs.

(** [Display] of an integer. *)
Definition dec (z : Z) : string := pretty z.

Definition digit_val (c : Ascii.ascii) : option Z :=
  let n := Z.of_N (Ascii.N_of_ascii c) in
  if (48 <=? n) && (n <=? 57) then Some (n - 48) else None.

Fixpoint parse_digits (s : string) (acc : Z) : option Z :=
  match s with
  | EmptyString => Some acc
  | String c rest =>
      match digit_val c with
      | Some d => parse_digits rest (10 * acc + d)
      | None => None
      end
  end.

(** [str::parse::<uN>()]: an optional [+], at least one digit, only digits, in range. *)
Definition parse_uint (w : Z) (s : string) : option Z :=
  let body := match s with
              | String c rest =>
                  if decide (c = "+"%char) then rest else s
              | EmptyString => s
              end in
  match body with
  | EmptyString => None
  | _ => match parse_digits body 0 with
         | Some v => if v <? 2 ^ w then Some v else None
         | None => None
         end
  end.

(** The UTF-8 encodings of the code points with the [White_Space] property, which is what
    [str::trim] removes. *)
Definition white_space : list string :=
  map (fun l => string_of (map byte_of_Z l))
    [[9]; [10]; [11]; [12]; [13]; [32]; [194; 133]; [194; 160]; [225; 154; 128];
     [226; 128; 128]; [226; 128; 129]; [226; 128; 130]; [226; 128; 131]; [226; 128; 132];
     [226; 128; 133]; [226; 128; 134]; [226; 128; 135]; [226; 128; 136]; [226; 128; 137];
     [226; 128; 138]; [226; 128; 168]; [226; 128; 169]; [226; 128; 175]; [226; 129; 159];
     [227; 128; 128]].

(** The rest of [s] after [p], when [s] starts with it ([str::strip_prefix]). *)
Fixpoint strip_prefix (p s : string) : option string :=
  match p, s with
  | EmptyString, _ => Some s
  | String a p', String b s' => if decide (a = b) then strip_prefix p' s' else None
  | String _ _, EmptyString => None
  end.

Definition starts_with (s p : string) : bool := bool_decide (is_Some (strip_prefix p s)).

Definition string_rev (s : string) : string :=
  String.string_of_list_ascii (rev (String.list_ascii_of_string s)).

Definition ends_with (s p : string) : bool := starts_with (string_rev s) (string_rev p).

Fixpoint first_strip (ps : list string) (s : string) : option string :=
  match ps with
  | [] => None
  | p :: rest =>
      match strip_prefix p s with
      | Some s' => Some s'
      | None => first_strip rest s
      end
  end.

Fixpoint strip_all (fuel : nat) (ps : list string) (s : string) : string :=
  match fuel with
  | O => s
  | S fuel' =>
      match first_strip ps s with
      | Some s' => strip_all fuel' ps s'
      | None => s
      end
  end.

Definition trim_start (s : string) : string := strip_all (String.length s) white_space s.
Definition trim_end (s : string) : string :=
  string_rev (strip_all (String.length s) (map string_rev white_space) (string_rev s)).
(** [str::trim] *)
Definition trim (s : string) : string := trim_end (trim_start s).

(** UTF-8 well-formedness, as [core::str::from_utf8] checks it. *)
Definition in_byte (lo hi : Z) (b : byte) : bool := (lo <=? bZ b) && (bZ b <=? hi).
Definition cont_byte : byte -> bool := in_byte 128 191.

(** The number of bytes of the code point a valid sequence starts with; [None] when the
    sequence does not start with a valid code point. *)
Definition utf8_step (bs : list byte) : option nat :=
  match bs with
  | [] => None
  | b0 :: r =>
      if in_byte 0 127 b0 then Some 1%nat else
      match r with
      | [] => None
      | b1 :: r1 =>
          if in_byte 194 223 b0 && cont_byte b1 then Some 2%nat else
          match r1 with
          | [] => None
          | b2 :: r2 =>
              if (if in_byte 224 224 b0 then in_byte 160 191 b1
                  else if in_byte 237 237 b0 then in_byte 128 159 b1
                  else in_byte 225 239 b0 && cont_byte b1) && cont_byte b2
              then Some 3%nat else
              match r2 with
              | [] => None
              | b3 :: _ =>
                  if (if in_byte 240 240 b0 then in_byte 144 191 b1
                      else if in_byte 244 244 b0 then in_byte 128 143 b1
                      else in_byte 241 243 b0 && cont_byte b1) && cont_byte b2 && cont_byte b3
                  then Some 4%nat else None
              end
          end
      end
  end.

Fixpoint utf8_valid_fuel (fuel : nat) (bs : list byte) : bool :=
  match bs, fuel with
  | [], _ => true
  | _, O => false
  | _, S fuel' =>
      match utf8_step bs with
      | Some n => utf8_valid_fuel fuel' (drop n bs)
      | None => false
      end
  end.

Definition utf8_valid (bs : list byte) : bool := utf8_valid_fuel (length bs) bs.

(** [core::str::from_utf8(bs).unwrap_or("")] *)
Definition str_or_empty (bs : list byte) : string :=
  if utf8_valid bs then string_of bs else "".

(* ------------------------------------------------------------------ *)
(** ** Record update

    [r <| f := v |>] replaces one field. A record type gives its eta expansion as an [Eta]
    instance; the setter of a field is found by abstracting that expansion over the
    projection. *)

Class Eta (R : Type) := eta : R -> R.
Class Setter {R T : Type} (proj : R -> T) := set : (T -> T) -> R -> R.
Arguments set {R T} proj {_} _ _ /.

Ltac solve_setter :=
  match goal with
  | |- @Setter ?R ?T ?proj =>
      let e := constr:(@eta R _) in
      let e := eval hnf in e in
      match eval pattern proj in e with
      | ?f _ => exact (fun (u : T -> T) => f (fun r => u (proj r)))
      end
  end.
#[export] Hint Extern 1 (Setter _) => solve_setter : typeclass_instances.

Notation "r <| f := v |>" := (set f (fun _ => v) r)
  (at level 1, f at level 0, left associativity) : jalki_scope.
Notation "r <| f ::= g |>" := (set f g r)
  (at level 1, f at level 0, left associativity) : jalki_scope.

(* ------------------------------------------------------------------ *)
(** ** Lists *)

(** [iter().map(f).sum()] over the integers. *)
Definition zsum {A} (f : A -> Z) (l : list A) : Z := foldr (fun x acc => f x + acc) 0 l.
#[global] Arguments zsum {A} f l : simpl never.

Definition zlen {A} (l : list A) : Z := Z.of_nat (length l).

(** [vec.iter().position(p)] *)
Fixpoint position {A} (p : A -> bool) (l : list A) : option nat :=
  match l with
  | [] => None
  | x :: rest => if p x then Some 0%nat else S <$> position p rest
  end.

(** [Vec::remove(i)] / [VecDeque::remove(i)] *)
Fixpoint remove_nth {A} (i : nat) (l : list A) : list A :=
  match l, i with
  | [], _ => []
  | _ :: rest, O => rest
  | x :: rest, S i' => x :: remove_nth i' rest
  end.

(** [iter().find(p)] *)
Fixpoint find_first {A} (p : A -> bool) (l : list A) : option A :=
  match l with
  | [] => None
  | x :: rest => if p x then Some x else find_first p rest
  end.

(** [if !v.contains(&x) { v.push(x) }] *)
Definition push_unique {A} `{EqDecision A} (v : list A) (x : A) : list A :=
  if bool_decide (x ∈ v) then v else v ++ [x].

(* ------------------------------------------------------------------ *)
(** ** Tactics and hints *)

Create HintDb jalki.

(** Split boolean tests and options in the goal or the hypotheses. *)
Ltac bool_hyps :=
  repeat match goal with
  | H : andb _ _ = true |- _ => apply andb_true_iff in H as [? ?]
  | H : orb _ _ = false |- _ => apply orb_false_iff in H as [? ?]
  | H : negb _ = true |- _ => apply negb_true_iff in H
  | H : negb _ = false |- _ => apply negb_false_iff in H
  | H : (_ <=? _) = true |- _ => apply Z.leb_le in H
  | H : (_ <=? _) = false |- _ => apply Z.leb_gt in H
  | H : (_ <? _) = true |- _ => apply Z.ltb_lt in H
  | H : (_ <? _) = false |- _ => apply Z.ltb_ge in H
  | H : (_ =? _) = true |- _ => apply Z.eqb_eq in H
  | H : (_ =? _) = false |- _ => apply Z.eqb_neq in H
  end.

(** Unfold the machine-integer operations and decide the linear goal that is left. *)
Ltac word := unfold sat_sub, sat_add64, is_u64, usize_max, u64_max, in_width, zlen, slen in *; lia.

(* ------------------------------------------------------------------ *)
(** ** Lemmas: machine integers *)

Lemma wrap_small w z : 0 <= z < 2 ^ w -> wrap w z = z.
Proof. apply Z.mod_small. Qed.

Lemma add64_small a b : 0 <= a + b <= u64_max -> add64 a b = a + b.
Proof. unfold add64, u64_max; intros; apply wrap_small; lia. Qed.

Lemma wrap_signed_range w z : 0 < w -> - 2 ^ (w - 1) <= wrap_signed w z < 2 ^ (w - 1).
Proof.
  intros Hw. unfold wrap_signed.
  assert (2 ^ w = 2 * 2 ^ (w - 1)) as E by (rewrite <- Z.pow_succ_r by lia; f_equal; lia).
  pose proof (Z.mod_pos_bound (z + 2 ^ (w - 1)) (2 ^ w)). lia.
Qed.

Lemma wrap_signed_small w z : 0 < w -> - 2 ^ (w - 1) <= z < 2 ^ (w - 1) -> wrap_signed w z = z.
Proof.
  intros Hw Hz. unfold wrap_signed.
  assert (2 ^ w = 2 * 2 ^ (w - 1)) as E by (rewrite <- Z.pow_succ_r by lia; f_equal; lia).
  rewrite Z.mod_small by lia. lia.
Qed.

Lemma sat_add64_is_u64 a b : 0 <= a -> 0 <= b -> is_u64 (sat_add64 a b).
Proof. word. Qed.

Lemma sat_sub_exact a b : b <= a -> sat_sub a b = a - b.
Proof. word. Qed.

#[export] Hint Resolve sat_add64_is_u64 : jalki.

(* ------------------------------------------------------------------ *)
(** ** Lemmas: sums and lists *)

Section lists.
Context {A : Type}.
Implicit Types (l : list A) (f : A -> Z) (p : A -> bool).

Lemma zsum_nil f : zsum f [] = 0.
Proof. done. Qed.

Lemma zsum_cons f x l : zsum f (x :: l) = f x + zsum f l.
Proof. done. Qed.

Lemma zsum_app f l k : zsum f (l ++ k) = zsum f l + zsum f k.
Proof. induction l as [|x l IH]; [done|]. rewrite <- app_comm_cons, !zsum_cons, IH. lia. Qed.

Lemma zsum_nonneg f l : (forall x, x ∈ l -> 0 <= f x) -> 0 <= zsum f l.
Proof.
  induction l as [|x l IH]; intros Hf; [rewrite zsum_nil; lia|].
  rewrite zsum_cons. pose proof (Hf x ltac:(set_solver)).
  pose proof (IH ltac:(set_solver)). lia.
Qed.

Lemma zsum_ext f g l : (forall x, x ∈ l -> f x = g x) -> zsum f l = zsum g l.
Proof.
  induction l as [|x l IH]; intros Hfg; [done|].
  rewrite !zsum_cons, (Hfg x), IH by set_solver. done.
Qed.

Lemma zsum_permutation f l k : Permutation l k -> zsum f l = zsum f k.
Proof. induction 1; rewrite ?zsum_cons; lia. Qed.

Lemma zsum_insert (f : A -> Z) l i old new :
  l !! i = Some old -> zsum f (<[i := new]> l) = zsum f l - f old + f new.
Proof.
  revert i. induction l as [|x l IH]; intros [|i] H; cbn in H; try done.
  - injection H as ->. cbn [insert list_insert]. rewrite !zsum_cons. lia.
  - cbn [insert list_insert]. rewrite !zsum_cons, IH by done. lia.
Qed.

Lemma zsum_le (f g : A -> Z) l : (forall x, x ∈ l -> f x <= g x) -> zsum f l <= zsum g l.
Proof.
  induction l as [|x l IH]; intros H; [done|]. rewrite !zsum_cons.
  specialize (H x ltac:(by left)) as Hx. specialize (IH ltac:(intros; apply H; by right)). lia.
Qed.

Lemma zsum_add f g l : zsum (fun x => f x + g x) l = zsum f l + zsum g l.
Proof. induction l as [|x l IH]; [done|]. rewrite !zsum_cons, IH. lia. Qed.

Lemma zlen_nonneg l : 0 <= zlen l.
Proof. unfold zlen; lia. Qed.

Lemma zlen_app l k : zlen (l ++ k) = zlen l + zlen k.
Proof. unfold zlen; rewrite length_app; lia. Qed.

Lemma zlen_cons x l : zlen (x :: l) = 1 + zlen l.
Proof. unfold zlen; cbn; lia. Qed.

Lemma zlen_zsum l : zlen l = zsum (fun _ => 1) l.
Proof. induction l as [|x l IH]; [done|]. rewrite zlen_cons, zsum_cons, IH. done. Qed.

(** What [remove_nth] takes out and leaves. *)
Lemma remove_nth_split i l x :
  l !! i = Some x -> l = take i l ++ x :: drop (S i) l /\ remove_nth i l = take i l ++ drop (S i) l.
Proof.
  revert i; induction l as [|y l IH]; intros [|i] H; try done.
  - cbn in H. injection H as ->. done.
  - cbn in *. destruct (IH i H) as [H1 H2]. split; [by rewrite <- H1|by rewrite H2].
Qed.

Lemma remove_nth_Permutation i l x :
  l !! i = Some x -> Permutation l (x :: remove_nth i l).
Proof.
  intros H. destruct (remove_nth_split i l x H) as [H1 H2].
  rewrite H2. rewrite H1 at 1. by rewrite Permutation_middle.
Qed.

Lemma remove_nth_sublist i l : sublist (remove_nth i l) l.
Proof.
  revert i; induction l as [|y l IH]; intros [|i]; cbn; try constructor; auto.
Qed.

Lemma position_Some p l i :
  position p l = Some i ->
  exists x, l !! i = Some x /\ p x = true /\ forall j y, (j < i)%nat -> l !! j = Some y -> p y = false.
Proof.
  revert i; induction l as [|x l IH]; intros i H; [done|]. cbn in H.
  destruct (p x) eqn:Hx.
  - injection H as <-. exists x. repeat split; auto. lia.
  - destruct (position p l) as [k|] eqn:Hp; [|done]. injection H as <-.
    destruct (IH k eq_refl) as (y & Hy & Py & Hb).
    exists y. repeat split; auto.
    intros [|j] z Hj Hz; [cbn in Hz; congruence|]. apply (Hb j z); [lia|done].
Qed.

Lemma position_None p l : position p l = None <-> forall x, x ∈ l -> p x = false.
Proof.
  induction l as [|x l IH]; cbn.
  { split; [|done]. by intros _ y Hy%elem_of_nil. }
  destruct (p x) eqn:Hx.
  { split; [done|]. intros H. rewrite (H x) in Hx; [done|by left]. }
  destruct (position p l) as [k|] eqn:Hp; cbn.
  - split; [done|]. intros H. assert (Some k = None) as Hk; [|done].
    apply IH. intros y Hy. apply H. by right.
  - split; [|done]. intros _ y [->|Hy]%elem_of_cons; [done|]. by apply IH.
Qed.

Lemma find_first_Some p l x : find_first p l = Some x -> x ∈ l /\ p x = true.
Proof.
  induction l as [|y l IH]; cbn; [done|]. destruct (p y) eqn:Hy.
  - intros [= ->]. split; [by left|done].
  - intros [??]%IH. split; [by right|done].
Qed.

Lemma find_first_None p l : find_first p l = None -> forall x, x ∈ l -> p x = false.
Proof.
  induction l as [|y l IH]; cbn; [by intros _ x Hx%elem_of_nil|]. destruct (p y) eqn:Hy; [done|].
  intros H x [->|Hx]%elem_of_cons; [done|]. by apply IH.
Qed.

Lemma omap_list_cons {B} (g : A -> option B) x l :
  omap g (x :: l) = match g x with Some y => y :: omap g l | None => omap g l end.
Proof. done. Qed.

Lemma push_unique_elem `{EqDecision A} (v : list A) x y :
  y ∈ push_unique v x <-> y ∈ v \/ y = x.
Proof. unfold push_unique. case_bool_decide; set_solver. Qed.

Lemma push_unique_NoDup `{EqDecision A} (v : list A) x :
  NoDup v -> NoDup (push_unique v x).
Proof.
  unfold push_unique. case_bool_decide; [done|]. intros Hv.
  apply NoDup_app. repeat split; [done|set_solver|apply NoDup_singleton].
Qed.
End lists.

#[export] Hint Rewrite @zsum_nil @zsum_cons @zsum_app @zlen_app @zlen_cons : jalki.
#[export] Hint Resolve zlen_nonneg push_unique_NoDup : jalki.

(** Counting one more under a key adds one to the total of a map of counts. *)
Lemma map_total_step `{Countable K} (k : K) (m : gmap K Z) :
  zsum snd (map_to_list (<[k := default 0 (m !! k) + 1]> m)) = zsum snd (map_to_list m) + 1.
Proof.
  destruct (m !! k) as [n|] eqn:E; cbn [default from_option id].
  - rewrite <- insert_delete_eq, (zsum_permutation _ _ _ (map_to_list_insert _ _ _ (lookup_delete_eq m k))).
    rewrite <- (zsum_permutation _ _ _ (map_to_list_delete m k n E)), !zsum_cons. cbn. lia.
  - rewrite (zsum_permutation _ _ _ (map_to_list_insert _ _ _ E)), zsum_cons. cbn. lia.
Qed.

(* ------------------------------------------------------------------ *)
(** ** Lemmas: results *)

Lemma result_bind_ok {E A B} (m : result E A) (k : A -> result E B) b :
  result_bind m k = Ok b <-> exists a, m = Ok a /\ k a = Ok b.
Proof.
  destruct m as [a|e]; cbn; split; [eauto|by intros (? & [= ->] & ?)|done|by intros (? & ? & ?)].
Qed.

(* ------------------------------------------------------------------ *)
(** ** Lemmas: bytes *)

Lemma bZ_range b : 0 <= bZ b < 256.
Proof. unfold bZ. pose proof (Byte.to_N_bounded b). lia. Qed.

Lemma bZ_byte_of_Z z : bZ (byte_of_Z z) = z mod 256.
Proof.
  unfold byte_of_Z, bZ. pose proof (Z.mod_pos_bound z 256 ltac:(lia)) as Hb.
  destruct (Byte.of_N (Z.to_N (z mod 256))) as [b|] eqn:E.
  - apply Byte.to_of_N in E. rewrite E. lia.
  - apply Byte.of_N_None_iff in E. lia.
Qed.

Lemma byte_of_Z_bZ b : byte_of_Z (bZ b) = b.
Proof.
  unfold byte_of_Z. rewrite Z.mod_small by apply bZ_range.
  unfold bZ. rewrite N2Z.id, Byte.of_to_N. done.
Qed.

Lemma le_put_length n z : length (le_put n z) = n.
Proof. revert z; induction n; intros; cbn; auto. Qed.

Lemma le_get_put n z : le_get (le_put n z) = z mod 256 ^ Z.of_nat n.
Proof.
  revert z; induction n as [|n IH]; intros z; [cbn; by rewrite Z.mod_1_r|].
  cbn [le_put le_get]. rewrite IH, bZ_byte_of_Z, Nat2Z.inj_succ, Z.pow_succ_r by lia.
  rewrite Z.rem_mul_r by lia. done.
Qed.

Lemma le_get_range bs : 0 <= le_get bs < 256 ^ zlen bs.
Proof.
  induction bs as [|b bs IH]; [done|]. rewrite zlen_cons. cbn [le_get].
  pose proof (bZ_range b). rewrite Z.pow_add_r by (unfold zlen; lia). lia.
Qed.

Lemma le_put_get bs : le_put (length bs) (le_get bs) = bs.
Proof.
  induction bs as [|b bs IH]; [done|]. cbn [length le_put le_get].
  pose proof (bZ_range b) as Hb. f_equal.
  - rewrite <- (byte_of_Z_bZ b) at 2. unfold byte_of_Z.
    by rewrite Z.mul_comm, Z_mod_plus_full.
  - replace ((bZ b + 256 * le_get bs) / 256) with (le_get bs); [done|].
    apply Z.div_unique_pos with (bZ b); lia.
Qed.

Lemma be_get_put n z : be_get (be_put n z) = z mod 256 ^ Z.of_nat n.
Proof. unfold be_get, be_put. by rewrite rev_involutive, le_get_put. Qed.

Lemma be_put_length n z : length (be_put n z) = n.
Proof. unfold be_put. by rewrite length_rev, le_put_length. Qed.

#[export] Hint Rewrite le_put_length be_put_length : jalki.

(* ------------------------------------------------------------------ *)
(** ** Lemmas: decimal text *)

Lemma digit_val_char r :
  (r < 10)%N -> digit_val (pretty_N_char r) = Some (Z.of_N r) /\ pretty_N_char r <> "+"%char.
Proof.
  intros Hr. assert (r ∈ [0;1;2;3;4;5;6;7;8;9]%N) as Hin.
  { destruct (decide (r = 0 \/ r = 1 \/ r = 2 \/ r = 3 \/ r = 4)%N); [set_solver|].
    assert (r = 5 \/ r = 6 \/ r = 7 \/ r = 8 \/ r = 9)%N by lia. set_solver. }
  repeat (apply elem_of_cons in Hin as [->|Hin]; [done|]). by apply elem_of_nil in Hin.
Qed.

Lemma pretty_N_go_spec (n : N) (s : string) :
  (0 < n)%N ->
  parse_digits (pretty_N_go n s) 0 = parse_digits s (Z.of_N n) /\
  exists c rest, pretty_N_go n s = String c rest /\ c <> "+"%char.
Proof.
  revert s. induction (N.lt_wf_0 n) as [n _ IH]. intros s Hn.
  rewrite pretty_N_go_step by done.
  pose proof (N.mod_lt n 10 ltac:(lia)) as Hr. destruct (digit_val_char _ Hr) as [Hd Hc].
  pose proof (N.div_mod n 10 ltac:(lia)) as Hdm.
  assert (parse_digits (String (pretty_N_char (n `mod` 10)) s) (Z.of_N (n `div` 10)) =
          parse_digits s (Z.of_N n)) as Hone.
  { cbn [parse_digits]. rewrite Hd. f_equal. lia. }
  destruct (decide (n `div` 10 = 0)%N) as [H0|H0].
  - rewrite H0 in *. rewrite pretty_N_go_0. split; [exact Hone|eauto].
  - destruct (IH (n `div` 10)%N ltac:(apply N.div_lt; lia)
                (String (pretty_N_char (n `mod` 10)) s) ltac:(lia)) as [H1 H2].
    split; [by rewrite H1, Hone|done].
Qed.

Lemma dec_of_N (z : Z) :
  0 < z -> dec z = pretty_N_go (Z.to_N z) "".
Proof. destruct z as [|p|p]; [lia|done|lia]. Qed.

(** Printing an integer and parsing it back is the identity, as far as it fits. *)
Lemma parse_uint_dec w z : 0 <= z < 2 ^ w -> parse_uint w (dec z) = Some z.
Proof.
  intros Hz. destruct (decide (z = 0)) as [->|Hne].
  { change (parse_uint w (dec 0)) with (if 0 <? 2 ^ w then Some 0 else None).
    by rewrite (proj2 (Z.ltb_lt 0 (2 ^ w))) by lia. }
  rewrite dec_of_N by lia.
  destruct (pretty_N_go_spec (Z.to_N z) "" ltac:(lia)) as (Hp & c & rest & Hs & Hc).
  unfold parse_uint. rewrite Hs in *. rewrite decide_False by done. rewrite Hp. cbn -[Z.ltb Z.pow].
  rewrite Z2N.id by lia. by rewrite (proj2 (Z.ltb_lt z (2 ^ w))) by lia.
Qed.

Lemma pretty_N_go_length (k : nat) (n : N) (s : string) :
  (n < 10 ^ N.of_nat k)%N -> (String.length (pretty_N_go n s) <= k + String.length s)%nat.
Proof.
  revert n s. induction k as [|k IH]; intros n s Hn.
  - change (10 ^ N.of_nat 0)%N with 1%N in Hn. assert (n = 0%N) as -> by lia. by rewrite pretty_N_go_0.
  - destruct (decide (n = 0%N)) as [->|Hne]; [rewrite pretty_N_go_0; lia|].
    rewrite pretty_N_go_step by lia.
    rewrite Nat2N.inj_succ, N.pow_succ_r' in Hn.
    specialize (IH (n `div` 10)%N (String (pretty_N_char (n `mod` 10)) s)).
    cbn [String.length] in IH.
    pose proof (N.Div0.div_lt_upper_bound n 10 (10 ^ N.of_nat k) ltac:(lia)). lia.
Qed.

Lemma dec_length z : is_u64 z -> slen (dec z) <= 20.
Proof.
  intros Hz. unfold slen. destruct (decide (z = 0)) as [->|Hne]; [by vm_compute|].
  rewrite dec_of_N by word.
  pose proof (pretty_N_go_length 20 (Z.to_N z) "") as H. cbn [String.length] in H.
  change (10 ^ N.of_nat 20)%N with 100000000000000000000%N in H. word.
Qed.

Lemma slen_app s t : slen (s +:+ t) = slen s + slen t.
Proof.
  unfold slen. induction s as [|c s IH]; [done|].
  change (String.length (String c s +:+ t)) with (S (String.length (s +:+ t))).
  change (String.length (String c s)) with (S (String.length s)). lia.
Qed.

Lemma slen_nonneg s : 0 <= slen s.
Proof. unfold slen; lia. Qed.

#[export] Hint Rewrite slen_app : jalki.
#[export] Hint Resolve slen_nonneg dec_length : jalki.

Lemma strip_prefix_app p s : strip_prefix p (p +:+ s) = Some s.
Proof.
  induction p as [|c p IH]; [done|].
  change (strip_prefix (String c p) (String c p +:+ s))
    with (if decide (c = c) then strip_prefix p (p +:+ s) else None).
  by rewrite decide_True.
Qed.

Lemma strip_prefix_Some p s r : strip_prefix p s = Some r <-> s = p +:+ r.
Proof.
  split; [|intros ->; apply strip_prefix_app].
  revert s; induction p as [|c p IH]; intros s H; [by injection H as ->|].
  destruct s as [|d s]; [done|]. cbn [strip_prefix] in H.
  destruct (decide (c = d)) as [->|]; [|done]. by rewrite (IH s H).
Qed.

Lemma starts_with_spec s p : starts_with s p = true <-> exists r, s = p +:+ r.
Proof.
  unfold starts_with. rewrite bool_decide_eq_true. unfold is_Some.
  split; intros [r H]; exists r; by apply strip_prefix_Some.
Qed.

(** The characters of a string. *)
Definition chars (s : string) : list ascii := String.list_ascii_of_string s.

Lemma chars_app s t : chars (s +:+ t) = chars s ++ chars t.
Proof. unfold chars. induction s as [|c s IH]; [done|]. exact (f_equal (cons c) IH). Qed.

(** Two strings that agree up to a separator neither contains. *)
Lemma sep_inj c a a' r r' :
  c ∉ chars a -> c ∉ chars a' -> a +:+ String c r = a' +:+ String c r' -> a = a' /\ r = r'.
Proof.
  revert a'. induction a as [|d a IH]; intros [|d' a'] Ha Ha' E; cbn in *.
  - by injection E as ->.
  - injection E as <- _. set_solver.
  - injection E as -> _. set_solver.
  - injection E as -> E. apply not_elem_of_cons in Ha as [_ Ha], Ha' as [_ Ha']. by destruct (IH a' Ha Ha' E) as [-> ->].
Qed.

(* ------------------------------------------------------------------ *)
(** ** Lemmas: the bytes of a string *)

Lemma bytes_of_length s : length (bytes_of s) = String.length s.
Proof.
  unfold bytes_of, String.list_byte_of_string. rewrite length_map.
  induction s as [|c s IH]; cbn; auto.
Qed.

Lemma string_of_bytes_of s : string_of (bytes_of s) = s.
Proof. apply String.string_of_list_byte_of_string. Qed.

Lemma bytes_of_inj s t : bytes_of s = bytes_of t -> s = t.
Proof. intros H. by rewrite <- (string_of_bytes_of s), H, string_of_bytes_of. Qed.

Lemma bytes_of_cons c s : bytes_of (String c s) = byte_of_ascii c :: bytes_of s.
Proof. done. Qed.

Lemma bytes_of_app s t : bytes_of (s +:+ t) = bytes_of s ++ bytes_of t.
Proof.
  induction s as [|c s IH]; [done|]. change (String c s +:+ t) with (String c (s +:+ t)).
  by rewrite !bytes_of_cons, IH.
Qed.

Lemma bytes_of_string_of bs : bytes_of (string_of bs) = bs.
Proof.
  unfold bytes_of, string_of, String.list_byte_of_string, String.string_of_list_byte.
  rewrite String.list_ascii_of_string_of_list_ascii, map_map. rewrite <- (map_id bs) at 2. apply map_ext.
  intros b. apply Ascii.byte_of_ascii_of_byte.
Qed.

Lemma string_of_app a b : string_of (a ++ b) = string_of a +:+ string_of b.
Proof. apply bytes_of_inj. by rewrite bytes_of_app, !bytes_of_string_of. Qed.

(** Bytes that begin as a string's do. *)
Lemma bytes_of_prefix s t v : bytes_of t = bytes_of s ++ v -> exists r, t = s +:+ r.
Proof.
  revert t. induction s as [|c s IH]; intros t H; [by exists t|].
  destruct t as [|d t]; [done|]. rewrite !bytes_of_cons in H. cbn in H. injection H as Hc Ht.
  apply (f_equal ascii_of_byte) in Hc. rewrite !ascii_of_byte_of_ascii in Hc. subst d.
  destruct (IH _ Ht) as [r ->]. by exists r.
Qed.
