(* ===== verification/Text.v ===== *)
(** The string functions of Rust's standard library the components share: case, search, splitting,
    replacing, hexadecimal. A string is its bytes. *)
From Stdlib Require Import Strings.Byte Strings.Ascii.
From S2P Require Import Prelude.

(* ------------------------------------------------------------------ *)
(** ** Hexadecimal and case *)

Definition HEX : string := "0123456789abcdef".
Definition hex_digit (n : Z) : string := String.substring (Z.to_nat n) 1 HEX.

Definition join (sep : string) (parts : list string) : string := String.concat sep parts.

(** [{:x}] of a 16-bit number. *)
Definition hex16 (z : Z) : string :=
  if z <? 16 then hex_digit z
  else if z <? 256 then hex_digit (z / 16) +:+ hex_digit (z mod 16)
  else if z <? 4096 then hex_digit (z / 256) +:+ hex_digit (z / 16 mod 16) +:+ hex_digit (z mod 16)
  else hex_digit (z / 4096) +:+ hex_digit (z / 256 mod 16) +:+ hex_digit (z / 16 mod 16) +:+ hex_digit (z mod 16).

Definition is_ascii_hexdigit (b : byte) : bool :=
  in_byte 48 57 b || in_byte 65 70 b || in_byte 97 102 b.

(** [u8::to_ascii_lowercase] *)
Definition ascii_lower_byte (b : byte) : byte :=
  if in_byte 65 90 b then byte_of_Z (bZ b + 32) else b.

Definition to_ascii_lowercase (s : string) : string :=
  string_of (map ascii_lower_byte (bytes_of s)).

Definition ascii_upper_byte (b : byte) : byte :=
  if in_byte 97 122 b then byte_of_Z (bZ b - 32) else b.

(** [str::to_uppercase] of an ASCII string. *)
Definition to_ascii_uppercase (s : string) : string :=
  string_of (map ascii_upper_byte (bytes_of s)).

(* ------------------------------------------------------------------ *)
(** ** Searching and splitting *)

(** [str::contains] *)
Fixpoint contains (s p : string) : bool :=
  starts_with s p || match s with EmptyString => false | String _ rest => contains rest p end.

(** [str::split] at a character *)
Fixpoint split_char (sep : ascii) (s : string) : list string :=
  match s with
  | EmptyString => [""]
  | String c rest =>
      if decide (c = sep) then "" :: split_char sep rest
      else match split_char sep rest with
           | part :: parts => String c part :: parts
           | [] => [String c ""]
           end
  end.

(** [str::split_once] *)
Fixpoint split_once (sep s : string) : option (string * string) :=
  match strip_prefix sep s, s with
  | Some rest, _ => Some ("", rest)
  | None, EmptyString => None
  | None, String c rest => '(before, after) ← split_once sep rest; Some (String c before, after)
  end.

(** [str::rsplit_once] at a character *)
Definition rsplit_once (sep : ascii) (s : string) : option (string * string) :=
  '(after, before) ← split_once (String sep "") (string_rev s); Some (string_rev before, string_rev after).

(** [str::strip_suffix] *)
Definition strip_suffix (p s : string) : option string :=
  string_rev <$> strip_prefix (string_rev p) (string_rev s).

(** [str::replace], for a pattern that is not empty; every turn takes a character. *)
Fixpoint replace_fuel (fuel : nat) (from to s : string) : string :=
  match fuel, s with
  | O, _ | _, EmptyString => s
  | S fuel', String c rest =>
      match strip_prefix from s with
      | Some after => to +:+ replace_fuel fuel' from to after
      | None => String c (replace_fuel fuel' from to rest)
      end
  end.
Definition replace (from to s : string) : string := replace_fuel (String.length s) from to s.

(** [str::lines] *)
Definition NL : ascii := "010"%char.
Definition CR : ascii := "013"%char.
Definition lines (s : string) : list string :=
  let parts := split_char NL s in
  let parts := if bool_decide (last parts = Some "") then removelast parts else parts in
  map (fun line => default line (strip_suffix (String CR "") line)) parts.

(** The bytes [String::from_utf8_lossy] gives up on at a malformed sequence: as much of it as
    starts some code point, one byte at least. *)
Definition utf8_bad (bs : list byte) : nat :=
  match bs with
  | b0 :: b1 :: r =>
      let three := if in_byte 224 224 b0 then in_byte 160 191 b1
                   else if in_byte 237 237 b0 then in_byte 128 159 b1
                   else in_byte 225 239 b0 && cont_byte b1 in
      let four := if in_byte 240 240 b0 then in_byte 144 191 b1
                  else if in_byte 244 244 b0 then in_byte 128 143 b1
                  else in_byte 241 243 b0 && cont_byte b1 in
      if three then 2%nat
      else if four then (match r with b2 :: _ => if cont_byte b2 then 3%nat else 2%nat | [] => 2%nat end)
      else 1%nat
  | _ => 1%nat
  end.

(** [String::from_utf8_lossy]: U+FFFD for each malformed part. *)
Fixpoint lossy_fuel (fuel : nat) (bs : list byte) : list byte :=
  match fuel, bs with
  | O, _ | _, [] => []
  | S fuel', _ =>
      match utf8_step bs with
      | Some n => take n bs ++ lossy_fuel fuel' (drop n bs)
      | None => [xef; xbf; xbd] ++ lossy_fuel fuel' (drop (utf8_bad bs) bs)
      end
  end.
Definition from_utf8_lossy (bs : list byte) : string := string_of (lossy_fuel (length bs) bs).

Example text_examples :
  split_char ":" "a:b::c" = ["a"; "b"; ""; "c"] /\ split_once "://" "cri-o://x://y" = Some ("cri-o", "x://y") /\
  rsplit_once ":" "8:cpu:/x" = Some ("8:cpu", "/x") /\ replace "_SKB" "" "TCP_RETRANSMIT_SKB" = "TCP_RETRANSMIT" /\
  lines (String "a" (String NL (String "b" (String NL "")))) = ["a"; "b"] /\ contains "abc" "bc" = true.
Proof. by vm_compute. Qed.

(* ------------------------------------------------------------------ *)
(** ** Lemmas *)

Lemma split_char_nonempty sep s : split_char sep s <> [].
Proof. destruct s as [|c s]; cbn; [done|]. destruct (decide (c = sep)); [done|]. by destruct (split_char sep s). Qed.

Lemma split_char_app sep a b : split_char sep (a +:+ String sep b) = split_char sep a ++ split_char sep b.
Proof.
  induction a as [|c a IH]; [change ("" +:+ String sep b) with (String sep b); cbn; by rewrite decide_True|].
  change (String c a +:+ String sep b) with (String c (a +:+ String sep b)). cbn. destruct (decide (c = sep)); [by rewrite IH|].
  rewrite IH. destruct (split_char sep a) as [|p ps] eqn:E; [|done]. destruct a as [|c' a]; cbn in E; [done|].
  destruct (decide (c' = sep)); [done|]. by destruct (split_char sep a).
Qed.

Lemma split_char_none sep s : sep ∉ chars s -> split_char sep s = [s].
Proof.
  induction s as [|c s IH]; intros Hn; [done|]. cbn in *. apply not_elem_of_cons in Hn as [Hc Hn].
  rewrite decide_False by congruence. by rewrite IH.
Qed.

(** The first line of a text that has a line break. *)
Lemma lines_head l m : NL ∉ chars l -> head (lines (l +:+ String NL m)) = Some (default l (strip_suffix (String CR "") l)).
Proof.
  intros Hl. unfold lines. rewrite split_char_app, split_char_none by done. cbn [app].
  destruct (split_char NL m) as [|x xs] eqn:E; [by apply split_char_nonempty in E|]. by case_bool_decide.
Qed.
