(* ===== verification/Float.v ===== *)
(** IEEE-754 binary64 numbers, as the drain pacer, the memory-pressure ratio and the sampling
    rate use them.

    Arithmetic is the Standard Library's [SpecFloat] at precision 53 and exponent bound 1024
    (round to nearest, ties to even), so it computes. Comparison is on exact values: two finite
    numbers are brought to a common exponent and compared as integers. [max], [min], [clamp],
    [ceil], [round] and the saturating [as u64] cast follow the Rust reference. *)
From S2P Require Import Prelude.
From Stdlib Require Export Floats.SpecFloat.

(** [f64] *)
Abbreviation f64 := spec_float.

Definition prec : Z := 53.
Definition emax : Z := 1024.

Definition f_add : f64 -> f64 -> f64 := SFadd prec emax.
Definition f_sub : f64 -> f64 -> f64 := SFsub prec emax.
Definition f_mul : f64 -> f64 -> f64 := SFmul prec emax.
Definition f_div : f64 -> f64 -> f64 := SFdiv prec emax.

(** [z as f64] *)
Definition f_of_Z (z : Z) : f64 := binary_normalize prec emax z 0 false.

(** The double nearest to the decimal literal [n / d]. *)
Definition f_lit (n d : Z) : f64 := f_div (f_of_Z n) (f_of_Z d).

Definition f_zero : f64 := f_of_Z 0.
Definition f_one : f64 := f_of_Z 1.
(** [f64::MIN_POSITIVE], 2^-1022 *)
Definition f_min_positive : f64 := S754_finite false (2 ^ 52) (-1074).

Definition f_is_nan (x : f64) : bool :=
  match x with S754_nan => true | _ => false end.
Definition f_is_inf (x : f64) : bool :=
  match x with S754_infinity _ => true | _ => false end.

(** A finite value as [z * 2^e]. *)
Definition f_dyadic (x : f64) : option (Z * Z) :=
  match x with
  | S754_zero _ => Some (0, 0)
  | S754_finite s m e => Some (if s then Z.neg m else Z.pos m, e)
  | _ => None
  end.

Definition dyadic_compare (a b : Z * Z) : comparison :=
  let e := Z.min a.2 b.2 in
  (a.1 * 2 ^ (a.2 - e) ?= b.1 * 2 ^ (b.2 - e)).

(** [partial_cmp]: [None] when either side is a NaN. *)
Definition f_compare (x y : f64) : option comparison :=
  match x, y with
  | S754_nan, _ | _, S754_nan => None
  | S754_infinity false, S754_infinity false => Some Eq
  | S754_infinity true, S754_infinity true => Some Eq
  | S754_infinity s, _ => Some (if s then Lt else Gt)
  | _, S754_infinity s => Some (if s then Gt else Lt)
  | _, _ =>
      match f_dyadic x, f_dyadic y with
      | Some a, Some b => Some (dyadic_compare a b)
      | _, _ => None
      end
  end.

Definition f_lt (x y : f64) : bool :=
  match f_compare x y with Some Lt => true | _ => false end.
Definition f_gt (x y : f64) : bool := f_lt y x.
Definition f_le (x y : f64) : bool :=
  match f_compare x y with Some Lt | Some Eq => true | _ => false end.
Definition f_ge (x y : f64) : bool := f_le y x.

(** [f64::max] and [f64::min]: a NaN argument is ignored. *)
Definition f_max (x y : f64) : f64 :=
  if f_is_nan x then y else if f_is_nan y then x else if f_lt x y then y else x.
Definition f_min (x y : f64) : f64 :=
  if f_is_nan x then y else if f_is_nan y then x else if f_lt y x then y else x.

(** [f64::clamp]: a NaN stays a NaN. *)
Definition f_clamp (x lo hi : f64) : f64 :=
  let x := if f_lt x lo then lo else x in
  if f_gt x hi then hi else x.

(** The integer part, rounded towards zero, of a finite value. *)
Definition f_trunc (x : f64) : Z :=
  match f_dyadic x with
  | Some (z, e) => if 0 <=? e then z * 2 ^ e else Z.quot z (2 ^ (- e))
  | None => 0
  end.

(** [f64::ceil] *)
Definition f_ceil (x : f64) : f64 :=
  match x with
  | S754_finite s m e =>
      if 0 <=? e then x else
        let z := if s then Z.neg m else Z.pos m in
        binary_normalize prec emax (- ((- z) / 2 ^ (- e))) 0 s
  | _ => x
  end.

(** [f64::round]: half away from zero. *)
Definition f_round (x : f64) : f64 :=
  match x with
  | S754_finite s m e =>
      if 0 <=? e then x else
        let q := (2 * Z.pos m + 2 ^ (- e)) / (2 * 2 ^ (- e)) in
        binary_normalize prec emax (if s then - q else q) 0 s
  | _ => x
  end.

(** [x as u64]: NaN is 0, out-of-range values saturate. *)
Definition f_to_u64 (x : f64) : Z :=
  match x with
  | S754_nan => 0
  | S754_infinity s => if s then 0 else u64_max
  | _ => Z.max 0 (Z.min (f_trunc x) u64_max)
  end.

Example f_lit_half : f_lit 1 2 = S754_finite false 4503599627370496 (-53).
Proof. reflexivity. Qed.
Example f_lit_small : f_to_u64 (f_ceil (f_mul (f_lit 2 1000) (f_of_Z 1000001))) = 2001.
Proof. reflexivity. Qed.

(* ------------------------------------------------------------------ *)
(** ** Lemmas *)

Lemma f_compare_nan_l y : f_compare S754_nan y = None.
Proof. done. Qed.

Lemma f_compare_total x y :
  f_is_nan x = false -> f_is_nan y = false -> is_Some (f_compare x y).
Proof. destruct x as [|[]| |], y as [|[]| |]; cbn; eauto; done. Qed.

Lemma dyadic_compare_antisym a b : dyadic_compare a b = CompOpp (dyadic_compare b a).
Proof. unfold dyadic_compare. rewrite Z.compare_antisym, (Z.min_comm b.2). done. Qed.

Lemma f_compare_antisym x y : f_compare y x = CompOpp <$> f_compare x y.
Proof.
  destruct x as [|[]| |sx mx ex], y as [|[]| |sy my ey]; try done;
    cbn -[dyadic_compare]; f_equal; apply dyadic_compare_antisym.
Qed.

(** Either [x < y] or [y <= x], unless one is a NaN. *)
Lemma f_lt_or_ge x y :
  f_is_nan x = false -> f_is_nan y = false -> f_lt x y = negb (f_ge x y).
Proof.
  intros Hx Hy. unfold f_lt, f_ge, f_le. rewrite (f_compare_antisym x y).
  destruct (f_compare_total x y Hx Hy) as [[] ->]; done.
Qed.

Lemma f_le_refl x : f_is_nan x = false -> f_le x x = true.
Proof.
  intros Hx. unfold f_le. destruct (f_compare_total x x Hx Hx) as [c Hc]. rewrite Hc.
  pose proof (f_compare_antisym x x) as Ha. rewrite Hc in Ha. cbn in Ha.
  destruct c; [done..|discriminate].
Qed.

Lemma f_max_not_nan x y : f_is_nan y = false -> f_is_nan (f_max x y) = false.
Proof. intros Hy. unfold f_max. destruct (f_is_nan x) eqn:Hx; [done|]. rewrite Hy. by destruct (f_lt x y). Qed.

Lemma f_min_not_nan x y : f_is_nan y = false -> f_is_nan (f_min x y) = false.
Proof. intros Hy. unfold f_min. destruct (f_is_nan x) eqn:Hx; [done|]. rewrite Hy. by destruct (f_lt y x). Qed.

Lemma f_max_ge x y : f_is_nan y = false -> f_ge (f_max x y) y = true.
Proof.
  intros Hy. unfold f_max. destruct (f_is_nan x) eqn:Hx; [by apply f_le_refl|]. rewrite Hy.
  destruct (f_lt x y) eqn:E; [by apply f_le_refl|].
  rewrite (f_lt_or_ge x y Hx Hy) in E. by apply negb_false_iff in E.
Qed.

Lemma f_min_le x y : f_is_nan y = false -> f_le (f_min x y) y = true.
Proof.
  intros Hy. unfold f_min. destruct (f_is_nan x) eqn:Hx; [by apply f_le_refl|]. rewrite Hy.
  destruct (f_lt y x) eqn:E; [by apply f_le_refl|].
  rewrite (f_lt_or_ge y x Hy Hx) in E. by apply negb_false_iff in E.
Qed.

(** Rounding a non-negative mantissa never makes a NaN. *)
Lemma shr_1_nonneg r : 0 <= shr_m r -> 0 <= shr_m (shr_1 r).
Proof. destruct r as [[|[m|m|]|m] b s]; cbn; lia. Qed.

Lemma shr_nonneg r e n : 0 <= shr_m r -> 0 <= shr_m (shr r e n).1.
Proof.
  intros Hr. destruct n as [|p|p]; cbn [shr fst]; try done.
  change (iter_pos shr_1 p r) with (iter_pos shr_1 p r). revert r Hr.
  induction p as [p IH|p IH|]; intros r Hr; cbn [iter_pos]; auto using shr_1_nonneg.
Qed.

Lemma shr_fexp_nonneg m e l : 0 <= m -> 0 <= shr_m (shr_fexp prec emax m e l).1.
Proof. intros Hm. apply shr_nonneg. destruct l as [|[]]; done. Qed.

Lemma round_nearest_even_nonneg m l : 0 <= m -> 0 <= round_nearest_even m l.
Proof. intros. destruct l as [|[]]; cbn; try destruct (Z.even m); lia. Qed.

Lemma binary_round_aux_not_nan s m e l :
  0 <= m -> f_is_nan (binary_round_aux prec emax s m e l) = false.
Proof.
  intros Hm. unfold binary_round_aux.
  pose proof (shr_fexp_nonneg m e l Hm) as H1.
  destruct (shr_fexp prec emax m e l) as [r1 e1]. cbn [fst] in H1.
  pose proof (shr_fexp_nonneg _ e1 loc_Exact
    (round_nearest_even_nonneg _ (loc_of_shr_record r1) H1)) as H2.
  destruct (shr_fexp prec emax (round_nearest_even _ _) e1 loc_Exact) as [r2 e2]. cbn [fst] in H2.
  destruct (shr_m r2); [done| |lia]. by destruct (Z.leb _ _).
Qed.

Lemma binary_normalize_not_nan z e s : f_is_nan (binary_normalize prec emax z e s) = false.
Proof.
  destruct z as [|p|p]; [done|..]; cbn; unfold binary_round;
    destruct (shl_align _ _ _) as [mz ez]; apply binary_round_aux_not_nan; lia.
Qed.

Lemma f_of_Z_not_nan z : f_is_nan (f_of_Z z) = false.
Proof. apply binary_normalize_not_nan. Qed.

Lemma f_ceil_not_nan x : f_is_nan x = false -> f_is_nan (f_ceil x) = false.
Proof.
  intros Hx. destruct x as [| | |sx m e]; try done. cbn -[binary_normalize].
  destruct (0 <=? e); [done|]. apply binary_normalize_not_nan.
Qed.

Lemma SFdiv_core_nonneg m1 e1 m2 e2 :
  0 <= m1 -> 0 < m2 -> 0 <= (SFdiv_core_binary prec emax m1 e1 m2 e2).1.1.
Proof.
  intros H1 H2. unfold SFdiv_core_binary.
  set (m := match _ with Z0 => m1 | Zpos _ => _ | Zneg _ => 0 end).
  assert (0 <= m) as Hm.
  { subst m. destruct (e1 - e2 - _); [done| |done]. by apply Z.shiftl_nonneg. }
  clearbody m. pose proof (Z_div_mod m m2 ltac:(lia)) as Hq.
  destruct (Z.div_eucl m m2) as [q r]. cbn [fst]. nia.
Qed.

(** The factors of a product are exact integers, so a product is a NaN only for a NaN operand
    and for zero times infinity. *)
Lemma f_mul_not_nan x y :
  f_is_nan x = false -> f_is_nan y = false -> f_is_inf x = false -> f_is_inf y = false ->
  f_is_nan (f_mul x y) = false.
Proof.
  destruct x as [| | |sx mx ex], y as [| | |sy my ey]; try done. intros _ _ _ _.
  apply binary_round_aux_not_nan. lia.
Qed.

Lemma f_sub_not_nan x y :
  f_is_nan x = false -> f_is_nan y = false -> f_is_inf x = false \/ f_is_inf y = false ->
  f_is_nan (f_sub x y) = false.
Proof.
  intros Hx Hy Hi.
  destruct x as [sx|sx| |sx mx ex], y as [sy|sy| |sy my ey]; try done;
    [by destruct sx, sy|by destruct sx, sy; destruct Hi|].
  apply binary_normalize_not_nan.
Qed.

(** A quotient by a finite non-zero number is a NaN only when the dividend is. *)
Lemma f_div_not_nan x y :
  f_is_nan x = false -> f_is_nan y = false -> f_is_inf y = false -> f_lt f_zero y = true ->
  f_is_nan (f_div x y) = false.
Proof.
  intros Hx Hy Hi Hz.
  destruct x as [|[]| |sx mx ex], y as [|[]| |sy my ey]; try done.
  unfold f_div, SFdiv.
  pose proof (SFdiv_core_nonneg (Zpos mx) ex (Zpos my) ey ltac:(lia) ltac:(lia)) as Hq.
  destruct (SFdiv_core_binary _ _ _ _ _ _) as [[q e] l]. by apply binary_round_aux_not_nan.
Qed.

(** What survives a [clamp] between two bounds. *)
Lemma f_clamp_bounds x lo hi :
  f_is_nan x = false -> f_is_nan lo = false -> f_is_nan hi = false -> f_le lo hi = true ->
  f_ge (f_clamp x lo hi) lo = true /\ f_le (f_clamp x lo hi) hi = true.
Proof.
  intros Hx Hl Hh Hlh. unfold f_clamp, f_gt.
  destruct (f_lt x lo) eqn:E1.
  - assert (f_lt hi lo = false) as ->.
    { rewrite f_lt_or_ge by done. unfold f_ge. by rewrite Hlh. }
    split; [by apply f_le_refl|done].
  - rewrite f_lt_or_ge in E1 by done. apply negb_false_iff in E1.
    destruct (f_lt hi x) eqn:E2.
    + split; [done|by apply f_le_refl].
    + rewrite f_lt_or_ge in E2 by done. apply negb_false_iff in E2. done.
Qed.

(** Comparison of a finite number with an integer [k], on exact values. *)
Lemma f_trunc_between x z e k1 k2 :
  0 <= k1 -> f_dyadic x = Some (z, e) ->
  dyadic_compare (k1, 0) (z, e) <> Gt -> dyadic_compare (z, e) (k2, 0) <> Gt ->
  k1 <= f_trunc x <= k2.
Proof.
  intros Hk Hd. unfold f_trunc. rewrite Hd. unfold dyadic_compare. cbn [fst snd].
  destruct (0 <=? e) eqn:He; bool_hyps.
  - rewrite Z.min_l, (Z.min_r e 0) by lia. rewrite !Z.sub_0_r, Z.pow_0_r, !Z.mul_1_r.
    rewrite !Z.compare_le_iff. lia.
  - rewrite Z.min_r, (Z.min_l e 0) by lia. rewrite Z.sub_diag, Z.pow_0_r, !Z.mul_1_r, Z.sub_0_l.
    rewrite !Z.compare_le_iff. pose proof (Z.pow_pos_nonneg 2 (- e) ltac:(lia) ltac:(lia)).
    intros H1 H2. rewrite Z.quot_div_nonneg by nia. split.
    + apply Z.div_le_lower_bound; lia.
    + apply Z.div_le_upper_bound; lia.
Qed.

(** The comparison does not depend on the common exponent chosen. *)
Lemma dyadic_compare_at a b e :
  e <= a.2 -> e <= b.2 ->
  dyadic_compare a b = (a.1 * 2 ^ (a.2 - e) ?= b.1 * 2 ^ (b.2 - e)).
Proof.
  intros Ha Hb. unfold dyadic_compare. set (m := Z.min a.2 b.2).
  replace (a.2 - e) with ((a.2 - m) + (m - e)) by lia.
  replace (b.2 - e) with ((b.2 - m) + (m - e)) by lia.
  rewrite !Z.pow_add_r, !Z.mul_assoc by lia.
  pose proof (Z.pow_pos_nonneg 2 (m - e) ltac:(lia) ltac:(lia)) as Hp.
  rewrite !(Z.mul_comm _ (2 ^ (m - e))). apply Zmult_compare_compat_l. lia.
Qed.

Lemma dyadic_compare_int n k b :
  0 <= n -> dyadic_compare (k * 2 ^ n, - n) b = dyadic_compare (k, 0) b.
Proof.
  intros Hn. set (m := Z.min (- n) b.2).
  rewrite (dyadic_compare_at (k * 2 ^ n, - n) b m), (dyadic_compare_at (k, 0) b m) by (cbn; lia).
  cbn [fst snd]. rewrite <- Z.mul_assoc, <- Z.pow_add_r by lia. do 3 f_equal. lia.
Qed.

(** The cast of a number clamped to [1 .. 60000] is an integer in that range. *)
Lemma f_to_u64_clamped x :
  f_is_nan x = false -> 1 <= f_to_u64 (f_clamp x f_one (f_of_Z 60000)) <= 60000.
Proof.
  intros Hx. set (hi := f_of_Z 60000).
  destruct (f_clamp_bounds x f_one hi Hx eq_refl eq_refl eq_refl) as [Hlo Hhi].
  destruct (f_clamp x f_one hi) as [[]|[]| |s m e]; try by (vm_compute in Hlo, Hhi; discriminate).
  unfold f_to_u64. assert (1 <= f_trunc (S754_finite s m e) <= 60000); [|unfold u64_max; lia].
  eapply f_trunc_between; [lia|done|..].
  - intros Hc. rewrite <- (dyadic_compare_int 52) in Hc by lia.
    change (match dyadic_compare (1 * 2 ^ 52, - (52)) ((if s then Z.neg m else Z.pos m), e) with
            | Eq | Lt => true | Gt => false end = true) in Hlo.
    by rewrite Hc in Hlo.
  - intros Hc. rewrite dyadic_compare_antisym, <- (dyadic_compare_int 37) in Hc by lia.
    change (match dyadic_compare ((if s then Z.neg m else Z.pos m), e) (60000 * 2 ^ 37, - (37)) with
            | Eq | Lt => true | Gt => false end = true) in Hhi.
    rewrite dyadic_compare_antisym in Hhi.
    by destruct (dyadic_compare (60000 * 2 ^ 37, - (37)) _).
Qed.

(* ------------------------------------------------------------------ *)
(** ** Magnitudes: bounds by powers of two survive rounding *)

(** [m * 2^e <= 2^k]. *)
Definition pow2_le (m e k : Z) : Prop := 0 <= m /\ e <= k /\ m <= 2 ^ (k - e).

Lemma shr_1_half r : 0 <= shr_m r -> shr_m (shr_1 r) = shr_m r / 2.
Proof.
  destruct r as [[|[m|m|]|m] b s]; cbn [shr_m shr_1]; intros; try lia; try done.
  - apply Z.div_unique with 1; lia.
  - apply Z.div_unique with 0; lia.
Qed.

Lemma iter_shr_1 p r : 0 <= shr_m r -> shr_m (iter_pos shr_1 p r) = shr_m r / 2 ^ Z.pos p.
Proof.
  revert r. induction p as [p IH|p IH|]; intros r Hr; cbn [iter_pos].
  - pose proof (shr_1_half r Hr) as E1. pose proof (Z.div_pos (shr_m r) 2 Hr ltac:(lia)).
    assert (shr_m (iter_pos shr_1 p (shr_1 r)) = shr_m r / 2 / 2 ^ Z.pos p) as E2
      by (rewrite IH, E1 by lia; done).
    rewrite IH, E2 by (rewrite E2; apply Z.div_pos; lia).
    rewrite !Z.div_div by lia. f_equal.
    replace (Z.pos p~1) with (1 + (Z.pos p + Z.pos p)) by lia. rewrite !Z.pow_add_r by lia. lia.
  - pose proof (IH r Hr) as E2.
    rewrite IH, E2 by (rewrite E2; apply Z.div_pos; lia).
    rewrite Z.div_div by lia. f_equal.
    replace (Z.pos p~0) with (Z.pos p + Z.pos p) by lia. by rewrite Z.pow_add_r by lia.
  - by rewrite shr_1_half.
Qed.

Lemma digits2_lower p : 2 ^ (Z.pos (digits2_pos p) - 1) <= Z.pos p.
Proof.
  induction p as [p IH|p IH|]; cbn [digits2_pos]; [| |done];
    (replace (Z.pos (Pos.succ (digits2_pos p)) - 1) with (1 + (Z.pos (digits2_pos p) - 1)) by lia);
    rewrite Z.pow_add_r by lia; lia.
Qed.

Lemma shr_pow2_le r e n k :
  pow2_le (shr_m r) e k -> e + Z.max n 0 <= k ->
  pow2_le (shr_m (shr r e n).1) (shr r e n).2 k.
Proof.
  intros (Hm & He & Hle) Hn. destruct n as [|p|p]; cbn [shr fst snd]; [done| |done].
  unfold pow2_le. rewrite iter_shr_1 by done.
  split_and!; [apply Z.div_pos; lia|lia|].
  apply Z.div_le_upper_bound; [lia|]. rewrite <- Z.pow_add_r by lia.
  replace (Z.pos p + (k - (e + Z.pos p))) with (k - e) by lia. done.
Qed.

Lemma shr_fexp_pow2_le m e l k :
  -1074 <= k -> pow2_le m e k ->
  let '(r, e') := shr_fexp prec emax m e l in pow2_le (shr_m r) e' k.
Proof.
  intros Hk (Hm & He & Hle).
  pose proof (shr_pow2_le (shr_record_of_loc m l) e (fexp prec emax (Zdigits2 m + e) - e) k) as H.
  unfold shr_fexp. destruct (shr _ _ _) as [r e']. apply H.
  - by destruct l as [|[]].
  - unfold fexp, emin, prec, emax. destruct m as [|p|p]; cbn [Zdigits2]; [lia| |lia].
    assert (Z.pos (digits2_pos p) - 1 <= k - e); [|lia].
    apply (Z.pow_le_mono_r_iff 2); [lia..|]. pose proof (digits2_lower p). lia.
Qed.

(** A float that is positive only up to [2^k]. *)
Definition f_le_pow2 (x : f64) (k : Z) : Prop :=
  match x with
  | S754_finite false m e => pow2_le (Z.pos m) e k
  | S754_infinity false => False
  | _ => True
  end.

Lemma binary_round_aux_pow2 s m e l k :
  -1074 <= k <= 960 -> pow2_le m e k ->
  f_le_pow2 (binary_round_aux prec emax s m e l) (k + 1).
Proof.
  intros Hk Hm. unfold binary_round_aux.
  pose proof (shr_fexp_pow2_le m e l k ltac:(lia) Hm) as H1.
  destruct (shr_fexp prec emax m e l) as [r1 e1]. destruct H1 as (Hm1 & He1 & Hle1).
  set (m1 := round_nearest_even (shr_m r1) (loc_of_shr_record r1)).
  assert (pow2_le m1 e1 (k + 1)) as Hr.
  { unfold pow2_le. replace (k + 1 - e1) with (1 + (k - e1)) by lia. rewrite Z.pow_add_r by lia.
    assert (shr_m r1 <= m1 <= shr_m r1 + 1) by
      (unfold m1; destruct (loc_of_shr_record r1) as [|[]]; cbn; try destruct (Z.even _); lia).
    pose proof (Z.pow_pos_nonneg 2 (k - e1) ltac:(lia) ltac:(lia)). lia. }
  pose proof (shr_fexp_pow2_le m1 e1 loc_Exact (k + 1) ltac:(lia) Hr) as H2.
  destruct (shr_fexp prec emax m1 e1 loc_Exact) as [r2 e2]. destruct H2 as (Hm2 & He2 & Hle2).
  destruct (shr_m r2) as [|p|p] eqn:E; [done| |done].
  rewrite (proj2 (Z.leb_le e2 (emax - prec))) by (unfold emax, prec; lia).
  destruct s; [done|]. split; [lia|done].
Qed.

(** Neither a NaN nor negative. *)
Definition f_nonneg (x : f64) : bool :=
  match x with
  | S754_nan | S754_infinity true | S754_finite true _ _ => false
  | _ => true
  end.

(** A product of a bounded non-negative factor and a bounded factor is bounded. *)
Lemma f_mul_le_pow2 x y a b :
  -1074 <= a + b <= 960 -> f_nonneg x = true -> f_le_pow2 x a -> f_le_pow2 y b ->
  f_le_pow2 (f_mul x y) (a + b + 1).
Proof.
  intros Hab Hx Hxa Hyb.
  destruct x as [|[]| |[] mx ex], y as [|[]| |[] my ey]; try done; cbn [f_mul SFmul xorb].
  { unfold f_mul, SFmul. cbn [xorb]. unfold binary_round_aux.
    destruct (shr_fexp _ _ _ _ _). destruct (shr_fexp _ _ _ _ _).
    destruct (shr_m _); [done| |done]. by destruct (Z.leb _ _). }
  apply binary_round_aux_pow2; [done|].
  destruct Hxa as (_ & Hex & Hmx), Hyb as (_ & Hey & Hmy). split_and!; [lia|lia|].
  replace (a + b - (ex + ey)) with ((a - ex) + (b - ey)) by lia.
  rewrite Z.pow_add_r, Pos2Z.inj_mul by lia. apply Z.mul_le_mono_nonneg; lia.
Qed.

(** Comparison with a power of two, both ways. *)
Lemma dyadic_le_pow2 m e k :
  dyadic_compare (m, e) (2 ^ 52, k - 52) <> Gt -> 0 < m -> e <= k /\ m <= 2 ^ (k - e).
Proof.
  intros Hc Hm. set (d := Z.min e (k - 52)).
  rewrite (dyadic_compare_at _ _ d) in Hc by (cbn; lia). cbn [fst snd] in Hc.
  rewrite Z.compare_le_iff, <- Z.pow_add_r in Hc by lia.
  replace (52 + (k - 52 - d)) with (k - d) in Hc by lia.
  pose proof (Z.pow_pos_nonneg 2 (e - d) ltac:(lia) ltac:(lia)) as Hp.
  assert (e <= k) as He.
  { assert (e - d <= k - d); [|lia]. apply (Z.pow_le_mono_r_iff 2); [lia..|]. nia. }
  split; [done|]. replace (k - d) with ((k - e) + (e - d)) in Hc by lia.
  rewrite Z.pow_add_r in Hc by lia. by apply Z.mul_le_mono_pos_r in Hc.
Qed.

Lemma f_le_pow2_of_le x k :
  f_le x (S754_finite false (2 ^ 52) (k - 52)) = true -> f_le_pow2 x k.
Proof.
  destruct x as [|[]| |[] m e]; try done. intros Hle. split; [done|].
  apply dyadic_le_pow2; [|done]. intros Hc.
  change (match dyadic_compare (Z.pos m, e) (2 ^ 52, k - 52) with
          | Eq | Lt => true | Gt => false end = true) in Hle.
  by rewrite Hc in Hle.
Qed.

Lemma pow2_dyadic_le z e k :
  z <= 0 \/ pow2_le z e k -> dyadic_compare (z, e) (2 ^ 52, k - 52) <> Gt.
Proof.
  intros Hz. set (d := Z.min e (k - 52)).
  rewrite (dyadic_compare_at _ _ d) by (cbn; lia). cbn [fst snd].
  rewrite <- Z.pow_add_r by lia. replace (52 + (k - 52 - d)) with (k - d) by lia.
  pose proof (Z.pow_pos_nonneg 2 (e - d) ltac:(lia) ltac:(lia)).
  pose proof (Z.pow_nonneg 2 (k - d) ltac:(lia)).
  rewrite Z.compare_le_iff. destruct Hz as [Hz|(_ & He & Hm)]; [nia|].
  replace (k - d) with ((k - e) + (e - d)) by lia. rewrite Z.pow_add_r by lia. nia.
Qed.

Lemma f_le_of_pow2 x k :
  f_is_nan x = false -> f_le_pow2 x k -> f_le x (S754_finite false (2 ^ 52) (k - 52)) = true.
Proof.
  intros Hx Hle.
  assert (forall z e, z <= 0 \/ pow2_le z e k ->
    match dyadic_compare (z, e) (2 ^ 52, k - 52) with Eq | Lt => true | Gt => false end = true) as Hd.
  { intros z e Hz. pose proof (pow2_dyadic_le z e k Hz). by destruct (dyadic_compare _ _). }
  destruct x as [s|[]| |[] m e]; try done; [apply (Hd 0 0)|apply (Hd (Z.neg m) e)|apply (Hd (Z.pos m) e)];
    auto; left; lia.
Qed.

Lemma f_le_pow2_weaken x j k : j <= k -> f_le_pow2 x j -> f_le_pow2 x k.
Proof.
  intros Hjk. destruct x as [|[]| |[] m e]; try done. intros (Hm & He & Hle).
  split_and!; [done|lia|]. etrans; [exact Hle|]. apply Z.pow_le_mono_r; lia.
Qed.

Lemma binary_round_aux_sign s m e l :
  0 <= m ->
  match binary_round_aux prec emax s m e l with
  | S754_nan => False
  | S754_infinity s' | S754_finite s' _ _ | S754_zero s' => s' = s
  end.
Proof.
  intros Hm. pose proof (binary_round_aux_not_nan s m e l Hm) as Hn. revert Hn.
  unfold binary_round_aux. destruct (shr_fexp _ _ m e l). destruct (shr_fexp _ _ _ _ loc_Exact).
  destruct (shr_m _); [done| |done]. by destruct (Z.leb _ _).
Qed.

Lemma shl_align_pow2 m e e' k :
  pow2_le (Z.pos m) e k ->
  let '(mz, ez) := shl_align m e e' in pow2_le (Z.pos mz) ez k.
Proof.
  intros (Hm & He & Hle). unfold shl_align. destruct (e' - e) as [|d|d] eqn:E; try done.
  assert (Z.pos (Pos.iter xO m d) = Z.pos m * 2 ^ Z.pos d) as Hi.
  { clear. induction d as [|d IH] using Pos.peano_ind; [rewrite Z.pow_1_r; cbn; lia|].
    rewrite Pos.iter_succ, Pos2Z.inj_xO, IH, Pos2Z.inj_succ, Z.pow_succ_r by lia. lia. }
  split_and!; [lia|lia|]. rewrite Hi.
  replace (k - e') with ((k - e) + Z.pos d) by lia. rewrite Z.pow_add_r by lia. nia.
Qed.

Lemma f_of_Z_bounded z :
  0 <= z <= 2 ^ 64 -> f_nonneg (f_of_Z z) = true /\ f_le_pow2 (f_of_Z z) 65.
Proof.
  intros Hz. unfold f_of_Z. destruct z as [|p|p]; [done| |lia].
  cbn [binary_normalize]. unfold binary_round.
  pose proof (shl_align_pow2 p 0 (fexp prec emax (Z.pos (digits2_pos p) + 0)) 64
    ltac:(unfold pow2_le; lia)) as Ha.
  destruct (shl_align _ _ _) as [mz ez]. split; [|by apply (binary_round_aux_pow2 _ _ _ _ 64)].
  pose proof (binary_round_aux_sign false (Z.pos mz) ez loc_Exact ltac:(lia)) as Hs.
  destruct (binary_round_aux _ _ _ _ _ _); by subst.
Qed.

Lemma f_mul_nonneg x y :
  f_nonneg x = true -> f_nonneg y = true -> f_nonneg (f_mul x y) = true \/ f_is_nan (f_mul x y) = true.
Proof.
  destruct x as [|[]| |[] mx ex], y as [|[]| |[] my ey]; try (by left); try (by right).
  intros _ _. left. unfold f_mul, SFmul. cbn [xorb].
  pose proof (binary_round_aux_sign false (Z.pos (mx * my)) (ex + ey) loc_Exact ltac:(lia)) as Hs.
  destruct (binary_round_aux _ _ _ _ _ _); by subst.
Qed.

Lemma f_nonneg_not_nan x : f_nonneg x = true -> f_is_nan x = false.
Proof. by destruct x as [|[]| |[]]. Qed.

Lemma f_max_nonneg x y : f_nonneg y = true -> f_nonneg (f_max x y) = true.
Proof.
  intros Hy. unfold f_max. destruct (f_is_nan x) eqn:Hx; [done|].
  rewrite (f_nonneg_not_nan y Hy). destruct (f_lt x y) eqn:E; [done|].
  destruct x as [|[]| |[] mx ex]; try done; exfalso; clear Hx.
  - destruct y as [|[]| |[]]; done.
  - destruct y as [|[]| |[] my ey]; try done.
    + unfold f_lt in E. cbn [f_compare f_dyadic] in E. unfold dyadic_compare in E. cbn [fst snd] in E.
      set (d := Z.min ex 0) in E. pose proof (Z.pow_pos_nonneg 2 (ex - d) ltac:(lia) ltac:(lia)).
      destruct (Z.compare_spec (Z.neg mx * 2 ^ (ex - d)) (0 * 2 ^ (0 - d))); done || nia.
    + unfold f_lt in E. cbn [f_compare f_dyadic] in E. unfold dyadic_compare in E. cbn [fst snd] in E.
      set (d := Z.min ex ey) in E. pose proof (Z.pow_pos_nonneg 2 (ex - d) ltac:(lia) ltac:(lia)).
      pose proof (Z.pow_pos_nonneg 2 (ey - d) ltac:(lia) ltac:(lia)).
      destruct (Z.compare_spec (Z.neg mx * 2 ^ (ex - d)) (Z.pos my * 2 ^ (ey - d))); done || nia.
Qed.

Lemma f_max_le_pow2 x y k : f_le_pow2 x k -> f_le_pow2 y k -> f_le_pow2 (f_max x y) k.
Proof. intros. unfold f_max. by repeat case_match. Qed.

Lemma f_mul_comm x y : f_mul x y = f_mul y x.
Proof.
  destruct x as [sx|sx| |sx mx ex], y as [sy|sy| |sy my ey]; unfold f_mul, SFmul; try done;
    rewrite (xorb_comm sx sy); try done. by rewrite Pos.mul_comm, Z.add_comm.
Qed.

(** Scaling by a finite non-zero number keeps infinities. *)
Lemma f_mul_finite_not_nan x s m e :
  f_is_nan x = false -> f_is_nan (f_mul x (S754_finite s m e)) = false.
Proof. destruct x as [| | |sx mx ex]; try done. intros _. apply binary_round_aux_not_nan. lia. Qed.

(** A divisor guarded by [.max(f64::MIN_POSITIVE)] is a positive finite number. *)
Lemma f_max_min_positive x k :
  1 <= k -> f_le_pow2 x k ->
  let d := f_max x f_min_positive in
  f_is_nan d = false /\ f_is_inf d = false /\ f_lt f_zero d = true.
Proof.
  intros Hk Hx. cbv zeta.
  pose proof (f_max_nonneg x f_min_positive eq_refl) as Hn.
  pose proof (f_max_ge x f_min_positive eq_refl) as Hge.
  assert (f_le_pow2 (f_max x f_min_positive) k) as Hle.
  { apply f_max_le_pow2; [done|]. apply (f_le_pow2_weaken _ (-1000)); [lia|].
    vm_compute. split; [|split]; discriminate. }
  destruct (f_max x f_min_positive) as [[]|[]| |[] m e]; try done.
  split; [done|]. split; [done|]. unfold f_lt. cbn [f_compare f_dyadic f_zero f_of_Z binary_normalize].
  unfold dyadic_compare. cbn [fst snd]. set (d := Z.min 0 e).
  pose proof (Z.pow_pos_nonneg 2 (e - d) ltac:(lia) ltac:(lia)).
  by rewrite (proj2 (Z.compare_lt_iff (0 * 2 ^ (0 - d)) (Z.pos m * 2 ^ (e - d)))) by lia.
Qed.

#[export] Hint Resolve f_of_Z_not_nan f_ceil_not_nan f_max_not_nan f_min_not_nan : jalki.
