(* ===== verification/Protocol.v ===== *)
(** The FALSE Protocol record model ([false-protocol/src]): the occurrence every producer
    normalizes to, its blocks and payloads, the builder, the semantic category of a type and
    validation.

    A [HashMap] is a [gmap], a [DateTime<Utc>] is its nanosecond count, a [Ulid] is its text.
    [Ulid::new] and [Utc::now] read the environment, so what they return is an argument. *)
From Stdlib Require Import Strings.Ascii.
From S2P Require Import Prelude Float.

(* ------------------------------------------------------------------ *)
(** ** types.rs *)

Inductive Severity := SevDebug | SevInfo | SevWarning | SevError | SevCritical.
#[export] Instance Severity_eq_dec : EqDecision Severity.
Proof. solve_decision. Defined.

Inductive Outcome := OutSuccess | OutFailure | OutTimeout | OutInProgress | OutUnknown.
#[export] Instance Outcome_eq_dec : EqDecision Outcome.
Proof. solve_decision. Defined.

Inductive EnrichmentState := Raw | EntityResolved | ContextEnriched | CausalityScored | FullyEnriched.

(** [EnrichmentState::next] *)
Definition enrichment_next (s : EnrichmentState) : EnrichmentState :=
  match s with
  | Raw => EntityResolved
  | EntityResolved => ContextEnriched
  | ContextEnriched => CausalityScored
  | CausalityScored => FullyEnriched
  | FullyEnriched => FullyEnriched
  end.

Inductive OccurrenceCategory :=
| ResourceExhaustion
| Lifecycle
| Network
| ConfigChange
| ServiceDegradation
| Scaling
| Security
| SelfObservability.
#[export] Instance OccurrenceCategory_eq_dec : EqDecision OccurrenceCategory.
Proof. solve_decision. Defined.

(* ------------------------------------------------------------------ *)
(** ** blocks.rs *)

(** The error block. *)
Record OccurrenceError := mkOccurrenceError {
  err_code : string;
  err_message : option string;
  err_stack : option string;
  err_cause : option string;
  err_what_failed : string;
  err_why_it_matters : option string;
  err_possible_causes : list string;
  err_suggested_fix : option string
}.

(** Reference to a causal occurrence. *)
Record CauseRef := mkCauseRef {
  cause_occurrence_id : string;
  cause_cause_type : string;
  cause_summary : option string;
  cause_confidence : option f64
}.

(** A matched causality pattern. *)
Record PatternMatch := mkPatternMatch {
  pat_pattern_id : string;
  pat_name : string;
  pat_confidence : f64
}.

(** The reasoning block. *)
Record OccurrenceReasoning := mkOccurrenceReasoning {
  rsn_summary : string;
  rsn_explanation : option string;
  rsn_confidence : f64;
  rsn_steps : list string;
  rsn_root_cause : option CauseRef;
  rsn_causal_chain : list CauseRef;
  rsn_patterns_matched : list PatternMatch;
  rsn_alternative_explanations : list CauseRef
}.

(** One step of the history block. *)
Record HistoryStep := mkHistoryStep {
  step_description : string;
  step_timestamp : option string;
  step_duration_ms : option Z;
  step_status : option string
}.

(** The history block. *)
Record OccurrenceHistory := mkOccurrenceHistory {
  hist_steps : list HistoryStep;
  hist_duration_ms : option Z
}.

(** [OccurrenceError::default()] *)
Definition OccurrenceError_default : OccurrenceError :=
  mkOccurrenceError "" None None None "" None [] None.

(* ------------------------------------------------------------------ *)
(** ** payloads.rs *)

(** NetworkEventData. *)
Record NetworkEventData := mkNetworkEventData {
  net_protocol : string;
  net_src_ip : string;
  net_dst_ip : string;
  net_src_port : Z;
  net_dst_port : Z;
  net_direction : string;
  net_dns_query : option string;
  net_http_method : option string;
  net_http_path : option string;
  net_http_status_code : option Z;
  net_latency_ms : option f64;
  net_bytes_sent : option Z;
  net_bytes_received : option Z;
  net_rtt_baseline_ms : option f64;
  net_rtt_current_ms : option f64;
  net_retransmit_count : option Z
}.

(** KernelEventData. *)
Record KernelEventData := mkKernelEventData {
  krn_event_type : string;
  krn_pid : Z;
  krn_command : string;
  krn_oom_victim_pid : option Z;
  krn_oom_victim_comm : option string;
  krn_memory_requested : option Z;
  krn_signal : option Z;
  krn_syscall_name : option string
}.

(** ContainerEventData. *)
Record ContainerEventData := mkContainerEventData {
  ctr_container_id : string;
  ctr_container_name : string;
  ctr_image : string;
  ctr_state : string;
  ctr_exit_code : option Z;
  ctr_restart_count : option Z;
  ctr_cpu_usage : option f64;
  ctr_memory_usage : option Z
}.

(** K8sEventData. *)
Record K8sEventData := mkK8sEventData {
  k8s_resource_type : string;
  k8s_resource_name : string;
  k8s_namespace : string;
  k8s_reason : string;
  k8s_message : string;
  k8s_replicas : option Z;
  k8s_ready_replicas : option Z
}.

(** ProcessEventData. *)
Record ProcessEventData := mkProcessEventData {
  proc_pid : Z;
  proc_ppid : option Z;
  proc_command : string;
  proc_args : option string;
  proc_uid : option Z;
  proc_exit_code : option Z
}.

(** SchedulingEventData. *)
Record SchedulingEventData := mkSchedulingEventData {
  sch_pod_uid : string;
  sch_attempts : Z;
  sch_nodes_failed : option Z;
  sch_nodes_total : option Z;
  sch_failure_reasons : gmap string Z
}.

(** NodeEventData. *)
Record NodeEventData := mkNodeEventData {
  node_node_name : string;
  node_condition : string;
  node_status : string;
  node_reason : option string;
  node_cpu_capacity : option Z;
  node_memory_capacity : option Z;
  node_cpu_allocated : option Z;
  node_memory_allocated : option Z
}.

(** ResourceChange. *)
Record ResourceChange := mkResourceChange {
  chg_field : string;
  chg_old_value : string;
  chg_new_value : string
}.

(** ResourceEventData. *)
Record ResourceEventData := mkResourceEventData {
  res_resource_id : string;
  res_resource_type : string;
  res_provider : string;
  res_region : string;
  res_account : string;
  res_status : string;
  res_tags : gmap string string;
  res_changes : list ResourceChange
}.

(** OtelEventData. *)
Record OtelEventData := mkOtelEventData {
  otel_service_name : string;
  otel_operation_name : string;
  otel_span_kind : string;
  otel_status_code : string;
  otel_duration_ms : f64;
  otel_attributes : gmap string string;
  otel_error_message : option string
}.

(* ------------------------------------------------------------------ *)
(** ** occurrence.rs *)

(** The fundamental event type. [OccurrenceType] is a transparent wrapper of its string. *)
Record Occurrence := mkOccurrence {
  occ_id : string;
  occ_timestamp : Z;
  occ_received_at : option Z;
  occ_source : string;
  occ_type : string;
  occ_severity : Severity;
  occ_outcome : option Outcome;
  occ_correlation_keys : list string;
  occ_error : option OccurrenceError;
  occ_reasoning : option OccurrenceReasoning;
  occ_history : option OccurrenceHistory;
  occ_entity_ids : list string;
  occ_cluster : string;
  occ_namespace : option string;
  occ_labels : gmap string string;
  occ_trace_id : option string;
  occ_span_id : option string;
  occ_parent_span_id : option string;
  occ_duration_us : option Z;
  occ_enrichment_state : EnrichmentState;
  occ_network_data : option NetworkEventData;
  occ_kernel_data : option KernelEventData;
  occ_container_data : option ContainerEventData;
  occ_k8s_data : option K8sEventData;
  occ_process_data : option ProcessEventData;
  occ_scheduling_data : option SchedulingEventData;
  occ_node_data : option NodeEventData;
  occ_resource_data : option ResourceEventData;
  occ_otel_data : option OtelEventData
}.
#[export] Instance eta_Occurrence : Eta Occurrence :=
  fun r => mkOccurrence (occ_id r) (occ_timestamp r) (occ_received_at r) (occ_source r) (occ_type r) (occ_severity r) (occ_outcome r) (occ_correlation_keys r) (occ_error r) (occ_reasoning r) (occ_history r) (occ_entity_ids r) (occ_cluster r) (occ_namespace r) (occ_labels r) (occ_trace_id r) (occ_span_id r) (occ_parent_span_id r) (occ_duration_us r) (occ_enrichment_state r) (occ_network_data r) (occ_kernel_data r) (occ_container_data r) (occ_k8s_data r) (occ_process_data r) (occ_scheduling_data r) (occ_node_data r) (occ_resource_data r) (occ_otel_data r).

(** [OccurrenceType::domain]: what precedes the first dot. *)
Fixpoint domain (s : string) : string :=
  match s with
  | EmptyString => ""
  | String c rest => if decide (c = "."%char) then "" else String c (domain rest)
  end.

(** [OccurrenceType::action]: what follows the first dot. *)
Fixpoint action (s : string) : string :=
  match s with
  | EmptyString => ""
  | String c rest => if decide (c = "."%char) then rest else action rest
  end.

Definition CATEGORY_PREFIXES : list (string * OccurrenceCategory) :=
  [("kernel.oom", ResourceExhaustion);
   ("container.oom", ResourceExhaustion);
   ("node.memory_pressure", ResourceExhaustion);
   ("node.disk_pressure", ResourceExhaustion);
   ("node.cpu_pressure", ResourceExhaustion);
   ("pod.restart", Lifecycle);
   ("pod.scheduled", Lifecycle);
   ("pod.failed", Lifecycle);
   ("container.terminated", Lifecycle);
   ("container.started", Lifecycle);
   ("network.", Network);
   ("deployment.", ConfigChange);
   ("config.", ConfigChange);
   ("service.", ServiceDegradation);
   ("scheduling.", Scaling);
   ("node.not_ready", Scaling);
   ("hpa.", Scaling);
   ("security.", Security);
   ("policy.", Security);
   ("ahti.", SelfObservability)].

(** [OccurrenceType::category]: the first matching prefix wins. *)
Definition category (s : string) : option OccurrenceCategory :=
  snd <$> find_first (fun pc => starts_with s pc.1) CATEGORY_PREFIXES.

(** [Occurrence::new]; [id] is [Ulid::new()] and [now] is [Utc::now()]. *)
Definition Occurrence_new (id : string) (now : Z) (source occurrence_type : string) : Occurrence :=
  {| occ_id := id;
     occ_timestamp := now;
     occ_received_at := None;
     occ_source := source;
     occ_type := occurrence_type;
     occ_severity := SevInfo;
     occ_outcome := None;
     occ_correlation_keys := [];
     occ_error := None;
     occ_reasoning := None;
     occ_history := None;
     occ_entity_ids := [];
     occ_cluster := "";
     occ_namespace := None;
     occ_labels := ∅;
     occ_trace_id := None;
     occ_span_id := None;
     occ_parent_span_id := None;
     occ_duration_us := None;
     occ_enrichment_state := Raw;
     occ_network_data := None;
     occ_kernel_data := None;
     occ_container_data := None;
     occ_k8s_data := None;
     occ_process_data := None;
     occ_scheduling_data := None;
     occ_node_data := None;
     occ_resource_data := None;
     occ_otel_data := None |}.

(** [Occurrence::new_at]; [new_id_at] is the ULID generator at a millisecond time. *)
Definition Occurrence_new_at (new_id_at : Z -> string) (id : string) (now : Z)
    (source occurrence_type : string) (timestamp : Z) : Occurrence :=
  let millis := Z.max (timestamp / 1000000) 0 in
  (Occurrence_new id now source occurrence_type)
    <| occ_id := new_id_at millis |> <| occ_timestamp := timestamp |>.

Definition severity (s : Severity) (o : Occurrence) : Occurrence := o <| occ_severity := s |>.
Definition outcome (x : Outcome) (o : Occurrence) : Occurrence := o <| occ_outcome := Some x |>.
Definition in_cluster (c : string) (o : Occurrence) : Occurrence := o <| occ_cluster := c |>.
Definition in_namespace (ns : string) (o : Occurrence) : Occurrence := o <| occ_namespace := Some ns |>.
Definition with_entities (ids : list string) (o : Occurrence) : Occurrence := o <| occ_entity_ids := ids |>.
Definition with_received_at (t : Z) (o : Occurrence) : Occurrence := o <| occ_received_at := Some t |>.
Definition with_error (e : OccurrenceError) (o : Occurrence) : Occurrence := o <| occ_error := Some e |>.
Definition with_reasoning (r : OccurrenceReasoning) (o : Occurrence) : Occurrence :=
  o <| occ_reasoning := Some r |>.
Definition with_history (h : OccurrenceHistory) (o : Occurrence) : Occurrence :=
  o <| occ_history := Some h |>.
Definition with_tracing (trace span : string) (parent : option string) (o : Occurrence) : Occurrence :=
  o <| occ_trace_id := Some trace |> <| occ_span_id := Some span |> <| occ_parent_span_id := parent |>.

(** [occ.labels.insert(k, v)] *)
Definition label (k v : string) (o : Occurrence) : Occurrence := o <| occ_labels ::= <[k := v]> |>.

(* ------------------------------------------------------------------ *)
(** ** Validation *)

Inductive ProtocolError := InvalidOccurrence (msg : string).
#[export] Instance ProtocolError_eq_dec : EqDecision ProtocolError.
Proof. solve_decision. Defined.

Definition MAX_SHORT : Z := 256.
Definition MAX_LABEL : Z := 1000.
Definition MAX_LABELS : Z := 100.
Definition MAX_ENTITY_IDS : Z := 100.

(** [if bad { return Err(InvalidOccurrence(msg)) }] *)
Definition reject (bad : bool) (msg : string) : result ProtocolError unit :=
  if bad then Err (InvalidOccurrence msg) else Ok tt.

Fixpoint validate_labels (kvs : list (string * string)) : result ProtocolError unit :=
  match kvs with
  | [] => Ok tt
  | (k, v) :: rest =>
      _ <-? reject (MAX_LABEL <? slen k) ("label key exceeds " +:+ dec MAX_LABEL +:+ " bytes");;
      _ <-? reject (MAX_LABEL <? slen v) ("label value exceeds " +:+ dec MAX_LABEL +:+ " bytes");;
      validate_labels rest
  end.

(** [Occurrence::validate]. The iteration order of a [HashMap] is unspecified; the model takes
    the order of the [gmap]. Only which of the two label messages is reported depends on it. *)
Definition validate (o : Occurrence) : result ProtocolError unit :=
  _ <-? reject (bool_decide (trim (occ_source o) = "")) "source is required";;
  _ <-? reject (bool_decide (trim (occ_type o) = "")) "type is required";;
  _ <-? reject (bool_decide (trim (occ_cluster o) = "")) "cluster is required";;
  _ <-? reject (MAX_SHORT <? slen (occ_source o)) ("source exceeds " +:+ dec MAX_SHORT +:+ " bytes");;
  _ <-? reject (MAX_SHORT <? slen (occ_type o)) ("occurrence_type exceeds " +:+ dec MAX_SHORT +:+ " bytes");;
  _ <-? reject (MAX_SHORT <? slen (occ_cluster o)) ("cluster exceeds " +:+ dec MAX_SHORT +:+ " bytes");;
  _ <-? match occ_namespace o with
        | Some ns => reject (MAX_SHORT <? slen ns) ("namespace exceeds " +:+ dec MAX_SHORT +:+ " bytes")
        | None => Ok tt
        end;;
  _ <-? reject (MAX_LABELS <? Z.of_nat (size (occ_labels o)))
          ("labels count " +:+ dec (Z.of_nat (size (occ_labels o))) +:+ " exceeds " +:+ dec MAX_LABELS);;
  _ <-? validate_labels (map_to_list (occ_labels o));;
  reject (MAX_ENTITY_IDS <? zlen (occ_entity_ids o))
    ("entity_ids count " +:+ dec (zlen (occ_entity_ids o)) +:+ " exceeds " +:+ dec MAX_ENTITY_IDS).

(** [Occurrence::build] *)
Definition build (o : Occurrence) : result ProtocolError Occurrence :=
  _ <-? validate o;; Ok o.

(** What [validate] promises, as a proposition. *)
Record occurrence_valid (o : Occurrence) : Prop := {
  ov_source : trim (occ_source o) <> "" /\ slen (occ_source o) <= MAX_SHORT;
  ov_type : trim (occ_type o) <> "" /\ slen (occ_type o) <= MAX_SHORT;
  ov_cluster : trim (occ_cluster o) <> "" /\ slen (occ_cluster o) <= MAX_SHORT;
  ov_namespace : forall ns, occ_namespace o = Some ns -> slen ns <= MAX_SHORT;
  ov_labels : Z.of_nat (size (occ_labels o)) <= MAX_LABELS;
  ov_label : forall k v, occ_labels o !! k = Some v -> slen k <= MAX_LABEL /\ slen v <= MAX_LABEL;
  ov_entities : zlen (occ_entity_ids o) <= MAX_ENTITY_IDS
}.

(* ------------------------------------------------------------------ *)
(** ** Lemmas *)

Lemma reject_ok b msg : reject b msg = Ok tt <-> b = false.
Proof. unfold reject. by destruct b. Qed.

Lemma unit_bind_ok {E B} (m : result E unit) (r : result E B) b :
  result_bind m (fun _ => r) = Ok b <-> m = Ok tt /\ r = Ok b.
Proof. rewrite result_bind_ok. split; [intros ([] & ? & ?)|intros [??]]; eauto. Qed.

Lemma validate_labels_ok kvs :
  validate_labels kvs = Ok tt <->
  Forall (fun kv => slen kv.1 <= MAX_LABEL /\ slen kv.2 <= MAX_LABEL) kvs.
Proof.
  induction kvs as [|[k v] kvs IH]; cbn [validate_labels]; [by split|].
  rewrite !unit_bind_ok, !reject_ok, IH, Forall_cons. cbn [fst snd].
  rewrite !Z.ltb_ge. tauto.
Qed.

Lemma validate_spec o : validate o = Ok tt <-> occurrence_valid o.
Proof.
  unfold validate. rewrite !unit_bind_ok, !reject_ok, !bool_decide_eq_false, !Z.ltb_ge.
  rewrite validate_labels_ok, Forall_forall. split.
  - intros (H1 & H2 & H3 & H4 & H5 & H6 & H7 & H8 & H9 & H10). split; auto.
    + intros ns Hns. rewrite Hns in H7. apply reject_ok in H7. bool_hyps. done.
    + intros k v Hkv. apply elem_of_map_to_list in Hkv. apply (H9 (k, v) Hkv).
  - intros [[??] [??] [??] Hn Hl Hkv He]. split_and!; auto.
    + destruct (occ_namespace o) as [ns|]; [|done]. apply reject_ok, Z.ltb_ge. auto.
    + intros [k v] Hin%elem_of_map_to_list. by apply Hkv.
Qed.

(** [validate] accepts an occurrence exactly when every documented bound holds: required
    fields are not blank, short fields fit 256 bytes, there are at most 100 labels and entity
    ids, and every label key and value fits 1000 bytes. *)
Theorem validate_ok_iff o : validate o = Ok tt <-> occurrence_valid o.
Proof. exact (validate_spec o). Qed.
