(* ===== verification/RuntimeSubject.v ===== *)
(** Canonical process-lifetime identity ([jalki-evidence/src/runtime_subject.rs]).

    The SHA-256 implementation is the [sha2] crate's, so the hex digest is a parameter; what is
    modelled is the byte string it is applied to, the checks before it and the record built. *)
From Stdlib Require Import Strings.Ascii Strings.Byte.
From S2P Require Import Prelude Text.

Definition RUNTIME_SUBJECT_CANONICALIZATION_VERSION : Z := 1.
Definition RUNTIME_SUBJECT_IDENTITY_METHOD : string := "task_start_boottime_btf_v1".

Definition DOMAIN : list byte := bytes_of "false-systems/runtime-subject/v1" ++ [x00].

Record RuntimeSubjectV1 := mkRuntimeSubjectV1 {
  rs_runtime_subject_id : string;
  rs_node_identity : string;
  rs_boot_id : string;
  rs_host_tgid : Z;
  rs_leader_start_boottime_ns : Z;
  rs_canonicalization_version : Z;
  rs_identity_method : string
}.

Inductive RuntimeSubjectError :=
| InvalidNodeIdentity
| InvalidBootId
| InvalidHostTgid
| InvalidLeaderStart.
#[export] Instance RuntimeSubjectError_eq_dec : EqDecision RuntimeSubjectError.
Proof. solve_decision. Defined.

(** [hasher.update] of the field's length and of the field. *)
Definition update_field (field : list byte) : list byte := be_put 8 (zlen field) ++ field.

(** The per-index test of [canonical_boot_id]: [true] when the byte is refused. *)
Definition boot_id_bad_byte (index : nat) (b : byte) : bool :=
  match index with
  | 8%nat | 13%nat | 18%nat | 23%nat => negb (Byte.eqb b "-"%byte)
  | _ => negb (is_ascii_hexdigit b)
  end.

Definition canonical_boot_id (value : string) : result RuntimeSubjectError string :=
  let bytes := bytes_of value in
  if negb (Nat.eqb (length bytes) 36) || existsb id (imap boot_id_bad_byte bytes)
  then Err InvalidBootId
  else Ok (to_ascii_lowercase value).

(** Everything the hasher is fed. *)
Definition subject_preimage (node_identity boot_id : string) (host_tgid start : Z) : list byte :=
  DOMAIN
  ++ update_field (bytes_of node_identity)
  ++ update_field (bytes_of boot_id)
  ++ update_field (be_put 4 host_tgid)
  ++ update_field (be_put 8 start)
  ++ update_field (be_put 2 RUNTIME_SUBJECT_CANONICALIZATION_VERSION).

Section subject.
(** [format!("{:x}", Sha256::digest(bytes))] *)
Variable sha256_hex : list byte -> string.

(** [RuntimeSubjectV1::new] *)
Definition RuntimeSubjectV1_new (node_identity boot_id : string) (host_tgid start : Z)
  : result RuntimeSubjectError RuntimeSubjectV1 :=
  if bool_decide (node_identity = "") || negb (bool_decide (trim node_identity = node_identity))
  then Err InvalidNodeIdentity
  else
    boot_id <-? canonical_boot_id boot_id;;
    if host_tgid =? 0 then Err InvalidHostTgid
    else if start =? 0 then Err InvalidLeaderStart
    else Ok {| rs_runtime_subject_id :=
                 "sha256:" +:+ sha256_hex (subject_preimage node_identity boot_id host_tgid start);
               rs_node_identity := node_identity;
               rs_boot_id := boot_id;
               rs_host_tgid := host_tgid;
               rs_leader_start_boottime_ns := start;
               rs_canonicalization_version := RUNTIME_SUBJECT_CANONICALIZATION_VERSION;
               rs_identity_method := RUNTIME_SUBJECT_IDENTITY_METHOD |}.
End subject.

(* ------------------------------------------------------------------ *)
(** ** Lemmas *)


Lemma be_put_inj n a b :
  in_width (8 * Z.of_nat n) a -> in_width (8 * Z.of_nat n) b -> be_put n a = be_put n b -> a = b.
Proof.
  unfold in_width. intros Ha Hb H. apply (f_equal be_get) in H. rewrite !be_get_put in H.
  assert (256 ^ Z.of_nat n = 2 ^ (8 * Z.of_nat n)) as Hp.
  { rewrite Z.pow_mul_r by lia. done. }
  rewrite Hp, !Z.mod_small in H by done. done.
Qed.

(** A length-prefixed field can be cut off the front unambiguously. *)
Lemma update_field_app_inj f1 f2 r1 r2 :
  is_u64 (zlen f1) -> is_u64 (zlen f2) ->
  update_field f1 ++ r1 = update_field f2 ++ r2 -> f1 = f2 /\ r1 = r2.
Proof.
  unfold update_field. intros H1 H2 H. rewrite <- !app_assoc in H.
  apply app_inj_1 in H as [Hl H]; [|by rewrite !be_put_length].
  apply be_put_inj in Hl; [|word..].
  apply app_inj_1 in H; [done|]. word.
Qed.

(** The bytes a subject id is the digest of determine the whole identity tuple: two tuples
    with the same preimage have the same node identity, boot id, thread-group id and start time,
    so distinct process lifetimes collide only if SHA-256 does. *)
Theorem subject_preimage_injective n1 b1 t1 s1 n2 b2 t2 s2 :
  is_u64 (slen n1) -> is_u64 (slen n2) -> is_u64 (slen b1) -> is_u64 (slen b2) ->
  in_width 32 t1 -> in_width 32 t2 -> in_width 64 s1 -> in_width 64 s2 ->
  subject_preimage n1 b1 t1 s1 = subject_preimage n2 b2 t2 s2 ->
  n1 = n2 /\ b1 = b2 /\ t1 = t2 /\ s1 = s2.
Proof.
  intros Hn1 Hn2 Hb1 Hb2 Ht1 Ht2 Hs1 Hs2 H. unfold subject_preimage in H. apply app_inv_head in H.
  assert (forall s, is_u64 (slen s) -> is_u64 (zlen (bytes_of s))) as Hlen.
  { intros s Hs. unfold zlen. by rewrite bytes_of_length. }
  assert (forall n z, (n <= 8)%nat -> is_u64 (zlen (be_put n z))) as Hput.
  { intros n z ?. unfold zlen. rewrite be_put_length. word. }
  apply update_field_app_inj in H as [Hn H]; auto.
  apply update_field_app_inj in H as [Hb H]; auto.
  apply update_field_app_inj in H as [Ht H]; [|apply Hput; lia..].
  apply update_field_app_inj in H as [Hs _]; [|apply Hput; lia..].
  apply bytes_of_inj in Hn, Hb. apply be_put_inj in Ht, Hs; done.
Qed.

Lemma subject_preimage_injective_witness :
  length (subject_preimage "node-a" "boot" 7 11) = 97%nat /\
  "node-a" = "node-a" /\ "boot" = "boot" /\ 7 = 7 /\ 11 = 11.
Proof.
  split; [by vm_compute|].
  apply (subject_preimage_injective "node-a" "boot" 7 11 "node-a" "boot" 7 11);
    try (vm_compute; split; congruence).
Defined.

(** A boot id of the canonical UUID shape: 36 bytes, dashes where a UUID has them, hexadecimal
    digits elsewhere. *)
Definition uuid_shaped (value : string) : Prop :=
  length (bytes_of value) = 36%nat /\
  forall i b, bytes_of value !! i = Some b -> boot_id_bad_byte i b = false.

Lemma canonical_boot_id_ok value b :
  canonical_boot_id value = Ok b <-> uuid_shaped value /\ b = to_ascii_lowercase value.
Proof.
  unfold canonical_boot_id, uuid_shaped.
  destruct (Nat.eqb_spec (length (bytes_of value)) 36) as [Hl|Hl]; cbn [negb orb]; [|naive_solver].
  destruct (existsb id (imap boot_id_bad_byte (bytes_of value))) eqn:E.
  - split; [done|]. intros [[_ H] _]. apply existsb_exists in E as (x & Hx & Ex).
    apply list_elem_of_In, list_elem_of_lookup in Hx as (i & Hi).
    rewrite list_lookup_imap in Hi. destruct (bytes_of value !! i) as [c|] eqn:Hc; [|done].
    cbn in Hi. injection Hi as <-. rewrite (H i c Hc) in Ex. done.
  - split; [|by intros [_ ->]]. intros [= <-]. split; [|done]. split; [done|].
    intros i c Hc. destruct (boot_id_bad_byte i c) eqn:Hb; [|done].
    rewrite <- not_true_iff_false in E. destruct E. apply existsb_exists. exists true.
    split; [|done]. apply list_elem_of_In, list_elem_of_lookup. exists i.
    by rewrite list_lookup_imap, Hc, <- Hb.
Qed.

(** [RuntimeSubjectV1::new] succeeds exactly for a node identity that is neither empty nor
    padded, a boot id of UUID shape, a non-zero thread-group id and a non-zero start time, and
    the subject then carries that tuple, the boot id in lower case, and the digest of its
    preimage. *)
Theorem RuntimeSubjectV1_new_ok_iff sha node boot tgid start r :
  RuntimeSubjectV1_new sha node boot tgid start = Ok r <->
  node <> "" /\ trim node = node /\ uuid_shaped boot /\ tgid <> 0 /\ start <> 0 /\
  r = mkRuntimeSubjectV1
        ("sha256:" +:+ sha (subject_preimage node (to_ascii_lowercase boot) tgid start))
        node (to_ascii_lowercase boot) tgid start
        RUNTIME_SUBJECT_CANONICALIZATION_VERSION RUNTIME_SUBJECT_IDENTITY_METHOD.
Proof.
  unfold RuntimeSubjectV1_new.
  destruct (bool_decide_reflect (node = "")) as [?|Hne]; cbn [orb]; [naive_solver|].
  destruct (bool_decide_reflect (trim node = node)) as [Ht|?]; cbn [negb]; [|naive_solver].
  destruct (canonical_boot_id boot) as [b|e] eqn:Hb; cbn [result_bind].
  2: { split; [done|]. intros (_ & _ & Hu & _).
       pose proof (proj2 (canonical_boot_id_ok boot _) (conj Hu eq_refl)). congruence. }
  apply canonical_boot_id_ok in Hb as [Hu ->].
  destruct (Z.eqb_spec tgid 0); [naive_solver|]. destruct (Z.eqb_spec start 0); naive_solver.
Qed.

Example RuntimeSubjectV1_new_lowercases :
  RuntimeSubjectV1_new (fun _ => "00") "node" "0A1B2C3D-0000-0000-0000-00000000000F" 42 7 =
  Ok (mkRuntimeSubjectV1 "sha256:00" "node" "0a1b2c3d-0000-0000-0000-00000000000f" 42 7 1
        "task_start_boottime_btf_v1").
Proof. vm_compute. reflexivity. Qed.
