(* ===== verification/Evidence.v ===== *)
(** Evidence records, batches and their projections ([jalki-evidence/src/evidence.rs]).

    Two things are read from the outside and are therefore the [ByteModel] class: the capacity of
    a string's allocation and the length of an occurrence's JSON encoding (serde_json). *)
From Stdlib Require Import Strings.Byte.
From S2P Require Import Prelude Protocol RuntimeSubject.

Definition SCHEMA_VERSION : string := "1".

Inductive HookKind := Fentry | Fexit | Tracepoint | Lsm.

Definition hook_as_str (h : HookKind) : string :=
  match h with
  | Fentry => "fentry"
  | Fexit => "fexit"
  | Tracepoint => "tracepoint"
  | Lsm => "lsm"
  end.

Record ProducerMetadata := mkProducerMetadata {
  pm_producer : string;
  pm_producer_version : string;
  pm_cluster : string;
  pm_node_id : string;
  pm_kernel_release : string;
  pm_node_identity : option string;
  pm_boot_id : option string
}.

(** [ProducerMetadata::new]; [version] is [CARGO_PKG_VERSION]. *)
Definition ProducerMetadata_new (version cluster node_id kernel_release : string) : ProducerMetadata :=
  {| pm_producer := "jalki";
     pm_producer_version := version;
     pm_cluster := cluster;
     pm_node_id := node_id;
     pm_kernel_release := kernel_release;
     pm_node_identity := None;
     pm_boot_id := None |}.

Record ProbeMetadata := mkProbeMetadata {
  probe_id : string;
  probe_version : string;
  probe_family : string;
  hook_kind : HookKind;
  kernel_function : string
}.

Inductive BindingProvenance := Observed | DerivedFromCache.

Definition provenance_as_str (p : BindingProvenance) : string :=
  match p with
  | Observed => "observed"
  | DerivedFromCache => "derived"
  end.

Inductive UnboundReason := HostProcess | CacheMiss | NoCgroup | UnboundUnknown.
#[export] Instance UnboundReason_eq_dec : EqDecision UnboundReason.
Proof. solve_decision. Defined.
#[export] Instance UnboundReason_countable : Countable UnboundReason.
Proof.
  refine (inj_countable'
    (fun r => match r with HostProcess => 0 | CacheMiss => 1 | NoCgroup => 2 | UnboundUnknown => 3 end)%nat
    (fun n => match n with 0 => HostProcess | 1 => CacheMiss | 2 => NoCgroup | _ => UnboundUnknown end)%nat _).
  by intros [].
Defined.

Definition reason_as_str (r : UnboundReason) : string :=
  match r with
  | HostProcess => "host_process"
  | CacheMiss => "cache_miss"
  | NoCgroup => "no_cgroup"
  | UnboundUnknown => "unknown"
  end.

(** [RuntimeBinding::Bound]'s fields. *)
Record BoundTo := mkBoundTo {
  container_id : string;
  pod_uid : option string;
  pod_name : option string;
  namespace : option string;
  service_account : option string;
  owner_kind : option string;
  owner_name : option string;
  owner_uid : option string;
  provenance : BindingProvenance
}.

Inductive RuntimeBinding :=
| Bound (b : BoundTo)
| Unbound (reason : UnboundReason).

Definition nonempty (s : string) : bool := negb (bool_decide (s = "")).

(** [opt.filter(|v| !v.is_empty())] *)
Definition nonempty_opt (o : option string) : option string :=
  match o with
  | Some s => if nonempty s then Some s else None
  | None => None
  end.

(** [RuntimeBinding::strong_binding] *)
Definition strong_binding (b : RuntimeBinding) : bool :=
  match b with
  | Bound b => nonempty (container_id b) || bool_decide (is_Some (nonempty_opt (pod_uid b)))
  | Unbound _ => false
  end.

Record EvidenceRecord := mkEvidenceRecord {
  er_observed_at_ns : Z;
  er_pid : Z;
  er_cgroup_id : Z;
  er_probe : ProbeMetadata;
  er_occurrence : Occurrence;
  er_binding : option RuntimeBinding
}.
#[export] Instance eta_EvidenceRecord : Eta EvidenceRecord :=
  fun r => mkEvidenceRecord (er_observed_at_ns r) (er_pid r) (er_cgroup_id r) (er_probe r)
                            (er_occurrence r) (er_binding r).

Inductive EvidenceClass := Reliability | Attribution.
#[export] Instance EvidenceClass_eq_dec : EqDecision EvidenceClass.
Proof. solve_decision. Defined.

(** [EvidenceClass::of] *)
Definition class_of (occurrence_type : string) : EvidenceClass :=
  if bool_decide (occurrence_type = "kernel.tcp.close")
     || bool_decide (occurrence_type = "kernel.tcp.retransmit")
  then Reliability else Attribution.

Definition class_as_str (c : EvidenceClass) : string :=
  match c with
  | Reliability => "reliability"
  | Attribution => "attribution"
  end.

Definition evidence_class (r : EvidenceRecord) : EvidenceClass := class_of (occ_type (er_occurrence r)).

Definition with_runtime_binding (b : RuntimeBinding) (r : EvidenceRecord) : EvidenceRecord :=
  r <| er_binding := Some b |>.

Definition bound_namespace (r : EvidenceRecord) : option string :=
  match er_binding r with
  | Some (Bound b) => namespace b
  | _ => None
  end.

Definition is_agent_record (r : EvidenceRecord) : bool :=
  starts_with (occ_type (er_occurrence r)) "jalki.agent.".

Definition plane_b_drop_reason (r : EvidenceRecord) : option UnboundReason :=
  if is_agent_record r then None else
  match er_binding r with
  | Some b =>
      if strong_binding b then None else
      match b with
      | Unbound reason => Some reason
      | Bound _ => Some UnboundUnknown
      end
  | None => Some UnboundUnknown
  end.

(* ------------------------------------------------------------------ *)
(** ** Projection of a record *)

Definition correlate (key : string) (o : Occurrence) : Occurrence :=
  o <| occ_correlation_keys ::= fun ks => push_unique ks key |>.

(** [if let Some(v) = opt.filter(nonempty) { f(v) }] *)
Definition when_nonempty (v : option string) (f : string -> Occurrence -> Occurrence)
    (o : Occurrence) : Occurrence :=
  match nonempty_opt v with
  | Some s => f s o
  | None => o
  end.

Definition apply_runtime_binding (binding : option RuntimeBinding) (o : Occurrence) : Occurrence :=
  match binding with
  | Some (Bound b) =>
      let o := when_nonempty (Some (container_id b)) (fun c o =>
                 correlate ("k8s_container_id:" +:+ c) (label "k8s_container_id" c o)) o in
      let o := when_nonempty (pod_uid b) (fun u o =>
                 correlate ("k8s_pod_uid:" +:+ u) (label "k8s_pod_uid" u o)) o in
      let o := when_nonempty (pod_name b) (label "k8s_pod_name") o in
      let o := when_nonempty (namespace b) (fun ns o =>
                 correlate ("k8s_namespace:" +:+ ns)
                   (label "k8s_namespace" ns (o <| occ_namespace := Some ns |>))) o in
      let o := when_nonempty (service_account b) (label "k8s_service_account") o in
      let o := when_nonempty (owner_kind b) (label "k8s_owner_kind") o in
      let o := when_nonempty (owner_name b) (label "k8s_owner_name") o in
      let o := when_nonempty (owner_uid b) (fun u o =>
                 correlate ("k8s_owner_uid:" +:+ u) (label "k8s_owner_uid" u o)) o in
      label "evidence_level" (provenance_as_str (provenance b)) o
  | Some (Unbound reason) =>
      label "unbound_reason" (reason_as_str reason) (label "runtime_binding" "unbound" o)
  | None => o
  end.

Section projection.
Variable sha256_hex : list byte -> string.

Definition apply_runtime_subject (o : Occurrence) (producer : ProducerMetadata) : Occurrence :=
  if negb (bool_decide (occ_labels o !! "runtime_identity_method" =
                        Some RUNTIME_SUBJECT_IDENTITY_METHOD)) then o else
  match pm_node_identity producer with
  | None => o
  | Some node_identity =>
  match pm_boot_id producer with
  | None => o
  | Some boot_id =>
  match occ_labels o !! "host_tgid" ≫= parse_uint 32 with
  | None => o
  | Some host_tgid =>
  match occ_labels o !! "leader_start_boottime_ns" ≫= parse_uint 64 with
  | None => o
  | Some start =>
  match RuntimeSubjectV1_new sha256_hex node_identity boot_id host_tgid start with
  | Err _ => o
  | Ok subject =>
      label "runtime_canonicalization_version" (dec (rs_canonicalization_version subject))
        (label "boot_id" (rs_boot_id subject)
          (label "node_identity" (rs_node_identity subject)
            (label "runtime_subject_id" (rs_runtime_subject_id subject) o)))
  end end end end end.

(** [EvidenceRecord::into_occurrence_with_metadata] *)
Definition into_occurrence_with_metadata (r : EvidenceRecord) (producer : ProducerMetadata) : Occurrence :=
  let o := er_occurrence r in
  let o := apply_runtime_binding (er_binding r) o in
  let o := apply_runtime_subject o producer in
  let o := label "producer" (pm_producer producer) o in
  let o := label "producer_version" (pm_producer_version producer) o in
  let o := label "cluster_id" (pm_cluster producer) o in
  let o := label "node_id" (pm_node_id producer) o in
  let o := label "kernel_release" (pm_kernel_release producer) o in
  let o := label "probe_id" (probe_id (er_probe r)) o in
  let o := label "probe_version" (probe_version (er_probe r)) o in
  let o := label "probe_family" (probe_family (er_probe r)) o in
  let o := label "hook_kind" (hook_as_str (hook_kind (er_probe r))) o in
  let o := label "kernel_function" (kernel_function (er_probe r)) o in
  let o := label "observed_at_ns" (dec (er_observed_at_ns r)) o in
  label "schema_version" SCHEMA_VERSION o.

Definition neutralize_for_plane_b (o : Occurrence) : Occurrence :=
  let o := o <| occ_severity := SevInfo |> <| occ_error := None |>
             <| occ_reasoning := None |> <| occ_history := None |> in
  match occ_network_data o with
  | Some network =>
      label "resource_ref_id" (net_dst_ip network +:+ ":" +:+ dec (net_dst_port network))
        (label "resource_ref_kind" "network_endpoint" o)
  | None => o
  end.

(** [EvidenceRecord::into_plane_b_occurrence] *)
Definition into_plane_b_occurrence (r : EvidenceRecord) (producer : ProducerMetadata)
  : option Occurrence :=
  match plane_b_drop_reason r with
  | Some _ => None
  | None => Some (neutralize_for_plane_b (into_occurrence_with_metadata r producer))
  end.
End projection.

(* ------------------------------------------------------------------ *)
(** ** Batches *)

(** [NormalizedEvidence::single] *)
Definition single (r : EvidenceRecord) : list EvidenceRecord := [r].

Record EvidenceBatch := mkEvidenceBatch {
  eb_batch_id : string;
  eb_producer : ProducerMetadata;
  eb_observed_at_min : Z;
  eb_observed_at_max : Z;
  eb_records : list EvidenceRecord
}.

(** The fold of [EvidenceBatch::new] over the observed times. *)
Definition window_step (acc : option (Z * Z)) (ts : Z) : option (Z * Z) :=
  match acc with
  | None => Some (ts, ts)
  | Some (lo, hi) => Some (Z.min lo ts, Z.max hi ts)
  end.

Definition observed_window (records : list EvidenceRecord) : Z * Z :=
  default (0, 0) (foldl window_step None (map er_observed_at_ns records)).

(** [EvidenceBatch::new]; [id] is the fresh batch id. *)
Definition EvidenceBatch_new (id : string) (producer : ProducerMetadata)
    (records : list EvidenceRecord) : EvidenceBatch :=
  {| eb_batch_id := id;
     eb_producer := producer;
     eb_observed_at_min := (observed_window records).1;
     eb_observed_at_max := (observed_window records).2;
     eb_records := records |}.

Definition batch_len (b : EvidenceBatch) : Z := zlen (eb_records b).
Definition batch_is_empty (b : EvidenceBatch) : bool := bool_decide (eb_records b = []).

(** What byte accounting reads from outside the source: a string's allocated capacity, at least
    its length, and the length of an occurrence's JSON text, or [None] when it does not
    serialize. *)
Class ByteModel := {
  capacity : string -> Z;
  occurrence_json_len : Occurrence -> option Z;
  capacity_ge_len s : slen s <= capacity s;
  occurrence_json_len_nonneg o n : occurrence_json_len o = Some n -> 0 <= n
}.

Section bytes.
Context `{ByteModel}.

Definition opt_capacity (o : option string) : Z :=
  match o with Some s => capacity s | None => 0 end.

Definition producer_metadata_bytes (p : ProducerMetadata) : Z :=
  let fixed := zsum capacity [pm_producer p; pm_producer_version p; pm_cluster p; pm_node_id p;
                              pm_kernel_release p] in
  sat_add64 (sat_add64 fixed (opt_capacity (pm_node_identity p))) (opt_capacity (pm_boot_id p)).

Definition binding_metadata_bytes (binding : option RuntimeBinding) : Z :=
  match binding with
  | Some (Bound b) =>
      capacity (container_id b) + opt_capacity (pod_uid b) + opt_capacity (pod_name b)
      + opt_capacity (namespace b) + opt_capacity (service_account b)
  | Some (Unbound _) | None => 0
  end.

Definition record_metadata_bytes (r : EvidenceRecord) : Z :=
  let p := er_probe r in
  let probe := zsum capacity [probe_id p; probe_version p; probe_family p; kernel_function p] in
  sat_add64 probe (binding_metadata_bytes (er_binding r)).

Definition PER_RECORD_OVERHEAD : Z := 256.
Definition FALLBACK_OCCURRENCE_BYTES : Z := 1024.

Definition record_approx_bytes (r : EvidenceRecord) : Z :=
  let occ := default FALLBACK_OCCURRENCE_BYTES (occurrence_json_len (er_occurrence r)) in
  sat_add64 (sat_add64 occ (record_metadata_bytes r)) PER_RECORD_OVERHEAD.

(** [EvidenceBatch::approx_bytes] *)
Definition approx_bytes (b : EvidenceBatch) : Z :=
  foldl (fun sum bytes => sat_add64 sum bytes)
    (sat_add64 128 (producer_metadata_bytes (eb_producer b)))
    (map record_approx_bytes (eb_records b)).
End bytes.

Section batch_projection.
Variable sha256_hex : list byte -> string.

(** [EvidenceBatch::into_occurrences] *)
Definition into_occurrences (b : EvidenceBatch) : list Occurrence :=
  map (fun r => into_occurrence_with_metadata sha256_hex r (eb_producer b)) (eb_records b).

Record PlaneBProjection := mkPlaneBProjection {
  pb_occurrences : list Occurrence;
  pb_dropped_unbound : gmap UnboundReason Z
}.

(** One iteration of [into_plane_b_projection]'s loop. *)
Definition plane_b_step (producer : ProducerMetadata) (acc : PlaneBProjection) (r : EvidenceRecord)
  : PlaneBProjection :=
  match plane_b_drop_reason r with
  | Some reason =>
      mkPlaneBProjection (pb_occurrences acc)
        (<[reason := default 0 (pb_dropped_unbound acc !! reason) + 1]> (pb_dropped_unbound acc))
  | None =>
      match into_plane_b_occurrence sha256_hex r producer with
      | Some o => mkPlaneBProjection (pb_occurrences acc ++ [o]) (pb_dropped_unbound acc)
      | None => acc
      end
  end.

(** [EvidenceBatch::into_plane_b_projection] *)
Definition into_plane_b_projection (b : EvidenceBatch) : PlaneBProjection :=
  foldl (plane_b_step (eb_producer b)) (mkPlaneBProjection [] ∅) (eb_records b).

(** [EvidenceBatch::into_plane_b_occurrences] *)
Definition into_plane_b_occurrences (b : EvidenceBatch) : list Occurrence :=
  pb_occurrences (into_plane_b_projection b).
End batch_projection.

(* ------------------------------------------------------------------ *)
(** ** Lemmas: byte accounting *)

(** Every string measured by its length: the smallest model, used to evaluate examples. *)
#[export] Program Instance exact_bytes : ByteModel := {|
  capacity := slen;
  occurrence_json_len o := Some (slen (occ_source o) + slen (occ_type o) + slen (occ_cluster o))
|}.
Next Obligation. cbn. lia. Qed.
Next Obligation. cbn. intros o n [= <-]. unfold slen. lia. Qed.

Section bytes_lemmas.
Context `{ByteModel}.

Lemma capacity_nonneg s : 0 <= capacity s.
Proof. pose proof (capacity_ge_len s). pose proof (slen_nonneg s). lia. Qed.

Lemma opt_capacity_nonneg o : 0 <= opt_capacity o.
Proof. destruct o; cbn; [apply capacity_nonneg|lia]. Qed.

Lemma zsum_capacity_nonneg l : 0 <= zsum capacity l.
Proof. apply zsum_nonneg. intros. apply capacity_nonneg. Qed.

Lemma foldl_sat_add_is_u64 l acc :
  (forall x, x ∈ l -> 0 <= x) -> is_u64 acc -> is_u64 (foldl sat_add64 acc l).
Proof.
  revert acc. induction l as [|x l IH]; intros acc Hl Ha; cbn; [done|].
  apply IH; [set_solver|]. apply sat_add64_is_u64; [word|set_solver].
Qed.

Lemma binding_metadata_bytes_nonneg b : 0 <= binding_metadata_bytes b.
Proof.
  destruct b as [[b|]|]; cbn; try lia.
  pose proof (capacity_nonneg (container_id b)). pose proof (opt_capacity_nonneg (pod_uid b)).
  pose proof (opt_capacity_nonneg (pod_name b)). pose proof (opt_capacity_nonneg (namespace b)).
  pose proof (opt_capacity_nonneg (service_account b)). lia.
Qed.

Lemma record_approx_bytes_nonneg r : 0 <= record_approx_bytes r.
Proof.
  unfold record_approx_bytes, record_metadata_bytes. cbv zeta.
  pose proof (binding_metadata_bytes_nonneg (er_binding r)).
  match goal with |- context [zsum capacity ?l] => pose proof (zsum_capacity_nonneg l) end.
  assert (0 <= default FALLBACK_OCCURRENCE_BYTES (occurrence_json_len (er_occurrence r))).
  { destruct (occurrence_json_len (er_occurrence r)) as [n|] eqn:E; cbn.
    - by eapply occurrence_json_len_nonneg.
    - unfold FALLBACK_OCCURRENCE_BYTES. lia. }
  unfold PER_RECORD_OVERHEAD. word.
Qed.

(** The estimate never leaves the [usize] range, whatever the strings measure. *)
Lemma approx_bytes_is_u64 b : is_u64 (approx_bytes b).
Proof.
  unfold approx_bytes. apply foldl_sat_add_is_u64.
  - intros x. rewrite list_elem_of_fmap. intros (r & -> & _). apply record_approx_bytes_nonneg.
  - unfold producer_metadata_bytes. cbv zeta.
    pose proof (zsum_capacity_nonneg
      [pm_producer (eb_producer b); pm_producer_version (eb_producer b); pm_cluster (eb_producer b);
       pm_node_id (eb_producer b); pm_kernel_release (eb_producer b)]).
    pose proof (opt_capacity_nonneg (pm_node_identity (eb_producer b))).
    pose proof (opt_capacity_nonneg (pm_boot_id (eb_producer b))). word.
Qed.
End bytes_lemmas.
#[export] Hint Resolve approx_bytes_is_u64 : jalki.

(* ------------------------------------------------------------------ *)
(** ** Lemmas: windows *)

Lemma window_fold_some l lo hi :
  exists lo' hi', foldl window_step (Some (lo, hi)) l = Some (lo', hi') /\
    lo' <= lo /\ hi <= hi' /\ Forall (fun t => lo' <= t <= hi') l /\
    (lo' = lo \/ lo' ∈ l) /\ (hi' = hi \/ hi' ∈ l).
Proof.
  revert lo hi. induction l as [|t l IH]; intros lo hi; cbn.
  { exists lo, hi. split_and!; auto; lia. }
  destruct (IH (Z.min lo t) (Z.max hi t)) as (lo' & hi' & -> & Hl & Hh & Hf & Hml & Hmh).
  exists lo', hi'. split_and!; [done|lia|lia|constructor; [lia|done]|..].
  - destruct Hml as [->|]; [|by right; right].
    destruct (Z.min_spec lo t) as [[_ ->]|[_ ->]]; [by left|by right; left].
  - destruct Hmh as [->|]; [|by right; right].
    destruct (Z.max_spec hi t) as [[_ ->]|[_ ->]]; [by right; left|by left].
Qed.

(** The window of a non-empty batch is the exact hull of its records' observed times. *)
Lemma observed_window_spec records :
  records <> [] ->
  let '(lo, hi) := observed_window records in
  lo ∈ map er_observed_at_ns records /\ hi ∈ map er_observed_at_ns records /\
  forall r, r ∈ records -> lo <= er_observed_at_ns r <= hi.
Proof.
  destruct records as [|r0 rs]; [done|]. intros _. unfold observed_window. cbn [map foldl window_step].
  destruct (window_fold_some (map er_observed_at_ns rs) (er_observed_at_ns r0) (er_observed_at_ns r0))
    as (lo & hi & -> & Hl & Hh & Hf & Hml & Hmh). cbn.
  split_and!.
  - destruct Hml as [->|]; [by left|by right].
  - destruct Hmh as [->|]; [by left|by right].
  - intros r [->|Hr]%elem_of_cons; [lia|]. rewrite Forall_forall in Hf. apply Hf.
    apply list_elem_of_fmap. eauto.
Qed.

(* ------------------------------------------------------------------ *)
(** ** Lemmas: labels *)

Lemma label_lookup k v o : occ_labels (label k v o) !! k = Some v.
Proof. apply lookup_insert_eq. Qed.

Lemma label_lookup_ne k k' v o : k <> k' -> occ_labels (label k v o) !! k' = occ_labels o !! k'.
Proof. intros. by apply lookup_insert_ne. Qed.

(** What the binding, the subject and the metadata leave alone: everything but the labels, the
    correlation keys and the namespace. *)
Definition same_but_labels (o o' : Occurrence) : Prop :=
  (o' <| occ_labels := occ_labels o |> <| occ_correlation_keys := occ_correlation_keys o |>
      <| occ_namespace := occ_namespace o |>) = o.

#[export] Instance same_but_labels_preorder : PreOrder same_but_labels.
Proof.
  split.
  - by intros [].
  - intros o1 o2 o3 H1 H2. unfold same_but_labels in *.
    etrans; [|exact H1]. rewrite <- H2. done.
Qed.

Lemma same_label k v o : same_but_labels o (label k v o).
Proof. by destruct o. Qed.
Lemma same_correlate k o : same_but_labels o (correlate k o).
Proof. by destruct o. Qed.
Lemma same_namespace ns o : same_but_labels o (o <| occ_namespace := Some ns |>).
Proof. by destruct o. Qed.

Lemma same_when_nonempty v f o :
  (forall s o, same_but_labels o (f s o)) -> same_but_labels o (when_nonempty v f o).
Proof. intros Hf. unfold when_nonempty. destruct (nonempty_opt v); [apply Hf|done]. Qed.

#[export] Hint Resolve same_label same_correlate same_namespace same_when_nonempty : jalki.

Ltac same_step :=
  lazymatch goal with
  | |- same_but_labels _ (label _ _ _) => etrans; [|apply same_label]
  | |- same_but_labels _ (correlate _ _) => etrans; [|apply same_correlate]
  | |- same_but_labels _ (set occ_namespace _ _) => etrans; [|apply same_namespace]
  | |- same_but_labels _ (when_nonempty _ _ _) => etrans; [|apply same_when_nonempty; intros; cbv beta]
  end.

Lemma same_apply_runtime_binding b o : same_but_labels o (apply_runtime_binding b o).
Proof.
  destruct b as [[b|r]|]; cbn [apply_runtime_binding]; cbv zeta; repeat same_step; reflexivity.
Qed.

Lemma same_apply_runtime_subject sha o p : same_but_labels o (apply_runtime_subject sha o p).
Proof.
  unfold apply_runtime_subject. repeat (case_match; try reflexivity). repeat same_step; reflexivity.
Qed.

Lemma into_occurrence_with_metadata_same sha r p :
  same_but_labels (er_occurrence r) (into_occurrence_with_metadata sha r p).
Proof.
  unfold into_occurrence_with_metadata. cbv zeta. repeat same_step.
  etrans; [|apply same_apply_runtime_subject]. apply same_apply_runtime_binding.
Qed.

(** The projection of a record is authoritative: whatever labels the occurrence, its binding
    or the subject carried, the twelve metadata labels end up with the values of the producer,
    the probe and the record, and nothing but labels, correlation keys and the namespace is
    changed. *)
Theorem into_occurrence_with_metadata_authoritative sha r p :
  let o := into_occurrence_with_metadata sha r p in
  Forall (fun kv => occ_labels o !! kv.1 = Some kv.2)
    [("producer", pm_producer p); ("producer_version", pm_producer_version p);
     ("cluster_id", pm_cluster p); ("node_id", pm_node_id p);
     ("kernel_release", pm_kernel_release p); ("probe_id", probe_id (er_probe r));
     ("probe_version", probe_version (er_probe r)); ("probe_family", probe_family (er_probe r));
     ("hook_kind", hook_as_str (hook_kind (er_probe r)));
     ("kernel_function", kernel_function (er_probe r));
     ("observed_at_ns", dec (er_observed_at_ns r)); ("schema_version", SCHEMA_VERSION)] /\
  same_but_labels (er_occurrence r) o.
Proof.
  cbv zeta. split.
  - unfold into_occurrence_with_metadata. cbv zeta. repeat apply Forall_cons_2; [..|apply Forall_nil_2]; cbn [fst snd];
      repeat (rewrite label_lookup_ne by done); apply label_lookup.
  - apply into_occurrence_with_metadata_same.
Qed.

(** The Plane-B projection lets a record through exactly when it is one of the agent's own or
    is strongly bound, and what it lets through carries no local interpretation: severity [Info]
    and no error, reasoning or history block, with the network endpoint as its resource when
    there is one. *)
Theorem into_plane_b_occurrence_iff sha r p :
  (is_Some (into_plane_b_occurrence sha r p) <->
     is_agent_record r = true \/ exists b, er_binding r = Some b /\ strong_binding b = true) /\
  forall o, into_plane_b_occurrence sha r p = Some o ->
    occ_severity o = SevInfo /\ occ_error o = None /\ occ_reasoning o = None /\ occ_history o = None /\
    occ_type o = occ_type (er_occurrence r) /\
    forall n, occ_network_data o = Some n ->
      occ_labels o !! "resource_ref_kind" = Some "network_endpoint" /\
      occ_labels o !! "resource_ref_id" = Some (net_dst_ip n +:+ ":" +:+ dec (net_dst_port n)).
Proof.
  split.
  - unfold into_plane_b_occurrence, plane_b_drop_reason. destruct (is_agent_record r).
    { split; [by left|by eauto]. }
    destruct (er_binding r) as [b|]; [destruct (strong_binding b) eqn:Hb|].
    + split; [right; by exists b|by eauto].
    + split; [destruct b; by intros [? ?]|]. intros [|(? & [= <-] & ?)]; congruence.
    + split; [by intros [? ?]|]. intros [|(? & ? & ?)]; done.
  - intros o. unfold into_plane_b_occurrence. destruct (plane_b_drop_reason r); [done|].
    intros [= <-]. pose proof (into_occurrence_with_metadata_same sha r p) as Hs.
    destruct (into_occurrence_with_metadata sha r p) as [] eqn:E, (er_occurrence r) as [] eqn:E'.
    injection Hs as ->; subst. unfold neutralize_for_plane_b. cbn.
    case_match; cbn; split_and!; try done. intros nd [= <-].
    split; [by rewrite lookup_insert_ne, lookup_insert_eq|by rewrite lookup_insert_eq].
Qed.

Definition dropped_for (reason : UnboundReason) (records : list EvidenceRecord) : Z :=
  zlen (filter (fun r => plane_b_drop_reason r = Some reason) records).

Lemma plane_b_fold sha p records acc :
  let pb := foldl (plane_b_step sha p) acc records in
  pb_occurrences pb = pb_occurrences acc ++ omap (fun r => into_plane_b_occurrence sha r p) records /\
  forall reason, default 0 (pb_dropped_unbound pb !! reason) =
    default 0 (pb_dropped_unbound acc !! reason) + dropped_for reason records.
Proof.
  cbv zeta. revert acc. induction records as [|r rs IH]; intros acc.
  { split; [by rewrite app_nil_r|]. intros. unfold dropped_for. rewrite filter_nil.
    cbn [foldl]. change (zlen []) with 0. lia. }
  cbn [foldl]. destruct (IH (plane_b_step sha p acc r)) as [Ho Hd].
  rewrite Ho. setoid_rewrite Hd. clear IH Ho Hd.
  unfold plane_b_step, into_plane_b_occurrence. cbn [omap list_omap]. unfold dropped_for.
  destruct (plane_b_drop_reason r) as [reason0|] eqn:E; cbn [pb_occurrences pb_dropped_unbound].
  - split; [done|]. intros reason. rewrite filter_cons, E.
    destruct (decide (reason0 = reason)) as [->|Hne].
    + rewrite lookup_insert_eq, decide_True by done. rewrite zlen_cons. cbn [default from_option id]. lia.
    + rewrite lookup_insert_ne, decide_False by congruence. done.
  - split; [by rewrite <- app_assoc|]. intros reason. by rewrite filter_cons, E, decide_False.
Qed.

(** [into_plane_b_projection] loses nothing silently: the occurrences are exactly the
    admissible records' projections in order, the count of every drop reason is the number of
    records refused for it, and the two together account for every record of the batch. *)
Theorem into_plane_b_projection_accounts sha b :
  let pb := into_plane_b_projection sha b in
  let dropped reason := default 0 (pb_dropped_unbound pb !! reason) in
  pb_occurrences pb = omap (fun r => into_plane_b_occurrence sha r (eb_producer b)) (eb_records b) /\
  (forall reason, dropped reason = dropped_for reason (eb_records b)) /\
  zlen (pb_occurrences pb) +
    zsum dropped [HostProcess; CacheMiss; NoCgroup; UnboundUnknown] = batch_len b.
Proof.
  cbv zeta. unfold into_plane_b_projection, batch_len.
  destruct (plane_b_fold sha (eb_producer b) (eb_records b) (mkPlaneBProjection [] ∅)) as [Ho Hd].
  rewrite Ho. cbn [pb_occurrences app pb_dropped_unbound] in *.
  assert (forall reason, default 0 (pb_dropped_unbound
    (foldl (plane_b_step sha (eb_producer b)) (mkPlaneBProjection [] ∅) (eb_records b)) !! reason) =
    dropped_for reason (eb_records b)) as Hd'.
  { intros. by rewrite Hd, lookup_empty. }
  split_and!; [done|done|]. rewrite (zsum_ext _ (fun r => dropped_for r (eb_records b))) by auto.
  unfold dropped_for. clear. induction (eb_records b) as [|r rs IH]; [done|].
  rewrite zlen_cons, <- IH. rewrite !zsum_cons, !zsum_nil. rewrite !filter_cons, omap_list_cons.
  unfold into_plane_b_occurrence at 1.
  destruct (plane_b_drop_reason r) as [[]|]; repeat case_decide; try congruence;
    rewrite ?zlen_cons; lia.
Qed.
