(* ===== verification/Samples.v ===== *)
(** Concrete values the witnesses of the components share: one record of each evidence class and
    the batches made of them. *)
From S2P Require Import Prelude Protocol Evidence.

Definition sample_producer : ProducerMetadata := ProducerMetadata_new "0.1.0" "cluster-a" "node-1" "6.8.0".

Definition sample_probe : ProbeMetadata := mkProbeMetadata "exec" "1" "process" Fentry "bprm_execve".

Definition sample_record (type : string) (at_ns : Z) : EvidenceRecord :=
  {| er_observed_at_ns := at_ns;
     er_pid := 42;
     er_cgroup_id := 7;
     er_probe := sample_probe;
     er_occurrence := in_cluster "cluster-a" (Occurrence_new "01J" at_ns "jalki/bpf" type);
     er_binding := None |}.

Definition sample_attribution : EvidenceRecord := sample_record "kernel.process.exec" 100.
Definition sample_reliability : EvidenceRecord := sample_record "kernel.tcp.retransmit" 200.

Definition sample_batch (id : string) (records : list EvidenceRecord) : EvidenceBatch :=
  EvidenceBatch_new id sample_producer records.

Example sample_classes :
  (evidence_class sample_attribution, evidence_class sample_reliability) = (Attribution, Reliability).
Proof. reflexivity. Qed.
