(* ===== verification/Sink.v ===== *)
(** The sink seam ([jalki-evidence/src/sink.rs]): errors, results, NDJSON encoding, and the
    Plane-B pipeline sink over an injected client. Serialization ([serde_json::to_vec]) and the
    client's reply are parameters. *)
From Stdlib Require Import Strings.Byte.
From S2P Require Import Prelude Protocol Evidence Samples.

Record AppendResult := mkAppendResult {
  ar_accepted_count : Z;
  ar_rejected_count : Z;
  ar_sink_name : string;
  ar_watermark : option string;
  ar_warnings : list string
}.

#[export] Instance eta_AppendResult : Eta AppendResult :=
  fun r => mkAppendResult (ar_accepted_count r) (ar_rejected_count r) (ar_sink_name r)
                          (ar_watermark r) (ar_warnings r).

(** [AppendResult::accepted] *)
Definition AppendResult_accepted (sink_name : string) (accepted_count : Z) : AppendResult :=
  mkAppendResult accepted_count 0 sink_name None [].

Inductive HealthStatus :=
| Healthy
| Degraded (reason : string)
| Unhealthy (reason : string).

Definition is_healthy (h : HealthStatus) : bool :=
  match h with Healthy => true | _ => false end.

Inductive SinkError :=
| Unavailable (sink message : string)
| Timeout (sink message : string)
| InvalidRecord (sink message : string)
| Rejected (sink message : string)
| Backpressure (sink message : string)
| Unauthorized (sink message : string)
| Misconfigured (sink message : string)
| PartialFailure (sink : string) (accepted_count rejected_count : Z) (message : string)
| Unsupported (sink message : string).
#[export] Instance SinkError_eq_dec : EqDecision SinkError.
Proof. solve_decision. Defined.

(** [SinkError::sink_name] *)
Definition sink_name (e : SinkError) : string :=
  match e with
  | Unavailable s _ | Timeout s _ | InvalidRecord s _ | Rejected s _ | Backpressure s _
  | Unauthorized s _ | Misconfigured s _ | PartialFailure s _ _ _ | Unsupported s _ => s
  end.

(** The [Display] of [SinkError] ([#[error(..)]]). *)
Definition SinkError_display (e : SinkError) : string :=
  let sink := "sink " +:+ sink_name e in
  match e with
  | Unavailable _ m => sink +:+ " unavailable: " +:+ m
  | Timeout _ m => sink +:+ " timed out: " +:+ m
  | InvalidRecord _ m => sink +:+ " rejected invalid record: " +:+ m
  | Rejected _ m => sink +:+ " rejected batch: " +:+ m
  | Backpressure _ m => sink +:+ " is under backpressure: " +:+ m
  | Unauthorized _ m => sink +:+ " unauthorized: " +:+ m
  | Misconfigured _ m => sink +:+ " misconfigured: " +:+ m
  | PartialFailure _ accepted rejected m =>
      sink +:+ " partially failed: accepted " +:+ dec accepted +:+ ", rejected " +:+ dec rejected +:+ ": " +:+ m
  | Unsupported _ m => sink +:+ " unsupported: " +:+ m
  end.

(** [PipelineResponse] and [PipelineError] *)
Record PipelineResponse := mkPipelineResponse {
  pr_accepted_count : Z;
  pr_rejected_count : Z;
  pr_checkpoint : option string;
  pr_warnings : list string
}.

Inductive PipelineError :=
| PipelineUnavailable (message : string)
| PipelineTimeout (message : string)
| PipelineBackpressure (message : string)
| PipelineUnauthorized (message : string)
| PipelineRejected (message : string)
| PipelineInvalidRecord (message : string)
| PipelineMisconfigured (message : string).

Definition pipeline_error_to_sink_error (sink : string) (e : PipelineError) : SinkError :=
  match e with
  | PipelineUnavailable m => Unavailable sink m
  | PipelineTimeout m => Timeout sink m
  | PipelineBackpressure m => Backpressure sink m
  | PipelineUnauthorized m => Unauthorized sink m
  | PipelineRejected m => Rejected sink m
  | PipelineInvalidRecord m => InvalidRecord sink m
  | PipelineMisconfigured m => Misconfigured sink m
  end.

Section encode.
(** [serde_json::to_vec], with the error's text. *)
Variable to_vec : Occurrence -> result string (list byte).
Variable sha256_hex : list byte -> string.

(** The loop both encoders share. *)
Fixpoint encode_lines (sink : string) (occs : list Occurrence) : result SinkError (list byte) :=
  match occs with
  | [] => Ok []
  | o :: rest =>
      match to_vec o with
      | Err e => Err (InvalidRecord sink e)
      | Ok json => lines <-? encode_lines sink rest;; Ok (json ++ [x0a] ++ lines)
      end
  end.

Definition encode_ndjson (b : EvidenceBatch) (sink : string) : result SinkError (list byte * Z) :=
  let occurrences := into_occurrences sha256_hex b in
  lines <-? encode_lines sink occurrences;; Ok (lines, zlen occurrences).

(** [projection.dropped_unbound.values().sum()] *)
Definition dropped_total (d : gmap UnboundReason Z) : Z := zsum snd (map_to_list d).

Definition encode_plane_b_ndjson (b : EvidenceBatch) (sink : string)
  : result SinkError (list byte * Z * Z) :=
  let projection := into_plane_b_projection sha256_hex b in
  lines <-? encode_lines sink (pb_occurrences projection);;
  Ok (lines, zlen (pb_occurrences projection), dropped_total (pb_dropped_unbound projection)).

(** [PipelineSink::append_batch]; [post] is the client's reply to the body. *)
Definition pipeline_append_batch (name : string)
    (post : list byte -> result PipelineError PipelineResponse) (b : EvidenceBatch)
  : result SinkError AppendResult :=
  enc <-? encode_plane_b_ndjson b name;;
  let '(body, projected_count, dropped_unbound) := enc in
  match post body with
  | Err e => Err (pipeline_error_to_sink_error name e)
  | Ok response =>
      let warnings :=
        if 0 <? dropped_unbound
        then pr_warnings response ++
             ["dropped " +:+ dec dropped_unbound +:+ " unbound record(s) from Plane B"]
        else pr_warnings response in
      let accepted_count := Z.min (pr_accepted_count response) projected_count in
      let rejected_count := add64 (pr_rejected_count response) dropped_unbound in
      if 0 <? pr_rejected_count response
      then Err (PartialFailure name accepted_count rejected_count
                  "pipeline rejected some projected records")
      else Ok (mkAppendResult accepted_count rejected_count name (pr_checkpoint response) warnings)
  end.
End encode.

(* ------------------------------------------------------------------ *)
(** ** The sinks of this crate, over a shared world *)

(** A sink is what [trait EvidenceSink] asks for, over the world [W] its I/O changes. *)
Record EvidenceSink (W : Type) := mkEvidenceSink {
  sink_name_of : string;
  append_batch : EvidenceBatch -> W -> result SinkError AppendResult * W;
  sink_health : W -> HealthStatus * W
}.
#[global] Arguments mkEvidenceSink {W}.
#[global] Arguments sink_name_of {W}.
#[global] Arguments append_batch {W}.
#[global] Arguments sink_health {W}.

Section sinks.
Context {W : Type}.
Variable to_vec : Occurrence -> result string (list byte).
Variable sha256_hex : list byte -> string.

(** An I/O call: its error text or its value, and the world after it. *)
Definition io (A : Type) : Type := W -> result string A * W.

(** [.map_err(|e| SinkError::Unavailable { sink, message: e.to_string() })?] *)
Definition io_try {A B} (sink : string) (call : io A)
    (k : A -> W -> result SinkError B * W) : W -> result SinkError B * W :=
  fun w => match call w with
           | (Ok a, w') => k a w'
           | (Err e, w') => (Err (Unavailable sink e), w')
           end.

(** [StdoutSink] *)
Definition StdoutSink (write_all : list byte -> io unit) (flush : io unit) : EvidenceSink W := {|
  sink_name_of := "stdout";
  append_batch b w :=
    match encode_ndjson to_vec sha256_hex b "stdout" with
    | Err e => (Err e, w)
    | Ok (bytes, count) =>
        io_try "stdout" (write_all bytes) (fun _ =>
        io_try "stdout" flush (fun _ w =>
        (Ok (AppendResult_accepted "stdout" count), w))) w
    end;
  sink_health w := (Healthy, w)
|}.

(** [FileSink]; opening, writing and flushing are [tokio::fs]'s. *)
Definition FileSink (path : string) (open_append : string -> io unit)
    (write_all : list byte -> io unit) (flush : io unit) : EvidenceSink W := {|
  sink_name_of := "file";
  append_batch b w :=
    match encode_ndjson to_vec sha256_hex b "file" with
    | Err e => (Err e, w)
    | Ok (bytes, count) =>
        io_try path (open_append path) (fun _ =>
        io_try path (write_all bytes) (fun _ =>
        io_try path flush (fun _ w =>
        (Ok (AppendResult_accepted "file" count), w)))) w
    end;
  sink_health w :=
    match open_append path w with
    | (Ok _, w') => (Healthy, w')
    | (Err e, w') => (Unhealthy e, w')
    end
|}.

(** One secondary of [CompositeSink::append_batch]'s loop. *)
Definition composite_step (b : EvidenceBatch) (acc : AppendResult * W) (secondary : EvidenceSink W)
  : AppendResult * W :=
  match append_batch secondary b acc.2 with
  | (Err err, w) =>
      let warning := "secondary sink " +:+ sink_name_of secondary +:+ " failed: " +:+ SinkError_display err in
      (acc.1 <| ar_warnings := ar_warnings acc.1 ++ [warning] |>, w)
  | (Ok _, w) => (acc.1, w)
  end.

Definition composite_append (primary : EvidenceSink W) (secondaries : list (EvidenceSink W))
    (b : EvidenceBatch) (w : W) : result SinkError AppendResult * W :=
  match append_batch primary b w with
  | (Err e, w') => (Err e, w')
  | (Ok result, w') =>
      let result := result <| ar_sink_name := "composite" |> in
      let '(result, w'') := foldl (composite_step b) (result, w') secondaries in
      (Ok result, w'')
  end.

(** The loop of [CompositeSink::health]; [debug] is [{:?}] of a health status. *)
Definition composite_health_step (debug : HealthStatus -> string) (acc : list string * W)
    (secondary : EvidenceSink W) : list string * W :=
  let '(health, w) := sink_health secondary acc.2 in
  (if is_healthy health then acc.1 else acc.1 ++ [sink_name_of secondary +:+ ": " +:+ debug health], w).

Definition composite_health (debug : HealthStatus -> string) (primary : EvidenceSink W)
    (secondaries : list (EvidenceSink W)) (w : W) : HealthStatus * W :=
  let '(health, w) := sink_health primary w in
  let '(warnings, w) := foldl (composite_health_step debug) ([], w) secondaries in
  (match health with
   | Healthy => if bool_decide (warnings = []) then Healthy
                else Degraded ("secondary sinks degraded: " +:+ String.concat "; " warnings)
   | Degraded reason => Degraded ("primary degraded: " +:+ reason)
   | Unhealthy reason => Unhealthy ("primary unhealthy: " +:+ reason)
   end, w).

(** [CompositeSink] *)
Definition CompositeSink (debug : HealthStatus -> string) (primary : EvidenceSink W)
    (secondaries : list (EvidenceSink W)) : EvidenceSink W := {|
  sink_name_of := "composite";
  append_batch := composite_append primary secondaries;
  sink_health := composite_health debug primary secondaries
|}.
End sinks.

(* ------------------------------------------------------------------ *)
(** ** Properties *)

Section sink_properties.
Context {W : Type}.

(** The world after every secondary of the list was handed the batch, in order. *)
Definition world_after (b : EvidenceBatch) (sinks : list (EvidenceSink W)) (w : W) : W :=
  foldl (fun w s => (append_batch s b w).2) w sinks.

Lemma composite_fold b secondaries r w :
  exists failures,
    foldl (composite_step b) (r, w) secondaries =
      (r <| ar_warnings := ar_warnings r ++ failures |>, world_after b secondaries w) /\
    (length failures <= length secondaries)%nat.
Proof.
  revert r w. induction secondaries as [|s rest IH]; intros r w; cbn [foldl].
  { exists []. rewrite app_nil_r. by destruct r. }
  unfold composite_step at 2, world_after. cbn [fst snd foldl].
  destruct (append_batch s b w) as [[a|e] w'] eqn:E; cbn [snd fst].
  - destruct (IH r w') as (fs & Hf & Hl). exists fs. split; [exact Hf|cbn; lia].
  - match goal with |- context [foldl _ (?r', w') rest] => destruct (IH r' w') as (fs & Hf & Hl) end.
    rewrite Hf. eexists (_ :: fs). split; [|cbn; lia]. cbn. by rewrite <- app_assoc.
Qed.

(** The composite sink's verdict is its primary's. A primary failure is returned as it is
    and no secondary sees the batch; when the primary accepts, its counts and watermark are
    returned, every secondary is handed the batch in order whether or not earlier ones failed,
    and a failing secondary costs at most one appended warning. *)
Theorem composite_append_primary_decides (primary : EvidenceSink W) secondaries b w :
  match append_batch primary b w with
  | (Err e, w') => composite_append primary secondaries b w = (Err e, w')
  | (Ok r, w') => exists failures,
      composite_append primary secondaries b w =
        (Ok (mkAppendResult (ar_accepted_count r) (ar_rejected_count r) "composite"
               (ar_watermark r) (ar_warnings r ++ failures)),
         world_after b secondaries w') /\
      (length failures <= length secondaries)%nat
  end.
Proof.
  unfold composite_append. destruct (append_batch primary b w) as [[r|e] w']; [|done].
  destruct (composite_fold b secondaries (r <| ar_sink_name := "composite" |>) w') as (fs & Hf & Hl).
  exists fs. rewrite Hf. done.
Qed.
End sink_properties.

Lemma dropped_total_step reason (d : gmap UnboundReason Z) :
  dropped_total (<[reason := default 0 (d !! reason) + 1]> d) = dropped_total d + 1.
Proof. apply map_total_step. Qed.

(** The projection and its refusals account for the batch. *)
Lemma plane_b_total sha p records acc :
  let pb := foldl (plane_b_step sha p) acc records in
  zlen (pb_occurrences pb) + dropped_total (pb_dropped_unbound pb) =
    zlen (pb_occurrences acc) + dropped_total (pb_dropped_unbound acc) + zlen records /\
  dropped_total (pb_dropped_unbound acc) <= dropped_total (pb_dropped_unbound pb).
Proof.
  cbv zeta. revert acc. induction records as [|r rs IH]; intros acc; cbn [foldl].
  { change (zlen []) with 0. lia. }
  specialize (IH (plane_b_step sha p acc r)) as [IH1 IH2].
  rewrite IH1, zlen_cons. clear IH1. revert IH2. unfold plane_b_step, into_plane_b_occurrence.
  destruct (plane_b_drop_reason r) as [reason|]; cbn [pb_occurrences pb_dropped_unbound]; intros.
  - rewrite dropped_total_step in *. lia.
  - rewrite zlen_app, zlen_cons. change (zlen []) with 0. lia.
Qed.

Section pipeline_properties.
Variable to_vec : Occurrence -> result string (list byte).
Variable sha256_hex : list byte -> string.

(** The pipeline sink's accounting. On success the acknowledged count never exceeds what
    was projected, the rejected count is exactly the batch's unbound records, and a full
    acknowledgement accounts for every record of the batch; a reply with rejections is always
    an error. *)
Theorem pipeline_append_accounts name post b r :
  batch_len b <= u64_max ->
  (forall body response, post body = Ok response -> 0 <= pr_rejected_count response) ->
  pipeline_append_batch to_vec sha256_hex name post b = Ok r ->
  exists body response,
    post body = Ok response /\
    pr_rejected_count response = 0 /\
    ar_accepted_count r = Z.min (pr_accepted_count response)
                            (zlen (into_plane_b_occurrences sha256_hex b)) /\
    ar_rejected_count r = batch_len b - zlen (into_plane_b_occurrences sha256_hex b) /\
    ar_watermark r = pr_checkpoint response.
Proof.
  intros Hlen Hpos. unfold pipeline_append_batch, encode_plane_b_ndjson.
  destruct (encode_lines to_vec name _) as [lines|e]; [|done]. cbn [result_bind].
  set (pb := into_plane_b_projection sha256_hex b).
  pose proof (plane_b_total sha256_hex (eb_producer b) (eb_records b) (mkPlaneBProjection [] ∅)) as [Hacc Hd].
  fold (into_plane_b_projection sha256_hex b) pb (batch_len b) in Hacc, Hd.
  cbn [pb_dropped_unbound pb_occurrences] in Hacc, Hd. change (zlen []) with 0 in Hacc.
  change (dropped_total ∅) with 0 in Hacc, Hd.
  destruct (post lines) as [response|e] eqn:Hpost; [|done].
  destruct (0 <? pr_rejected_count response) eqn:Hrej; [done|]. intros [= <-].
  bool_hyps. pose proof (Hpos _ _ Hpost). assert (pr_rejected_count response = 0) as Hz by lia.
  pose proof (zlen_nonneg (pb_occurrences pb)).
  exists lines, response. cbn. unfold into_plane_b_occurrences. fold pb.
  split_and!; [done|done|done| |done]. rewrite Hz, add64_small by word. lia.
Qed.

End pipeline_properties.

(** A client that acknowledges everything, and a batch whose two records are both unbound. *)
Definition w_ack_all (body : list byte) : result PipelineError PipelineResponse :=
  Ok (mkPipelineResponse 5 0 (Some "cp-1") []).

Lemma pipeline_append_accounts_witness :
  let b := sample_batch "b" [sample_attribution; sample_reliability] in
  exists r, pipeline_append_batch (fun _ => Ok []) (fun _ => "") "vartio" w_ack_all b = Ok r /\
    ar_accepted_count r = 0 /\ ar_rejected_count r = 2 /\
    exists body response, w_ack_all body = Ok response /\ pr_rejected_count response = 0.
Proof.
  cbv zeta. eexists. split; [by vm_compute|]. split; [done|]. split; [done|].
  destruct (pipeline_append_accounts (fun _ => Ok []) (fun _ => "") "vartio" w_ack_all
    (sample_batch "b" [sample_attribution; sample_reliability])
    (mkAppendResult 0 2 "vartio" (Some "cp-1") ["dropped 2 unbound record(s) from Plane B"]))
    as (body & response & H1 & H2 & _); [by vm_compute|by intros ? ? [= <-]|by vm_compute|].
  by exists body, response.
Defined.
