(* ===== verification/Gap.v ===== *)
(** Gap reports: evidence about evidence that was lost ([GapReport] and its constructors in
    [jalki-evidence/src/retry.rs], and [merge_by_cause] of [jalki/src/sink_queue.rs]). *)
From S2P Require Import Prelude Protocol Evidence.

Record GapReport := mkGapReport {
  gap_cause : string;
  gap_affected_probes : list string;
  gap_dropped_records : Z;
  gap_start_ns : Z;
  gap_end_ns : Z;
  gap_dropped_reliability : Z;
  gap_dropped_attribution : Z
}.
#[export] Instance GapReport_eq_dec : EqDecision GapReport.
Proof. solve_decision. Defined.

(** [GapReport::has_window] *)
Definition has_window (g : GapReport) : bool :=
  negb (gap_start_ns g =? 0) || negb (gap_end_ns g =? 0).

(** [GapReport::merge] *)
Definition gap_merge (self other : GapReport) : GapReport :=
  let cause := if bool_decide (gap_cause self = gap_cause other) then gap_cause self else "multiple" in
  let '(s, e) :=
    if negb (has_window other) then (gap_start_ns self, gap_end_ns self)
    else if negb (has_window self) then (gap_start_ns other, gap_end_ns other)
    else (Z.min (gap_start_ns self) (gap_start_ns other),
          Z.max (gap_end_ns self) (gap_end_ns other)) in
  {| gap_cause := cause;
     gap_affected_probes := foldl push_unique (gap_affected_probes self) (gap_affected_probes other);
     gap_dropped_records := sat_add64 (gap_dropped_records self) (gap_dropped_records other);
     gap_start_ns := s;
     gap_end_ns := e;
     gap_dropped_reliability := sat_add64 (gap_dropped_reliability self) (gap_dropped_reliability other);
     gap_dropped_attribution := sat_add64 (gap_dropped_attribution self) (gap_dropped_attribution other) |}.

(** [GapReport::into_batch]; [occ_id], [now] and [batch_id] are what the environment supplies and
    [json_array] is [serde_json]'s text of a string array. *)
Definition gap_into_batch (json_array : list string -> string) (occ_id : string) (now : Z)
    (batch_id : string) (g : GapReport) (producer : ProducerMetadata) : EvidenceBatch :=
  let occ := in_cluster (pm_cluster producer)
               (severity SevWarning (Occurrence_new occ_id now "jalki/agent" "jalki.agent.gap")) in
  let occ := label "cause" (gap_cause g) occ in
  let occ := label "affected_probes" (json_array (gap_affected_probes g)) occ in
  let occ := label "dropped_records" (dec (gap_dropped_records g)) occ in
  let occ := label "dropped_reliability" (dec (gap_dropped_reliability g)) occ in
  let occ := label "dropped_attribution" (dec (gap_dropped_attribution g)) occ in
  let occ := label "gap_start_ns" (dec (gap_start_ns g)) occ in
  let occ := label "gap_end_ns" (dec (gap_end_ns g)) occ in
  EvidenceBatch_new batch_id producer
    [{| er_observed_at_ns := gap_end_ns g;
        er_pid := 0;
        er_cgroup_id := 0;
        er_probe := mkProbeMetadata "jalki_agent" "1" "agent" Fentry "jalki_agent_gap";
        er_occurrence := occ;
        er_binding := None |}].

(** [affected_probes] *)
Definition affected_probes (records : list EvidenceRecord) : list string :=
  foldl (fun acc r => push_unique acc (occ_type (er_occurrence r))) [] records.

(** Records of one class. *)
Definition count_class (c : EvidenceClass) (records : list EvidenceRecord) : Z :=
  zlen (filter (fun r => evidence_class r = c) records).

(** The window fold of [gap_for_records]: records stamped 0 are left out. *)
Definition stamped_window_step (w : option (Z * Z)) (r : EvidenceRecord) : option (Z * Z) :=
  let at_ns := er_observed_at_ns r in
  if at_ns =? 0 then w else
  match w with
  | None => Some (at_ns, at_ns)
  | Some (lo, hi) => Some (Z.min lo at_ns, Z.max hi at_ns)
  end.

(** The counting loop of [gap_for_records]. *)
Definition class_count_step (acc : Z * Z) (r : EvidenceRecord) : Z * Z :=
  match evidence_class r with
  | Reliability => (acc.1 + 1, acc.2)
  | Attribution => (acc.1, acc.2 + 1)
  end.

Definition gap_for_records (cause : string) (records : list EvidenceRecord) : GapReport :=
  let '(reliability, attribution) := foldl class_count_step (0, 0) records in
  let window := default (0, 0) (foldl stamped_window_step None records) in
  {| gap_cause := cause;
     gap_affected_probes := affected_probes records;
     gap_dropped_records := zlen records;
     gap_start_ns := window.1;
     gap_end_ns := window.2;
     gap_dropped_reliability := reliability;
     gap_dropped_attribution := attribution |}.

(** [gap_for_batch]: the batch's own window, the counting shared. *)
Definition gap_for_batch (cause : string) (b : EvidenceBatch) : GapReport :=
  let g := gap_for_records cause (eb_records b) in
  {| gap_cause := gap_cause g;
     gap_affected_probes := gap_affected_probes g;
     gap_dropped_records := gap_dropped_records g;
     gap_start_ns := eb_observed_at_min b;
     gap_end_ns := eb_observed_at_max b;
     gap_dropped_reliability := gap_dropped_reliability g;
     gap_dropped_attribution := gap_dropped_attribution g |}.

(** [gap_for_shed]: the class of the batch is already known. *)
Definition gap_for_shed (cause : string) (class : EvidenceClass) (b : EvidenceBatch) : GapReport :=
  let n := batch_len b in
  {| gap_cause := cause;
     gap_affected_probes := affected_probes (eb_records b);
     gap_dropped_records := n;
     gap_start_ns := eb_observed_at_min b;
     gap_end_ns := eb_observed_at_max b;
     gap_dropped_reliability := match class with Reliability => n | Attribution => 0 end;
     gap_dropped_attribution := match class with Attribution => n | Reliability => 0 end |}.

(** [sink_queue::merge_by_cause] *)
Fixpoint merge_by_cause (reports : list GapReport) (gap : GapReport) : list GapReport :=
  match reports with
  | [] => [gap]
  | r :: rest =>
      if bool_decide (gap_cause r = gap_cause gap) then gap_merge r gap :: rest
      else r :: merge_by_cause rest gap
  end.

(** What a gap says was lost, by class. *)
Definition gap_class (c : EvidenceClass) (g : GapReport) : Z :=
  match c with
  | Reliability => gap_dropped_reliability g
  | Attribution => gap_dropped_attribution g
  end.

(** A report whose per-class counts add up to its total. *)
Definition gap_consistent (g : GapReport) : Prop :=
  0 <= gap_dropped_reliability g /\ 0 <= gap_dropped_attribution g /\
  gap_dropped_records g = gap_dropped_reliability g + gap_dropped_attribution g.

(** At most one report per cause. *)
Definition one_per_cause (reports : list GapReport) : Prop := NoDup (map gap_cause reports).

(* ------------------------------------------------------------------ *)
(** ** Lemmas *)

Lemma count_class_nonneg c l : 0 <= count_class c l.
Proof. apply zlen_nonneg. Qed.

Lemma count_class_cons c r l :
  count_class c (r :: l) = (if decide (evidence_class r = c) then 1 else 0) + count_class c l.
Proof. unfold count_class. rewrite filter_cons. case_decide; [by rewrite zlen_cons|done]. Qed.

Lemma count_class_app c l k : count_class c (l ++ k) = count_class c l + count_class c k.
Proof. unfold count_class. by rewrite filter_app, zlen_app. Qed.

Lemma count_class_total l : count_class Reliability l + count_class Attribution l = zlen l.
Proof.
  induction l as [|r l IH]; [done|]. rewrite !count_class_cons, zlen_cons.
  destruct (evidence_class r); repeat case_decide; simplify_eq; lia.
Qed.

Lemma count_class_permutation c l k : Permutation l k -> count_class c l = count_class c k.
Proof. intros H. unfold count_class, zlen. by rewrite H. Qed.

(** All records of one class: the other class counts none. *)
Lemma count_class_uniform c c' l :
  Forall (fun r => evidence_class r = c) l ->
  count_class c' l = if decide (c = c') then zlen l else 0.
Proof.
  induction 1 as [|r l Hr _ IH]; [by destruct (decide (c = c'))|].
  rewrite count_class_cons, zlen_cons, IH, Hr. repeat case_decide; try done; lia.
Qed.

#[export] Hint Resolve count_class_nonneg : jalki.
#[export] Hint Rewrite count_class_cons count_class_app : jalki.

Lemma class_count_fold l a b :
  foldl class_count_step (a, b) l = (a + count_class Reliability l, b + count_class Attribution l).
Proof.
  revert a b. induction l as [|r l IH]; intros a b; cbn [foldl].
  { unfold count_class. rewrite !filter_nil. change (zlen []) with 0. f_equal; lia. }
  rewrite !count_class_cons. unfold class_count_step at 2.
  destruct (evidence_class r); cbn [fst snd]; rewrite IH; repeat case_decide; simplify_eq;
    apply pair_equal_spec; lia.
Qed.

Lemma gap_for_records_class cause l c : gap_class c (gap_for_records cause l) = count_class c l.
Proof. unfold gap_for_records. rewrite class_count_fold. by destruct c; cbn; rewrite Z.add_0_l. Qed.

Lemma gap_for_batch_class cause b c : gap_class c (gap_for_batch cause b) = count_class c (eb_records b).
Proof. rewrite <- (gap_for_records_class cause). by destruct c. Qed.

Lemma gap_for_shed_class cause cls b c :
  Forall (fun r => evidence_class r = cls) (eb_records b) ->
  gap_class c (gap_for_shed cause cls b) = count_class c (eb_records b).
Proof.
  intros H. rewrite (count_class_uniform cls c _ H). unfold gap_for_shed, batch_len.
  by destruct c, cls.
Qed.

Lemma gap_for_records_consistent cause l : gap_consistent (gap_for_records cause l).
Proof.
  unfold gap_consistent.
  pose proof (gap_for_records_class cause l Reliability) as Hr.
  pose proof (gap_for_records_class cause l Attribution) as Ha. cbn in Hr, Ha. rewrite Hr, Ha.
  split_and!; auto with jalki. rewrite count_class_total. unfold gap_for_records.
  by destruct (foldl class_count_step (0, 0) l).
Qed.

Lemma affected_probes_fold l acc :
  forall t, t ∈ foldl (fun acc r => push_unique acc (occ_type (er_occurrence r))) acc l <->
    t ∈ acc \/ exists r, r ∈ l /\ occ_type (er_occurrence r) = t.
Proof.
  revert acc. induction l as [|r l IH]; intros acc t; cbn [foldl].
  - split; [by left|]. intros [|(? & H & _)]; [done|]. by apply elem_of_nil in H.
  - rewrite IH, push_unique_elem. setoid_rewrite elem_of_cons. naive_solver.
Qed.

Lemma affected_probes_elem l t :
  t ∈ affected_probes l <-> exists r, r ∈ l /\ occ_type (er_occurrence r) = t.
Proof. unfold affected_probes. rewrite affected_probes_fold. set_solver. Qed.

(* ------------------------------------------------------------------ *)
(** ** Merging *)

Lemma foldl_push_unique_elem (v l : list string) x :
  x ∈ foldl push_unique v l <-> x ∈ v \/ x ∈ l.
Proof.
  revert v. induction l as [|y l IH]; intros v; cbn [foldl]; [set_solver|].
  rewrite IH, push_unique_elem. set_solver.
Qed.

(** [GapReport::merge] neither loses nor invents loss: the totals and the per-class counts add
    (saturating at [usize::MAX]), every affected type of either report is kept and no other, and
    the window is the hull of the known windows, an unknown 0..0 window never widening a real
    one. *)
Theorem gap_merge_spec g h :
  let m := gap_merge g h in
  gap_dropped_records m = Z.min (gap_dropped_records g + gap_dropped_records h) usize_max /\
  (forall c, gap_class c m = Z.min (gap_class c g + gap_class c h) usize_max) /\
  (forall t, t ∈ gap_affected_probes m <-> t ∈ gap_affected_probes g \/ t ∈ gap_affected_probes h) /\
  gap_cause m = (if decide (gap_cause g = gap_cause h) then gap_cause g else "multiple") /\
  (gap_start_ns m, gap_end_ns m) =
    match has_window g, has_window h with
    | _, false => (gap_start_ns g, gap_end_ns g)
    | false, true => (gap_start_ns h, gap_end_ns h)
    | true, true => (Z.min (gap_start_ns g) (gap_start_ns h), Z.max (gap_end_ns g) (gap_end_ns h))
    end.
Proof.
  unfold gap_merge. destruct (has_window g), (has_window h); cbn;
    (split_and!; [done|by intros []|apply foldl_push_unique_elem|by case_bool_decide; case_decide|done]).
Qed.

Lemma gap_merge_cause g h : gap_cause g = gap_cause h -> gap_cause (gap_merge g h) = gap_cause g.
Proof.
  intros Heq. unfold gap_merge. rewrite bool_decide_true by done.
  by destruct (has_window g), (has_window h).
Qed.

Lemma gap_merge_class_small c g h :
  0 <= gap_class c g + gap_class c h <= usize_max ->
  gap_class c (gap_merge g h) = gap_class c g + gap_class c h.
Proof.
  intros H. transitivity (sat_add64 (gap_class c g) (gap_class c h)); [|word].
  unfold gap_merge. by destruct (has_window g), (has_window h), c.
Qed.

Lemma merge_by_cause_causes reports gap :
  map gap_cause (merge_by_cause reports gap) =
    if bool_decide (gap_cause gap ∈ map gap_cause reports) then map gap_cause reports
    else map gap_cause reports ++ [gap_cause gap].
Proof.
  induction reports as [|r rs IH]; [done|]. cbn [merge_by_cause map].
  destruct (bool_decide_reflect (gap_cause r = gap_cause gap)) as [E|E]; cbn [map].
  - rewrite gap_merge_cause by done. rewrite bool_decide_true; [done|]. rewrite <- E. by left.
  - rewrite IH. case_bool_decide as H1; case_bool_decide as H2; try done; exfalso; set_solver.
Qed.

Lemma merge_by_cause_one_per_cause reports gap :
  one_per_cause reports -> one_per_cause (merge_by_cause reports gap).
Proof.
  unfold one_per_cause. intros H. rewrite merge_by_cause_causes. case_bool_decide; [done|].
  apply NoDup_app. split_and!; [done|set_solver|apply NoDup_singleton].
Qed.

(** Merging keeps the sums, as long as they fit a [usize]. *)
Lemma merge_by_cause_class c reports gap :
  (forall g, g ∈ reports -> 0 <= gap_class c g) -> 0 <= gap_class c gap ->
  zsum (gap_class c) reports + gap_class c gap <= usize_max ->
  zsum (gap_class c) (merge_by_cause reports gap) = zsum (gap_class c) reports + gap_class c gap.
Proof.
  induction reports as [|r rs IH]; intros Hpos Hg Hle; cbn [merge_by_cause].
  { rewrite zsum_cons, zsum_nil. lia. }
  rewrite zsum_cons in Hle.
  pose proof (Hpos r ltac:(by left)). pose proof (zsum_nonneg (gap_class c) rs ltac:(set_solver)).
  case_bool_decide; rewrite !zsum_cons.
  - rewrite gap_merge_class_small by lia. lia.
  - rewrite IH by (set_solver || lia). lia.
Qed.

Lemma gap_merge_class_nonneg c g h :
  0 <= gap_class c g -> 0 <= gap_class c h -> 0 <= gap_class c (gap_merge g h).
Proof.
  intros Hg Hh. assert (0 <= sat_add64 (gap_class c g) (gap_class c h)) as Hs by word.
  revert Hs. unfold gap_merge. by destruct (has_window g), (has_window h), c.
Qed.

Lemma merge_by_cause_nonneg c reports gap :
  Forall (fun g => 0 <= gap_class c g) reports -> 0 <= gap_class c gap ->
  Forall (fun g => 0 <= gap_class c g) (merge_by_cause reports gap).
Proof.
  induction 1 as [|r rs Hr Hrs IH]; intros Hg; cbn [merge_by_cause]; [by constructor|].
  case_bool_decide; constructor; auto using gap_merge_class_nonneg.
Qed.

#[export] Hint Resolve merge_by_cause_one_per_cause merge_by_cause_nonneg : jalki.
