(* ===== verification/Retry.v ===== *)
(** The bounded retry buffer ([RetryBuffer] in [jalki-evidence/src/retry.rs]): what is held while
    a sink refuses work, what is given up when a bound is passed, and in which order.

    Fresh batch ids are arguments; the byte estimate is the [ByteModel]'s. The [while] loops run
    with fuel [length batches], which is enough because every iteration takes one batch out:
    [shed_while_spec] shows the loop ends because its condition does. *)
From S2P Require Import Prelude Protocol Evidence Samples Sink Gap.

Record RetryBufferConfig := mkRetryBufferConfig {
  rc_max_records : Z;
  rc_max_batches : Z;
  rc_max_age_ms : Z;
  rc_max_bytes : Z
}.

(** [RetryBufferConfig::default()] *)
Definition RetryBufferConfig_default : RetryBufferConfig :=
  mkRetryBufferConfig 100000 2048 300000 (128 * 1024 * 1024).

(** [env_parse] for the unsigned 64-bit types; [env] is [std::env::var(..).ok()]. *)
Definition env_parse (env : string -> option string) (key : string) (default_ : Z) : Z :=
  default default_ (env key ≫= fun v => parse_uint 64 (trim v)).

(** [RetryBufferConfig::from_env] *)
Definition RetryBufferConfig_from_env (env : string -> option string) : RetryBufferConfig :=
  let d := RetryBufferConfig_default in
  mkRetryBufferConfig
    (env_parse env "JALKI_RETRY_MAX_RECORDS" (rc_max_records d))
    (env_parse env "JALKI_RETRY_MAX_BATCHES" (rc_max_batches d))
    (env_parse env "JALKI_RETRY_MAX_AGE_MS" (rc_max_age_ms d))
    (env_parse env "JALKI_RETRY_MAX_BYTES" (rc_max_bytes d)).

Record BufferedBatch := mkBufferedBatch {
  bb_batch : EvidenceBatch;
  bb_enqueued_at_ms : Z;
  bb_approx_bytes : Z;
  bb_class : EvidenceClass
}.

Record RetryBuffer := mkRetryBuffer {
  rb_config : RetryBufferConfig;
  rb_batches : list BufferedBatch;
  rb_records : Z;
  rb_bytes : Z
}.
#[export] Instance eta_RetryBuffer : Eta RetryBuffer :=
  fun r => mkRetryBuffer (rb_config r) (rb_batches r) (rb_records r) (rb_bytes r).

Definition RetryBuffer_new (config : RetryBufferConfig) : RetryBuffer :=
  mkRetryBuffer config [] 0 0.

Definition len_batches (rb : RetryBuffer) : Z := zlen (rb_batches rb).
Definition len_records (rb : RetryBuffer) : Z := rb_records rb.
Definition len_bytes (rb : RetryBuffer) : Z := rb_bytes rb.
Definition rb_is_empty (rb : RetryBuffer) : bool := bool_decide (rb_batches rb = []).

(** [ClassPart] *)
Record ClassPart := mkClassPart {
  part_batch : EvidenceBatch;
  part_class : EvidenceClass
}.

(** The partition loop of [split_by_class]. *)
Definition split_step (acc : list EvidenceRecord * list EvidenceRecord) (r : EvidenceRecord)
  : list EvidenceRecord * list EvidenceRecord :=
  match evidence_class r with
  | Reliability => (acc.1 ++ [r], acc.2)
  | Attribution => (acc.1, acc.2 ++ [r])
  end.

(** [split_by_class]; [new_id] names the fresh batch of each class. *)
Definition split_by_class (new_id : EvidenceClass -> string) (b : EvidenceBatch) : list ClassPart :=
  let '(reliability, attribution) := foldl split_step ([], []) (eb_records b) in
  omap (fun '(records, class) =>
          if bool_decide (records = []) then None
          else Some (mkClassPart (EvidenceBatch_new (new_id class) (eb_producer b) records) class))
    [(reliability, Reliability); (attribution, Attribution)].

(** [RetryBuffer::shed_one]: the oldest reliability batch, else the oldest of all. *)
Definition shed_one (rb : RetryBuffer) : option (BufferedBatch * RetryBuffer) :=
  victim ← (match position (fun b => bool_decide (bb_class b = Reliability)) (rb_batches rb) with
            | Some i => Some i
            | None => if rb_is_empty rb then None else Some 0%nat
            end);
  dropped ← rb_batches rb !! victim;
  Some (dropped,
        rb <| rb_batches := remove_nth victim (rb_batches rb) |>
           <| rb_records := sat_sub (rb_records rb) (batch_len (bb_batch dropped)) |>
           <| rb_bytes := sat_sub (rb_bytes rb) (bb_approx_bytes dropped) |>).

(** [while over(self) { match self.shed_one() { Some(d) => gaps.push(..), None => break } }] *)
Fixpoint shed_while (fuel : nat) (cause : string) (over : RetryBuffer -> bool) (rb : RetryBuffer)
  : list GapReport * RetryBuffer :=
  match fuel with
  | O => ([], rb)
  | S fuel' =>
      if over rb then
        match shed_one rb with
        | Some (dropped, rb') =>
            let '(gaps, rb'') := shed_while fuel' cause over rb' in
            (gap_for_shed cause (bb_class dropped) (bb_batch dropped) :: gaps, rb'')
        | None => ([], rb)
        end
      else ([], rb)
  end.

(** The condition of [enqueue]'s loop. *)
Definition over_bounds (rb : RetryBuffer) : bool :=
  (rc_max_records (rb_config rb) <? rb_records rb)
  || (rc_max_batches (rb_config rb) <? len_batches rb)
  || (rc_max_bytes (rb_config rb) <? rb_bytes rb).

Section enqueue.
Context `{ByteModel}.

(** One part of [enqueue]'s [for] loop. *)
Definition push_part (now_ms : Z) (rb : RetryBuffer) (part : ClassPart) : RetryBuffer :=
  let approx := approx_bytes (part_batch part) in
  rb <| rb_records := add64 (rb_records rb) (batch_len (part_batch part)) |>
     <| rb_bytes := add64 (rb_bytes rb) approx |>
     <| rb_batches := rb_batches rb ++ [mkBufferedBatch (part_batch part) now_ms approx (part_class part)] |>.

(** [RetryBuffer::enqueue] *)
Definition enqueue (new_id : EvidenceClass -> string) (b : EvidenceBatch) (now_ms : Z)
    (rb : RetryBuffer) : list GapReport * RetryBuffer :=
  let rb := foldl (push_part now_ms) rb (split_by_class new_id b) in
  shed_while (length (rb_batches rb)) "retry_buffer_overflow" over_bounds rb.
End enqueue.

(** [RetryBuffer::shed_to] *)
Definition shed_to (target_bytes : Z) (rb : RetryBuffer) : list GapReport * RetryBuffer :=
  shed_while (length (rb_batches rb)) "memory_pressure" (fun rb => target_bytes <? rb_bytes rb) rb.

(** [RetryBuffer::pop_front] *)
Definition pop_front (rb : RetryBuffer) : option (BufferedBatch * RetryBuffer) :=
  match rb_batches rb with
  | [] => None
  | b :: rest =>
      Some (b, rb <| rb_batches := rest |>
                  <| rb_records := sat_sub (rb_records rb) (batch_len (bb_batch b)) |>
                  <| rb_bytes := sat_sub (rb_bytes rb) (bb_approx_bytes b) |>)
  end.

Definition expired (now_ms max_age_ms : Z) (b : BufferedBatch) : bool :=
  max_age_ms <? sat_sub now_ms (bb_enqueued_at_ms b).

(** [RetryBuffer::drop_expired], with the loop on explicit fuel. *)
Fixpoint drop_expired_loop (fuel : nat) (now_ms : Z) (rb : RetryBuffer) : list GapReport * RetryBuffer :=
  match fuel with
  | O => ([], rb)
  | S fuel' =>
      let is_expired :=
        default false (expired now_ms (rc_max_age_ms (rb_config rb)) <$> head (rb_batches rb)) in
      if negb is_expired then ([], rb) else
      match pop_front rb with
      | Some (dropped, rb') =>
          let '(gaps, rb'') := drop_expired_loop fuel' now_ms rb' in
          (gap_for_shed "retry_buffer_expired" (bb_class dropped) (bb_batch dropped) :: gaps, rb'')
      | None => drop_expired_loop fuel' now_ms rb
      end
  end.

Definition drop_expired (now_ms : Z) (rb : RetryBuffer) : list GapReport * RetryBuffer :=
  drop_expired_loop (length (rb_batches rb)) now_ms rb.

(** [RetryBuffer::oldest_age_ms] *)
Definition oldest_age_ms (now_ms : Z) (rb : RetryBuffer) : option Z :=
  (fun b => sat_sub now_ms (bb_enqueued_at_ms b)) <$> head (rb_batches rb).

(** [RetryBuffer::iter_batches] *)
Definition iter_batches (rb : RetryBuffer) : list EvidenceBatch := map bb_batch (rb_batches rb).

(** [RetryBuffer::front] *)
Definition rb_front (rb : RetryBuffer) : option EvidenceBatch := bb_batch <$> head (rb_batches rb).

(** [RetryBuffer::pop_delivered] *)
Definition pop_delivered (rb : RetryBuffer) : option (EvidenceBatch * RetryBuffer) :=
  (fun '(b, rb') => (bb_batch b, rb')) <$> pop_front rb.

(** [RetryBuffer::should_retry] *)
Definition should_retry (e : SinkError) : bool :=
  match e with
  | Unavailable _ _ | Timeout _ _ | Backpressure _ _ => true
  | _ => false
  end.

(* ------------------------------------------------------------------ *)
(** ** Invariant *)

(** The records a buffer holds, oldest first. *)
Definition buffer_records (rb : RetryBuffer) : list EvidenceRecord :=
  concat (map (fun b => eb_records (bb_batch b)) (rb_batches rb)).

Definition held (c : EvidenceClass) (rb : RetryBuffer) : Z := count_class c (buffer_records rb).

Section invariant.
Context `{ByteModel}.

(** A batch in the buffer: never empty, of one class, measured by the estimate. *)
Record batch_ok (b : BufferedBatch) : Prop := {
  bo_nonempty : eb_records (bb_batch b) <> [];
  bo_class : Forall (fun r => evidence_class r = bb_class b) (eb_records (bb_batch b));
  bo_bytes : bb_approx_bytes b = approx_bytes (bb_batch b)
}.

(** The counters are exactly what the held batches add up to. *)
Record buffer_ok (rb : RetryBuffer) : Prop := {
  bok_batches : Forall batch_ok (rb_batches rb);
  bok_records : rb_records rb = zsum (fun b => batch_len (bb_batch b)) (rb_batches rb);
  bok_bytes : rb_bytes rb = zsum bb_approx_bytes (rb_batches rb)
}.
End invariant.

(** Within every configured bound. *)
Definition within_bounds (rb : RetryBuffer) : Prop :=
  rb_records rb <= rc_max_records (rb_config rb) /\
  len_batches rb <= rc_max_batches (rb_config rb) /\
  rb_bytes rb <= rc_max_bytes (rb_config rb).

(* ------------------------------------------------------------------ *)
(** ** Lemmas: splitting by class *)

Definition of_class (c : EvidenceClass) (records : list EvidenceRecord) : list EvidenceRecord :=
  filter (fun r => evidence_class r = c) records.

Lemma split_fold l r a :
  foldl split_step (r, a) l = (r ++ of_class Reliability l, a ++ of_class Attribution l).
Proof.
  revert r a. induction l as [|x l IH]; intros r a; cbn [foldl].
  { unfold of_class. by rewrite !filter_nil, !app_nil_r. }
  unfold of_class. rewrite !filter_cons. unfold split_step at 2.
  destruct (evidence_class x); cbn [fst snd]; rewrite IH; repeat case_decide; simplify_eq;
    by rewrite <- ?app_assoc.
Qed.

Lemma of_class_app c l k : of_class c (l ++ k) = of_class c l ++ of_class c k.
Proof. apply filter_app. Qed.

Lemma of_class_Permutation l : Permutation (of_class Reliability l ++ of_class Attribution l) l.
Proof.
  unfold of_class. induction l as [|r l IH]; [done|]. rewrite !filter_cons.
  destruct (decide (evidence_class r = Reliability)) as [E|E]; [rewrite decide_False by congruence|
    rewrite decide_True by (by destruct (evidence_class r))]; cbn [app].
  - by rewrite IH.
  - by rewrite <- Permutation_middle, IH.
Qed.

(** The part of one class, when there is one. *)
Definition part_of (new_id : EvidenceClass -> string) (b : EvidenceBatch) (c : EvidenceClass)
  : list ClassPart :=
  if decide (of_class c (eb_records b) = []) then []
  else [mkClassPart (EvidenceBatch_new (new_id c) (eb_producer b) (of_class c (eb_records b))) c].

Lemma split_by_class_parts new_id b :
  split_by_class new_id b = part_of new_id b Reliability ++ part_of new_id b Attribution.
Proof.
  unfold split_by_class, part_of. rewrite split_fold. cbn [app omap list_omap].
  repeat case_bool_decide; repeat case_decide; done.
Qed.

(** [split_by_class] is a stable partition: the parts are, in the order reliability then
    attribution, the non-empty class-restrictions of the batch, each with its records in their
    original order and the batch's producer, so no record is lost, duplicated or misfiled. *)
Theorem split_by_class_stable_partition new_id b :
  let parts := split_by_class new_id b in
  concat (map (fun p => eb_records (part_batch p)) parts)
    = of_class Reliability (eb_records b) ++ of_class Attribution (eb_records b) /\
  Permutation (concat (map (fun p => eb_records (part_batch p)) parts)) (eb_records b) /\
  Forall (fun p => eb_records (part_batch p) = of_class (part_class p) (eb_records b) /\
                   eb_records (part_batch p) <> [] /\
                   eb_producer (part_batch p) = eb_producer b) parts /\
  (length parts <= 2)%nat.
Proof.
  cbv zeta. rewrite split_by_class_parts.
  assert (forall c, concat (map (fun p => eb_records (part_batch p)) (part_of new_id b c)) =
                    of_class c (eb_records b)) as Hc.
  { intros c. unfold part_of. case_decide as H; [by rewrite H|]. cbn. by rewrite app_nil_r. }
  rewrite map_app, concat_app, !Hc. split_and!; [done|..].
  - apply of_class_Permutation.
  - apply Forall_app; split; unfold part_of; case_decide; repeat constructor; done.
  - unfold part_of. repeat case_decide; cbn; lia.
Qed.

(* ------------------------------------------------------------------ *)
(** ** Lemmas: shedding *)

Section shedding.
Context `{ByteModel}.

Lemma batch_len_nonneg b : 0 <= batch_len b.
Proof. apply zlen_nonneg. Qed.

Lemma bytes_nonneg bs : Forall batch_ok bs -> 0 <= zsum bb_approx_bytes bs.
Proof.
  intros Hok. apply zsum_nonneg. intros b Hb. rewrite Forall_forall in Hok.
  rewrite (bo_bytes _ (Hok b Hb)). pose proof (approx_bytes_is_u64 (bb_batch b)). word.
Qed.

Lemma lens_nonneg bs : 0 <= zsum (fun b => batch_len (bb_batch b)) bs.
Proof. apply zsum_nonneg. intros. apply batch_len_nonneg. Qed.

(** Taking the batch at index [i] out of a well-formed buffer keeps it well formed; the
    saturating subtractions are exact. *)
Lemma remove_ok rb i d :
  buffer_ok rb -> rb_batches rb !! i = Some d ->
  buffer_ok (rb <| rb_batches := remove_nth i (rb_batches rb) |>
                <| rb_records := sat_sub (rb_records rb) (batch_len (bb_batch d)) |>
                <| rb_bytes := sat_sub (rb_bytes rb) (bb_approx_bytes d) |>).
Proof.
  intros [Hb Hr Hy] Hi. pose proof (remove_nth_Permutation i _ d Hi) as Hp.
  rewrite Hp in Hb. apply Forall_cons in Hb as [_ Hrest].
  split; cbn.
  - done.
  - rewrite Hr, (zsum_permutation _ _ _ Hp), zsum_cons, sat_sub_exact; [lia|].
    pose proof (lens_nonneg (remove_nth i (rb_batches rb))). lia.
  - rewrite Hy, (zsum_permutation _ _ _ Hp), zsum_cons, sat_sub_exact; [lia|].
    pose proof (bytes_nonneg _ Hrest). lia.
Qed.

(** What [shed_one] takes and leaves. *)
Definition sheds (rb : RetryBuffer) (d : BufferedBatch) (rb' : RetryBuffer) : Prop :=
  buffer_ok rb' /\ rb_config rb' = rb_config rb /\ d ∈ rb_batches rb /\
  (exists before after, rb_batches rb = before ++ d :: after /\ rb_batches rb' = before ++ after /\
     Forall (fun b => bb_class b <> bb_class d) before) /\
  (bb_class d = Attribution -> Forall (fun b => bb_class b = Attribution) (rb_batches rb)).

Lemma shed_one_some rb d rb' :
  buffer_ok rb -> shed_one rb = Some (d, rb') -> sheds rb d rb'.
Proof.
  intros Hok. unfold shed_one. set (p := fun b => bool_decide (bb_class b = Reliability)).
  destruct (position p (rb_batches rb)) as [i|] eqn:Hp; cbn [mbind option_bind].
  - destruct (position_Some _ _ _ Hp) as (x & Hx & Px & Hbefore). rewrite Hx. cbn.
    intros [= <- <-]. unfold p in Px, Hbefore. apply bool_decide_eq_true in Px.
    destruct (remove_nth_split _ _ _ Hx) as [Hs Hr].
    split_and!; [by apply remove_ok|done|by eapply list_elem_of_lookup_2| |congruence].
    exists (take i (rb_batches rb)), (drop (S i) (rb_batches rb)). split_and!; [done|done|].
    rewrite Px. apply Forall_forall. intros b (j & Hj)%list_elem_of_lookup.
    apply lookup_take_Some in Hj as [Hj Hlt].
    specialize (Hbefore j b ltac:(lia) Hj). by apply bool_decide_eq_false in Hbefore.
  - unfold rb_is_empty. destruct (rb_batches rb) as [|b0 rest] eqn:E; [done|]. cbn.
    intros [= <- <-]. unfold p in Hp. rewrite position_None in Hp.
    assert (Forall (fun b => bb_class b = Attribution) (b0 :: rest)) as Hall.
    { apply Forall_forall. intros b Hb. specialize (Hp b Hb).
      apply bool_decide_eq_false in Hp. by destruct (bb_class b). }
    pose proof (remove_ok rb 0 b0 Hok) as Hrem. rewrite E in Hrem. specialize (Hrem eq_refl).
    split_and!; [done|done|rewrite E; by left| |by rewrite E].
    exists [], rest. rewrite E. split_and!; [done|done|constructor].
Qed.

Lemma shed_one_none rb : shed_one rb = None -> rb_batches rb = [].
Proof.
  unfold shed_one, rb_is_empty.
  destruct (position _ (rb_batches rb)) as [i|] eqn:Hp; cbn [mbind option_bind].
  - destruct (position_Some _ _ _ Hp) as (x & Hx & _). by rewrite Hx.
  - by destruct (rb_batches rb).
Qed.

(** A run of sheds: which batches went, and what that says of order and class. *)
Definition shed_run (rb : RetryBuffer) (shed : list BufferedBatch) (rb' : RetryBuffer) : Prop :=
  buffer_ok rb' /\ rb_config rb' = rb_config rb /\
  (forall c, filter (fun b => bb_class b = c) (rb_batches rb) =
             filter (fun b => bb_class b = c) shed ++ filter (fun b => bb_class b = c) (rb_batches rb')) /\
  sublist (rb_batches rb') (rb_batches rb) /\
  Permutation (rb_batches rb) (shed ++ rb_batches rb') /\
  (forall d, d ∈ shed -> bb_class d = Attribution ->
     Forall (fun b => bb_class b = Attribution) (rb_batches rb')).

Lemma shed_run_nil rb : buffer_ok rb -> shed_run rb [] rb.
Proof. intros Hok. split_and!; try done. intros d Hd. by apply elem_of_nil in Hd. Qed.

Lemma shed_run_cons rb d rb1 shed rb2 :
  sheds rb d rb1 -> shed_run rb1 shed rb2 -> shed_run rb (d :: shed) rb2.
Proof.
  intros (Hok1 & Hc1 & Hin & (before & after & Hb & Hb1 & Hne) & Hall)
         (Hok2 & Hc2 & Hf & Hsub & Hperm & Hattr).
  split_and!; [done|congruence| | | |].
  - intros c. specialize (Hf c). rewrite Hb1, filter_app in Hf.
    rewrite Hb, filter_app, !filter_cons. case_decide as Hd.
    + rewrite <- app_comm_cons, <- Hf.
      assert (filter (fun b => bb_class b = c) before = []) as ->; [|done].
      clear -Hne Hd. induction Hne as [|b l Hb Hl IH]; [done|].
      rewrite filter_cons. rewrite decide_False by congruence. done.
    + by rewrite Hf.
  - etrans; [exact Hsub|]. rewrite Hb, Hb1. apply sublist_app; [done|]. by apply sublist_cons.
  - rewrite Hb, <- Permutation_middle. cbn. apply perm_skip. by rewrite <- Hb1.
  - intros d' [->|Hd']%elem_of_cons Hd; [|by eapply Hattr].
    specialize (Hall Hd). apply Forall_forall. intros b Hb2.
    rewrite Forall_forall in Hall. apply Hall. rewrite Hb. 
    assert (b ∈ rb_batches rb1) as Hb3 by (eapply sublist_subseteq; eauto). 
    rewrite Hb1 in Hb3. set_solver.
Qed.

(** The [while] loop: it ends because its condition is false or the buffer is empty, and what
    it reported is exactly what it shed. *)
Lemma shed_while_spec fuel cause over rb :
  buffer_ok rb -> (length (rb_batches rb) <= fuel)%nat ->
  let '(gaps, rb') := shed_while fuel cause over rb in
  exists shed, shed_run rb shed rb' /\
    gaps = map (fun d => gap_for_shed cause (bb_class d) (bb_batch d)) shed /\
    (over rb' = false \/ rb_batches rb' = []).
Proof.
  revert rb. induction fuel as [|fuel IH]; intros rb Hok Hlen; cbn [shed_while].
  { exists []. split_and!; [by apply shed_run_nil|done|]. right. by apply nil_length_inv; lia. }
  destruct (over rb) eqn:Ho; [|exists []; split_and!; auto using shed_run_nil].
  destruct (shed_one rb) as [[d rb1]|] eqn:Hs.
  - pose proof (shed_one_some _ _ _ Hok Hs) as Hd.
    assert (length (rb_batches rb1) <= fuel)%nat as Hlen1.
    { destruct Hd as (_ & _ & _ & (before & after & Hb & Hb1 & _) & _).
      rewrite Hb, length_app in Hlen. rewrite Hb1, length_app. cbn in Hlen. lia. }
    specialize (IH rb1 (proj1 Hd) Hlen1). destruct (shed_while fuel cause over rb1) as [gaps rb2].
    destruct IH as (shed & Hrun & -> & Hend).
    exists (d :: shed). split_and!; [by eapply shed_run_cons|done|done].
  - exists []. split_and!; [by apply shed_run_nil|done|right; by apply shed_one_none].
Qed.

(** Records are conserved by a run of sheds, class by class. *)
Lemma shed_run_held rb shed rb' cause c :
  buffer_ok rb -> shed_run rb shed rb' ->
  held c rb = held c rb' +
    zsum (gap_class c) (map (fun d => gap_for_shed cause (bb_class d) (bb_batch d)) shed).
Proof.
  intros Hok (_ & _ & _ & _ & Hp & _). unfold held, buffer_records.
  assert (forall bs, count_class c (concat (map (fun b => eb_records (bb_batch b)) bs)) =
                     zsum (fun b => count_class c (eb_records (bb_batch b))) bs) as Hsum.
  { intros bs. induction bs as [|b bs IH]; [done|].
    cbn [map concat]. by rewrite count_class_app, IH. }
  rewrite !Hsum, (zsum_permutation _ _ _ Hp), zsum_app.
  assert (zsum (gap_class c) (map (fun d => gap_for_shed cause (bb_class d) (bb_batch d)) shed) =
          zsum (fun b => count_class c (eb_records (bb_batch b))) shed) as ->; [|lia].
  assert (Forall batch_ok shed) as Hshed.
  { pose proof (bok_batches _ Hok) as Hall. rewrite Hp in Hall. by apply Forall_app in Hall as [? _]. }
  clear -Hshed. induction Hshed as [|d shed Hd _ IH]; [done|].
  cbn [map]. rewrite !zsum_cons, IH. f_equal. apply gap_for_shed_class, Hd.
Qed.
End shedding.

(* ------------------------------------------------------------------ *)
(** ** Lemmas: enqueue and expiry *)

Lemma sublist_buffer_records l k c :
  sublist l k ->
  sublist (of_class c (concat (map (fun b => eb_records (bb_batch b)) l)))
          (of_class c (concat (map (fun b => eb_records (bb_batch b)) k))).
Proof.
  unfold of_class. induction 1 as [|b l k _ IH|b l k _ IH]; cbn [map concat]; [done|..];
    rewrite ?filter_app.
  - by apply sublist_app.
  - by apply sublist_inserts_l.
Qed.

Lemma of_class_parts new_id b c :
  of_class c (concat (map (fun p => eb_records (part_batch p)) (split_by_class new_id b)))
    = of_class c (eb_records b).
Proof.
  rewrite split_by_class_parts, map_app, concat_app.
  assert (forall c', of_class c (concat (map (fun p => eb_records (part_batch p)) (part_of new_id b c')))
            = if decide (c = c') then of_class c (eb_records b) else []) as Hc.
  { intros c'. transitivity (of_class c (of_class c' (eb_records b))).
    - unfold part_of. case_decide as Hn; cbn; [by rewrite Hn|by rewrite app_nil_r].
    - unfold of_class. case_decide as Hcc; [subst; by rewrite list_filter_filter_l by done|].
      induction (eb_records b) as [|r l IH]; [done|]. rewrite filter_cons.
      case_decide as Hr; [rewrite filter_cons, decide_False by congruence|]; done. }
  unfold of_class in *. rewrite filter_app, !Hc. destruct c; cbn; by rewrite ?app_nil_r.
Qed.

Section enqueueing.
Context `{ByteModel}.

Definition parts_bytes (parts : list ClassPart) : Z :=
  zsum (fun p => approx_bytes (part_batch p)) parts.

Definition parts_records (parts : list ClassPart) : Z :=
  zsum (fun p => batch_len (part_batch p)) parts.

Definition buffered (now_ms : Z) (p : ClassPart) : BufferedBatch :=
  mkBufferedBatch (part_batch p) now_ms (approx_bytes (part_batch p)) (part_class p).

Definition part_ok (p : ClassPart) : Prop :=
  eb_records (part_batch p) <> [] /\
  Forall (fun r => evidence_class r = part_class p) (eb_records (part_batch p)).

Lemma split_parts_ok new_id b : Forall part_ok (split_by_class new_id b).
Proof.
  rewrite split_by_class_parts. apply Forall_app; split; unfold part_of; case_decide as Hn;
    repeat constructor; try done; cbn; unfold of_class; apply Forall_forall;
    intros r [Hr _]%list_elem_of_filter; done.
Qed.

Lemma split_parts_records new_id b : parts_records (split_by_class new_id b) = batch_len b.
Proof.
  unfold parts_records, batch_len. rewrite <- (count_class_total (eb_records b)).
  rewrite split_by_class_parts, zsum_app. f_equal; unfold part_of, count_class, of_class;
    case_decide as Hn; rewrite ?Hn, ?zsum_cons, zsum_nil; cbn; rewrite ?Z.add_0_r; done.
Qed.

(** Pushing the parts appends them and adds them up, as long as the sums fit. *)
Lemma push_parts_spec now_ms parts rb :
  Forall part_ok parts -> buffer_ok rb ->
  rb_records rb + parts_records parts <= u64_max -> rb_bytes rb + parts_bytes parts <= u64_max ->
  let rb' := foldl (push_part now_ms) rb parts in
  buffer_ok rb' /\ rb_config rb' = rb_config rb /\
  rb_batches rb' = rb_batches rb ++ map (buffered now_ms) parts.
Proof.
  cbv zeta. intros Hparts. revert rb. unfold parts_records, parts_bytes.
  induction Hparts as [|p parts [Hne Hcls] _ IH]; intros rb Hok Hr Hy; cbn [foldl].
  { cbn [map]. by rewrite app_nil_r. }
  rewrite zsum_cons in Hr, Hy. pose proof Hok as [Hb HR HB].
  pose proof (approx_bytes_is_u64 (part_batch p)) as [Ha _].
  pose proof (batch_len_nonneg (part_batch p)).
  pose proof (zsum_nonneg (fun p => batch_len (part_batch p)) parts (fun q _ => batch_len_nonneg _)).
  pose proof (zsum_nonneg (fun p => approx_bytes (part_batch p)) parts
                (fun q _ => proj1 (approx_bytes_is_u64 _))).
  pose proof (lens_nonneg (rb_batches rb)). pose proof (bytes_nonneg _ Hb).
  assert (rb_records (push_part now_ms rb p) = rb_records rb + batch_len (part_batch p)) as Er.
  { cbn. rewrite add64_small by word. done. }
  assert (rb_bytes (push_part now_ms rb p) = rb_bytes rb + approx_bytes (part_batch p)) as Ey.
  { cbn. rewrite add64_small by word. done. }
  assert (rb_batches (push_part now_ms rb p) = rb_batches rb ++ [buffered now_ms p]) as Eb by done.
  destruct (IH (push_part now_ms rb p)) as (Hok' & Hc' & Hb').
  - split; rewrite ?Eb, ?Er, ?Ey.
    + apply Forall_app; split; [done|]. repeat constructor; done.
    + rewrite zsum_app, zsum_cons, zsum_nil. cbn. lia.
    + rewrite zsum_app, zsum_cons, zsum_nil. cbn. lia.
  - rewrite Er. lia.
  - rewrite Ey. lia.
  - split_and!; [done|done|]. rewrite Hb', Eb, <- app_assoc. done.
Qed.

(** What fits: the counters cannot wrap. On a 64-bit machine this is the address space. *)
Definition enqueue_fits (new_id : EvidenceClass -> string) (b : EvidenceBatch) (rb : RetryBuffer)
  : Prop :=
  rb_records rb + batch_len b <= u64_max /\
  rb_bytes rb + parts_bytes (split_by_class new_id b) <= u64_max.

Lemma buffer_records_pushed new_id b now_ms rb rb1 c :
  rb_batches rb1 = rb_batches rb ++ map (buffered now_ms) (split_by_class new_id b) ->
  of_class c (buffer_records rb1) = of_class c (buffer_records rb) ++ of_class c (eb_records b).
Proof.
  intros Hb. unfold buffer_records. rewrite Hb, map_app, concat_app.
  unfold of_class at 1. rewrite filter_app. f_equal.
  rewrite map_map. cbn. apply of_class_parts.
Qed.

Lemma held_of_class c rb : held c rb = zlen (of_class c (buffer_records rb)).
Proof. done. Qed.

(** [enqueue] is: push the parts, then a run of sheds that stops because the bounds hold. *)
Lemma enqueue_run new_id b now_ms rb :
  buffer_ok rb -> enqueue_fits new_id b rb ->
  let '(gaps, rb') := enqueue new_id b now_ms rb in
  exists rb1 shed,
    buffer_ok rb1 /\ rb_config rb1 = rb_config rb /\
    rb_batches rb1 = rb_batches rb ++ map (buffered now_ms) (split_by_class new_id b) /\
   shed_run rb1 shed rb' /\
   gaps = map (fun d => gap_for_shed "retry_buffer_overflow" (bb_class d) (bb_batch d)) shed /\
   (over_bounds rb' = false \/ rb_batches rb' = []).
Proof.
  intros Hok [Hr Hy]. unfold enqueue.
  destruct (push_parts_spec now_ms (split_by_class new_id b) rb) as (Hok1 & Hc1 & Hb1);
    [apply split_parts_ok|done|by rewrite split_parts_records|done|].
  set (rb1 := foldl (push_part now_ms) rb (split_by_class new_id b)) in *.
  pose proof (shed_while_spec (length (rb_batches rb1)) "retry_buffer_overflow" over_bounds rb1 Hok1 ltac:(lia)) as Hs.
  destruct (shed_while _ _ _ rb1) as [gaps rb2]. destruct Hs as (shed & Hrun & Hg & Hend).
  exists rb1, shed. done.
Qed.

(** Configured bounds are unsigned. *)
Definition config_ok (c : RetryBufferConfig) : Prop :=
  0 <= rc_max_records c /\ 0 <= rc_max_batches c /\ 0 <= rc_max_bytes c.

Lemma not_over_within rb :
  buffer_ok rb -> config_ok (rb_config rb) ->
  over_bounds rb = false \/ rb_batches rb = [] -> within_bounds rb.
Proof.
  intros [Hb Hr Hy] (H1 & H2 & H3) [Hover|Hnil].
  - unfold over_bounds in Hover. unfold within_bounds. bool_hyps. lia.
  - unfold within_bounds, len_batches. rewrite Hr, Hy, Hnil, !zsum_nil. change (zlen []) with 0. lia.
Qed.
End enqueueing.

(* ------------------------------------------------------------------ *)
(** ** Properties of the operations *)

Section properties.
Context `{ByteModel}.

Lemma held_sublist_split rb shed rb' c :
  shed_run rb shed rb' ->
  sublist (of_class c (buffer_records rb')) (of_class c (buffer_records rb)).
Proof. intros (_ & _ & _ & Hs & _). by apply sublist_buffer_records. Qed.

Lemma enqueue_facts new_id b now_ms rb :
  buffer_ok rb -> config_ok (rb_config rb) -> enqueue_fits new_id b rb ->
  let '(gaps, rb') := enqueue new_id b now_ms rb in
  buffer_ok rb' /\ rb_config rb' = rb_config rb /\ within_bounds rb' /\
  (forall c, held c rb + count_class c (eb_records b) = held c rb' + zsum (gap_class c) gaps) /\
  (forall c, sublist (of_class c (buffer_records rb'))
                     (of_class c (buffer_records rb) ++ of_class c (eb_records b))).
Proof.
  intros Hok Hc Hfit. pose proof (enqueue_run new_id b now_ms rb Hok Hfit) as Hrun.
  destruct (enqueue new_id b now_ms rb) as [gaps rb'].
  destruct Hrun as (rb1 & shed & Hok1 & Hc1 & Hb1 & Hrun & -> & Hend).
  pose proof Hrun as (Hok2 & Hc2 & _).
  split_and!; [done|congruence|apply not_over_within; [done|by rewrite Hc2, Hc1|done]|..].
  - intros c. rewrite <- (shed_run_held rb1 shed rb' "retry_buffer_overflow" c Hok1 Hrun).
    rewrite !held_of_class, (buffer_records_pushed _ _ _ _ _ c Hb1), zlen_app. done.
  - intros c. rewrite <- (buffer_records_pushed _ _ _ _ _ c Hb1). by eapply held_sublist_split.
Qed.

(** C3: [enqueue] keeps the buffer well formed (every held batch non-empty, of one class, and
    counted exactly), leaves every configured bound satisfied, and loses nothing silently: for
    each evidence class, what was held plus what arrived is what is held plus what the returned
    gap reports declare lost; what stays is in arrival order. *)
Theorem enqueue_bounded_and_accounted new_id b now_ms rb :
  buffer_ok rb -> config_ok (rb_config rb) -> enqueue_fits new_id b rb ->
  let '(gaps, rb') := enqueue new_id b now_ms rb in
  buffer_ok rb' /\ rb_config rb' = rb_config rb /\ within_bounds rb' /\
  (forall c, held c rb + count_class c (eb_records b) = held c rb' + zsum (gap_class c) gaps) /\
  (forall c, sublist (of_class c (buffer_records rb'))
                     (of_class c (buffer_records rb) ++ of_class c (eb_records b))).
Proof. apply enqueue_facts. Qed.

Lemma shed_to_run target rb :
  buffer_ok rb ->
  let '(gaps, rb') := shed_to target rb in
  exists shed, shed_run rb shed rb' /\
    gaps = map (fun d => gap_for_shed "memory_pressure" (bb_class d) (bb_batch d)) shed /\
    (rb_bytes rb' <= target \/ rb_batches rb' = []).
Proof.
  intros Hok. unfold shed_to.
  pose proof (shed_while_spec (length (rb_batches rb)) "memory_pressure" (fun rb => target <? rb_bytes rb) rb Hok ltac:(lia)) as Hs.
  destruct (shed_while _ _ _ rb) as [gaps rb']. destruct Hs as (shed & Hrun & Hg & Hend).
  exists shed. split_and!; [done|done|]. destruct Hend; [left|by right]. bool_hyps. lia.
Qed.

(** [shed_to] gives evidence up in policy order: it reaches the byte target or empties the
    buffer; of each class the batches shed are the oldest ones; attribution is touched only when
    no reliability is left; and the gaps are exactly the shed batches'. *)
Theorem shed_to_policy target rb :
  buffer_ok rb ->
  let '(gaps, rb') := shed_to target rb in
  buffer_ok rb' /\ (rb_bytes rb' <= target \/ rb_batches rb' = []) /\
  exists shed,
    gaps = map (fun d => gap_for_shed "memory_pressure" (bb_class d) (bb_batch d)) shed /\
    (forall c, filter (fun b => bb_class b = c) (rb_batches rb) =
               filter (fun b => bb_class b = c) shed ++
               filter (fun b => bb_class b = c) (rb_batches rb')) /\
    ((exists d, d ∈ shed /\ bb_class d = Attribution) ->
       Forall (fun b => bb_class b = Attribution) (rb_batches rb')) /\
    (forall c, held c rb = held c rb' + zsum (gap_class c) gaps).
Proof.
  intros Hok. pose proof (shed_to_run target rb Hok) as Hrun.
  destruct (shed_to target rb) as [gaps rb']. destruct Hrun as (shed & Hrun & -> & Hend).
  pose proof Hrun as (Hok' & _ & Hf & _ & _ & Hattr).
  split_and!; [done|done|]. exists shed. split_and!; [done|done|naive_solver|].
  intros c. by apply shed_run_held.
Qed.

Lemma pop_front_facts rb d rb' :
  buffer_ok rb -> pop_front rb = Some (d, rb') ->
  buffer_ok rb' /\ rb_config rb' = rb_config rb /\ rb_batches rb = d :: rb_batches rb'.
Proof.
  intros Hok. unfold pop_front. destruct (rb_batches rb) as [|b rest] eqn:E; [done|].
  intros [= -> <-]. pose proof (remove_ok rb 0 d Hok) as Hr. rewrite E in Hr.
  specialize (Hr eq_refl). done.
Qed.

Lemma drop_expired_loop_spec fuel now_ms rb :
  buffer_ok rb -> (length (rb_batches rb) <= fuel)%nat ->
  let is_expired := expired now_ms (rc_max_age_ms (rb_config rb)) in
  let '(gaps, rb') := drop_expired_loop fuel now_ms rb in
  exists dropped,
    buffer_ok rb' /\ rb_config rb' = rb_config rb /\
    rb_batches rb = dropped ++ rb_batches rb' /\
    Forall (fun b => is_expired b = true) dropped /\
    (forall b, head (rb_batches rb') = Some b -> is_expired b = false) /\
    gaps = map (fun d => gap_for_shed "retry_buffer_expired" (bb_class d) (bb_batch d)) dropped.
Proof.
  cbv zeta. revert rb. induction fuel as [|fuel IH]; intros rb Hok Hlen; cbn [drop_expired_loop].
  { exists []. assert (rb_batches rb = []) as E by (apply nil_length_inv; lia).
    rewrite E. split_and!; done. }
  destruct (head (rb_batches rb)) as [b|] eqn:Hh; cbn [fmap option_fmap option_map default from_option id negb].
  2:{ exists []. rewrite Hh. split_and!; try done. }
  destruct (expired _ _ b) eqn:He; cbn [negb].
  2:{ exists []. rewrite Hh. split_and!; try done. by intros ? [= <-]. }
  destruct (pop_front rb) as [[d rb1]|] eqn:Hp.
  2:{ unfold pop_front in Hp. by destruct (rb_batches rb). }
  destruct (pop_front_facts _ _ _ Hok Hp) as (Hok1 & Hc1 & Hb1).
  rewrite Hb1 in Hlen, Hh. cbn in Hlen, Hh. injection Hh as ->.
  specialize (IH rb1 Hok1 ltac:(lia)). rewrite Hc1 in IH.
  destruct (drop_expired_loop fuel now_ms rb1) as [gaps rb2].
  destruct IH as (dropped & Hok2 & Hc2 & Hb2 & Hall & Hhead & ->).
  exists (b :: dropped). split_and!; [done|congruence|by rewrite Hb1, Hb2|by constructor|done|done].
Qed.

Lemma dropped_prefix_held rb rb' dropped cause c :
  buffer_ok rb -> rb_batches rb = dropped ++ rb_batches rb' ->
  held c rb = held c rb' +
    zsum (gap_class c) (map (fun d => gap_for_shed cause (bb_class d) (bb_batch d)) dropped).
Proof.
  intros Hok Hb. unfold held, buffer_records. rewrite Hb, map_app, concat_app, count_class_app.
  pose proof (bok_batches _ Hok) as Hall. rewrite Hb in Hall. apply Forall_app in Hall as [Hd _].
  assert (zsum (gap_class c) (map (fun d => gap_for_shed cause (bb_class d) (bb_batch d)) dropped) =
          count_class c (concat (map (fun b => eb_records (bb_batch b)) dropped))) as ->; [|lia].
  clear -Hd. induction Hd as [|d l Hd _ IH]; [done|].
  cbn [map concat]. rewrite zsum_cons, count_class_app, IH. f_equal. apply gap_for_shed_class, Hd.
Qed.

(** [drop_expired] removes exactly the maximal expired prefix, reports every record of it,
    and, when batches were enqueued with a non-decreasing clock, leaves no expired batch
    anywhere in the buffer. *)
Theorem drop_expired_spec now_ms rb :
  buffer_ok rb ->
  let is_expired := expired now_ms (rc_max_age_ms (rb_config rb)) in
  let '(gaps, rb') := drop_expired now_ms rb in
  buffer_ok rb' /\
  (exists dropped, rb_batches rb = dropped ++ rb_batches rb' /\
     Forall (fun b => is_expired b = true) dropped /\
     gaps = map (fun d => gap_for_shed "retry_buffer_expired" (bb_class d) (bb_batch d)) dropped) /\
  (forall c, held c rb = held c rb' + zsum (gap_class c) gaps) /\
  (Sorted (fun a b => bb_enqueued_at_ms a <= bb_enqueued_at_ms b) (rb_batches rb) ->
     Forall (fun b => is_expired b = false) (rb_batches rb')).
Proof.
  cbv zeta. intros Hok. unfold drop_expired.
  pose proof (drop_expired_loop_spec (length (rb_batches rb)) now_ms rb Hok ltac:(lia)) as Hl.
  destruct (drop_expired_loop _ _ rb) as [gaps rb'].
  destruct Hl as (dropped & Hok' & Hc & Hb & Hall & Hhead & ->).
  split_and!; [done|by exists dropped|intros c; by apply dropped_prefix_held|].
  intros Hsort. rewrite Hb in Hsort. apply Sorted_StronglySorted in Hsort; [|intros ??? ??; lia].
  apply StronglySorted_app_1_r in Hsort.
  destruct (rb_batches rb') as [|b rest]; [constructor|].
  specialize (Hhead b eq_refl). apply StronglySorted_inv in Hsort as [_ Hle].
  constructor; [done|]. eapply Forall_impl; [exact Hle|]. cbn. intros x Hx.
  unfold expired, sat_sub in *. bool_hyps. apply Z.ltb_ge. lia.
Qed.
End properties.

(* ------------------------------------------------------------------ *)
(** ** The buffer's whole life: a ledger over its operations *)

(** What went in, what the gap reports declared lost, and what was handed to the sink. *)
Record Ledger := mkLedger {
  lg_buffer : RetryBuffer;
  lg_accepted : list EvidenceRecord;
  lg_gaps : list GapReport;
  lg_delivered : list EvidenceRecord
}.

Definition Ledger_new (config : RetryBufferConfig) : Ledger :=
  mkLedger (RetryBuffer_new config) [] [] [].

Section ledger.
Context `{ByteModel}.

(** One call of a state-changing method; the results of each go where the caller puts them. *)
Inductive ledger_step : Ledger -> Ledger -> Prop :=
| step_enqueue l new_id b now_ms gaps rb' :
    enqueue_fits new_id b (lg_buffer l) ->
    enqueue new_id b now_ms (lg_buffer l) = (gaps, rb') ->
    ledger_step l (mkLedger rb' (lg_accepted l ++ eb_records b) (lg_gaps l ++ gaps) (lg_delivered l))
| step_shed_to l target gaps rb' :
    shed_to target (lg_buffer l) = (gaps, rb') ->
    ledger_step l (mkLedger rb' (lg_accepted l) (lg_gaps l ++ gaps) (lg_delivered l))
| step_drop_expired l now_ms gaps rb' :
    drop_expired now_ms (lg_buffer l) = (gaps, rb') ->
    ledger_step l (mkLedger rb' (lg_accepted l) (lg_gaps l ++ gaps) (lg_delivered l))
| step_pop_delivered l b rb' :
    pop_delivered (lg_buffer l) = Some (b, rb') ->
    ledger_step l (mkLedger rb' (lg_accepted l) (lg_gaps l) (lg_delivered l ++ eb_records b)).

Record ledger_ok (config : RetryBufferConfig) (l : Ledger) : Prop := {
  lok_buffer : buffer_ok (lg_buffer l);
  lok_config : rb_config (lg_buffer l) = config;
  lok_bounds : within_bounds (lg_buffer l);
  lok_count c : count_class c (lg_accepted l) =
                count_class c (lg_delivered l) + held c (lg_buffer l) + zsum (gap_class c) (lg_gaps l);
  lok_order c : sublist (of_class c (lg_delivered l) ++ of_class c (buffer_records (lg_buffer l)))
                        (of_class c (lg_accepted l))
}.

(** Fewer batches, fewer records, fewer bytes: still within the bounds. *)
Lemma within_bounds_sublist rb rb' :
  buffer_ok rb -> buffer_ok rb' -> rb_config rb' = rb_config rb ->
  sublist (rb_batches rb') (rb_batches rb) -> within_bounds rb -> within_bounds rb'.
Proof.
  intros [Hb Hr Hy] [Hb' Hr' Hy'] Hc Hs (H1 & H2 & H3).
  destruct (submseteq_Permutation (rb_batches rb') (rb_batches rb)) as [k Hk];
    [by apply sublist_submseteq|].
  unfold within_bounds, len_batches in *. rewrite Hc, Hr', Hy'. rewrite Hr, Hy in *.
  rewrite !(zsum_permutation _ _ _ Hk), zsum_app in *.
  assert (zlen (rb_batches rb) = zlen (rb_batches rb') + zlen k) as Hl.
  { unfold zlen. rewrite Hk, length_app. lia. }
  rewrite Hk in Hb. apply Forall_app in Hb as [_ Hbk].
  pose proof (lens_nonneg k). pose proof (bytes_nonneg k Hbk). pose proof (zlen_nonneg k). lia.
Qed.

Lemma lose_ok config l gaps rb' :
  ledger_ok config l -> buffer_ok rb' -> rb_config rb' = rb_config (lg_buffer l) ->
  sublist (rb_batches rb') (rb_batches (lg_buffer l)) ->
  (forall c, held c (lg_buffer l) = held c rb' + zsum (gap_class c) gaps) ->
  ledger_ok config (mkLedger rb' (lg_accepted l) (lg_gaps l ++ gaps) (lg_delivered l)).
Proof.
  intros [Hok Hc Hbd Hn Ho] Hok' Hc' Hs Hh. split; cbn [lg_buffer lg_accepted lg_gaps lg_delivered].
  - done.
  - congruence.
  - eapply within_bounds_sublist; [exact Hok|done..].
  - intros c. rewrite zsum_app, Hn, Hh. lia.
  - intros c. etrans; [|apply Ho]. apply sublist_app; [done|]. by apply sublist_buffer_records.
Qed.

Lemma ledger_step_ok config l l' :
  config_ok config -> ledger_ok config l -> ledger_step l l' -> ledger_ok config l'.
Proof.
  intros Hcfg Hl Hs. pose proof Hl as [Hok Hc Hbd Hn Ho].
  destruct Hs as [l new_id b now_ms gaps rb' Hfit He|l target gaps rb' He|l now_ms gaps rb' He|l b rb' He].
  - pose proof (enqueue_facts new_id b now_ms _ Hok ltac:(by rewrite Hc) Hfit) as Hf. rewrite He in Hf.
    destruct Hf as (Hok' & Hc' & Hbd' & Hh & Hs). split; cbn [lg_buffer lg_accepted lg_gaps lg_delivered].
    + done.
    + congruence.
    + done.
    + intros c. rewrite count_class_app, zsum_app, Hn. specialize (Hh c). lia.
    + intros c. rewrite of_class_app.
      transitivity (of_class c (lg_delivered l) ++
        (of_class c (buffer_records (lg_buffer l)) ++ of_class c (eb_records b))); [by apply sublist_app|].
      rewrite app_assoc. apply sublist_app; [apply Ho|done].
  - pose proof (shed_to_run target _ Hok) as Hf. rewrite He in Hf.
    destruct Hf as (shed & Hrun & -> & _). pose proof Hrun as (Hok' & Hc' & _ & Hs & _).
    apply lose_ok; [done..|]. intros c. by apply shed_run_held.
  - unfold drop_expired in He.
    pose proof (drop_expired_loop_spec _ now_ms _ Hok (le_n _)) as Hf. rewrite He in Hf.
    destruct Hf as (dropped & Hok' & Hc' & Hb & _ & _ & ->).
    apply lose_ok; [done..| |].
    + rewrite Hb. by apply sublist_inserts_l.
    + intros c. by apply dropped_prefix_held.
  - unfold pop_delivered in He. destruct (pop_front (lg_buffer l)) as [[d rb1]|] eqn:Hp; [|done].
    cbn in He. injection He as <- <-. destruct (pop_front_facts _ _ _ Hok Hp) as (Hok' & Hc' & Hb).
    assert (buffer_records (lg_buffer l) = eb_records (bb_batch d) ++ buffer_records rb1) as Hrec.
    { unfold buffer_records. by rewrite Hb. }
    split; cbn [lg_buffer lg_accepted lg_gaps lg_delivered].
    + done.
    + congruence.
    + eapply within_bounds_sublist; [exact Hok|done..| |done]. rewrite Hb. by apply sublist_cons.
    + intros c. rewrite count_class_app, Hn. unfold held. rewrite Hrec, count_class_app. lia.
    + intros c. etrans; [|apply Ho]. rewrite Hrec, !of_class_app. by rewrite app_assoc.
Qed.

Lemma ledger_new_ok config : config_ok config -> ledger_ok config (Ledger_new config).
Proof.
  intros (H1 & H2 & H3). split; done.
Qed.

(** The retry buffer never loses a record silently. After any sequence of enqueues, memory
    sheds, expiries and deliveries from an empty buffer, for each evidence class the records
    accepted are exactly those delivered, those still held and those the gap reports declare
    lost; the bounds hold; and what was delivered, followed by what is held, is in the order it
    was accepted (nothing overtakes within a class, nothing is duplicated). *)
Theorem retry_buffer_conservation config l :
  config_ok config -> rtc ledger_step (Ledger_new config) l ->
  within_bounds (lg_buffer l) /\
  forall c, count_class c (lg_accepted l) =
              count_class c (lg_delivered l) + held c (lg_buffer l) + zsum (gap_class c) (lg_gaps l) /\
            sublist (of_class c (lg_delivered l) ++ of_class c (buffer_records (lg_buffer l)))
                    (of_class c (lg_accepted l)).
Proof.
  intros Hc Hrtc.
  assert (ledger_ok config l) as [_ _ Hb Hn Ho]; [|split; [done|intros c; split; [apply Hn|apply Ho]]].
  pose proof (ledger_new_ok config Hc) as Hnew.
  induction Hrtc as [|? ? ? Hs _ IH] in Hnew |- *; [done|]. apply IH. by eapply ledger_step_ok.
Qed.
End ledger.

(* ------------------------------------------------------------------ *)
(** ** Witnesses *)

(** A buffer of one batch at most, holding one attribution record; the incoming batch brings a
    reliability and an attribution record, so the enqueue sheds. *)
Definition w_config : RetryBufferConfig := mkRetryBufferConfig 10 1 1000 100000.
Definition w_ids (c : EvidenceClass) : string :=
  match c with Reliability => "r" | Attribution => "a" end.
Definition w_buffer : RetryBuffer :=
  (enqueue w_ids (sample_batch "b0" [sample_attribution]) 5 (RetryBuffer_new w_config)).2.
Definition w_batch : EvidenceBatch := sample_batch "b1" [sample_reliability; sample_attribution].

Lemma w_buffer_ok : buffer_ok w_buffer.
Proof.
  split; [|by vm_compute|by vm_compute].
  constructor; [|constructor]. split; [done|by repeat constructor|by vm_compute].
Qed.

Lemma enqueue_bounded_witness :
  let '(gaps, rb') := enqueue w_ids w_batch 7 w_buffer in
  within_bounds rb' /\ map gap_dropped_records gaps = [1; 1].
Proof.
  pose proof (enqueue_bounded_and_accounted w_ids w_batch 7 w_buffer w_buffer_ok
    ltac:(by vm_compute) ltac:(by vm_compute)) as H.
  destruct (enqueue w_ids w_batch 7 w_buffer) as [gaps rb'] eqn:E.
  destruct H as (_ & _ & Hb & _). split; [exact Hb|].
  vm_compute in E. by injection E as <- <-.
Defined.

Lemma shed_to_policy_witness :
  let '(gaps, rb') := shed_to 0 w_buffer in
  rb_bytes rb' <= 0 \/ rb_batches rb' = [].
Proof.
  pose proof (shed_to_policy 0 w_buffer w_buffer_ok) as H.
  destruct (shed_to 0 w_buffer) as [gaps rb']. exact (proj1 (proj2 H)).
Defined.

Lemma drop_expired_witness :
  let '(gaps, rb') := drop_expired 5000 w_buffer in
  Forall (fun b => expired 5000 1000 b = false) (rb_batches rb') /\ map gap_dropped_records gaps = [1].
Proof.
  pose proof (drop_expired_spec 5000 w_buffer w_buffer_ok) as H. cbv zeta in H.
  destruct (drop_expired 5000 w_buffer) as [gaps rb'] eqn:E.
  destruct H as (_ & _ & _ & Hs). split.
  - apply Hs. vm_compute. repeat constructor.
  - vm_compute in E. by injection E as <- <-.
Defined.

Lemma retry_buffer_conservation_witness :
  let l := mkLedger w_buffer [sample_attribution] [] [] in
  rtc ledger_step (Ledger_new w_config) l /\
  count_class Attribution (lg_accepted l) = 0 + held Attribution (lg_buffer l) + 0.
Proof.
  cbv zeta. assert (rtc ledger_step (Ledger_new w_config) (mkLedger w_buffer [sample_attribution] [] [])) as Hr.
  { eapply rtc_l; [|apply rtc_refl].
    eapply (step_enqueue (Ledger_new w_config) w_ids (sample_batch "b0" [sample_attribution]) 5); by vm_compute. }
  split; [exact Hr|].
  exact (proj1 (proj2 (retry_buffer_conservation w_config _ ltac:(by vm_compute) Hr) Attribution)).
Defined.
