(* ===== verification/Backoff.v ===== *)
(** The retry schedule ([RetryBackoffConfig], [RetryBackoff] and [Jitter] of
    [jalki-evidence/src/retry.rs]).

    [hash] is what one process's [RandomState] makes of the counter: a [u64] and otherwise
    arbitrary. *)
From S2P Require Import Prelude Retry.

Record RetryBackoffConfig := mkRetryBackoffConfig {
  bc_base_ms : Z;
  bc_max_ms : Z
}.

(** [RetryBackoffConfig::default()] *)
Definition RetryBackoffConfig_default : RetryBackoffConfig := mkRetryBackoffConfig 250 30000.

Definition normalized (c : RetryBackoffConfig) : RetryBackoffConfig :=
  let base_ms := Z.max (bc_base_ms c) 1 in
  mkRetryBackoffConfig base_ms (Z.max (bc_max_ms c) base_ms).

(** [RetryBackoffConfig::from_env] *)
Definition RetryBackoffConfig_from_env (env : string -> option string) : RetryBackoffConfig :=
  let d := RetryBackoffConfig_default in
  normalized (mkRetryBackoffConfig
    (env_parse env "JALKI_RETRY_BACKOFF_BASE_MS" (bc_base_ms d))
    (env_parse env "JALKI_RETRY_BACKOFF_MAX_MS" (bc_max_ms d))).

(** [Jitter]: the counter; its [RandomState] is [hash]. *)
Record Jitter := mkJitter { jit_counter : Z }.

Record RetryBackoff := mkRetryBackoff {
  rbo_config : RetryBackoffConfig;
  rbo_attempt : Z;
  rbo_jitter : Jitter
}.

Definition RetryBackoff_new (config : RetryBackoffConfig) : RetryBackoff :=
  mkRetryBackoff (normalized config) 0 (mkJitter 0).

Definition u32_max : Z := 2 ^ 32 - 1.

(** [1u64.checked_shl(n)]: [None] when [n] reaches the width. *)
Definition checked_shl_1 (n : Z) : option Z :=
  if n <? 64 then Some (wrap 64 (Z.shiftl 1 n)) else None.

(** [RetryBackoff::ceiling_ms] *)
Definition ceiling_ms (b : RetryBackoff) : Z :=
  Z.min (default u64_max
           ((fun factor => sat_mul64 (bc_base_ms (rbo_config b)) factor) <$>
              checked_shl_1 (rbo_attempt b)))
        (bc_max_ms (rbo_config b)).

Section draw.
Variable hash : Z -> Z.

(** [Jitter::below] *)
Definition below (bound : Z) (j : Jitter) : Z * Jitter :=
  let counter := wrap 64 (jit_counter j + 1) in
  (hash counter mod Z.max bound 1, mkJitter counter).

(** [RetryBackoff::next_delay_ms] *)
Definition next_delay_ms (b : RetryBackoff) : Z * RetryBackoff :=
  let ceiling := ceiling_ms b in
  let half := ceiling / 2 in
  let '(drawn, jitter) := below (add64 (ceiling - half) 1) (rbo_jitter b) in
  (add64 half drawn,
   mkRetryBackoff (rbo_config b) (Z.min (rbo_attempt b + 1) u32_max) jitter).

(** [RetryBackoff::reset] *)
Definition backoff_reset (b : RetryBackoff) : RetryBackoff :=
  mkRetryBackoff (rbo_config b) 0 (rbo_jitter b).

(** The delays of [n] consecutive failures, and the schedule after them. *)
Fixpoint draws (n : nat) (b : RetryBackoff) : list Z * RetryBackoff :=
  match n with
  | O => ([], b)
  | S n' =>
      let '(d, b') := next_delay_ms b in
      let '(ds, b'') := draws n' b' in
      (d :: ds, b'')
  end.
End draw.

(** A schedule whose configuration went through [normalized] and whose fields fit their widths. *)
Record backoff_ok (b : RetryBackoff) : Prop := {
  boo_base : 1 <= bc_base_ms (rbo_config b) <= u64_max;
  boo_max : bc_base_ms (rbo_config b) <= bc_max_ms (rbo_config b) <= u64_max;
  boo_attempt : 0 <= rbo_attempt b <= u32_max
}.

Lemma normalized_idempotent c : normalized (normalized c) = normalized c.
Proof. unfold normalized. cbn. f_equal; lia. Qed.

Lemma RetryBackoff_new_ok c :
  is_u64 (bc_base_ms c) -> is_u64 (bc_max_ms c) -> backoff_ok (RetryBackoff_new c).
Proof. intros H1 H2. split; cbn; unfold u32_max in *; word. Qed.

Lemma sat_mul64_spec a b : sat_mul64 a b = Z.min (a * b) u64_max.
Proof. done. Qed.

Lemma checked_shl_1_spec n : 0 <= n -> checked_shl_1 n = if n <? 64 then Some (2 ^ n) else None.
Proof.
  intros Hn. unfold checked_shl_1. destruct (n <? 64) eqn:E; [|done]. bool_hyps.
  rewrite Z.shiftl_1_l, wrap_small; [done|]. split; [lia|]. by apply Z.pow_lt_mono_r; lia.
Qed.

(** The ceiling, as the schedule's description states it. *)
Lemma ceiling_ms_exact b :
  backoff_ok b ->
  ceiling_ms b = Z.min (bc_base_ms (rbo_config b) * 2 ^ rbo_attempt b) (bc_max_ms (rbo_config b)).
Proof.
  intros [Hb Hm Ha]. unfold ceiling_ms. rewrite checked_shl_1_spec by lia.
  destruct (rbo_attempt b <? 64) eqn:E; cbn [fmap option_fmap option_map default from_option id]; bool_hyps.
  - rewrite sat_mul64_spec. lia.
  - assert (2 ^ 64 <= 2 ^ rbo_attempt b) by (apply Z.pow_le_mono_r; lia).
    assert (1 * 2 ^ 64 <= bc_base_ms (rbo_config b) * 2 ^ rbo_attempt b)
      by (apply Z.mul_le_mono_nonneg; lia).
    word.
Qed.

Lemma ceiling_ms_bounds b : backoff_ok b -> 1 <= ceiling_ms b <= bc_max_ms (rbo_config b).
Proof.
  intros Hok. rewrite ceiling_ms_exact by done. destruct Hok as [Hb Hm Ha].
  assert (0 < 2 ^ rbo_attempt b) by (apply Z.pow_pos_nonneg; lia). nia.
Qed.

Lemma below_range hash bound j :
  0 < bound -> let '(d, _) := below hash bound j in 0 <= d < bound.
Proof. intros H. cbn. rewrite Z.max_l by lia. apply Z.mod_pos_bound. lia. Qed.

Lemma next_delay_facts hash b :
  backoff_ok b ->
  let '(d, b') := next_delay_ms hash b in
  ceiling_ms b / 2 <= d <= ceiling_ms b /\ backoff_ok b' /\ rbo_config b' = rbo_config b /\
  rbo_attempt b' = Z.min (rbo_attempt b + 1) u32_max.
Proof.
  intros Hok. pose proof (ceiling_ms_bounds b Hok) as Hc. pose proof Hok as [Hb Hm Ha].
  unfold next_delay_ms.
  pose proof (Z.div_mod (ceiling_ms b) 2 ltac:(lia)). pose proof (Z.mod_pos_bound (ceiling_ms b) 2 ltac:(lia)).
  rewrite (add64_small (ceiling_ms b - ceiling_ms b / 2) 1) by word.
  pose proof (below_range hash (ceiling_ms b - ceiling_ms b / 2 + 1) (rbo_jitter b) ltac:(lia)) as Hd.
  destruct (below hash _ (rbo_jitter b)) as [drawn j].
  rewrite add64_small by word. split_and!; [lia|lia| |done|done].
  split; cbn; [done|done|unfold u32_max in *; lia].
Qed.

Lemma draws_facts hash n b :
  backoff_ok b -> rbo_attempt b + Z.of_nat n <= u32_max ->
  let '(ds, b') := draws hash n b in
  length ds = n /\ backoff_ok b' /\ rbo_config b' = rbo_config b /\
  rbo_attempt b' = rbo_attempt b + Z.of_nat n /\
  forall i d, ds !! i = Some d ->
    let ceiling := Z.min (bc_base_ms (rbo_config b) * 2 ^ (rbo_attempt b + Z.of_nat i))
                         (bc_max_ms (rbo_config b)) in
    ceiling / 2 <= d <= ceiling.
Proof.
  revert b. induction n as [|n IH]; intros b Hok Hle; cbn [draws].
  { split_and!; [done..|lia|]. intros i d H. by rewrite lookup_nil in H. }
  pose proof (next_delay_facts hash b Hok) as Hd. pose proof (ceiling_ms_exact b Hok) as Hce.
  destruct (next_delay_ms hash b) as [d b1]. destruct Hd as (Hrange & Hok1 & Hc1 & Ha1).
  rewrite Z.min_l in Ha1 by lia. specialize (IH b1 Hok1 ltac:(lia)).
  destruct (draws hash n b1) as [ds b2]. destruct IH as (Hl & Hok2 & Hc2 & Ha2 & Hds).
  split_and!; [cbn; lia|done|congruence|lia|]. intros [|i] x; cbn [lookup list_lookup].
  - intros [= ->]. rewrite Z.add_0_r, <- Hce. exact Hrange.
  - intros Hx. specialize (Hds i x Hx). rewrite Hc1, Ha1 in Hds.
    replace (rbo_attempt b + Z.of_nat (S i)) with (rbo_attempt b + 1 + Z.of_nat i) by lia. exact Hds.
Qed.

(** C34: the backoff schedule. The delays after a reset are exponential with equal jitter: the
    [i]-th consecutive failure waits between half of [min(base * 2^i, max)] and all of it, for
    every number of failures (no wrap-around collapses the ceiling), whatever the hash; and a
    [reset] starts the same schedule again. *)
Theorem backoff_schedule hash n b :
  backoff_ok b -> Z.of_nat n <= u32_max ->
  let '(ds, _) := draws hash n (backoff_reset b) in
  length ds = n /\
  forall i d, ds !! i = Some d ->
    let ceiling := Z.min (bc_base_ms (rbo_config b) * 2 ^ Z.of_nat i) (bc_max_ms (rbo_config b)) in
    ceiling / 2 <= d <= ceiling.
Proof.
  intros [Hb Hm Ha] Hn.
  pose proof (draws_facts hash n (backoff_reset b) ltac:(by split; unfold u32_max)
    ltac:(cbn; lia)) as Hd.
  destruct (draws hash n (backoff_reset b)) as [ds b']. destruct Hd as (Hl & _ & _ & _ & Hds). done.
Qed.

(** The attempt rate is bounded by the cap: once the doubling reached [max_ms], [n] further
    attempts take at least [n * (max_ms / 2)] milliseconds. *)
Lemma draws_at_cap hash n b :
  backoff_ok b -> bc_max_ms (rbo_config b) <= bc_base_ms (rbo_config b) * 2 ^ rbo_attempt b ->
  rbo_attempt b + Z.of_nat n <= u32_max ->
  Z.of_nat n * (bc_max_ms (rbo_config b) / 2) <= zsum id (draws hash n b).1.
Proof.
  intros Hok Hcap Hle. pose proof (draws_facts hash n b Hok Hle) as Hd.
  destruct (draws hash n b) as [ds b']. destruct Hd as (Hl & _ & _ & _ & Hds). cbn [fst].
  assert (Forall (fun d => bc_max_ms (rbo_config b) / 2 <= d) ds) as Hall.
  { apply Forall_lookup. intros i d Hi. specialize (Hds i d Hi). cbv zeta in Hds.
    destruct Hok as [Hb Hm Ha]. rewrite Z.min_r in Hds; [lia|].
    rewrite Z.pow_add_r by lia. assert (0 < 2 ^ Z.of_nat i) by (apply Z.pow_pos_nonneg; lia). nia. }
  rewrite <- Hl. clear -Hall. induction Hall as [|d ds Hd _ IH]; [done|].
  cbn [length]. rewrite zsum_cons. unfold id at 1. lia.
Qed.

Lemma backoff_schedule_witness :
  let b := RetryBackoff_new (mkRetryBackoffConfig 250 30000) in
  (draws (fun c => c * 7919) 9 b).1 = [232; 275; 710; 1645; 3576; 7503; 15427; 18348; 26267] /\
  forall i d, [232; 275; 710; 1645; 3576; 7503; 15427; 18348; 26267] !! i = Some d ->
    Z.min (250 * 2 ^ Z.of_nat i) 30000 / 2 <= d <= Z.min (250 * 2 ^ Z.of_nat i) 30000.
Proof.
  cbv zeta. pose proof (backoff_schedule (fun c => c * 7919) 9 (RetryBackoff_new (mkRetryBackoffConfig 250 30000))
    ltac:(by split; vm_compute) ltac:(by vm_compute)) as H.
  split; [by vm_compute|].
  exact (proj2 H).
Defined.
