(* ===== verification/Pacer.v ===== *)
(** The drain pacer ([DrainPaceConfig] and [DrainPacer] of [jalki-evidence/src/retry.rs]): two
    token buckets scaled by an AIMD factor, over IEEE doubles ([Float]).

    Rates and byte counts are [u64]/[usize]; the three [f64] fields are the defaults, which
    [from_env] never overrides, but the theorems ask only [pace_config_ok] of them. *)
From Stdlib Require Import Floats.SpecFloat.
From S2P Require Import Prelude Float Retry.

Record DrainPaceConfig := mkDrainPaceConfig {
  dp_max_bytes_per_sec : Z;
  dp_max_batches_per_sec : Z;
  dp_backpressure_decrease : f64;
  dp_recovery_increase : f64;
  dp_min_scale : f64
}.

(** [DrainPaceConfig::default()] *)
Definition DrainPaceConfig_default : DrainPaceConfig :=
  mkDrainPaceConfig (2 * 1024 * 1024) 20 (f_lit 1 2) (f_lit 2 1000) (f_lit 5 100).

(** [DrainPaceConfig::from_env] *)
Definition DrainPaceConfig_from_env (env : string -> option string) : DrainPaceConfig :=
  let d := DrainPaceConfig_default in
  mkDrainPaceConfig
    (Z.max (env_parse env "JALKI_DRAIN_MAX_BYTES_PER_SEC" (dp_max_bytes_per_sec d)) 1)
    (Z.max (env_parse env "JALKI_DRAIN_MAX_BATCHES_PER_SEC" (dp_max_batches_per_sec d)) 1)
    (dp_backpressure_decrease d) (dp_recovery_increase d) (dp_min_scale d).

Inductive Pace := Send | Wait (ms : Z).
#[export] Instance Pace_eq_dec : EqDecision Pace.
Proof. solve_decision. Defined.

Record DrainPacer := mkDrainPacer {
  pc_config : DrainPaceConfig;
  pc_scale : f64;
  pc_byte_tokens : f64;
  pc_batch_tokens : f64;
  pc_last_refill_ms : option Z
}.
#[export] Instance eta_DrainPacer : Eta DrainPacer :=
  fun p => mkDrainPacer (pc_config p) (pc_scale p) (pc_byte_tokens p) (pc_batch_tokens p)
                        (pc_last_refill_ms p).

Definition DrainPacer_new (config : DrainPaceConfig) : DrainPacer :=
  mkDrainPacer config f_one (f_of_Z (dp_max_bytes_per_sec config))
    (f_of_Z (dp_max_batches_per_sec config)) None.

(** [DrainPacer::rates] *)
Definition rates (p : DrainPacer) : f64 * f64 :=
  (f_mul (f_of_Z (dp_max_bytes_per_sec (pc_config p))) (pc_scale p),
   f_mul (f_of_Z (dp_max_batches_per_sec (pc_config p))) (pc_scale p)).

(** [DrainPacer::refill] *)
Definition refill (now_ms : Z) (p : DrainPacer) : DrainPacer :=
  let last := default now_ms (pc_last_refill_ms p) in
  let elapsed := f_div (f_of_Z (sat_sub now_ms last)) (f_of_Z 1000) in
  let p := p <| pc_last_refill_ms := Some now_ms |> in
  let '(byte_rate, batch_rate) := rates p in
  p <| pc_byte_tokens :=
        f_min (f_add (pc_byte_tokens p) (f_mul elapsed byte_rate)) (f_max byte_rate f_one) |>
    <| pc_batch_tokens :=
        f_min (f_add (pc_batch_tokens p) (f_mul elapsed batch_rate)) (f_max batch_rate f_one) |>.

(** The tail of [poll]: how long until the batch would fit. *)
Definition wait_ms (p : DrainPacer) (bytes : f64) : Z :=
  let '(byte_rate, batch_rate) := rates p in
  let byte_wait :=
    if f_ge (pc_byte_tokens p) bytes then f_zero
    else f_div (f_sub bytes (pc_byte_tokens p)) (f_max byte_rate f_min_positive) in
  let batch_wait :=
    if f_ge (pc_batch_tokens p) f_one then f_zero
    else f_div (f_sub f_one (pc_batch_tokens p)) (f_max batch_rate f_min_positive) in
  let wait := f_mul (f_max byte_wait batch_wait) (f_of_Z 1000) in
  f_to_u64 (f_clamp (f_ceil wait) f_one (f_of_Z 60000)).

(** [DrainPacer::poll] *)
Definition poll (now_ms bytes : Z) (p : DrainPacer) : Pace * DrainPacer :=
  let p := refill now_ms p in
  let '(byte_rate, batch_rate) := rates p in
  let bytes := f_of_Z bytes in
  let affordable := f_le bytes (f_max byte_rate f_one) in
  if f_ge (pc_batch_tokens p) f_one && (f_ge (pc_byte_tokens p) bytes || negb affordable) then
    (Send, p <| pc_batch_tokens := f_sub (pc_batch_tokens p) f_one |>
             <| pc_byte_tokens := f_sub (pc_byte_tokens p) bytes |>)
  else (Wait (wait_ms p bytes), p).

Definition on_backpressure (p : DrainPacer) : DrainPacer :=
  p <| pc_scale := f_max (f_mul (pc_scale p) (dp_backpressure_decrease (pc_config p)))
                         (dp_min_scale (pc_config p)) |>.

Definition on_delivered (p : DrainPacer) : DrainPacer :=
  p <| pc_scale := f_min (f_add (pc_scale p) (dp_recovery_increase (pc_config p))) f_one |>.

(* ------------------------------------------------------------------ *)
(** ** Reachable pacers *)

(** What the defaults satisfy: the decrease at most halves, the floor is at most the full rate. *)
Record pace_config_ok (c : DrainPaceConfig) : Prop := {
  pco_bytes : 1 <= dp_max_bytes_per_sec c <= u64_max;
  pco_batches : 1 <= dp_max_batches_per_sec c <= u64_max;
  pco_decrease : f_nonneg (dp_backpressure_decrease c) = true /\
                 f_le (dp_backpressure_decrease c) (f_lit 1 2) = true;
  pco_min_scale : f_is_nan (dp_min_scale c) = false /\ f_le (dp_min_scale c) f_one = true
}.

(** One call of a method; clocks and sizes are machine words. *)
Inductive pacer_step : DrainPacer -> DrainPacer -> Prop :=
| pstep_poll p now_ms bytes :
    is_u64 now_ms -> is_u64 bytes -> pacer_step p (poll now_ms bytes p).2
| pstep_backpressure p : pacer_step p (on_backpressure p)
| pstep_delivered p : pacer_step p (on_delivered p).

Record pacer_ok (c : DrainPaceConfig) (p : DrainPacer) : Prop := {
  po_config : pc_config p = c;
  po_scale : f_is_nan (pc_scale p) = false /\ f_le (pc_scale p) f_one = true;
  po_bytes : f_is_nan (pc_byte_tokens p) = false;
  po_batches : f_is_nan (pc_batch_tokens p) = false
}.

Lemma one_le_pow2 x : f_le x f_one = true -> f_le_pow2 x 0.
Proof. apply (f_le_pow2_of_le x 0). Qed.

Lemma le_pow2_one x : f_is_nan x = false -> f_le_pow2 x 0 -> f_le x f_one = true.
Proof. apply (f_le_of_pow2 x 0). Qed.

Lemma is_u64_bounded z : is_u64 z -> f_nonneg (f_of_Z z) = true /\ f_le_pow2 (f_of_Z z) 65.
Proof. intros H. apply f_of_Z_bounded. word. Qed.

(** Rates are never [+inf]. *)
Lemma rate_bounded z scale :
  is_u64 z -> f_le scale f_one = true -> f_le_pow2 (f_mul (f_of_Z z) scale) 66.
Proof.
  intros Hz Hs. destruct (is_u64_bounded z Hz) as [Hn Hp].
  apply (f_mul_le_pow2 _ _ 65 0); [lia|done|done|by apply one_le_pow2].
Qed.

Lemma refill_ok c now_ms p : pacer_ok c p -> pacer_ok c (refill now_ms p).
Proof.
  intros [Hc Hs Hy Hb]. unfold refill. destruct (rates _) as [byte_rate batch_rate].
  split; cbn; [done|done|..]; apply f_min_not_nan; by apply f_max_not_nan.
Qed.

Lemma f_of_Z_finite z : is_u64 z -> f_is_inf (f_of_Z z) = false.
Proof.
  intros Hz. destruct (is_u64_bounded z Hz) as [Hn Hp]. by destruct (f_of_Z z) as [|[]| |].
Qed.

Lemma poll_ok c now_ms bytes p :
  is_u64 bytes -> pacer_ok c p -> pacer_ok c (poll now_ms bytes p).2.
Proof.
  intros Hby Hok. apply (refill_ok c now_ms) in Hok. destruct Hok as [Hc Hs Hy Hb]. unfold poll.
  destruct (rates _) as [byte_rate batch_rate]. destruct (_ && _); [|done].
  split; cbn [snd set]; cbn; [done|done|..]; apply f_sub_not_nan; try done; auto with jalki.
  right. by apply f_of_Z_finite.
Qed.

Lemma on_backpressure_ok c p : pace_config_ok c -> pacer_ok c p -> pacer_ok c (on_backpressure p).
Proof.
  intros [_ _ [Hd1 Hd2] [Hm1 Hm2]] [Hc [Hs1 Hs2] Hy Hb]. split; cbn; [done| |done|done].
  rewrite Hc. split; [by apply f_max_not_nan|]. apply le_pow2_one; [by apply f_max_not_nan|].
  apply f_max_le_pow2; [|by apply one_le_pow2]. rewrite f_mul_comm.
  apply (f_mul_le_pow2 _ _ (-1) 0); [lia|done|by apply (f_le_pow2_of_le _ (-1))|by apply one_le_pow2].
Qed.

Lemma on_delivered_ok c p : pacer_ok c p -> pacer_ok c (on_delivered p).
Proof.
  intros [Hc Hs Hy Hb]. split; cbn; [done| |done|done].
  split; [by apply f_min_not_nan|by apply f_min_le].
Qed.

Lemma DrainPacer_new_ok c : pacer_ok c (DrainPacer_new c).
Proof. split; cbn; auto with jalki. Qed.

Lemma pacer_reachable_ok c p :
  pace_config_ok c -> rtc pacer_step (DrainPacer_new c) p -> pacer_ok c p.
Proof.
  intros Hc Hr. pose proof (DrainPacer_new_ok c) as Hnew.
  induction Hr as [|? ? ? Hs _ IH] in Hnew |- *; [done|]. apply IH. destruct Hs.
  - by apply poll_ok.
  - by apply on_backpressure_ok.
  - by apply on_delivered_ok.
Qed.

(** The wait is a whole number of milliseconds between 1 and 60000. *)
Lemma wait_ms_bounded c p bytes :
  pace_config_ok c -> pacer_ok c p -> f_is_nan bytes = false ->
  1 <= wait_ms p bytes <= 60000.
Proof.
  intros [Hcb Hct _ _] [Hc [Hs1 Hs2] Hy Hb] Hn. unfold wait_ms, rates. rewrite Hc.
  apply f_to_u64_clamped, f_ceil_not_nan.
  change (f_of_Z 1000) with (S754_finite false 8796093022208000 (-43)).
  apply f_mul_finite_not_nan, f_max_not_nan.
  destruct (f_ge (pc_batch_tokens p) f_one); [done|].
  destruct (f_max_min_positive (f_mul (f_of_Z (dp_max_batches_per_sec c)) (pc_scale p)) 66
    ltac:(lia) ltac:(apply rate_bounded; [word|done])) as (H1 & H2 & H3).
  apply f_div_not_nan; [|done..]. apply f_sub_not_nan; [done|done|by left].
Qed.

(** A poll that does not send asks for a bounded wait. *)
Lemma poll_wait_range c now_ms bytes p :
  pace_config_ok c -> pacer_ok c p ->
  match (poll now_ms bytes p).1 with Send => True | Wait ms => 1 <= ms <= 60000 end.
Proof.
  intros Hc Hok. apply (refill_ok c now_ms) in Hok. unfold poll.
  destruct (rates _) as [byte_rate batch_rate]. destruct (_ && _); cbn [fst]; [done|].
  eapply wait_ms_bounded; [done..|]. apply f_of_Z_not_nan.
Qed.

(** The pacer never stalls and never spins. Whatever the history of polls, backpressure and
    deliveries and whatever the clock does (it may go backwards), the scale stays at most the full
    rate, and a poll either lets the batch go, only while a whole batch token is there, or asks
    for a wait of between one millisecond and one minute. *)
Theorem poll_wait_bounded c p now_ms bytes :
  pace_config_ok c -> rtc pacer_step (DrainPacer_new c) p -> is_u64 now_ms -> is_u64 bytes ->
  f_le (pc_scale p) f_one = true /\
  match poll now_ms bytes p with
  | (Send, p') => f_ge (pc_batch_tokens (refill now_ms p)) f_one = true /\
                  (f_ge (pc_byte_tokens (refill now_ms p)) (f_of_Z bytes) = true \/
                   f_le (f_of_Z bytes) (f_max (rates (refill now_ms p)).1 f_one) = false)
  | (Wait ms, p') => 1 <= ms <= 60000 /\ p' = refill now_ms p
  end.
Proof.
  intros Hc Hr Hnow Hbytes. pose proof (pacer_reachable_ok c p Hc Hr) as Hok.
  split; [apply (po_scale _ _ Hok)|]. apply (refill_ok c now_ms) in Hok. unfold poll.
  destruct (rates _) as [byte_rate batch_rate] eqn:Er. cbn [fst].
  destruct (_ && _) eqn:E.
  - bool_hyps. split; [done|]. apply orb_true_iff in H0 as [?|?]; [by left|right; by bool_hyps].
  - split; [|done]. eapply wait_ms_bounded; [done..|]. apply f_of_Z_not_nan.
Qed.

(** Backpressure gives rate up at once and bounds it: afterwards the scale is at least the
    configured floor and at most the full rate; a delivery takes rate back but never past it. *)
Theorem aimd_scale_bounds c p :
  pace_config_ok c -> rtc pacer_step (DrainPacer_new c) p ->
  f_ge (pc_scale (on_backpressure p)) (dp_min_scale c) = true /\
  f_le (pc_scale (on_backpressure p)) f_one = true /\
  f_le (pc_scale (on_delivered p)) f_one = true.
Proof.
  intros Hc Hr. pose proof (pacer_reachable_ok c p Hc Hr) as Hok.
  pose proof (on_backpressure_ok c p Hc Hok) as H1. pose proof (on_delivered_ok c p Hok) as H2.
  split_and!; [|apply (po_scale _ _ H1)|apply (po_scale _ _ H2)].
  cbn. rewrite (po_config _ _ Hok). apply f_max_ge, (pco_min_scale c Hc).
Qed.

(** [n] polls at one instant, with the same batch size. *)
Fixpoint polls (n : nat) (now_ms bytes : Z) (p : DrainPacer) : list Pace * DrainPacer :=
  match n with
  | O => ([], p)
  | S n' =>
      let '(pace, p') := poll now_ms bytes p in
      let '(ps, p'') := polls n' now_ms bytes p' in
      (pace :: ps, p'')
  end.

(** Batches larger than one second of byte budget are not held to the byte rate at all. At the
    default 2 MiB/s, twenty batches of 4 MiB, 80 MiB, all go at one instant although the bucket is
    74 MiB overdrawn before the last of them: only the batch rate stops the twenty-first. *)
Theorem oversized_batches_escape_byte_rate :
  (polls 21 0 (4 * 1024 * 1024) (DrainPacer_new DrainPaceConfig_default)).1
    = repeat Send 20 ++ [Wait 41000].
Proof. vm_compute. reflexivity. Qed.

Lemma default_pace_config_ok : pace_config_ok DrainPaceConfig_default.
Proof. by split; vm_compute. Qed.

Lemma poll_wait_bounded_witness :
  let p := on_backpressure (DrainPacer_new DrainPaceConfig_default) in
  f_le (pc_scale p) f_one = true /\ (poll 0 (2 * 1024 * 1024) p).1 = Send /\ (poll 0 100 p).1 = Send.
Proof.
  cbv zeta.
  pose proof (poll_wait_bounded DrainPaceConfig_default
    (on_backpressure (DrainPacer_new DrainPaceConfig_default)) 0 100 default_pace_config_ok
    (rtc_once _ _ (pstep_backpressure _)) ltac:(by vm_compute) ltac:(by vm_compute)) as [H _].
  split; [exact H|]. by vm_compute.
Defined.

Lemma aimd_scale_bounds_witness :
  f_ge (pc_scale (on_backpressure (DrainPacer_new DrainPaceConfig_default))) (f_lit 5 100) = true.
Proof.
  exact (proj1 (aimd_scale_bounds DrainPaceConfig_default (DrainPacer_new DrainPaceConfig_default)
    default_pace_config_ok (rtc_refl _ _))).
Defined.
