(* ===== verification/Spool.v ===== *)
(** The on-disk backlog ([jalki-evidence/src/spool.rs]): length-prefixed JSON frames, replayed up
    to the first frame that does not read back, rewritten whole by write-to-temp-and-rename.

    [to_vec] and [from_slice] are [serde_json]'s. A file is its bytes. Every file-system call is
    numbered and a fault plan says which ones fail, and, for a write, how many bytes reached the
    file first; a process killed between two calls is the plan that fails every later call. *)
From Stdlib Require Import Strings.Byte.
From S2P Require Import Prelude Protocol Evidence Samples.

Definition MAX_FRAME_BYTES : Z := 64 * 1024 * 1024.
Definition u32_limit : Z := 2 ^ 32.

Record SpoolConfig := mkSpoolConfig {
  sc_path : string;
  sc_max_bytes : Z
}.

Record ReplayReport := mkReplayReport {
  rr_batches : Z;
  rr_records : Z;
  rr_torn_tail_bytes : Z
}.

Record Spool := mkSpool {
  sp_config : SpoolConfig;
  sp_bytes : Z;
  sp_disabled : option string
}.
#[export] Instance eta_Spool : Eta Spool :=
  fun s => mkSpool (sp_config s) (sp_bytes s) (sp_disabled s).

(** The two files a spool touches. *)
Record Disk := mkDisk {
  dk_spool : option (list byte);
  dk_tmp : option (list byte);
  dk_calls : nat
}.
#[export] Instance eta_Disk : Eta Disk := fun d => mkDisk (dk_spool d) (dk_tmp d) (dk_calls d).

(** [Spool::open]; [parent_ok] is [create_dir_all(parent)]. *)
Definition spool_open (parent_ok : bool) (config : SpoolConfig) (d : Disk) : option Spool :=
  if parent_ok then Some (mkSpool config (default 0 (zlen <$> dk_spool d)) None) else None.

(** [Read::read_exact] on what is left of a file. *)
Definition read_exact (n : Z) (bs : list byte) : option (list byte * list byte) :=
  if n <=? zlen bs then Some (take (Z.to_nat n) bs, drop (Z.to_nat n) bs) else None.

Section spool.
Variable to_vec : EvidenceBatch -> result string (list byte).
Variable from_slice : list byte -> option EvidenceBatch.

(* ------------------------------------------------------------------ *)
(** ** File-system calls *)

(** How the [n]-th call fails: the error's text and how much of a write landed. *)
Variable fault : nat -> option (string * nat).

Definition fs (A : Type) : Type := Disk -> result string A * Disk.

Definition fs_bind {A B} (m : fs A) (k : A -> fs B) : fs B :=
  fun d => match m d with
           | (Ok a, d') => k a d'
           | (Err e, d') => (Err e, d')
           end.

Definition fs_ret {A} (a : A) : fs A := fun d => (Ok a, d).
Definition fs_fail {A} (e : string) : fs A := fun d => (Err e, d).
Definition fs_lift {A} (r : result string A) : fs A := fun d => (r, d).

(** A numbered call: [partial] is its effect when it fails, [full] when it does not. *)
Definition call (partial : nat -> Disk -> Disk) (full : Disk -> Disk) : fs unit :=
  fun d =>
    let d' := d <| dk_calls ::= S |> in
    match fault (dk_calls d) with
    | Some (e, n) => (Err e, partial n d')
    | None => (Ok tt, full d')
    end.

Definition append_to (bs : list byte) (f : option (list byte)) : option (list byte) :=
  Some (default [] f ++ bs).

Definition open_append : fs unit := call (fun _ d => d) (fun d => d <| dk_spool ::= append_to [] |>).
Definition write_spool (bs : list byte) : fs unit :=
  call (fun n d => d <| dk_spool ::= append_to (take n bs) |>) (fun d => d <| dk_spool ::= append_to bs |>).
Definition create_tmp : fs unit := call (fun _ d => d) (fun d => d <| dk_tmp := Some [] |>).
Definition write_tmp (bs : list byte) : fs unit :=
  call (fun n d => d <| dk_tmp ::= append_to (take n bs) |>) (fun d => d <| dk_tmp ::= append_to bs |>).
Definition flush_tmp : fs unit := call (fun _ d => d) (fun d => d).
Definition sync_tmp : fs unit := call (fun _ d => d) (fun d => d).
Definition rename_tmp : fs unit :=
  call (fun _ d => d) (fun d => d <| dk_spool := dk_tmp d |> <| dk_tmp := None |>).

(* ------------------------------------------------------------------ *)
(** ** Append *)

Definition frame (body : list byte) : list byte := be_put 4 (zlen body) ++ body.

(** [Spool::try_append] *)
Definition try_append (b : EvidenceBatch) : fs Z :=
  fs_bind (fs_lift (to_vec b)) (fun body =>
  if u32_limit <=? zlen body then fs_fail "batch exceeds frame size" else
  fs_bind open_append (fun _ =>
  fs_bind (write_spool (be_put 4 (zlen body))) (fun _ =>
  fs_bind (write_spool body) (fun _ =>
  fs_ret (4 + zlen body))))).

(** [Spool::append] *)
Definition spool_append (b : EvidenceBatch) (s : Spool) (d : Disk) : bool * Spool * Disk :=
  if bool_decide (is_Some (sp_disabled s)) || (sc_max_bytes (sp_config s) <=? sp_bytes s)
  then (false, s, d)
  else match try_append b d with
       | (Ok written, d') => (true, s <| sp_bytes := add64 (sp_bytes s) written |>, d')
       | (Err e, d') => (false, s <| sp_disabled := Some e |>, d')
       end.

(* ------------------------------------------------------------------ *)
(** ** Replay *)

(** The loop of [Spool::replay]: the batches read, and the bytes they took. *)
Fixpoint replay_loop (fuel : nat) (bs : list byte) : list EvidenceBatch * Z :=
  match fuel with
  | O => ([], 0)
  | S fuel' =>
      match read_exact 4 bs with
      | None => ([], 0)
      | Some (len_buf, rest) =>
          let len := be_get len_buf in
          if (len =? 0) || (MAX_FRAME_BYTES <? len) then ([], 0) else
          match read_exact len rest with
          | None => ([], 0)
          | Some (body, rest') =>
              match from_slice body with
              | None => ([], 0)
              | Some batch =>
                  let '(batches, consumed) := replay_loop fuel' rest' in
                  (batch :: batches, 4 + len + consumed)
              end
          end
      end
  end.

(** [Spool::replay]; [None] is a file that does not open. Every frame takes at least five bytes,
    so the file's length is fuel enough. *)
Definition replay (file : option (list byte)) : list EvidenceBatch * ReplayReport :=
  match file with
  | None => ([], mkReplayReport 0 0 0)
  | Some bs =>
      let '(batches, consumed) := replay_loop (length bs) bs in
      (batches, mkReplayReport (zlen batches) (zsum batch_len batches) (sat_sub (zlen bs) consumed))
  end.

(* ------------------------------------------------------------------ *)
(** ** Compaction *)

(** The writing loop of [try_compact]; a body past [u32::MAX] is skipped. *)
Fixpoint compact_write (batches : list EvidenceBatch) : fs Z :=
  match batches with
  | [] => fs_ret 0
  | b :: rest =>
      fs_bind (fs_lift (to_vec b)) (fun body =>
      if u32_limit <=? zlen body then compact_write rest else
      fs_bind (write_tmp (be_put 4 (zlen body))) (fun _ =>
      fs_bind (write_tmp body) (fun _ =>
      fs_bind (compact_write rest) (fun bytes =>
      fs_ret (4 + zlen body + bytes)))))
  end.

Definition try_compact (batches : list EvidenceBatch) : fs Z :=
  fs_bind create_tmp (fun _ =>
  fs_bind (compact_write batches) (fun bytes =>
  fs_bind flush_tmp (fun _ =>
  fs_bind sync_tmp (fun _ =>
  fs_bind rename_tmp (fun _ =>
  fs_ret bytes))))).

(** [Spool::compact] *)
Definition compact (batches : list EvidenceBatch) (s : Spool) (d : Disk) : bool * Spool * Disk :=
  if bool_decide (is_Some (sp_disabled s)) then (false, s, d)
  else match try_compact batches d with
       | (Ok bytes, d') => (true, s <| sp_bytes := bytes |>, d')
       | (Err e, d') => (false, s <| sp_disabled := Some e |>, d')
       end.

(** [Spool::clear] *)
Definition clear (s : Spool) (d : Disk) : bool * Spool * Disk := compact [] s d.
End spool.

(* ------------------------------------------------------------------ *)
(** ** Lemmas: frames *)

Section frames.
Variable to_vec : EvidenceBatch -> result string (list byte).
Variable from_slice : list byte -> option EvidenceBatch.

(** A batch whose JSON [body] reads back as the batch and fits a frame. *)
Definition good_frame (b : EvidenceBatch) (body : list byte) : Prop :=
  to_vec b = Ok body /\ from_slice body = Some b /\ 0 < zlen body <= MAX_FRAME_BYTES.

Definition frames (bodies : list (list byte)) : list byte := concat (map frame bodies).

Lemma zlen_be_put n z : zlen (be_put n z) = Z.of_nat n.
Proof. unfold zlen. by rewrite be_put_length. Qed.

Lemma zlen_frame body : zlen (frame body) = 4 + zlen body.
Proof. unfold frame. by rewrite zlen_app, zlen_be_put. Qed.

Lemma read_exact_app n (bs rest : list byte) : zlen bs = n -> read_exact n (bs ++ rest) = Some (bs, rest).
Proof.
  intros <-. unfold read_exact. rewrite zlen_app. pose proof (zlen_nonneg rest).
  rewrite (proj2 (Z.leb_le _ _)) by lia. unfold zlen. rewrite Nat2Z.id, take_app_length, drop_app_length.
  done.
Qed.

Lemma read_exact_short n (bs : list byte) : zlen bs < n -> read_exact n bs = None.
Proof. intros H. unfold read_exact. by rewrite (proj2 (Z.leb_gt _ _)) by lia. Qed.

Lemma be_get_len (body : list byte) : zlen body < u32_limit -> be_get (be_put 4 (zlen body)) = zlen body.
Proof.
  intros H. rewrite be_get_put. apply Z.mod_small. pose proof (zlen_nonneg body).
  change (256 ^ Z.of_nat 4) with u32_limit. lia.
Qed.

Lemma max_frame_u32 : MAX_FRAME_BYTES < u32_limit.
Proof. by vm_compute. Qed.

Lemma replay_loop_frame b body rest fuel :
  good_frame b body ->
  replay_loop from_slice (S fuel) (frame body ++ rest) =
    let '(batches, consumed) := replay_loop from_slice fuel rest in
    (b :: batches, 4 + zlen body + consumed).
Proof.
  intros (_ & Hfrom & Hlen). cbn [replay_loop]. unfold frame. rewrite <- app_assoc.
  rewrite read_exact_app by apply zlen_be_put. pose proof max_frame_u32.
  rewrite be_get_len by lia.
  rewrite (proj2 (Z.eqb_neq _ _)), (proj2 (Z.ltb_ge _ _)) by lia. cbn [orb].
  rewrite read_exact_app by done. by rewrite Hfrom.
Qed.

(** A frame cut short reads as nothing. *)
Lemma replay_loop_torn body k fuel :
  zlen body < u32_limit -> (k < length (frame body))%nat ->
  replay_loop from_slice fuel (take k (frame body)) = ([], 0).
Proof.
  intros Hbody Hk. destruct fuel as [|fuel]; [done|]. cbn [replay_loop].
  assert (Z.of_nat (length (frame body)) = 4 + zlen body) as Hl by apply zlen_frame.
  destruct (decide (k < 4)%nat) as [Hk4|Hk4].
  { rewrite read_exact_short; [done|]. unfold zlen. rewrite length_take. lia. }
  unfold frame. rewrite take_app_ge by (rewrite be_put_length; lia). rewrite be_put_length.
  rewrite read_exact_app by apply zlen_be_put. rewrite be_get_len by done.
  destruct (_ || _); [done|]. rewrite read_exact_short; [done|].
  unfold zlen at 1. rewrite length_take. lia.
Qed.

Lemma replay_loop_frames bs bodies k torn fuel :
  Forall2 good_frame bs bodies -> zlen torn < u32_limit -> (k < length (frame torn))%nat ->
  (length (frames bodies) <= fuel)%nat ->
  replay_loop from_slice fuel (frames bodies ++ take k (frame torn)) = (bs, zlen (frames bodies)).
Proof.
  intros Hf Ht Hk. revert fuel. induction Hf as [|b body bs bodies Hb _ IH]; intros fuel Hfuel.
  { by apply replay_loop_torn. }
  unfold frames in Hfuel |- *. cbn [map concat] in *. rewrite length_app in Hfuel.
  assert (Z.of_nat (length (frame body)) = 4 + zlen body) as Hl by apply zlen_frame.
  destruct Hb as (? & ? & ?). destruct fuel as [|fuel]; [lia|].
  rewrite <- app_assoc, (replay_loop_frame b) by done. fold (frames bodies).
  rewrite IH by (unfold frames; lia). rewrite zlen_app, zlen_frame. done.
Qed.

(** C23: replay recovers everything intact. From a file of whole frames followed by any strict
    prefix of one more frame (what a process killed mid-write leaves, nothing at all included), it
    returns exactly the batches written, in order, counts them and their records, and reports the
    abandoned tail to the byte. *)
Theorem replay_recovers_intact_prefix bs bodies torn k :
  Forall2 good_frame bs bodies -> zlen torn < u32_limit -> (k < length (frame torn))%nat ->
  replay from_slice (Some (frames bodies ++ take k (frame torn))) =
    (bs, mkReplayReport (zlen bs) (zsum batch_len bs) (Z.of_nat k)).
Proof.
  intros Hf Ht Hk. unfold replay. rewrite (replay_loop_frames bs); [|done..|].
  - rewrite zlen_app, sat_sub_exact by (pose proof (zlen_nonneg (take k (frame torn))); lia).
    do 2 f_equal. unfold zlen at 2. rewrite length_take. lia.
  - rewrite length_app. lia.
Qed.
End frames.

(* ------------------------------------------------------------------ *)
(** ** Lemmas: writing *)

Section writing.
Variable to_vec : EvidenceBatch -> result string (list byte).
Variable fault : nat -> option (string * nat).

(** The spool file is left alone. *)
Definition keeps_spool {A} (m : fs A) : Prop := forall d, dk_spool (m d).2 = dk_spool d.

Lemma keeps_bind {A B} (m : fs A) (k : A -> fs B) :
  keeps_spool m -> (forall a, keeps_spool (k a)) -> keeps_spool (fs_bind m k).
Proof.
  intros Hm Hk d. unfold fs_bind. specialize (Hm d).
  destruct (m d) as [[a|e] d']; cbn in *; [|done]. by rewrite Hk.
Qed.

Lemma keeps_call partial full :
  (forall n d, dk_spool (partial n d) = dk_spool d) -> (forall d, dk_spool (full d) = dk_spool d) ->
  keeps_spool (call fault partial full).
Proof. intros Hp Hf d. unfold call. destruct (fault (dk_calls d)) as [[e n]|]; cbn; by rewrite ?Hp, ?Hf. Qed.

Lemma keeps_compact_write batches : keeps_spool (compact_write to_vec fault batches).
Proof.
  induction batches as [|b rest IH]; [done|]. cbn [compact_write].
  apply keeps_bind; [done|]. intros body. destruct (_ <=? _); [done|].
  repeat (apply keeps_bind; [by apply keeps_call|intros ?]). by apply keeps_bind.
Qed.

Lemma fs_bind_ok {A B} (m : fs A) (k : A -> fs B) d b d'' :
  fs_bind m k d = (Ok b, d'') -> exists a d', m d = (Ok a, d') /\ k a d' = (Ok b, d'').
Proof. unfold fs_bind. destruct (m d) as [[a|e] d']; [|done]. eauto. Qed.

Lemma fs_bind_err {A B} (m : fs A) (k : A -> fs B) d e d'' :
  fs_bind m k d = (Err e, d'') ->
  m d = (Err e, d'') \/ exists a d', m d = (Ok a, d') /\ k a d' = (Err e, d'').
Proof. unfold fs_bind. destruct (m d) as [[a|e'] d']; [eauto|]. intros [= -> ->]. by left. Qed.

Lemma call_keeps_err partial full d e d' :
  (forall n d, dk_spool (partial n d) = dk_spool d) ->
  call fault partial full d = (Err e, d') -> dk_spool d' = dk_spool d.
Proof.
  intros Hp. unfold call. destruct (fault (dk_calls d)) as [[e' n]|]; [|done].
  intros [= _ <-]. by rewrite Hp.
Qed.

Lemma call_ok partial full d u d' :
  call fault partial full d = (Ok u, d') -> d' = full (d <| dk_calls ::= S |>).
Proof. unfold call. destruct (fault (dk_calls d)) as [[]|]; [done|]. by intros [= <- <-]. Qed.

Lemma write_tmp_ok bs d u d' :
  write_tmp fault bs d = (Ok u, d') ->
  dk_tmp d' = append_to bs (dk_tmp d) /\ dk_spool d' = dk_spool d.
Proof. intros H. apply call_ok in H. by subst. Qed.

(** What the loop leaves in the temporary file. *)
Lemma compact_write_ok batches d n d' :
  compact_write to_vec fault batches d = (Ok n, d') ->
  exists bodies,
    Forall2 (fun b r => to_vec b = Ok r) batches bodies /\
    let kept := filter (fun body => zlen body < u32_limit) bodies in
    n = zlen (frames kept) /\ default [] (dk_tmp d') = default [] (dk_tmp d) ++ frames kept /\
    (is_Some (dk_tmp d) -> is_Some (dk_tmp d')).
Proof.
  revert d n d'. induction batches as [|b rest IH]; intros d n d' H; cbn [compact_write] in H.
  { injection H as <- <-. exists []. cbv zeta. cbn. rewrite app_nil_r. split_and!; [constructor|done..]. }
  apply fs_bind_ok in H as (body & d0 & Hb & H). injection Hb as Hb <-.
  destruct (u32_limit <=? zlen body) eqn:Hl; bool_hyps.
  { destruct (IH _ _ _ H) as (bodies & Hf & Hk). exists (body :: bodies). split; [by constructor|].
    rewrite filter_cons, decide_False by lia. exact Hk. }
  apply fs_bind_ok in H as (u1 & d1 & [Ht1 _]%write_tmp_ok & H).
  apply fs_bind_ok in H as (u2 & d2 & [Ht2 _]%write_tmp_ok & H).
  apply fs_bind_ok in H as (n1 & d3 & H & Hret). injection Hret as <- <-.
  destruct (IH _ _ _ H) as (bodies & Hf & Hn & Ht & Hs).
  exists (body :: bodies). split; [by constructor|]. cbv zeta. rewrite filter_cons, decide_True by lia.
  unfold frames in *. cbn [map concat]. rewrite zlen_app, zlen_frame, Hn, Ht, Ht2, Ht1. split_and!; [lia| |].
  - cbn. unfold frame. by rewrite <- !app_assoc.
  - intros _. apply Hs. by rewrite Ht2.
Qed.

Lemma try_compact_facts batches d :
  match try_compact to_vec fault batches d with
  | (Ok bytes, d') => exists bodies,
      Forall2 (fun b r => to_vec b = Ok r) batches bodies /\
      let kept := filter (fun body => zlen body < u32_limit) bodies in
      bytes = zlen (frames kept) /\ dk_spool d' = Some (frames kept)
  | (Err _, d') => dk_spool d' = dk_spool d
  end.
Proof.
  destruct (try_compact to_vec fault batches d) as [[bytes|e] d'] eqn:E.
  - apply fs_bind_ok in E as (u1 & d1 & E1 & E). apply fs_bind_ok in E as (n & d2 & E2 & E).
    apply fs_bind_ok in E as (u3 & d3 & E3 & E). apply fs_bind_ok in E as (u4 & d4 & E4 & E).
    apply fs_bind_ok in E as (u5 & d5 & E5 & E). injection E as <- <-.
    apply call_ok in E1, E3, E4, E5.
    destruct (compact_write_ok _ _ _ _ E2) as (bodies & Hf & Hn & Ht & Hs).
    exists bodies. split; [done|]. cbv zeta. split; [done|].
    assert (is_Some (dk_tmp d2)) as [t Ht2] by (apply Hs; subst d1; by eexists).
    subst d5 d4 d3. cbn. rewrite Ht2 in *. cbn in Ht. rewrite Ht. by subst d1.
  - apply fs_bind_err in E as [E|(u1 & d1 & E1 & E)]; [exact (call_keeps_err _ _ _ _ _ (fun _ _ => eq_refl) E)|].
    apply call_ok in E1. assert (dk_spool d1 = dk_spool d) as Hd by (by subst d1). clear E1.
    apply fs_bind_err in E as [E|(n & d2 & E2 & E)].
    { pose proof (keeps_compact_write batches d1) as Hk. rewrite E in Hk. cbn in Hk. congruence. }
    assert (dk_spool d2 = dk_spool d) as Hd2.
    { pose proof (keeps_compact_write batches d1) as Hk. rewrite E2 in Hk. cbn in Hk. congruence. }
    apply fs_bind_err in E as [E|(u3 & d3 & E3 & E)].
    { apply call_keeps_err in E; [congruence|done]. }
    apply call_ok in E3. apply fs_bind_err in E as [E|(u4 & d4 & E4 & E)].
    { apply call_keeps_err in E; [|done]. rewrite E. by subst d3. }
    apply call_ok in E4. apply fs_bind_err in E as [E|(u5 & d5 & E5 & E)]; [|done].
    apply call_keeps_err in E; [|done]. rewrite E. by subst d4 d3.
Qed.

(** C27: compaction is atomic. Whatever call fails, and however much of a write landed, the
    spool file is either untouched (and the spool turns itself off, keeping its byte count) or
    exactly the frames of the given batches, with the byte count exact. *)
Theorem compact_atomic batches s d :
  sp_disabled s = None ->
  match compact to_vec fault batches s d with
  | (true, s', d') => exists bodies,
      Forall2 (fun b r => to_vec b = Ok r) batches bodies /\
      let kept := filter (fun body => zlen body < u32_limit) bodies in
      dk_spool d' = Some (frames kept) /\ sp_bytes s' = zlen (frames kept) /\ sp_disabled s' = None
  | (false, s', d') =>
      dk_spool d' = dk_spool d /\ sp_bytes s' = sp_bytes s /\ is_Some (sp_disabled s')
  end.
Proof.
  intros Hs. unfold compact. rewrite Hs. rewrite bool_decide_false by (by intros []).
  pose proof (try_compact_facts batches d) as Ht.
  destruct (try_compact to_vec fault batches d) as [[bytes|e] d'].
  - destruct Ht as (bodies & Hf & Hn & Hd). exists bodies. done.
  - split_and!; [done|done|by eexists].
Qed.

Lemma write_spool_facts bs d :
  let '(r, d') := write_spool fault bs d in
  match r with
  | Ok _ => dk_spool d' = append_to bs (dk_spool d)
  | Err _ => exists k, dk_spool d' = append_to (take k bs) (dk_spool d)
  end.
Proof. unfold write_spool, call. destruct (fault (dk_calls d)) as [[e n]|]; cbn; [by exists n|done]. Qed.

(** What an append leaves on the disk, whatever fails. *)
Lemma try_append_facts b body d :
  to_vec b = Ok body -> zlen body < u32_limit ->
  match try_append to_vec fault b d with
  | (Ok n, d') => n = zlen (frame body) /\ dk_spool d' = Some (default [] (dk_spool d) ++ frame body)
  | (Err _, d') => exists k, default [] (dk_spool d') = default [] (dk_spool d) ++ take k (frame body)
  end.
Proof.
  intros Hb Hl. unfold try_append, fs_bind, fs_lift. rewrite Hb. rewrite (proj2 (Z.leb_gt _ _)) by done.
  unfold open_append at 1, call. destruct (fault (dk_calls d)) as [[e n]|].
  { exists 0%nat. cbn. by rewrite app_nil_r. }
  match goal with |- context [write_spool fault (be_put 4 (zlen body)) ?x] => set (d1 := x) end.
  assert (dk_spool d1 = Some (default [] (dk_spool d))) as H1 by (cbn; unfold append_to; by rewrite app_nil_r).
  pose proof (write_spool_facts (be_put 4 (zlen body)) d1) as Hw.
  destruct (write_spool fault (be_put 4 (zlen body)) d1) as [[u2|e2] d2].
  2:{ destruct Hw as [k Hk]. exists (k `min` 4)%nat. rewrite Hk, H1. unfold append_to, frame. cbn [default from_option id]. f_equal.
      rewrite take_app_le by (rewrite be_put_length; lia).
      destruct (decide (k <= 4)%nat); [by rewrite Nat.min_l by lia|].
      rewrite Nat.min_r by lia. rewrite !take_ge by (rewrite be_put_length; lia). done. }
  pose proof (write_spool_facts body d2) as Hw2.
  destruct (write_spool fault body d2) as [[u3|e3] d3]; cbn [fs_ret].
  - rewrite Hw2, Hw, H1. split; [by rewrite zlen_frame|].
    unfold append_to, frame. cbn [default from_option id]. by rewrite <- app_assoc.
  - destruct Hw2 as [k Hk]. exists (4 + k)%nat. rewrite Hk, Hw, H1. unfold append_to, frame. cbn [default from_option id].
    rewrite (take_app_ge (be_put 4 (zlen body))) by (rewrite be_put_length; lia).
    rewrite be_put_length. replace (4 + k - 4)%nat with k by lia. by rewrite <- app_assoc.
Qed.
End writing.

Section append_then_replay.
Variable to_vec : EvidenceBatch -> result string (list byte).
Variable from_slice : list byte -> option EvidenceBatch.
Variable fault : nat -> option (string * nat).

Lemma replay_default file : (replay from_slice file).1 = (replay from_slice (Some (default [] file))).1.
Proof. by destruct file. Qed.

Lemma frames_app l k : frames (l ++ k) = frames l ++ frames k.
Proof. unfold frames. by rewrite map_app, concat_app. Qed.

Lemma frames_one body : frames [body] = frame body.
Proof. unfold frames. cbn. by rewrite app_nil_r. Qed.

(** Replay of an intact file followed by any prefix of one more good frame. *)
Lemma replay_prefix bs bodies b body k :
  Forall2 (good_frame to_vec from_slice) bs bodies -> good_frame to_vec from_slice b body ->
  let found := (replay from_slice (Some (frames bodies ++ take k (frame body)))).1 in
  found = bs \/ (found = bs ++ [b] /\ (length (frame body) <= k)%nat).
Proof.
  intros Hf Hb. cbv zeta. pose proof max_frame_u32. pose proof Hb as (_ & _ & Hl).
  destruct (decide (k < length (frame body))%nat) as [Hk|Hk].
  - left. unfold replay. rewrite (replay_loop_frames to_vec from_slice bs bodies k body); [done|done|lia|done|].
    rewrite length_app. lia.
  - right. split; [|lia]. rewrite take_ge by lia. unfold replay.
    pose proof (replay_loop_frames to_vec from_slice (bs ++ [b]) (bodies ++ [body]) 0 []
      (length (frames bodies ++ frame body))) as Hr.
    rewrite frames_app, frames_one in Hr. cbn [take] in Hr. rewrite app_nil_r in Hr.
    rewrite Hr; [done|by apply Forall2_app; [|constructor]|by vm_compute|cbn; lia|done].
Qed.

(** An append, whatever goes wrong with it, costs nothing already spooled: replaying the
    file afterwards finds every batch that was there, then at most the new one; and when the
    append reports success the new batch is found. Over budget, or once disabled, the file is not
    touched. *)
Theorem append_preserves_backlog bs bodies b body s d :
  Forall2 (good_frame to_vec from_slice) bs bodies -> good_frame to_vec from_slice b body ->
  default [] (dk_spool d) = frames bodies ->
  match spool_append to_vec fault b s d with
  | (true, _, d') => (replay from_slice (dk_spool d')).1 = bs ++ [b]
  | (false, s', d') =>
      (replay from_slice (dk_spool d')).1 ∈ [bs; bs ++ [b]] /\
      (is_Some (sp_disabled s) \/ sc_max_bytes (sp_config s) <= sp_bytes s -> d' = d /\ s' = s)
  end.
Proof.
  intros Hf Hb Hd. pose proof max_frame_u32. pose proof Hb as (Hv & _ & Hl).
  pose proof (replay_prefix bs bodies b body 0 Hf Hb) as H0. cbv zeta in H0.
  unfold spool_append. destruct (bool_decide (is_Some (sp_disabled s)) || _) eqn:E.
  { split; [|done]. rewrite replay_default, Hd. cbn [take] in H0. rewrite app_nil_r in H0. set_solver. }
  bool_hyps. apply bool_decide_eq_false in H1.
  pose proof (try_append_facts to_vec fault b body d Hv ltac:(lia)) as Ha.
  destruct (try_append to_vec fault b d) as [[n|e] d'].
  - destruct Ha as [_ ->]. rewrite Hd.
    pose proof (replay_prefix bs bodies b body (length (frame body)) Hf Hb) as Hr. cbv zeta in Hr.
    rewrite take_ge in Hr by done. destruct Hr as [Hr|[Hr _]]; [|done].
    exfalso. revert Hr. unfold replay.
    pose proof (replay_loop_frames to_vec from_slice (bs ++ [b]) (bodies ++ [body]) 0 []
      (length (frames bodies ++ frame body))) as Hg.
    rewrite frames_app, frames_one in Hg. cbn [take] in Hg. rewrite app_nil_r in Hg.
    rewrite Hg; [|by apply Forall2_app; [|constructor]|by vm_compute|cbn; lia|done]. cbn [fst].
    intros Heq. apply (f_equal length) in Heq. rewrite length_app in Heq. cbn in Heq. lia.
  - split; [|intros [?|?]; [done|lia]]. destruct Ha as [k Hk]. rewrite replay_default, Hk, Hd.
    destruct (replay_prefix bs bodies b body k Hf Hb) as [->|[-> _]]; set_solver.
Qed.
End append_then_replay.

(* ------------------------------------------------------------------ *)
(** ** Limits the two directions do not share *)

(** The writer accepts frames its own reader refuses, and the refusal is not confined to the
    frame: for a batch whose JSON is past [MAX_FRAME_BYTES] (but below [u32::MAX]) an append that
    meets no I/O error reports success, and from then on replay finds nothing from that frame on,
    whatever follows it, counting it all as a torn tail. *)
Theorem oversized_frame_hides_the_rest to_vec from_slice b body s d rest :
  to_vec b = Ok body -> MAX_FRAME_BYTES < zlen body < u32_limit ->
  sp_disabled s = None -> sp_bytes s < sc_max_bytes (sp_config s) -> dk_spool d = None ->
  (spool_append to_vec (fun _ => None) b s d).1.1 = true /\
  dk_spool (spool_append to_vec (fun _ => None) b s d).2 = Some (frame body) /\
  replay from_slice (Some (frame body ++ rest)) =
    ([], mkReplayReport 0 0 (zlen (frame body) + zlen rest)).
Proof.
  intros Hb Hl Hs Hm Hd. unfold spool_append. rewrite Hs.
  rewrite bool_decide_false, (proj2 (Z.leb_gt _ _)) by (done || by intros []). cbn [orb].
  pose proof (try_append_facts to_vec (fun _ => None) b body d Hb ltac:(lia)) as Ha.
  destruct (try_append to_vec (fun _ => None) b d) as [[n|e] d'] eqn:E.
  2:{ exfalso. revert E. unfold try_append, fs_bind, fs_lift. rewrite Hb, (proj2 (Z.leb_gt _ _)) by lia. done. }
  destruct Ha as [_ Ha]. rewrite Hd in Ha. split; [done|]. split; [exact Ha|].
  unfold replay. assert (exists f, length (frame body ++ rest) = S f) as [f ->].
  { exists (length (frame body ++ rest) - 1)%nat. rewrite length_app.
    pose proof (zlen_frame body) as Hf. unfold zlen in Hf at 1. pose proof (zlen_nonneg body). lia. }
  cbn [replay_loop]. unfold frame at 1. rewrite <- app_assoc, read_exact_app by apply zlen_be_put.
  rewrite be_get_len by lia. rewrite (proj2 (Z.ltb_lt _ _)) by lia. rewrite orb_true_r.
  rewrite sat_sub_exact by apply zlen_nonneg. by rewrite zlen_app, Z.sub_0_r.
Qed.

(** One batch id per byte string, enough to evaluate the spool. *)
Definition w_to_vec (b : EvidenceBatch) : result string (list byte) := Ok (bytes_of (eb_batch_id b)).
Definition w_from_slice (body : list byte) : option EvidenceBatch := Some (sample_batch (string_of body) []).

(** Compaction does not look at the byte budget: a spool allowed 8 bytes is rewritten to 18
    and goes on reporting success. *)
Theorem compact_ignores_max_bytes :
  let batches := [sample_batch "batch-1" []; sample_batch "two" []] in
  let '(ok, s, d) := compact w_to_vec (fun _ => None) batches
    (mkSpool (mkSpoolConfig "backlog.spool" 8) 0 None) (mkDisk None None 0) in
  ok = true /\ sp_bytes s = 18 /\ zlen <$> dk_spool d = Some 18.
Proof. by vm_compute. Qed.

Lemma w_good_frame id :
  0 < zlen (bytes_of id) <= MAX_FRAME_BYTES -> string_of (bytes_of id) = id ->
  good_frame w_to_vec w_from_slice (sample_batch id []) (bytes_of id).
Proof. intros Hl Hs. split_and!; [done|unfold w_from_slice; by rewrite Hs|lia..]. Qed.

Lemma replay_recovers_intact_prefix_witness :
  replay w_from_slice (Some (frames [bytes_of "b1"; bytes_of "b2"] ++ take 5 (frame (bytes_of "b3")))) =
    ([sample_batch "b1" []; sample_batch "b2" []], mkReplayReport 2 0 5).
Proof.
  apply (replay_recovers_intact_prefix w_to_vec w_from_slice [sample_batch "b1" []; sample_batch "b2" []]
    [bytes_of "b1"; bytes_of "b2"] (bytes_of "b3") 5).
  - repeat constructor; by apply w_good_frame.
  - by vm_compute.
  - vm_compute. lia.
Defined.

Lemma compact_atomic_witness :
  let s := mkSpool (mkSpoolConfig "backlog.spool" 1000) 0 None in
  let '(ok, s', d') := compact w_to_vec (fun n => if decide (n = 5)%nat then Some ("disk full", 0%nat) else None)
    [sample_batch "b1" []] s (mkDisk (Some [x00]) None 0) in
  ok = false /\ dk_spool d' = Some [x00] /\ is_Some (sp_disabled s').
Proof.
  cbv zeta.
  pose proof (compact_atomic w_to_vec (fun n => if decide (n = 5)%nat then Some ("disk full", 0%nat) else None)
    [sample_batch "b1" []] (mkSpool (mkSpoolConfig "backlog.spool" 1000) 0 None)
    (mkDisk (Some [x00]) None 0) eq_refl) as H.
  destruct (compact _ _ _ _ _) as [[ok s'] d'] eqn:E. vm_compute in E.
  injection E as <- <- <-. destruct H as (H1 & _ & H3). split_and!; [done|exact H1|exact H3].
Defined.

Lemma append_preserves_backlog_witness :
  let s := mkSpool (mkSpoolConfig "backlog.spool" 1000) 6 None in
  let '(ok, _, d') := spool_append w_to_vec (fun n => if decide (n = 2)%nat then Some ("io", 1%nat) else None)
    (sample_batch "b2" []) s (mkDisk (Some (frame (bytes_of "b1"))) None 0) in
  ok = false /\ (replay w_from_slice (dk_spool d')).1 ∈
    [[sample_batch "b1" []]; [sample_batch "b1" []; sample_batch "b2" []]].
Proof.
  cbv zeta.
  pose proof (append_preserves_backlog w_to_vec w_from_slice
    (fun n => if decide (n = 2)%nat then Some ("io", 1%nat) else None)
    [sample_batch "b1" []] [bytes_of "b1"] (sample_batch "b2" []) (bytes_of "b2")
    (mkSpool (mkSpoolConfig "backlog.spool" 1000) 6 None) (mkDisk (Some (frame (bytes_of "b1"))) None 0)
    ltac:(by repeat constructor; apply w_good_frame) ltac:(by apply w_good_frame) eq_refl) as H.
  destruct (spool_append _ _ _ _ _) as [[ok s'] d'] eqn:E. vm_compute in E.
  injection E as <- <- <-. destruct H as [H _]. split; [done|exact H].
Defined.

Lemma oversized_frame_hides_the_rest_witness :
  let body := repeat x61 (Z.to_nat (MAX_FRAME_BYTES + 1)) in
  replay w_from_slice (Some (frame body ++ frame (bytes_of "b1"))) =
    ([], mkReplayReport 0 0 (zlen (frame body) + 6)).
Proof.
  cbv zeta.
  apply (oversized_frame_hides_the_rest (fun _ => Ok (repeat x61 (Z.to_nat (MAX_FRAME_BYTES + 1))))
    w_from_slice (sample_batch "big" []) (repeat x61 (Z.to_nat (MAX_FRAME_BYTES + 1)))
    (mkSpool (mkSpoolConfig "backlog.spool" 1000) 0 None) (mkDisk None None 0) (frame (bytes_of "b1"))).
  - reflexivity.
  - unfold zlen. rewrite repeat_length. unfold MAX_FRAME_BYTES, u32_limit. lia.
  - reflexivity.
  - reflexivity.
  - reflexivity.
Defined.
