(* ===== verification/Resident.v ===== *)
(** The resident-memory estimate that bounds the reader-to-sink queue
    ([jalki-evidence/src/resident.rs]).

    What the allocator and the layout decide (capacities, [size_of]) is the [MemModel]. Sums
    written with [+] are over bytes of one address space and are kept exact; the two [saturating]
    operations of the source saturate here. *)
From S2P Require Import Prelude Protocol Evidence Samples.

(** The types whose [size_of] the estimate uses. *)
Inductive SizedType :=
| SizedString | SizedCauseRef | SizedPatternMatch | SizedHistoryStep | SizedResourceChange
| SizedStringPair | SizedStringCount | SizedEvidenceRecord.

Class MemModel := {
  mem_bytes :: ByteModel;
  size_of : SizedType -> Z;
  vec_capacity : forall {A : Type}, list A -> Z;
  map_capacity : forall {V : Type}, gmap string V -> Z;
  size_of_pos t : 0 < size_of t;
  vec_capacity_ge {A} (l : list A) : zlen l <= vec_capacity l;
  map_capacity_ge {V} (m : gmap string V) : Z.of_nat (size m) <= map_capacity m
}.

(** [usize::next_power_of_two] *)
Definition next_power_of_two (n : Z) : Z := if n <=? 1 then 1 else 2 ^ Z.log2_up n.

Definition HASH_GROUP_WIDTH : Z := 16.

Section resident.
Context `{MemModel}.

(** [s] and [os] *)
Definition str_heap (value : string) : Z := capacity value.
Definition opt_str_heap (value : option string) : Z := opt_capacity value.

(** [x.as_ref().map_or(0, f)] *)
Definition opt_heap {A} (f : A -> Z) (o : option A) : Z := default 0 (f <$> o).

Definition vec_of {A} (t : SizedType) (values : list A) (each : A -> Z) : Z :=
  vec_capacity values * size_of t + zsum each values.

Definition strings (values : list string) : Z := vec_of SizedString values capacity.

Definition map_of {V} (t : SizedType) (m : gmap string V) (each : string * V -> Z) : Z :=
  let cap := map_capacity m in
  if cap =? 0 then 0
  else
    let buckets := next_power_of_two (sat_mul64 cap 8 / 7) in
    buckets * (size_of t + 1) + HASH_GROUP_WIDTH + zsum each (map_to_list m).

Definition string_map (m : gmap string string) : Z :=
  map_of SizedStringPair m (fun '(k, v) => capacity k + capacity v).

Definition probe_heap (probe : ProbeMetadata) : Z :=
  str_heap (probe_id probe) + str_heap (probe_version probe) + str_heap (probe_family probe)
  + str_heap (kernel_function probe).

Definition binding_heap (binding : RuntimeBinding) : Z :=
  match binding with
  | Bound b =>
      str_heap (container_id b) + opt_str_heap (pod_uid b) + opt_str_heap (pod_name b)
      + opt_str_heap (namespace b) + opt_str_heap (service_account b) + opt_str_heap (owner_kind b)
      + opt_str_heap (owner_name b) + opt_str_heap (owner_uid b)
  | Unbound _ => 0
  end.

Definition error_heap (e : OccurrenceError) : Z :=
  str_heap (err_code e) + opt_str_heap (err_message e) + opt_str_heap (err_stack e)
  + opt_str_heap (err_cause e) + str_heap (err_what_failed e) + opt_str_heap (err_why_it_matters e)
  + strings (err_possible_causes e) + opt_str_heap (err_suggested_fix e).

Definition cause_ref_heap (c : CauseRef) : Z :=
  str_heap (cause_occurrence_id c) + str_heap (cause_cause_type c) + opt_str_heap (cause_summary c).

Definition reasoning_heap (r : OccurrenceReasoning) : Z :=
  str_heap (rsn_summary r) + opt_str_heap (rsn_explanation r) + strings (rsn_steps r)
  + opt_heap cause_ref_heap (rsn_root_cause r)
  + vec_of SizedCauseRef (rsn_causal_chain r) cause_ref_heap
  + vec_of SizedPatternMatch (rsn_patterns_matched r)
      (fun p => str_heap (pat_pattern_id p) + str_heap (pat_name p))
  + vec_of SizedCauseRef (rsn_alternative_explanations r) cause_ref_heap.

Definition history_heap (h : OccurrenceHistory) : Z :=
  vec_of SizedHistoryStep (hist_steps h)
    (fun step => str_heap (step_description step) + opt_str_heap (step_timestamp step)
                 + opt_str_heap (step_status step)).

Definition network_heap (n : NetworkEventData) : Z :=
  str_heap (net_protocol n) + str_heap (net_src_ip n) + str_heap (net_dst_ip n)
  + str_heap (net_direction n) + opt_str_heap (net_dns_query n) + opt_str_heap (net_http_method n)
  + opt_str_heap (net_http_path n).

Definition kernel_heap (k : KernelEventData) : Z :=
  str_heap (krn_event_type k) + str_heap (krn_command k) + opt_str_heap (krn_oom_victim_comm k)
  + opt_str_heap (krn_syscall_name k).

Definition container_heap (c : ContainerEventData) : Z :=
  str_heap (ctr_container_id c) + str_heap (ctr_container_name c) + str_heap (ctr_image c)
  + str_heap (ctr_state c).

Definition k8s_heap (k : K8sEventData) : Z :=
  str_heap (k8s_resource_type k) + str_heap (k8s_resource_name k) + str_heap (k8s_namespace k)
  + str_heap (k8s_reason k) + str_heap (k8s_message k).

Definition process_heap (p : ProcessEventData) : Z :=
  str_heap (proc_command p) + opt_str_heap (proc_args p).

Definition scheduling_heap (d : SchedulingEventData) : Z :=
  str_heap (sch_pod_uid d) + map_of SizedStringCount (sch_failure_reasons d) (fun '(k, _) => capacity k).

Definition node_heap (n : NodeEventData) : Z :=
  str_heap (node_node_name n) + str_heap (node_condition n) + str_heap (node_status n)
  + opt_str_heap (node_reason n).

Definition resource_heap (r : ResourceEventData) : Z :=
  str_heap (res_resource_id r) + str_heap (res_resource_type r) + str_heap (res_provider r)
  + str_heap (res_region r) + str_heap (res_account r) + str_heap (res_status r)
  + string_map (res_tags r)
  + vec_of SizedResourceChange (res_changes r)
      (fun c => str_heap (chg_field c) + str_heap (chg_old_value c) + str_heap (chg_new_value c)).

Definition otel_heap (o : OtelEventData) : Z :=
  str_heap (otel_service_name o) + str_heap (otel_operation_name o) + str_heap (otel_span_kind o)
  + str_heap (otel_status_code o) + string_map (otel_attributes o)
  + opt_str_heap (otel_error_message o).

Definition occurrence_heap (occ : Occurrence) : Z :=
  str_heap (occ_source occ) + slen (occ_type occ) + strings (occ_correlation_keys occ)
  + opt_heap error_heap (occ_error occ) + opt_heap reasoning_heap (occ_reasoning occ)
  + opt_heap history_heap (occ_history occ) + strings (occ_entity_ids occ)
  + str_heap (occ_cluster occ) + opt_str_heap (occ_namespace occ) + string_map (occ_labels occ)
  + opt_str_heap (occ_trace_id occ) + opt_str_heap (occ_span_id occ)
  + opt_str_heap (occ_parent_span_id occ)
  + opt_heap network_heap (occ_network_data occ) + opt_heap kernel_heap (occ_kernel_data occ)
  + opt_heap container_heap (occ_container_data occ) + opt_heap k8s_heap (occ_k8s_data occ)
  + opt_heap process_heap (occ_process_data occ) + opt_heap scheduling_heap (occ_scheduling_data occ)
  + opt_heap node_heap (occ_node_data occ) + opt_heap resource_heap (occ_resource_data occ)
  + opt_heap otel_heap (occ_otel_data occ).

(** [EvidenceRecord::heap_bytes] *)
Definition heap_bytes (r : EvidenceRecord) : Z :=
  probe_heap (er_probe r) + opt_heap binding_heap (er_binding r) + occurrence_heap (er_occurrence r).

(** [resident_bytes] *)
Definition resident_bytes (records : list EvidenceRecord) : Z :=
  foldl sat_add64 (sat_mul64 (vec_capacity records) (size_of SizedEvidenceRecord))
    (map heap_bytes records).

(* ------------------------------------------------------------------ *)
(** ** Lemmas *)

Lemma opt_heap_nonneg {A} (f : A -> Z) o : (forall a, 0 <= f a) -> 0 <= opt_heap f o.
Proof. intros Hf. destruct o; cbn; [apply Hf|lia]. Qed.

Lemma vec_of_nonneg {A} t (l : list A) each : (forall a, 0 <= each a) -> 0 <= vec_of t l each.
Proof.
  intros He. unfold vec_of. pose proof (vec_capacity_ge l). pose proof (zlen_nonneg l).
  pose proof (size_of_pos t). pose proof (zsum_nonneg each l (fun a _ => He a)). nia.
Qed.

Lemma next_power_of_two_pos n : 0 < next_power_of_two n.
Proof.
  unfold next_power_of_two. destruct (n <=? 1); [lia|]. apply Z.pow_pos_nonneg; [lia|].
  apply Z.log2_up_nonneg.
Qed.

Lemma map_of_nonneg {V} t (m : gmap string V) each : (forall a, 0 <= each a) -> 0 <= map_of t m each.
Proof.
  intros He. unfold map_of. destruct (_ =? 0); [done|].
  pose proof (next_power_of_two_pos (sat_mul64 (map_capacity m) 8 / 7)).
  pose proof (size_of_pos t). pose proof (zsum_nonneg each (map_to_list m) (fun a _ => He a)).
  unfold HASH_GROUP_WIDTH. nia.
Qed.

Lemma strings_nonneg l : 0 <= strings l.
Proof. apply vec_of_nonneg, capacity_nonneg. Qed.

Lemma string_map_nonneg m : 0 <= string_map m.
Proof.
  apply map_of_nonneg. intros [k v]. pose proof (capacity_nonneg k). pose proof (capacity_nonneg v). lia.
Qed.

(** Sums of capacities are non-negative, term by term. *)
Ltac heap_nonneg :=
  unfold str_heap, opt_str_heap;
  repeat first
    [ apply capacity_nonneg | apply opt_capacity_nonneg | apply strings_nonneg
    | apply string_map_nonneg | apply slen_nonneg
    | apply opt_heap_nonneg; intros ? | apply vec_of_nonneg; intros ?
    | apply map_of_nonneg; intros [] | progress cbn beta iota | apply Z.add_nonneg_nonneg ].

Lemma cause_ref_heap_nonneg c : 0 <= cause_ref_heap c.
Proof. unfold cause_ref_heap. heap_nonneg. Qed.

Lemma occurrence_heap_nonneg o : 0 <= occurrence_heap o.
Proof.
  unfold occurrence_heap.
  heap_nonneg; unfold error_heap, reasoning_heap, history_heap, network_heap, kernel_heap,
    container_heap, k8s_heap, process_heap, scheduling_heap, node_heap, resource_heap, otel_heap;
    heap_nonneg; apply cause_ref_heap_nonneg.
Qed.

Lemma heap_bytes_nonneg r : 0 <= heap_bytes r.
Proof.
  assert (forall b, 0 <= binding_heap b) as Hb by (intros []; cbn [binding_heap]; [heap_nonneg|done]).
  pose proof (opt_heap_nonneg binding_heap (er_binding r) Hb).
  pose proof (occurrence_heap_nonneg (er_occurrence r)).
  assert (0 <= probe_heap (er_probe r)) by (unfold probe_heap; heap_nonneg).
  unfold heap_bytes. lia.
Qed.

Lemma foldl_sat_add_exact a l :
  0 <= a -> Forall (fun x => 0 <= x) l -> foldl sat_add64 (Z.min a u64_max) l = Z.min (a + zsum id l) u64_max.
Proof.
  intros Ha Hl. revert a Ha. induction Hl as [|x l Hx Hl IH]; intros a Ha; cbn [foldl].
  { rewrite zsum_nil. by rewrite Z.add_0_r. }
  assert (sat_add64 (Z.min a u64_max) x = Z.min (a + x) u64_max) as -> by word.
  rewrite IH by lia. rewrite zsum_cons. unfold id at 2. by rewrite Z.add_assoc.
Qed.

(** The estimate counts the whole allocation: it is the vector's capacity times the record's
    size plus what every record owns on the heap, saturating at [usize::MAX]; it is never less
    than the inline size of the records, and a message with records never measures zero. *)
Theorem resident_bytes_exact records :
  resident_bytes records =
    Z.min (vec_capacity records * size_of SizedEvidenceRecord + zsum heap_bytes records) u64_max /\
  Z.min (zlen records * size_of SizedEvidenceRecord) u64_max <= resident_bytes records /\
  (records <> [] -> 0 < resident_bytes records).
Proof.
  pose proof (vec_capacity_ge records) as Hv. pose proof (size_of_pos SizedEvidenceRecord) as Hs.
  pose proof (zlen_nonneg records) as Hz.
  assert (0 <= zsum heap_bytes records) as Hh by (apply zsum_nonneg; intros; apply heap_bytes_nonneg).
  assert (resident_bytes records =
    Z.min (vec_capacity records * size_of SizedEvidenceRecord + zsum heap_bytes records) u64_max) as E.
  { unfold resident_bytes, sat_mul64. rewrite foldl_sat_add_exact.
    - do 2 f_equal. clear. induction records as [|r l IH]; [done|]. cbn [map]. by rewrite !zsum_cons, IH.
    - nia.
    - apply Forall_map, Forall_forall. intros r _. apply heap_bytes_nonneg. }
  split; [exact E|]. rewrite E. split; [nia|]. intros Hne.
  assert (0 < zlen records) by (destruct records; [done|rewrite zlen_cons; pose proof (zlen_nonneg records); lia]).
  assert (0 < u64_max) by done. nia.
Qed.
End resident.

(** A layout with no slack, used to evaluate examples. *)
#[export] Program Instance exact_mem : MemModel := {|
  size_of _ := 24;
  vec_capacity _ l := zlen l;
  map_capacity _ m := Z.of_nat (size m)
|}.
Solve Obligations with cbn; lia.

Example resident_sample : resident_bytes [sample_attribution] = 84.
Proof. vm_compute. reflexivity. Qed.
