(* ===== verification/SinkQueue.v ===== *)
(** The reader-to-sink queue ([jalki/src/sink_queue.rs]): admission by resident bytes, and the
    protocol between the readers' clones of [SinkQueueSender] and the one [SinkQueueReceiver].

    The first half is sequential (configuration, scope, admission class, the limit a message is
    held to). The second half is a step relation whose steps are the shared-memory accesses of
    the source (an atomic load, a compare-and-swap, a locked section, a channel operation), one
    program counter per sender and one for the receiver, so every interleaving is a run. Metrics
    and log lines are left out: nothing reads them back. *)
From Stdlib Require Import Strings.Ascii.
From S2P Require Import Prelude Protocol Evidence Samples Gap Resident.

(* ------------------------------------------------------------------ *)
(** ** Configuration *)

Definition DEFAULT_QUEUE_MAX_BYTES : Z := 128 * 1024 * 1024.
Definition PRESSURE_BUDGET_FLOOR : Z := 4 * 1024 * 1024.

Record SinkQueueConfig := mkSinkQueueConfig {
  sq_max_bytes : Z;
  sq_pressure_max_bytes : Z
}.

(** [SinkQueueConfig::new] *)
Definition SinkQueueConfig_new (max_bytes : Z) : SinkQueueConfig :=
  mkSinkQueueConfig max_bytes (Z.min (Z.max (max_bytes / 8) PRESSURE_BUDGET_FLOOR) max_bytes).

Definition SinkQueueConfig_default : SinkQueueConfig := SinkQueueConfig_new DEFAULT_QUEUE_MAX_BYTES.

(** [SinkQueueConfig::from_env_value] *)
Definition SinkQueueConfig_from_env_value (raw : option string) : SinkQueueConfig :=
  match trim <$> raw with
  | None => SinkQueueConfig_default
  | Some value =>
      if bool_decide (value = "") then SinkQueueConfig_default
      else match parse_uint 64 value with
           | Some max_bytes => SinkQueueConfig_new max_bytes
           | None => SinkQueueConfig_default
           end
  end.

(* ------------------------------------------------------------------ *)
(** ** Scope and admission *)

Definition CAUSE_OVERFLOW : string := "sink_queue_overflow".
Definition CAUSE_MEMORY_PRESSURE : string := "sink_queue_memory_pressure".

(** [record_in_namespace_scope] *)
Definition record_in_namespace_scope (r : EvidenceRecord) (allow : gset string) : bool :=
  is_agent_record r
  || match bound_namespace r with
     | Some ns => bool_decide (ns ∈ allow)
     | None => false
     end.

(** [if let Some(allow) = &shared.scope { records.retain(..) }] *)
Definition scoped (scope : option (gset string)) (records : list EvidenceRecord) : list EvidenceRecord :=
  match scope with
  | Some allow => filter (fun r => record_in_namespace_scope r allow = true) records
  | None => records
  end.

Inductive Admit := AdmitAgent | AdmitAttribution | AdmitReliability.
#[export] Instance Admit_eq_dec : EqDecision Admit.
Proof. solve_decision. Defined.

Definition admit_class (records : list EvidenceRecord) : Admit :=
  if forallb is_agent_record records then AdmitAgent
  else if forallb (fun r => bool_decide (evidence_class r = Reliability)) records then AdmitReliability
  else AdmitAttribution.

(** The limit [reserve] holds a message to. *)
Definition admit_limit (config : SinkQueueConfig) (pressured : bool) (class : Admit) : Z :=
  let budget := if pressured then sq_pressure_max_bytes config else sq_max_bytes config in
  match class with
  | AdmitAgent => usize_max
  | AdmitAttribution => budget
  | AdmitReliability => budget - budget / 4
  end.

(** The refusal test of [reserve]'s loop. *)
Definition refuses (current bytes limit : Z) : bool :=
  negb (current =? 0) && (limit <? sat_add64 current bytes).

Definition refusal_cause (pressured : bool) : string :=
  if pressured then CAUSE_MEMORY_PRESSURE else CAUSE_OVERFLOW.

(** [record_unbound_drops]: how many of the records are counted under each reason. *)
Definition record_unbound_drops (records : list EvidenceRecord) : list (UnboundReason * Z) :=
  foldl (fun counts reason =>
           match position (fun c => bool_decide (c.1 = reason)) counts with
           | Some i => alter (fun c => (c.1, c.2 + 1)) i counts
           | None => counts ++ [(reason, 1)]
           end) [] (omap plane_b_drop_reason records).

(* ------------------------------------------------------------------ *)
(** ** The protocol *)

Inductive Queued :=
| QRecords (records : list EvidenceRecord) (bytes : Z)
| QGapMarker.

Inductive Received :=
| RecvRecords (records : list EvidenceRecord)
| RecvGaps (reports : list GapReport).

(** [Lost] *)
Record Lost := mkLost {
  lost_reports : list GapReport;
  lost_marker_queued : bool
}.

(** Where a sender is in [try_send] / [reserve] / [refuse], with its locals. *)
Inductive SenderPc :=
| SIdle
| SPressureLoaded (records : list EvidenceRecord) (bytes : Z) (pressured : bool)
| SCurrentLoaded (records : list EvidenceRecord) (bytes : Z) (pressured : bool) (current : Z)
| SReserved (records : list EvidenceRecord) (bytes : Z)
| SCounted (records : list EvidenceRecord) (bytes : Z)
| SRefusing (report : GapReport)
| SMarkerOwed
| SMarkerCounted
| SSendFailed (bytes : Z)
| SBytesReleased
| SMarkerFailed.

(** Where the receiver is in [recv]. *)
Inductive ReceiverPc :=
| RIdle
| RRecords (records : list EvidenceRecord) (bytes : Z)
| RBytesReleased (records : list EvidenceRecord)
| RMarker
| RMarkerReleased.

(** The shared state, and, for the theorems only, the history: what was sent, received and
    refused. *)
Record Queue := mkQueue {
  q_bytes : Z;
  q_messages : Z;
  q_under_pressure : bool;
  q_lost : Lost;
  q_channel : list Queued;
  q_senders : list SenderPc;
  q_receiver : ReceiverPc;
  q_closed : bool;
  q_sent : list (list EvidenceRecord);
  q_received : list Received;
  q_refused : list EvidenceRecord
}.
#[export] Instance eta_Queue : Eta Queue :=
  fun q => mkQueue (q_bytes q) (q_messages q) (q_under_pressure q) (q_lost q) (q_channel q)
                   (q_senders q) (q_receiver q) (q_closed q) (q_sent q) (q_received q) (q_refused q).

(** [channel()] with [n] clones of the sender. *)
Definition Queue_new (n : nat) : Queue :=
  mkQueue 0 0 false (mkLost [] false) [] (replicate n SIdle) RIdle false [] [] [].

Definition set_sender (t : nat) (pc : SenderPc) (q : Queue) : Queue := q <| q_senders ::= <[t := pc]> |>.

Section protocol.
Context `{MemModel}.
Variable config : SinkQueueConfig.
Variable scope : option (gset string).

(** One access of sender [t], from one program counter to the next. The counter of bytes saturates
    in the source; a reservation that would make it do so stands for more than [usize::MAX] resident
    bytes, which no memory holds, and [st_cas_ok] leaves it out. *)
Inductive sender_step (t : nat) (q : Queue) : Queue -> Prop :=
| st_already_closed :
    q_senders q !! t = Some SIdle -> q_closed q = true ->
    sender_step t q q
| st_out_of_scope records :
    q_senders q !! t = Some SIdle -> q_closed q = false -> scoped scope records = [] ->
    sender_step t q q
| st_load_pressure records :
    q_senders q !! t = Some SIdle -> q_closed q = false -> scoped scope records <> [] ->
    let kept := scoped scope records in
    sender_step t q (set_sender t (SPressureLoaded kept (resident_bytes kept) (q_under_pressure q)) q)
| st_load_current records bytes pressured :
    q_senders q !! t = Some (SPressureLoaded records bytes pressured) ->
    sender_step t q (set_sender t (SCurrentLoaded records bytes pressured (q_bytes q)) q)
| st_refuse records bytes pressured current :
    q_senders q !! t = Some (SCurrentLoaded records bytes pressured current) ->
    refuses current bytes (admit_limit config pressured (admit_class records)) = true ->
    sender_step t q
      (set_sender t (SRefusing (gap_for_records (refusal_cause pressured) records)) q
         <| q_refused ::= fun refused => refused ++ records |>)
| st_cas_ok records bytes pressured current :
    q_senders q !! t = Some (SCurrentLoaded records bytes pressured current) ->
    refuses current bytes (admit_limit config pressured (admit_class records)) = false ->
    q_bytes q = current -> current + bytes <= usize_max ->
    sender_step t q (set_sender t (SReserved records bytes) q <| q_bytes := sat_add64 current bytes |>)
| st_cas_retry records bytes pressured current :
    q_senders q !! t = Some (SCurrentLoaded records bytes pressured current) ->
    refuses current bytes (admit_limit config pressured (admit_class records)) = false ->
    sender_step t q (set_sender t (SCurrentLoaded records bytes pressured (q_bytes q)) q)
| st_count records bytes :
    q_senders q !! t = Some (SReserved records bytes) ->
    sender_step t q (set_sender t (SCounted records bytes) q <| q_messages ::= Z.add 1 |>)
| st_send records bytes :
    q_senders q !! t = Some (SCounted records bytes) -> q_closed q = false ->
    sender_step t q
      (set_sender t SIdle q <| q_channel ::= fun ch => ch ++ [QRecords records bytes] |>
                            <| q_sent ::= fun sent => sent ++ [records] |>)
| st_send_failed records bytes :
    q_senders q !! t = Some (SCounted records bytes) -> q_closed q = true ->
    sender_step t q (set_sender t (SSendFailed bytes) q)
| st_failed_bytes bytes :
    q_senders q !! t = Some (SSendFailed bytes) ->
    sender_step t q (set_sender t SBytesReleased q <| q_bytes ::= fun b => b - bytes |>)
| st_failed_message :
    q_senders q !! t = Some SBytesReleased ->
    sender_step t q (set_sender t SIdle q <| q_messages ::= fun n => n - 1 |>)
| st_merge report :
    q_senders q !! t = Some (SRefusing report) ->
    sender_step t q
      (set_sender t (if lost_marker_queued (q_lost q) then SIdle else SMarkerOwed) q
         <| q_lost := mkLost (merge_by_cause (lost_reports (q_lost q)) report) true |>)
| st_count_marker :
    q_senders q !! t = Some SMarkerOwed ->
    sender_step t q (set_sender t SMarkerCounted q <| q_messages ::= Z.add 1 |>)
| st_send_marker :
    q_senders q !! t = Some SMarkerCounted -> q_closed q = false ->
    sender_step t q (set_sender t SIdle q <| q_channel ::= fun ch => ch ++ [QGapMarker] |>)
| st_send_marker_failed :
    q_senders q !! t = Some SMarkerCounted -> q_closed q = true ->
    sender_step t q (set_sender t SMarkerFailed q)
| st_failed_marker :
    q_senders q !! t = Some SMarkerFailed ->
    sender_step t q (set_sender t SIdle q <| q_messages ::= fun n => n - 1 |>).

(** One access of the receiver in [recv], or its [set_memory_pressure]. *)
Inductive receiver_step (q : Queue) : Queue -> Prop :=
| st_pop_records records bytes rest :
    q_receiver q = RIdle -> q_channel q = QRecords records bytes :: rest ->
    receiver_step q (q <| q_channel := rest |> <| q_receiver := RRecords records bytes |>)
| st_release_bytes records bytes :
    q_receiver q = RRecords records bytes ->
    receiver_step q (q <| q_bytes ::= fun b => b - bytes |> <| q_receiver := RBytesReleased records |>)
| st_release_message records :
    q_receiver q = RBytesReleased records ->
    receiver_step q (q <| q_messages ::= fun n => n - 1 |> <| q_receiver := RIdle |>
                       <| q_received ::= fun out => out ++ [RecvRecords records] |>)
| st_pop_marker rest :
    q_receiver q = RIdle -> q_channel q = QGapMarker :: rest ->
    receiver_step q (q <| q_channel := rest |> <| q_receiver := RMarker |>)
| st_release_marker :
    q_receiver q = RMarker ->
    receiver_step q (q <| q_messages ::= fun n => n - 1 |> <| q_receiver := RMarkerReleased |>)
| st_take_lost :
    q_receiver q = RMarkerReleased ->
    receiver_step q
      (q <| q_receiver := RIdle |> <| q_lost := mkLost [] false |>
         <| q_received ::= fun out => if bool_decide (lost_reports (q_lost q) = []) then out
                                      else out ++ [RecvGaps (lost_reports (q_lost q))] |>)
| st_set_pressure on :
    receiver_step q (q <| q_under_pressure := on |>)
| st_drop_receiver :
    receiver_step q (q <| q_closed := true |> <| q_channel := [] |> <| q_receiver := RIdle |>).

Inductive queue_step (q q' : Queue) : Prop :=
| by_sender t : sender_step t q q' -> queue_step q q'
| by_receiver : receiver_step q q' -> queue_step q q'.
End protocol.

(* ------------------------------------------------------------------ *)
(** ** The invariant *)

(** The message whose bytes a sender, a channel entry or the receiver accounts for. *)
Definition Item : Type := list EvidenceRecord * Z.

Definition sender_item (pc : SenderPc) : option Item :=
  match pc with
  | SReserved records bytes | SCounted records bytes => Some (records, bytes)
  | _ => None
  end.

Definition queued_item (m : Queued) : option Item :=
  match m with QRecords records bytes => Some (records, bytes) | QGapMarker => None end.

Definition receiver_item (pc : ReceiverPc) : option Item :=
  match pc with RRecords records bytes => Some (records, bytes) | _ => None end.

(** A sum over every message that holds a reservation. *)
Definition over (f : Item -> Z) (o : option Item) : Z := default 0 (f <$> o).

Definition held_sum (f : Item -> Z) (q : Queue) : Z :=
  zsum (fun m => over f (queued_item m)) (q_channel q)
  + zsum (fun pc => over f (sender_item pc)) (q_senders q)
  + over f (receiver_item (q_receiver q)).

Definition item_bytes (i : Item) : Z := i.2.
Definition item_evidence (i : Item) : Z := if decide (admit_class i.1 = AdmitAgent) then 0 else i.2.
Definition item_count (i : Item) : Z := if decide (admit_class i.1 = AdmitAgent) then 0 else 1.

(** Bytes and number of the messages that are not the agent's own records. *)
Definition evidence_bytes (q : Queue) : Z := held_sum item_evidence q.
Definition evidence_messages (q : Queue) : Z := held_sum item_count q.

(** What each place contributes to the message count and to the outstanding markers. *)
Definition sender_messages (pc : SenderPc) : Z :=
  match pc with SCounted _ _ | SMarkerCounted => 1 | _ => 0 end.
Definition receiver_messages (pc : ReceiverPc) : Z :=
  match pc with RRecords _ _ | RBytesReleased _ | RMarker => 1 | _ => 0 end.

Definition sender_markers (pc : SenderPc) : Z :=
  match pc with SMarkerOwed | SMarkerCounted => 1 | _ => 0 end.
Definition queued_markers (m : Queued) : Z := match m with QGapMarker => 1 | _ => 0 end.
Definition receiver_markers (pc : ReceiverPc) : Z :=
  match pc with RMarker | RMarkerReleased => 1 | _ => 0 end.

Definition markers (q : Queue) : Z :=
  zsum queued_markers (q_channel q) + zsum sender_markers (q_senders q)
  + receiver_markers (q_receiver q).

(** Loss, by class: reported to the receiver, pending, and on its way into the report. *)
Definition sender_lost (c : EvidenceClass) (pc : SenderPc) : Z :=
  match pc with SRefusing report => gap_class c report | _ => 0 end.
Definition received_lost (c : EvidenceClass) (r : Received) : Z :=
  match r with RecvGaps reports => zsum (gap_class c) reports | RecvRecords _ => 0 end.

Definition reported (c : EvidenceClass) (q : Queue) : Z :=
  zsum (received_lost c) (q_received q) + zsum (gap_class c) (lost_reports (q_lost q))
  + zsum (sender_lost c) (q_senders q).

(** The messages handed over so far, and those on their way, in order. *)
Definition received_records (out : list Received) : list (list EvidenceRecord) :=
  omap (fun r => match r with RecvRecords records => Some records | RecvGaps _ => None end) out.
Definition receiver_records (pc : ReceiverPc) : list (list EvidenceRecord) :=
  match pc with RRecords records _ | RBytesReleased records => [records] | _ => [] end.
Definition queued_records (ch : list Queued) : list (list EvidenceRecord) :=
  omap (fun m => match m with QRecords records _ => Some records | QGapMarker => None end) ch.

Section invariant.
Context `{MemModel}.
Variable config : SinkQueueConfig.

Definition sq_config_ok : Prop :=
  0 <= sq_pressure_max_bytes config <= sq_max_bytes config /\ sq_max_bytes config <= usize_max.

(** Every reservation is of a non-empty message, at its measured size. *)
Definition item_ok (i : Item) : Prop := i.1 <> [] /\ i.2 = resident_bytes i.1.

Definition sender_ok (pc : SenderPc) : Prop :=
  match pc with
  | SPressureLoaded records bytes _ | SCurrentLoaded records bytes _ _
  | SReserved records bytes | SCounted records bytes => item_ok (records, bytes)
  | SRefusing report => gap_consistent report
  | SSendFailed _ | SBytesReleased | SMarkerFailed => False
  | _ => True
  end.

Definition items_ok (q : Queue) : Prop :=
  Forall sender_ok (q_senders q) /\
  Forall (fun m => forall i, queued_item m = Some i -> item_ok i) (q_channel q) /\
  forall i, receiver_item (q_receiver q) = Some i -> item_ok i.

Record queue_ok (q : Queue) : Prop := {
  qok_items : items_ok q;
  qok_bytes : q_bytes q = held_sum item_bytes q;
  qok_messages : q_messages q = zlen (q_channel q) + zsum sender_messages (q_senders q)
                                + receiver_messages (q_receiver q);
  qok_bound : evidence_bytes q <= sq_max_bytes config \/ evidence_messages q <= 1;
  qok_markers : markers q = if lost_marker_queued (q_lost q) then 1 else 0;
  qok_reports : lost_marker_queued (q_lost q) = false -> lost_reports (q_lost q) = [];
  qok_causes : one_per_cause (lost_reports (q_lost q));
  qok_pending c : Forall (fun g => 0 <= gap_class c g) (lost_reports (q_lost q));
  qok_received c : Forall (fun r => 0 <= received_lost c r) (q_received q);
  qok_loss c : zlen (q_refused q) <= usize_max -> count_class c (q_refused q) = reported c q;
  qok_order : q_sent q = received_records (q_received q) ++ receiver_records (q_receiver q)
                         ++ queued_records (q_channel q)
}.

(* ------------------------------------------------------------------ *)
(** ** Lemmas *)

Lemma item_ok_pos i : item_ok i -> 1 <= i.2.
Proof.
  intros [Hne Hb]. rewrite Hb. destruct (resident_bytes_exact i.1) as (_ & _ & Hpos).
  specialize (Hpos Hne). lia.
Qed.

Lemma over_le (f g : Item -> Z) o :
  (forall i, o = Some i -> f i <= g i) -> over f o <= over g o.
Proof. intros Hfg. destruct o; cbn; [by apply Hfg|lia]. Qed.

(** Message by message, what is charged is at least what is counted. *)
Lemma held_sum_le (f g : Item -> Z) q :
  items_ok q -> (forall i, item_ok i -> f i <= g i) -> held_sum f q <= held_sum g q.
Proof.
  intros (Hs & Hq & Hr) Hfg. unfold held_sum.
  assert (zsum (fun m => over f (queued_item m)) (q_channel q) <=
          zsum (fun m => over g (queued_item m)) (q_channel q)).
  { apply zsum_le. intros m Hm. rewrite Forall_forall in Hq. apply over_le. intros i Hi.
    by eapply Hfg, Hq. }
  assert (zsum (fun pc => over f (sender_item pc)) (q_senders q) <=
          zsum (fun pc => over g (sender_item pc)) (q_senders q)).
  { apply zsum_le. intros pc Hpc. rewrite Forall_forall in Hs. specialize (Hs pc Hpc).
    apply over_le. intros i Hi. apply Hfg. destruct pc; cbn in Hi; try done; by injection Hi as <-. }
  assert (over f (receiver_item (q_receiver q)) <= over g (receiver_item (q_receiver q))).
  { apply over_le. intros i Hi. by apply Hfg, Hr. }
  lia.
Qed.

Lemma evidence_le_bytes q : queue_ok q ->
  0 <= evidence_bytes q <= q_bytes q /\ evidence_messages q <= q_bytes q.
Proof.
  intros Hok. rewrite (qok_bytes q Hok). pose proof (qok_items q Hok) as Hi.
  assert (held_sum (fun _ => 0) q = 0) as H0.
  { unfold held_sum. assert (forall A (g : A -> option Item) l, zsum (fun x => over (fun _ => 0) (g x)) l = 0) as Hz.
    { intros A g l. induction l as [|x l IH]; [done|]. rewrite zsum_cons, IH. by destruct (g x). }
    rewrite !Hz. by destruct (receiver_item _). }
  unfold evidence_bytes, evidence_messages. rewrite <- H0 at 1. split; [split|];
    apply held_sum_le; try done; intros i Hi'; apply item_ok_pos in Hi';
    unfold item_evidence, item_bytes, item_count; case_decide; lia.
Qed.

Lemma admit_limit_le pressured class :
  sq_config_ok -> class <> AdmitAgent -> admit_limit config pressured class <= sq_max_bytes config.
Proof.
  intros [[H1 H2] H3] Hc. unfold admit_limit.
  assert (forall b, 0 <= b -> 0 <= b / 4) by (intros; apply Z.div_pos; lia).
  destruct class; [done|..]; destruct pressured; try lia;
    [pose proof (H0 (sq_pressure_max_bytes config))|pose proof (H0 (sq_max_bytes config))]; lia.
Qed.

Lemma scoped_measured scope records :
  scoped scope records <> [] -> item_ok (scoped scope records, resident_bytes (scoped scope records)).
Proof. by split. Qed.

Lemma gap_consistent_class g c : gap_consistent g -> 0 <= gap_class c g.
Proof. intros (H1 & H2 & _). by destruct c. Qed.

Lemma Forall_sender_ok t new q :
  Forall sender_ok (q_senders q) -> sender_ok new -> Forall sender_ok (<[t := new]> (q_senders q)).
Proof. intros. by apply Forall_insert. Qed.

Lemma sender_step_items scope t q q' :
  q_closed q = false -> items_ok q -> sender_step config scope t q q' -> items_ok q'.
Proof.
  intros Hcl (Hs & Hq & Hr) Hstep.
  assert (forall pc, q_senders q !! t = Some pc -> sender_ok pc) as Hpc.
  { intros pc Hpc. rewrite Forall_forall in Hs. apply Hs. by eapply list_elem_of_lookup_2. }
  destruct Hstep; try done; try congruence;
    (split_and!; [apply Forall_sender_ok; [done|]|cbn|done]); cbn; try done;
    try by (match goal with H : q_senders q !! t = Some _ |- _ => apply Hpc in H end).
  - apply gap_for_records_consistent.
  - apply Forall_app. split; [done|]. constructor; [|done]. intros i [= <-].
    match goal with H : q_senders q !! t = Some _ |- _ => by apply Hpc in H end.
  - by destruct (lost_marker_queued _).
  - apply Forall_app. split; [done|]. by repeat constructor.
Qed.

(** Unfold a step's effect on the sums over senders and channel. *)
Ltac step_sums :=
  repeat match goal with
  | H : q_senders ?q !! ?t = Some _ |- context [zsum ?f (<[?t := _]> (q_senders ?q))] =>
      rewrite (zsum_insert f _ _ _ _ H)
  end;
  rewrite ?zsum_app, ?zlen_app, ?zsum_cons, ?zsum_nil;
  cbn [over default from_option id fmap option_fmap option_map sender_item queued_item receiver_item
       sender_messages receiver_messages sender_markers queued_markers receiver_markers sender_lost].

(** Only the successful compare-and-swap changes what is reserved. *)
Lemma sender_step_held scope t q q' :
  q_closed q = false -> items_ok q -> sender_step config scope t q q' ->
  (q_bytes q' = q_bytes q /\ forall f, held_sum f q' = held_sum f q) \/
  (exists records bytes pressured,
     refuses (q_bytes q) bytes (admit_limit config pressured (admit_class records)) = false /\
     item_ok (records, bytes) /\ 0 <= q_bytes q + bytes <= usize_max /\
     q_bytes q' = sat_add64 (q_bytes q) bytes /\
     forall f, held_sum f q' = held_sum f q + f (records, bytes)) \/
  q_bytes q < 0.
Proof.
  intros Hcl (Hs & _ & _) Hstep.
  assert (forall pc, q_senders q !! t = Some pc -> sender_ok pc) as Hpc.
  { intros pc Hpc. rewrite Forall_forall in Hs. apply Hs. by eapply list_elem_of_lookup_2. }
  destruct Hstep; try congruence; try (by left);
    try (exfalso; by match goal with H : q_senders q !! t = Some _ |- _ => apply Hpc in H end);
    try (left; split; [done|]; intros f; unfold held_sum; cbn; step_sums; lia).
  - destruct (decide (q_bytes q < 0)); [by right; right|]. right. left. subst current.
    match goal with H : q_senders q !! t = Some _ |- _ => apply Hpc in H as Hi end.
    pose proof (item_ok_pos _ Hi) as Hb. cbn in Hb.
    exists records, bytes, pressured. split_and!; [done|done|lia|done|done|].
    intros f. unfold held_sum. cbn. step_sums. lia.
  - left. split; [done|]. intros f. unfold held_sum. cbn. step_sums.
    destruct (lost_marker_queued _); cbn; lia.
Qed.

Lemma sender_step_bytes scope t q q' :
  sq_config_ok -> q_closed q = false -> queue_ok q -> sender_step config scope t q q' ->
  q_bytes q' = held_sum item_bytes q' /\
  (evidence_bytes q' <= sq_max_bytes config \/ evidence_messages q' <= 1).
Proof.
  intros Hc Hcl Hok Hstep. pose proof (evidence_le_bytes q Hok) as [[He0 He] Hm].
  pose proof (qok_bytes q Hok) as Hb. pose proof (qok_bound q Hok) as Hbd.
  unfold evidence_bytes, evidence_messages in *.
  destruct (sender_step_held _ _ _ _ Hcl (qok_items q Hok) Hstep)
    as [[E Eh]|[(records & bytes & pressured & Hrf & Hi & Hfit & E & Eh)|Hneg]]; [..|lia].
  - rewrite E, !Eh. done.
  - rewrite E, !Eh. split; [rewrite Hb; unfold item_bytes at 3; cbn; word|].
    unfold item_evidence at 2, item_count at 2. cbn [fst snd].
    destruct (decide (admit_class records = AdmitAgent)) as [Ha|Ha]; [lia|].
    pose proof (admit_limit_le pressured _ Hc Ha) as Hl. unfold refuses in Hrf.
    apply andb_false_iff in Hrf as [Hz|Hle]; bool_hyps; [right|left; word].
    destruct (q_bytes q =? 0) eqn:E0; bool_hyps; [lia|done].
Qed.

Lemma sender_step_messages scope t q q' :
  q_closed q = false -> queue_ok q -> sender_step config scope t q q' ->
  q_messages q' = zlen (q_channel q') + zsum sender_messages (q_senders q')
                  + receiver_messages (q_receiver q').
Proof.
  intros Hcl Hok Hstep. pose proof (qok_messages q Hok) as Hm.
  pose proof (qok_items q Hok) as (Hs & _ & _).
  destruct Hstep; try congruence; cbn; step_sums; try (rewrite ?zlen_cons; change (zlen []) with 0; lia);
    try (destruct (lost_marker_queued _); cbn; lia);
    match goal with H : q_senders q !! t = Some _ |- _ => by rewrite Forall_lookup in Hs; apply Hs in H end.
Qed.

(** The sender that finds no marker outstanding owes the next one. *)
Lemma sender_step_markers scope t q q' :
  q_closed q = false -> queue_ok q -> sender_step config scope t q q' ->
  markers q' = (if lost_marker_queued (q_lost q') then 1 else 0) /\
  (lost_marker_queued (q_lost q') = false -> lost_reports (q_lost q') = []) /\
  one_per_cause (lost_reports (q_lost q')).
Proof.
  intros Hcl Hok Hstep. pose proof (qok_markers q Hok) as Hm. pose proof (qok_reports q Hok) as Hr.
  pose proof (qok_causes q Hok) as Hc. pose proof (qok_items q Hok) as (Hs & _ & _).
  destruct Hstep; try congruence; try done;
    (split_and!; [|cbn; done|cbn; auto with jalki]); unfold markers in *; cbn; step_sums; try lia;
    destruct (lost_marker_queued _); cbn; lia.
Qed.

Lemma sender_lost_nonneg c q : items_ok q -> 0 <= zsum (sender_lost c) (q_senders q).
Proof.
  intros (Hs & _ & _). apply zsum_nonneg. intros pc Hpc. rewrite Forall_forall in Hs.
  specialize (Hs pc Hpc). destruct pc; cbn; try lia. by apply gap_consistent_class.
Qed.

Lemma Forall_zsum_nonneg {A} (f : A -> Z) l : Forall (fun x => 0 <= f x) l -> 0 <= zsum f l.
Proof. intros Hf. apply zsum_nonneg. intros x Hx. rewrite Forall_forall in Hf. auto. Qed.

Lemma sender_step_pending scope t q q' c :
  queue_ok q -> sender_step config scope t q q' ->
  Forall (fun g => 0 <= gap_class c g) (lost_reports (q_lost q')) /\
  q_received q' = q_received q.
Proof.
  intros Hok Hstep. pose proof (qok_pending q Hok c) as Hp.
  pose proof (qok_items q Hok) as (Hs & _ & _). rewrite Forall_lookup in Hs.
  destruct Hstep; split; try done. cbn. apply merge_by_cause_nonneg; [done|].
  match goal with H : q_senders q !! t = Some _ |- _ => by apply gap_consistent_class, (Hs _ _ H) end.
Qed.

Lemma sender_step_loss scope t q q' c :
  queue_ok q -> sender_step config scope t q q' ->
  zlen (q_refused q') <= usize_max -> count_class c (q_refused q') = reported c q'.
Proof.
  intros Hok Hstep. pose proof (qok_loss q Hok c) as Hl. pose proof (qok_pending q Hok c) as Hp.
  pose proof (qok_received q Hok c) as Hr. pose proof (qok_items q Hok) as Hi.
  pose proof (sender_lost_nonneg c q Hi) as Hsl. unfold reported in *.
  destruct Hstep; try done; cbn; step_sums; try (intros Hz; specialize (Hl Hz); lia).
  - rewrite count_class_app, gap_for_records_class.
    intros Hz. pose proof (zlen_nonneg records). specialize (Hl ltac:(lia)). lia.
  - intros Hz. specialize (Hl Hz).
    assert (gap_class c report <= zsum (sender_lost c) (q_senders q)) as Hle.
    { assert (0 <= zsum (sender_lost c) (<[t := SIdle]> (q_senders q))) as Hn.
      { apply zsum_nonneg. intros pc Hpc. apply list_elem_of_lookup in Hpc as [j Hj].
        destruct Hi as (Hs & _ & _). pose proof (Forall_sender_ok t SIdle q Hs I) as Hs'.
        rewrite Forall_lookup in Hs'. specialize (Hs' _ _ Hj).
        destruct pc; cbn; try lia. by apply gap_consistent_class. }
      revert Hn. step_sums. lia. }
    assert (0 <= gap_class c report) as H0'.
    { destruct Hi as (Hs & _ & _). rewrite Forall_lookup in Hs.
      match goal with H : q_senders q !! t = Some _ |- _ => by apply gap_consistent_class, (Hs _ _ H) end. }
    pose proof (Forall_zsum_nonneg _ _ Hp). pose proof (Forall_zsum_nonneg _ _ Hr).
    assert (count_class c (q_refused q) <= zlen (q_refused q)).
    { rewrite <- (count_class_total (q_refused q)). pose proof (count_class_nonneg Reliability (q_refused q)).
      pose proof (count_class_nonneg Attribution (q_refused q)). destruct c; lia. }
    rewrite merge_by_cause_class; [|by rewrite <- Forall_forall|done|lia].
    destruct (lost_marker_queued _); cbn; lia.
Qed.

Lemma sender_step_order scope t q q' :
  queue_ok q -> sender_step config scope t q q' ->
  q_sent q' = received_records (q_received q') ++ receiver_records (q_receiver q')
                ++ queued_records (q_channel q').
Proof.
  intros Hok Hstep. pose proof (qok_order q Hok) as Ho. destruct Hstep; try done; cbn;
    rewrite Ho; unfold queued_records; rewrite omap_app; cbn; by rewrite ?app_nil_r, <- ?app_assoc.
Qed.

Lemma sender_step_ok scope t q q' :
  sq_config_ok -> q_closed q = false -> queue_ok q -> sender_step config scope t q q' -> queue_ok q'.
Proof.
  intros Hc Hcl Hok Hstep.
  destruct (sender_step_bytes _ _ _ _ Hc Hcl Hok Hstep) as [H1 H2].
  destruct (sender_step_markers _ _ _ _ Hcl Hok Hstep) as (H3 & H4 & H5).
  split.
  - eapply sender_step_items; [done|apply (qok_items q Hok)|done].
  - done.
  - by eapply sender_step_messages.
  - done.
  - done.
  - done.
  - done.
  - intros c. by eapply sender_step_pending.
  - intros c. destruct (sender_step_pending _ _ _ _ c Hok Hstep) as [_ ->]. apply (qok_received q Hok).
  - intros c. by eapply sender_step_loss.
  - by eapply sender_step_order.
Qed.

Ltac receiver_sums :=
  repeat match goal with
  | H : q_channel ?q = _, E : context [q_channel ?q] |- _ => progress rewrite H in E
  | H : q_receiver ?q = _, E : context [q_receiver ?q] |- _ => progress rewrite H in E
  | H : q_channel ?q = _ |- context [q_channel ?q] => progress rewrite H
  | H : q_receiver ?q = _ |- context [q_receiver ?q] => progress rewrite H
  end;
  rewrite ?zsum_app, ?zlen_app, ?zsum_cons, ?zsum_nil, ?zlen_cons in *;
  cbn [over default from_option id fmap option_fmap option_map sender_item queued_item receiver_item
       receiver_messages queued_markers receiver_markers received_lost] in *.

(** The receiver only hands reservations on, or gives one back at its exact size. *)
Lemma receiver_step_held q q' f :
  receiver_step q q' -> q_closed q' = false ->
  exists i, held_sum f q' = held_sum f q - over f i /\ q_bytes q' = q_bytes q - over item_bytes i.
Proof.
  intros Hstep Hcl.
  destruct Hstep as [records bytes rest E1 E2|records bytes E| | | | | |]; try done;
    try (exists None; unfold held_sum; cbn; receiver_sums; lia).
  exists (Some (records, bytes)). unfold held_sum, item_bytes. cbn. receiver_sums. lia.
Qed.

Lemma receiver_step_items q q' : items_ok q -> receiver_step q q' -> items_ok q'.
Proof.
  intros (Hs & Hq & Hr) Hstep. destruct Hstep as [records bytes rest E1 E2| | |rest E1 E2| | | |];
    split_and!; cbn; try done; rewrite E2 in Hq; apply Forall_cons in Hq as [Hm Hq]; try done.
Qed.

Lemma receiver_step_sent q q' :
  queue_ok q -> receiver_step q q' -> q_closed q' = false ->
  q_sent q' = received_records (q_received q') ++ receiver_records (q_receiver q')
                ++ queued_records (q_channel q').
Proof.
  intros Hok Hstep Hcl. pose proof (qok_order q Hok) as Ho.
  destruct Hstep; try done; cbn; receiver_sums; rewrite Ho; cbn; unfold received_records;
    rewrite ?omap_app; cbn; rewrite <- ?app_assoc; try done.
  case_bool_decide; [done|]. rewrite omap_app. cbn. by rewrite app_nil_r.
Qed.

Lemma received_after_take c out reports :
  zsum (received_lost c) (if bool_decide (reports = []) then out else out ++ [RecvGaps reports]) =
  zsum (received_lost c) out + zsum (gap_class c) reports.
Proof.
  case_bool_decide; [subst; rewrite zsum_nil; lia|]. rewrite zsum_app, zsum_cons, zsum_nil. cbn. lia.
Qed.

Lemma receiver_step_loss q q' c :
  queue_ok q -> receiver_step q q' -> q_closed q' = false ->
  Forall (fun g => 0 <= gap_class c g) (lost_reports (q_lost q')) /\
  Forall (fun r => 0 <= received_lost c r) (q_received q') /\
  (zlen (q_refused q') <= usize_max -> count_class c (q_refused q') = reported c q').
Proof.
  intros Hok Hstep Hcl. pose proof (qok_pending q Hok c) as Hp. pose proof (qok_received q Hok c) as Hr.
  pose proof (qok_loss q Hok c) as Hl. unfold reported in *.
  destruct Hstep; try done; cbn.
  - split_and!; [done|apply Forall_app; by repeat constructor|]. intros Hz. rewrite (Hl Hz).
    rewrite zsum_app, zsum_cons, zsum_nil. cbn. lia.
  - split_and!; [constructor| |].
    + case_bool_decide; [done|]. apply Forall_app. split; [done|]. constructor; [|done].
      by apply Forall_zsum_nonneg.
    + intros Hz. rewrite (Hl Hz), received_after_take, zsum_nil. lia.
Qed.

Lemma receiver_step_ok q q' :
  queue_ok q -> receiver_step q q' -> q_closed q' = false -> queue_ok q'.
Proof.
  intros Hok Hstep Hcl. pose proof (qok_messages q Hok) as Hm. pose proof (qok_markers q Hok) as Hk.
  pose proof (qok_reports q Hok) as Hr. pose proof (qok_causes q Hok) as Hc.
  assert (items_ok q') as Hi by (eapply receiver_step_items; [apply (qok_items q Hok)|done]).
  split; [done|..].
  - destruct (receiver_step_held q q' item_bytes Hstep Hcl) as (i & -> & ->).
    by rewrite (qok_bytes q Hok).
  - unfold zlen in *. destruct Hstep; try done; cbn; receiver_sums; cbn [length] in *; lia.
  - pose proof (qok_bound q Hok) as Hb. unfold evidence_bytes, evidence_messages in *.
    destruct Hstep as [records bytes rest E1 E2|records bytes E| | | | | |]; try done;
      unfold held_sum in *; cbn; receiver_sums; try (lia || by destruct Hb; [left|right]; lia).
    pose proof (qok_items q Hok) as (_ & _ & Hri). rewrite E in Hri.
    pose proof (item_ok_pos _ (Hri _ eq_refl)) as Hpos. cbn in Hpos.
    unfold item_evidence, item_count in *. cbn [fst snd] in *. case_decide; lia.
  - unfold markers in *. destruct Hstep; try done; cbn; receiver_sums; try lia.
    destruct (lost_marker_queued (q_lost q)); [lia|].
    pose proof (zsum_nonneg queued_markers (q_channel q) ltac:(by intros [])).
    pose proof (zsum_nonneg sender_markers (q_senders q) ltac:(by intros [])). lia.
  - by destruct Hstep.
  - destruct Hstep; try done. apply NoDup_nil_2.
  - intros c. by destruct (receiver_step_loss q q' c Hok Hstep Hcl) as (? & ? & ?).
  - intros c. by destruct (receiver_step_loss q q' c Hok Hstep Hcl) as (? & ? & ?).
  - intros c. by destruct (receiver_step_loss q q' c Hok Hstep Hcl) as (? & ? & ?).
  - by apply (receiver_step_sent q).
Qed.

Lemma zsum_replicate_zero {A} (f : A -> Z) n x : f x = 0 -> zsum f (replicate n x) = 0.
Proof. intros Hx. induction n as [|n IH]; [done|]. cbn [replicate]. rewrite zsum_cons. lia. Qed.

Lemma Queue_new_ok n : sq_config_ok -> queue_ok (Queue_new n).
Proof.
  intros [[? ?] ?]. split; cbn; unfold held_sum, markers, reported, evidence_bytes, evidence_messages,
    held_sum, one_per_cause; cbn; rewrite ?zsum_nil, ?zsum_replicate_zero by done; try done.
  - split_and!; [by apply Forall_replicate|done|done].
  - by right.
  - apply NoDup_nil_2.
  - intros c _. by rewrite zsum_replicate_zero.
Qed.

(** Once the receiver is dropped it stays dropped. *)
Lemma queue_step_closed scope q q' :
  queue_step config scope q q' -> q_closed q = true -> q_closed q' = true.
Proof. intros [t Hs|Hs] Hc; destruct Hs; done. Qed.

Lemma queue_step_ok scope q q' :
  sq_config_ok -> (q_closed q = false -> queue_ok q) -> queue_step config scope q q' ->
  q_closed q' = false -> queue_ok q'.
Proof.
  intros Hc Hok Hstep Hcl. destruct (q_closed q) eqn:E.
  { pose proof (queue_step_closed _ _ _ Hstep E). congruence. }
  specialize (Hok eq_refl). destruct Hstep as [t Hs|Hs].
  - by apply (sender_step_ok scope t q).
  - by apply (receiver_step_ok q).
Qed.

Lemma queue_reachable_ok scope n q :
  sq_config_ok -> rtc (queue_step config scope) (Queue_new n) q -> q_closed q = false -> queue_ok q.
Proof.
  intros Hc Hr. assert (q_closed (Queue_new n) = false -> queue_ok (Queue_new n)) as Hnew
    by (intros _; by apply Queue_new_ok).
  induction Hr as [|? ? ? Hs _ IH] in Hnew |- *; [done|]. apply IH. by eapply queue_step_ok.
Qed.

(* ------------------------------------------------------------------ *)
(** ** Properties *)

(** C14: the queue is bounded by bytes under every interleaving of readers and receiver. While the
    receiver lives, the shared counter is exactly what the reserved messages measure, the message
    count exactly the messages queued or in hand (so neither ever underflows), and the evidence
    held is within [max_bytes] or is one single message, the agent's own records aside. *)
Theorem queue_bounded scope n q :
  sq_config_ok -> rtc (queue_step config scope) (Queue_new n) q -> q_closed q = false ->
  q_bytes q = held_sum item_bytes q /\
  (evidence_bytes q <= sq_max_bytes config \/ evidence_messages q <= 1) /\
  0 <= evidence_bytes q <= q_bytes q /\ zlen (q_channel q) <= q_messages q.
Proof.
  intros Hc Hr Hcl. pose proof (queue_reachable_ok scope n q Hc Hr Hcl) as Hok.
  pose proof (evidence_le_bytes q Hok) as [He _]. rewrite (qok_messages q Hok).
  pose proof (zsum_nonneg sender_messages (q_senders q) ltac:(by intros [])).
  assert (0 <= receiver_messages (q_receiver q)) by (by destruct (q_receiver q)).
  split_and!; [apply (qok_bytes q Hok)|apply (qok_bound q Hok)|lia..].
Qed.

(** C18: the loss protocol never strands a report and never floods the queue. Under every
    interleaving at most one gap marker is outstanding (owed, queued or in the receiver's hand);
    whenever loss is pending there is exactly one, so the receiver will come to it; and the pending
    reports are at most one per cause. *)
Theorem loss_reports_never_stranded scope n q :
  sq_config_ok -> rtc (queue_step config scope) (Queue_new n) q -> q_closed q = false ->
  0 <= markers q <= 1 /\
  (lost_reports (q_lost q) <> [] -> markers q = 1) /\
  one_per_cause (lost_reports (q_lost q)).
Proof.
  intros Hc Hr Hcl. pose proof (queue_reachable_ok scope n q Hc Hr Hcl) as Hok.
  rewrite (qok_markers q Hok). pose proof (qok_reports q Hok) as Hre.
  split_and!; [by destruct (lost_marker_queued _)..| |apply (qok_causes q Hok)].
  intros Hne. destruct (lost_marker_queued (q_lost q)); [done|by destruct Hne; apply Hre].
Qed.

(** Nothing the queue takes disappears. Under every interleaving, the messages sent are those
    received, the one in hand and those queued, in order; and for each evidence class the records
    refused are exactly those in the reports received, in the pending reports, and in the reports
    senders are about to merge. *)
Theorem queue_loses_nothing_silently scope n q :
  sq_config_ok -> rtc (queue_step config scope) (Queue_new n) q -> q_closed q = false ->
  zlen (q_refused q) <= usize_max ->
  q_sent q = received_records (q_received q) ++ receiver_records (q_receiver q)
               ++ queued_records (q_channel q) /\
  forall c, count_class c (q_refused q) = reported c q.
Proof.
  intros Hc Hr Hcl Hl. pose proof (queue_reachable_ok scope n q Hc Hr Hcl) as Hok.
  split; [apply (qok_order q Hok)|]. intros c. by apply (qok_loss q Hok).
Qed.
End invariant.

(** What the scope lets through. Filtering keeps order, keeps every record of the agent
    itself whatever the allow-list, and keeps any other record exactly when it is bound to an
    allowed namespace. *)
Theorem scope_keeps_exactly allow records :
  sublist (scoped (Some allow) records) records /\
  forall r, r ∈ scoped (Some allow) records <->
    r ∈ records /\
    (is_agent_record r = true \/ exists b ns, er_binding r = Some (Bound b) /\ namespace b = Some ns /\ ns ∈ allow).
Proof.
  split; [apply sublist_filter|]. intros r. cbn [scoped]. rewrite list_elem_of_filter.
  unfold record_in_namespace_scope, bound_namespace. split.
  - intros [[Ha|Hb]%orb_true_iff Hr]; split; auto. right.
    destruct (er_binding r) as [[b|reason]|]; try done.
    destruct (namespace b) as [ns|] eqn:En; [|done]. apply bool_decide_eq_true in Hb. eauto.
  - intros [Hr [Ha|(b & ns & Hb & Hn & Hin)]]; (split; [|done]); apply orb_true_iff; [by left|right].
    rewrite Hb, Hn. by apply bool_decide_eq_true.
Qed.

(** Who is refused first. Agent records are admitted at any level; an empty queue admits any
    message; otherwise a message goes in exactly when it still fits its class's share, all of the
    budget for attribution, three quarters of it (rounded up) for reliability, and under pressure
    the budget is the pressure budget. *)
Theorem refuses_iff config (pressured : bool) current bytes class :
  0 <= current -> 0 <= bytes -> sq_max_bytes config < usize_max -> sq_pressure_max_bytes config < usize_max ->
  0 <= sq_max_bytes config -> 0 <= sq_pressure_max_bytes config ->
  let budget := if pressured then sq_pressure_max_bytes config else sq_max_bytes config in
  refuses current bytes (admit_limit config pressured class) = true <->
  class <> AdmitAgent /\ 0 < current /\
  match class with
  | AdmitReliability => budget - budget / 4 < current + bytes
  | _ => budget < current + bytes
  end.
Proof.
  intros Hcur Hb Hm Hp Hm0 Hp0. cbv zeta. unfold refuses, admit_limit.
  set (budget := if pressured then _ else _).
  assert (0 <= budget < usize_max) as Hbd by (subst budget; destruct pressured; lia).
  pose proof (Z.div_pos budget 4 ltac:(lia) ltac:(lia)).
  rewrite andb_true_iff, negb_true_iff, Z.eqb_neq, Z.ltb_lt.
  destruct class; (split; [intros [? ?]|intros (? & ? & ?)]); try done; split_and?; try done; word.
Qed.

(* ------------------------------------------------------------------ *)
(** ** Witnesses *)

(** One byte of budget: the first message of an empty queue is admitted whatever its size. *)
Definition w_queue_config : SinkQueueConfig := mkSinkQueueConfig 1 1.

Lemma w_queue_config_ok : sq_config_ok w_queue_config.
Proof. by vm_compute. Qed.

(** A reader that finds the queue empty, up to its successful compare-and-swap. *)
Definition w_reserved : Queue :=
  (set_sender 0 (SReserved [sample_attribution] (resident_bytes [sample_attribution])) (Queue_new 2))
    <| q_bytes := resident_bytes [sample_attribution] |>.

Lemma w_reserved_reachable : rtc (queue_step w_queue_config None) (Queue_new 2) w_reserved.
Proof.
  eapply rtc_l; [eapply (by_sender _ _ _ _ 0), (st_load_pressure _ _ _ _ [sample_attribution]); done|].
  eapply rtc_l; [eapply (by_sender _ _ _ _ 0), st_load_current; done|].
  eapply rtc_l; [eapply (by_sender _ _ _ _ 0), st_cas_ok; [done|by vm_compute|done|by vm_compute]|].
  by apply rtc_refl.
Qed.

Lemma queue_bounded_witness :
  evidence_bytes w_reserved <= 1 \/ evidence_messages w_reserved <= 1.
Proof.
  exact (proj1 (proj2 (queue_bounded w_queue_config None 2 w_reserved w_queue_config_ok
    w_reserved_reachable eq_refl))).
Defined.

(** A second reader, refused while the first message is reserved, has merged its report. *)
Definition w_refused : Queue :=
  (set_sender 1 SMarkerOwed w_reserved)
    <| q_lost := mkLost [gap_for_records CAUSE_OVERFLOW [sample_reliability]] true |>
    <| q_refused := [sample_reliability] |>.

Lemma w_refused_reachable : rtc (queue_step w_queue_config None) (Queue_new 2) w_refused.
Proof.
  etrans; [apply w_reserved_reachable|].
  eapply rtc_l; [eapply (by_sender _ _ _ _ 1), (st_load_pressure _ _ _ _ [sample_reliability]); done|].
  eapply rtc_l; [eapply (by_sender _ _ _ _ 1), st_load_current; done|].
  eapply rtc_l; [eapply (by_sender _ _ _ _ 1), st_refuse; [done|by vm_compute]|].
  eapply rtc_l; [eapply (by_sender _ _ _ _ 1), st_merge; done|].
  by apply rtc_refl.
Qed.

Lemma loss_reports_never_stranded_witness : markers w_refused = 1.
Proof.
  apply (loss_reports_never_stranded w_queue_config None 2 w_refused w_queue_config_ok
    w_refused_reachable eq_refl). done.
Defined.

Lemma queue_loses_nothing_silently_witness :
  count_class Reliability (q_refused w_refused) = 1 /\
  count_class Reliability (q_refused w_refused) = reported Reliability w_refused.
Proof.
  split; [by vm_compute|].
  apply (queue_loses_nothing_silently w_queue_config None 2 w_refused w_queue_config_ok
    w_refused_reachable eq_refl). by vm_compute.
Defined.

Lemma refuses_iff_witness :
  refuses 80 10 (admit_limit (SinkQueueConfig_new 100) false AdmitReliability) = true /\
  0 < 80.
Proof.
  split; [by vm_compute|].
  exact (proj1 (proj2 (proj1 (refuses_iff (SinkQueueConfig_new 100) false 80 10 AdmitReliability
    ltac:(lia) ltac:(lia) ltac:(by vm_compute) ltac:(by vm_compute) ltac:(by vm_compute) ltac:(by vm_compute))
    ltac:(by vm_compute)))).
Defined.
