(* ===== verification/SinkLoop.v ===== *)
(** The sink loop ([run_sink_loop] and its helpers in [jalki/src/runtime.rs]): one batch per ring
    buffer drain, inline delivery while nothing is queued, a paced backlog otherwise.

    The sink is any [EvidenceSink] over a world [W]. Time is milliseconds of the loop's clock and
    is an argument of each step, as are the memory ratio and the fresh batch ids; metrics and log
    lines are left out. [lp_log], [lp_accepted] and [lp_lost] are history, for the theorems: the
    calls made to the sink and their replies, the records taken from the queue, and the loss
    reports the loop made of its own. *)
From Stdlib Require Import Strings.Byte.
From S2P Require Import Prelude Float Protocol Evidence Samples Sink Gap Retry Backoff Pacer Spool SinkQueue.

(* ------------------------------------------------------------------ *)
(** ** Pending gaps *)

Record PendingGaps := mkPendingGaps {
  pg_in_flight : option EvidenceBatch;
  pg_queued : list GapReport
}.
#[export] Instance eta_PendingGaps : Eta PendingGaps :=
  fun p => mkPendingGaps (pg_in_flight p) (pg_queued p).

Definition PendingGaps_default : PendingGaps := mkPendingGaps None [].

Definition pg_merge (gap : GapReport) (p : PendingGaps) : PendingGaps :=
  p <| pg_queued ::= fun queued => merge_by_cause queued gap |>.

Definition pg_extend (gaps : list GapReport) (p : PendingGaps) : PendingGaps :=
  foldl (fun p gap => pg_merge gap p) p gaps.

(** [PendingGaps::front]; [into_batch] is [GapReport::into_batch] with the ids drawn now. *)
Definition pg_front (into_batch : GapReport -> EvidenceBatch) (p : PendingGaps)
  : option EvidenceBatch * PendingGaps :=
  let p :=
    match pg_in_flight p, pg_queued p with
    | None, gap :: rest => mkPendingGaps (Some (into_batch gap)) rest
    | _, _ => p
    end in
  (pg_in_flight p, p).

Definition pg_pop_front (p : PendingGaps) : PendingGaps := p <| pg_in_flight := None |>.

Definition pg_is_empty (p : PendingGaps) : bool :=
  bool_decide (pg_in_flight p = None) && bool_decide (pg_queued p = []).

Definition pg_len (p : PendingGaps) : Z :=
  (if bool_decide (is_Some (pg_in_flight p)) then 1 else 0) + zlen (pg_queued p).

(* ------------------------------------------------------------------ *)
(** ** Helpers *)

Definition terminal_gap_cause (e : SinkError) : string :=
  match e with
  | InvalidRecord _ _ => "sink_invalid_record"
  | Rejected _ _ => "sink_rejected"
  | Unauthorized _ _ => "sink_unauthorized"
  | Misconfigured _ _ => "sink_misconfigured"
  | PartialFailure _ _ _ _ => "sink_partial_failure"
  | Unsupported _ _ => "sink_unsupported"
  | Unavailable _ _ | Timeout _ _ | Backpressure _ _ => "sink_retryable_failure"
  end.

Definition has_backlog (rb : RetryBuffer) (pg : PendingGaps) : bool :=
  negb (rb_is_empty rb) || negb (pg_is_empty pg).

Definition backlog_len (rb : RetryBuffer) (pg : PendingGaps) : Z := len_batches rb + pg_len pg.

(** [schedule_retry]; [now] is [Deadline::now()] in milliseconds. *)
Definition schedule_retry (hash : Z -> Z) (now : Z) (current : option Z) (backoff : RetryBackoff)
    (backlog : bool) : option Z * RetryBackoff :=
  if negb backlog then (None, backoff_reset backoff)
  else match current with
       | Some deadline => (Some deadline, backoff)
       | None =>
           let '(delay_ms, backoff) := next_delay_ms hash backoff in
           (Some (now + delay_ms), backoff)
       end.

Inductive DrainOutcome :=
| DrainEmpty
| DrainPaced (wait_ms : Z)
| DrainSinkRefused.

(* ------------------------------------------------------------------ *)
(** ** Memory pressure *)

Definition DEFAULT_MEMORY_HIGH_WATERMARK : f64 := f_lit 8 10.
Definition MEMORY_SHED_FRACTION : f64 := f_lit 1 2.
Definition QUEUE_PRESSURE_RELEASE_MARGIN : f64 := f_lit 5 100.

(** [memory_high_watermark]; [parse_f64] is [str::parse::<f64>]. *)
Definition memory_high_watermark (parse_f64 : string -> option f64) (env : string -> option string) : f64 :=
  match v ← env "JALKI_MEMORY_HIGH_WATERMARK"; parse_f64 (trim v) with
  | Some v => if f_gt v f_zero && f_le v f_one then v else DEFAULT_MEMORY_HIGH_WATERMARK
  | None => DEFAULT_MEMORY_HIGH_WATERMARK
  end.

(** The queue's switch with hysteresis: on at the watermark, off only clearly below it. *)
Definition release_at (high_watermark : f64) : f64 :=
  f_sub high_watermark (f_min QUEUE_PRESSURE_RELEASE_MARGIN (f_div high_watermark (f_of_Z 2))).

Definition queue_pressured (was : bool) (ratio high_watermark : f64) : bool :=
  if was then f_ge ratio (release_at high_watermark) else f_ge ratio high_watermark.

(** What the loop reads of the queue and the cgroup. *)
Record MemoryView := mkMemoryView {
  mv_ratio : option f64;
  mv_limit_bytes : Z;
  mv_queued_bytes : Z;
  mv_pressure_max_bytes : Z
}.

(** Whether even giving everything back would leave the ratio at the watermark. *)
Definition ceiling_doomed (v : MemoryView) (ratio high_watermark : f64) (rb : RetryBuffer) : bool :=
  let queue_excess := sat_sub (mv_queued_bytes v) (mv_pressure_max_bytes v) in
  let freeable := sat_add64 (len_bytes rb) queue_excess in
  let buffer_fraction := f_div (f_of_Z freeable) (f_of_Z (mv_limit_bytes v)) in
  f_ge ratio high_watermark && f_ge (f_sub ratio buffer_fraction) high_watermark.

(** [CeilingState::observe]: the new state, and whether a line is logged (a warning when doomed,
    an all-clear otherwise). *)
Definition ceiling_observe (doomed active : bool) : bool * bool :=
  (doomed, (doomed && negb active) || (negb doomed && active)).

(** [shed_under_memory_pressure]: the queue's pressure flag, the ceiling state, the buffer, and the
    reports for the pending gaps. *)
Definition shed_under_memory_pressure (v : MemoryView) (high_watermark : f64) (rb : RetryBuffer)
    (was_pressured ceiling : bool) : bool * bool * RetryBuffer * list GapReport :=
  match mv_ratio v with
  | None => (was_pressured, ceiling, rb, [])
  | Some ratio =>
      let pressured := queue_pressured was_pressured ratio high_watermark in
      let ceiling := (ceiling_observe (ceiling_doomed v ratio high_watermark rb) ceiling).1 in
      if f_lt ratio high_watermark || rb_is_empty rb then (pressured, ceiling, rb, [])
      else
        let target := f_to_u64 (f_mul (f_of_Z (len_bytes rb)) MEMORY_SHED_FRACTION) in
        let '(gaps, rb') := shed_to target rb in
        (pressured, ceiling, rb', gaps)
  end.

(* ------------------------------------------------------------------ *)
(** ** The loop *)

Inductive CallKind := EvidenceCall | GapCall.

Record SinkCall := mkSinkCall {
  call_kind : CallKind;
  call_batch : EvidenceBatch;
  call_reply : result SinkError AppendResult
}.

Record Loop (W : Type) := mkLoop {
  lp_buffer : RetryBuffer;
  lp_gaps : PendingGaps;
  lp_pacer : DrainPacer;
  lp_backoff : RetryBackoff;
  lp_next_retry : option Z;
  lp_ceiling : bool;
  lp_queue_pressure : bool;
  lp_spool : option Spool;
  lp_disk : Disk;
  lp_world : W;
  lp_log : list SinkCall;
  lp_accepted : list EvidenceRecord;
  lp_lost : list GapReport
}.
#[global] Arguments mkLoop {W}.
#[global] Arguments lp_buffer {W}.
#[global] Arguments lp_gaps {W}.
#[global] Arguments lp_pacer {W}.
#[global] Arguments lp_backoff {W}.
#[global] Arguments lp_next_retry {W}.
#[global] Arguments lp_ceiling {W}.
#[global] Arguments lp_queue_pressure {W}.
#[global] Arguments lp_spool {W}.
#[global] Arguments lp_disk {W}.
#[global] Arguments lp_world {W}.
#[global] Arguments lp_log {W}.
#[global] Arguments lp_accepted {W}.
#[global] Arguments lp_lost {W}.
#[export] Instance eta_Loop {W} : Eta (Loop W) :=
  fun l => mkLoop (lp_buffer l) (lp_gaps l) (lp_pacer l) (lp_backoff l) (lp_next_retry l)
                  (lp_ceiling l) (lp_queue_pressure l) (lp_spool l) (lp_disk l) (lp_world l) (lp_log l)
                  (lp_accepted l) (lp_lost l).

(** The loop before it looks at the spool. *)
Definition Loop_new {W} (config : RetryBufferConfig) (pacer : DrainPacer) (backoff : RetryBackoff)
    (spool : option Spool) (d : Disk) (w : W) : Loop W :=
  mkLoop (RetryBuffer_new config) PendingGaps_default pacer backoff None false false spool d w [] [] [].

Section loop.
Context {W : Type} `{ByteModel}.
Variable sink : EvidenceSink W.
(** [GapReport::into_batch] with the ids of the moment, here the number of sink calls so far: no
    two batches are made at one moment. *)
Variable into_batch : nat -> GapReport -> EvidenceBatch.
Variable producer : ProducerMetadata.
Variable hash : Z -> Z.
(** The spool's encoder and decoder, and the file-system calls that fail. *)
Variable to_vec : EvidenceBatch -> result string (list byte).
Variable from_slice : list byte -> option EvidenceBatch.
Variable fault : nat -> option (string * nat).

(** [sink.append_batch(batch).await] *)
Definition sink_append (kind : CallKind) (b : EvidenceBatch) (l : Loop W)
  : result SinkError AppendResult * Loop W :=
  let '(r, w) := append_batch sink b (lp_world l) in
  (r, l <| lp_world := w |> <| lp_log ::= fun log => log ++ [mkSinkCall kind b r] |>).

(** [pending_gaps.extend(gaps)] for loss of the loop's own. *)
Definition lose (gaps : list GapReport) (l : Loop W) : Loop W :=
  l <| lp_gaps ::= pg_extend gaps |> <| lp_lost ::= fun lost => lost ++ gaps |>.

Definition is_backpressure (e : SinkError) : bool :=
  match e with Backpressure _ _ => true | _ => false end.

Definition note_backpressure (e : SinkError) (l : Loop W) : Loop W :=
  if is_backpressure e then l <| lp_pacer ::= on_backpressure |> else l.

(** The first loop of [flush_retry_buffer]; [None] is falling through to the second. *)
Fixpoint flush_gaps (fuel : nat) (now_ms : Z) (l : Loop W) : option DrainOutcome * Loop W :=
  match fuel with
  | O => (None, l)
  | S fuel' =>
      let '(front, pg) := pg_front (into_batch (length (lp_log l))) (lp_gaps l) in
      let l := l <| lp_gaps := pg |> in
      match front with
      | None => (None, l)
      | Some batch =>
          let '(pace, pacer) := poll now_ms (approx_bytes batch) (lp_pacer l) in
          let l := l <| lp_pacer := pacer |> in
          match pace with
          | Wait ms => (Some (DrainPaced ms), l)
          | Send =>
              let '(r, l) := sink_append GapCall batch l in
              match r with
              | Ok _ =>
                  flush_gaps fuel' now_ms (l <| lp_pacer ::= on_delivered |> <| lp_gaps ::= pg_pop_front |>)
              | Err err =>
                  let l := note_backpressure err l in
                  if should_retry err then (Some DrainSinkRefused, l)
                  else flush_gaps fuel' now_ms (l <| lp_gaps ::= pg_pop_front |>)
              end
          end
      end
  end.

(** The second loop. *)
Fixpoint flush_batches (fuel : nat) (now_ms : Z) (l : Loop W) : DrainOutcome * Loop W :=
  match fuel with
  | O => (DrainEmpty, l)
  | S fuel' =>
      match rb_front (lp_buffer l) with
      | None => (DrainEmpty, l)
      | Some batch =>
          let '(pace, pacer) := poll now_ms (approx_bytes batch) (lp_pacer l) in
          let l := l <| lp_pacer := pacer |> in
          match pace with
          | Wait ms => (DrainPaced ms, l)
          | Send =>
              let '(r, l) := sink_append EvidenceCall batch l in
              match r with
              | Ok _ =>
                  let l := l <| lp_pacer ::= on_delivered |> in
                  match pop_delivered (lp_buffer l) with
                  | Some (_, rb) => flush_batches fuel' now_ms (l <| lp_buffer := rb |>)
                  | None => flush_batches fuel' now_ms l
                  end
              | Err err =>
                  let l := note_backpressure err l in
                  if should_retry err then (DrainSinkRefused, l)
                  else match pop_delivered (lp_buffer l) with
                       | Some (dropped, rb) =>
                           (DrainSinkRefused,
                            lose [gap_for_batch (terminal_gap_cause err) dropped] (l <| lp_buffer := rb |>))
                       | None => (DrainSinkRefused, l)
                       end
              end
          end
      end
  end.

(** Every iteration but the last takes a report or a batch away. *)
Definition flush_fuel (l : Loop W) : nat :=
  S (Z.to_nat (backlog_len (lp_buffer l) (lp_gaps l))).

(** [flush_retry_buffer] *)
Definition flush_retry_buffer (now_ms : Z) (l : Loop W) : DrainOutcome * Loop W :=
  let '(outcome, l) := flush_gaps (flush_fuel l) now_ms l in
  match outcome with
  | Some outcome => (outcome, l)
  | None => flush_batches (flush_fuel l) now_ms l
  end.

(** [pending_gaps.extend(retry_buffer.drop_expired(now_ms))] *)
Definition age_out (now_ms : Z) (l : Loop W) : Loop W :=
  let '(gaps, rb) := drop_expired now_ms (lp_buffer l) in
  lose gaps (l <| lp_buffer := rb |>).

(** [pending_gaps.extend(retry_buffer.enqueue(batch, now_ms))] *)
Definition queue_batch (new_id : EvidenceClass -> string) (b : EvidenceBatch) (now_ms : Z) (l : Loop W)
  : Loop W :=
  let '(gaps, rb) := enqueue new_id b now_ms (lp_buffer l) in
  lose gaps (l <| lp_buffer := rb |>).

(** History: evidence the loop is answerable for. *)
Definition accept (b : EvidenceBatch) (l : Loop W) : Loop W :=
  l <| lp_accepted ::= fun records => records ++ eb_records b |>.

(** The [Received::Records] arm, for a message with records. *)
Definition handle_records (new_id : EvidenceClass -> string) (batch : EvidenceBatch) (now_ms : Z)
    (l : Loop W) : Loop W :=
  let l := accept batch l in
  if rb_is_empty (lp_buffer l) && pg_is_empty (lp_gaps l) then
    let '(r, l) := sink_append EvidenceCall batch l in
    match r with
    | Ok _ => l <| lp_backoff ::= backoff_reset |>
    | Err err =>
        if should_retry err then queue_batch new_id batch now_ms l
        else lose [gap_for_batch (terminal_gap_cause err) batch] l
    end
  else queue_batch new_id batch now_ms l.

(** The [Received::Gaps] arm: the reports' records in one batch. *)
Definition handle_gaps (batch_id : string) (reports : list GapReport) (l : Loop W) : Loop W :=
  if has_backlog (lp_buffer l) (lp_gaps l) then l <| lp_gaps ::= pg_extend reports |>
  else
    let records := concat (map (fun gap => eb_records (into_batch (length (lp_log l)) gap)) reports) in
    let batch := EvidenceBatch_new batch_id producer records in
    let '(r, l) := sink_append GapCall batch l in
    match r with
    | Err _ => l <| lp_gaps ::= fun pg => pg <| pg_in_flight := Some batch |> |>
    | Ok _ => l <| lp_backoff ::= backoff_reset |>
    end.

(** [if let Some(pressure) = &memory_pressure { shed_under_memory_pressure(..) }] *)
Definition under_pressure (memory : option MemoryView) (high_watermark : f64) (l : Loop W) : Loop W :=
  match memory with
  | None => l
  | Some v =>
      let '(pressured, ceiling, rb, gaps) :=
        shed_under_memory_pressure v high_watermark (lp_buffer l) (lp_queue_pressure l) (lp_ceiling l) in
      lose gaps (l <| lp_buffer := rb |> <| lp_queue_pressure := pressured |> <| lp_ceiling := ceiling |>)
  end.

(** [sync_spool] *)
Definition sync_spool (spool : option Spool) (rb : RetryBuffer) (d : Disk) : option Spool * Disk :=
  match spool with
  | None => (None, d)
  | Some s =>
      if bool_decide (is_Some (sp_disabled s)) then (Some s, d)
      else let '(_, s, d) := compact to_vec fault (iter_batches rb) s d in (Some s, d)
  end.

(** [sync_spool(&mut spool, &retry_buffer, ..)] *)
Definition persist (l : Loop W) : Loop W :=
  let '(spool, d) := sync_spool (lp_spool l) (lp_buffer l) (lp_disk l) in
  l <| lp_spool := spool |> <| lp_disk := d |>.

(** The head of [run_sink_loop]: what a previous process left is enqueued, oldest first, at time
    zero, and the file rewritten from what the buffer kept. *)
Definition recover (new_ids : nat -> EvidenceClass -> string) (l : Loop W) : Loop W :=
  match lp_spool l with
  | None => l
  | Some s =>
      let '(batches, report) := replay from_slice (dk_spool (lp_disk l)) in
      let l := foldl (fun l (ib : nat * EvidenceBatch) => queue_batch (new_ids ib.1) ib.2 0 (accept ib.2 l))
                 l (imap pair batches) in
      let '(_, s, d) := compact to_vec fault (iter_batches (lp_buffer l)) s (lp_disk l) in
      l <| lp_spool := Some s |> <| lp_disk := d |>
  end.

Definition reschedule (now : Z) (current : option Z) (l : Loop W) : Loop W :=
  let '(next, backoff) :=
    schedule_retry hash now current (lp_backoff l) (has_backlog (lp_buffer l) (lp_gaps l)) in
  l <| lp_next_retry := next |> <| lp_backoff := backoff |>.

(** The receive arm of the [select!]. [now] is the deadline clock, [now_ms] the loop clock. *)
Definition on_received (batch_id : string) (new_id : EvidenceClass -> string) (received : Received)
    (memory : option MemoryView) (high_watermark : f64) (now now_ms : Z) (l : Loop W) : Loop W :=
  let l := age_out now_ms l in
  let l := match received with
           | RecvRecords [] => l
           | RecvRecords records => handle_records new_id (EvidenceBatch_new batch_id producer records) now_ms l
           | RecvGaps reports => handle_gaps batch_id reports l
           end in
  let l := persist (under_pressure memory high_watermark l) in
  reschedule now (lp_next_retry l) l.

(** The timer arm of the [select!]. *)
Definition on_timer (memory : option MemoryView) (high_watermark : f64) (now now_ms : Z) (l : Loop W)
  : Loop W :=
  let l := age_out now_ms l in
  let before := backlog_len (lp_buffer l) (lp_gaps l) in
  let '(outcome, l) := flush_retry_buffer now_ms l in
  let l := if backlog_len (lp_buffer l) (lp_gaps l) <? before
           then l <| lp_backoff ::= backoff_reset |> else l in
  let l := persist (under_pressure memory high_watermark l) in
  match outcome with
  | DrainPaced wait_ms => l <| lp_next_retry := Some (now + wait_ms) |>
  | DrainSinkRefused | DrainEmpty => reschedule now None l
  end.

(** The drain after the queue closed; [clock] is the loop clock at each pass, [None] out of
    passes. A paced pass sleeps [min(wait_ms, 1000)] and goes round again. *)
Fixpoint drain (fuel : nat) (clock : nat -> Z) (l : Loop W) : option (Loop W) :=
  match fuel with
  | O => None
  | S fuel' =>
      if has_backlog (lp_buffer l) (lp_gaps l) then
        let before := (len_batches (lp_buffer l), pg_len (lp_gaps l)) in
        let '(outcome, l) := flush_retry_buffer (clock 0%nat) l in
        match outcome with
        | DrainPaced _ => drain fuel' (fun n => clock (S n)) l
        | _ => if bool_decide ((len_batches (lp_buffer l), pg_len (lp_gaps l)) = before) then Some l
               else drain fuel' (fun n => clock (S n)) l
        end
      else Some l
  end.

(** The end of [run_sink_loop]: the drain, and a last sync. *)
Definition shutdown (fuel : nat) (clock : nat -> Z) (l : Loop W) : option (Loop W) :=
  persist <$> drain fuel clock l.
End loop.

(* ------------------------------------------------------------------ *)
(** ** The loop keeps the buffer's ledger *)

Section conservation.
Context {W : Type} `{ByteModel}.
Variable sink : EvidenceSink W.
Variable into_batch : nat -> GapReport -> EvidenceBatch.
Variable producer : ProducerMetadata.
Variable hash : Z -> Z.
Variable to_vec : EvidenceBatch -> result string (list byte).
Variable from_slice : list byte -> option EvidenceBatch.
Variable fault : nat -> option (string * nat).

(** The evidence the sink accepted, in the order it was handed over. *)
Definition accepted_call (call : SinkCall) : list EvidenceRecord :=
  match call_kind call, call_reply call with
  | EvidenceCall, Ok _ => eb_records (call_batch call)
  | _, _ => []
  end.

Definition delivered_records (log : list SinkCall) : list EvidenceRecord :=
  concat (map accepted_call log).
#[local] Arguments delivered_records : simpl never.

Definition ledger_of (l : Loop W) : Ledger :=
  mkLedger (lp_buffer l) (lp_accepted l) (lp_lost l) (delivered_records (lp_log l)).

Definition loop_ok (config : RetryBufferConfig) (l : Loop W) : Prop := ledger_ok config (ledger_of l).

Lemma delivered_app log call :
  delivered_records (log ++ [call]) = delivered_records log ++ accepted_call call.
Proof. unfold delivered_records. rewrite map_app, concat_app. cbn. by rewrite app_nil_r. Qed.

(** A failed call, or a gap call, hands over no evidence. *)
Lemma sink_append_quiet kind b l r l' :
  sink_append sink kind b l = (r, l') -> accepted_call (mkSinkCall kind b r) = [] ->
  ledger_of l' = ledger_of l /\ lp_gaps l' = lp_gaps l.
Proof.
  unfold sink_append. destruct (append_batch sink b (lp_world l)) as [r0 w]. intros [= <- <-] Hq.
  unfold ledger_of. cbn. by rewrite delivered_app, Hq, app_nil_r.
Qed.

Lemma sink_append_delivers b l a l' :
  sink_append sink EvidenceCall b l = (Ok a, l') ->
  ledger_of l' = mkLedger (lp_buffer l) (lp_accepted l) (lp_lost l)
                   (delivered_records (lp_log l) ++ eb_records b) /\ lp_gaps l' = lp_gaps l.
Proof.
  unfold sink_append. destruct (append_batch sink b (lp_world l)) as [r0 w]. intros [= -> <-].
  unfold ledger_of. cbn. by rewrite delivered_app.
Qed.

Lemma ledger_of_lose gaps l :
  ledger_of (lose gaps l) = mkLedger (lp_buffer l) (lp_accepted l) (lp_lost l ++ gaps)
                              (delivered_records (lp_log l)).
Proof. done. Qed.

Lemma age_out_ok config now_ms l : config_ok config -> loop_ok config l -> loop_ok config (age_out now_ms l).
Proof.
  intros Hc Hl. unfold loop_ok, age_out. destruct (drop_expired now_ms (lp_buffer l)) as [gaps rb] eqn:E.
  eapply ledger_step_ok; [done|exact Hl|]. by eapply (step_drop_expired (ledger_of l)).
Qed.

Lemma queue_batch_ok config new_id b now_ms l l0 :
  config_ok config -> loop_ok config l0 -> lp_buffer l = lp_buffer l0 -> lp_lost l = lp_lost l0 ->
  delivered_records (lp_log l) = delivered_records (lp_log l0) ->
  lp_accepted l = lp_accepted l0 ++ eb_records b ->
  enqueue_fits new_id b (lp_buffer l) -> loop_ok config (queue_batch new_id b now_ms l).
Proof.
  intros Hc Hl Hb Hlost Hd Ha Hf. unfold loop_ok, queue_batch.
  destruct (enqueue new_id b now_ms (lp_buffer l)) as [gaps rb] eqn:E.
  assert (ledger_of (lose gaps (l <| lp_buffer := rb |>)) =
    mkLedger rb (lg_accepted (ledger_of l0) ++ eb_records b) (lg_gaps (ledger_of l0) ++ gaps)
      (lg_delivered (ledger_of l0))) as ->.
  { rewrite ledger_of_lose. cbn. by rewrite Hlost, Hd, Ha. }
  rewrite Hb in *. eapply ledger_step_ok; [done|exact Hl|]. by eapply (step_enqueue (ledger_of l0)).
Qed.

(** Evidence delivered inline, with nothing queued before it. *)
Lemma inline_delivery_ok config ld b :
  ledger_ok config ld -> rb_batches (lg_buffer ld) = [] ->
  ledger_ok config (mkLedger (lg_buffer ld) (lg_accepted ld ++ eb_records b) (lg_gaps ld)
                      (lg_delivered ld ++ eb_records b)).
Proof.
  intros [Hok Hc Hbd Hn Ho] Hnil. split; cbn [lg_buffer lg_accepted lg_gaps lg_delivered]; try done.
  - intros c. rewrite !count_class_app, Hn. lia.
  - intros c. specialize (Ho c). assert (of_class c (buffer_records (lg_buffer ld)) = []) as Hnone.
    { unfold buffer_records. by rewrite Hnil. }
    rewrite Hnone, app_nil_r in *. rewrite !of_class_app. by apply sublist_app.
Qed.

(** Evidence refused for good, reported in full. *)
Lemma inline_loss_ok config ld b gap :
  ledger_ok config ld -> (forall c, gap_class c gap = count_class c (eb_records b)) ->
  ledger_ok config (mkLedger (lg_buffer ld) (lg_accepted ld ++ eb_records b) (lg_gaps ld ++ [gap])
                      (lg_delivered ld)).
Proof.
  intros [Hok Hc Hbd Hn Ho] Hg. split; cbn [lg_buffer lg_accepted lg_gaps lg_delivered]; try done.
  - intros c. rewrite count_class_app, zsum_app, zsum_cons, zsum_nil, Hg, Hn. lia.
  - intros c. rewrite of_class_app. etrans; [apply Ho|]. by apply sublist_inserts_r.
Qed.

(** A popped batch that was reported instead of delivered. *)
Lemma popped_loss_ok config ld b rb gap :
  ledger_ok config ld -> pop_delivered (lg_buffer ld) = Some (b, rb) ->
  (forall c, gap_class c gap = count_class c (eb_records b)) ->
  ledger_ok config (mkLedger rb (lg_accepted ld) (lg_gaps ld ++ [gap]) (lg_delivered ld)).
Proof.
  intros Hl Hp Hg. pose proof Hl as [Hok _ _ _ _]. unfold pop_delivered in Hp.
  destruct (pop_front (lg_buffer ld)) as [[d rb1]|] eqn:E; [|done]. injection Hp as <- <-.
  destruct (pop_front_facts _ _ _ Hok E) as (Hok' & Hc' & Hb).
  apply lose_ok; [done..| |].
  - rewrite Hb. by apply sublist_cons.
  - intros c. rewrite zsum_cons, zsum_nil, Hg. unfold held, buffer_records. rewrite Hb. cbn [map concat].
    rewrite count_class_app. lia.
Qed.

Lemma note_backpressure_ledger e l :
  ledger_of (note_backpressure e l) = ledger_of l /\ lp_gaps (note_backpressure e l) = lp_gaps l /\
  lp_buffer (note_backpressure e l) = lp_buffer l.
Proof. unfold note_backpressure. by destruct (is_backpressure e). Qed.

Lemma sink_append_buffer kind b l : lp_buffer (sink_append sink kind b l).2 = lp_buffer l.
Proof. unfold sink_append. by destruct (append_batch sink b (lp_world l)). Qed.

(** Delivering reports moves no evidence. *)
Lemma flush_gaps_ledger fuel now_ms l :
  ledger_of (flush_gaps sink into_batch fuel now_ms l).2 = ledger_of l.
Proof.
  revert l. induction fuel as [|fuel IH]; intros l; cbn [flush_gaps]; [done|].
  destruct (pg_front _ _) as [[batch|] pg]; [|done].
  destruct (poll _ _ _) as [[|ms] pacer]; [|done].
  destruct (sink_append _ _ _ _) as [r l'] eqn:E.
  assert (ledger_of l' = ledger_of l) as Hl by (by destruct (sink_append_quiet _ _ _ _ _ E)).
  destruct r as [a|e]; [by rewrite IH|].
  destruct (note_backpressure_ledger e l') as (Hn & _).
  destruct (should_retry e); [by rewrite <- Hl|]. rewrite IH, <- Hl. exact Hn.
Qed.

(** What one successful or refused call does to the retry buffer. *)
Lemma deliver_front_ok config l l' b a rb d :
  config_ok config -> loop_ok config l -> rb_front (lp_buffer l) = Some b ->
  sink_append sink EvidenceCall b l = (Ok a, l') -> pop_delivered (lp_buffer l) = Some (d, rb) ->
  ledger_ok config (mkLedger rb (lp_accepted l) (lp_lost l) (delivered_records (lp_log l'))).
Proof.
  intros Hc Hl Hf Hs Hp. destruct (sink_append_delivers _ _ _ _ Hs) as [He _].
  assert (d = b) as ->.
  { unfold pop_delivered, pop_front in Hp. unfold rb_front in Hf.
    destruct (rb_batches (lp_buffer l)); [done|]. cbn in Hp, Hf. congruence. }
  pose proof (f_equal lg_delivered He) as Hd. cbn in Hd. rewrite Hd.
  eapply ledger_step_ok; [done|exact Hl|]. by apply (step_pop_delivered (ledger_of l)).
Qed.

Lemma pop_delivered_front rb : is_Some (pop_delivered rb) <-> is_Some (rb_front rb).
Proof.
  unfold pop_delivered, pop_front, rb_front.
  destruct (rb_batches rb); cbn; split; intros [? ?]; try done; by eexists.
Qed.

Lemma flush_batches_ok config fuel now_ms l :
  config_ok config -> loop_ok config l -> loop_ok config (flush_batches sink fuel now_ms l).2.
Proof.
  intros Hc. revert l. induction fuel as [|fuel IH]; intros l Hl; cbn [flush_batches]; [done|].
  destruct (rb_front (lp_buffer l)) as [b|] eqn:Hf; [|done].
  destruct (poll _ _ _) as [[|ms] pacer]; [|done].
  set (l1 := l <| lp_pacer := pacer |>). assert (loop_ok config l1) as Hl1 by exact Hl.
  destruct (sink_append sink EvidenceCall b l1) as [r l2] eqn:E.
  pose proof (sink_append_buffer EvidenceCall b l1) as Hb. rewrite E in Hb. cbn [snd] in Hb.
  destruct (pop_delivered (lp_buffer l)) as [[d rb]|] eqn:Hp.
  2:{ exfalso. assert (is_Some (pop_delivered (lp_buffer l))) as [? ?] by (apply pop_delivered_front; eauto).
      congruence. }
  destruct r as [a|e].
  - change (lp_buffer (l2 <| lp_pacer ::= on_delivered |>)) with (lp_buffer l2). rewrite Hb.
    change (lp_buffer l1) with (lp_buffer l). rewrite Hp. apply IH. unfold loop_ok.
    pose proof (deliver_front_ok config l1 l2 b a rb d Hc Hl1 Hf E Hp) as Hok.
    destruct (sink_append_delivers _ _ _ _ E) as [He _]. unfold ledger_of in He. injection He as _ Ha Hlo _.
    unfold ledger_of. cbn. by rewrite Ha, Hlo.
  - assert (accepted_call (mkSinkCall EvidenceCall b (Err e)) = []) as Hq by done.
    destruct (sink_append_quiet _ _ _ _ _ E Hq) as [He _].
    destruct (note_backpressure_ledger e l2) as (Hn & _ & Hbuf).
    assert (ledger_of (note_backpressure e l2) = ledger_of l) as Hsame by (rewrite Hn, He; done).
    destruct (should_retry e); [unfold loop_ok; cbn [snd]; by rewrite Hsame|].
    rewrite Hbuf, Hb. change (lp_buffer l1) with (lp_buffer l). rewrite Hp. cbn [snd].
    unfold loop_ok. rewrite ledger_of_lose. unfold ledger_of in Hsame. injection Hsame as _ Ha Hlo Hd.
    cbn. rewrite Ha, Hlo, Hd.
    apply (popped_loss_ok config (ledger_of l) d rb); [done..|]. intros c. apply gap_for_batch_class.
Qed.

Lemma flush_retry_buffer_ok config now_ms l :
  config_ok config -> loop_ok config l ->
  loop_ok config (flush_retry_buffer sink into_batch now_ms l).2.
Proof.
  intros Hc Hl. unfold flush_retry_buffer.
  pose proof (flush_gaps_ledger (flush_fuel l) now_ms l) as Hg.
  destruct (flush_gaps _ _ _ _ _) as [[o|] l']; cbn [snd] in *.
  - unfold loop_ok. by rewrite Hg.
  - apply flush_batches_ok; [done|]. unfold loop_ok. by rewrite Hg.
Qed.

Lemma under_pressure_ok config memory high_watermark l :
  loop_ok config l -> loop_ok config (under_pressure memory high_watermark l).
Proof.
  intros Hl. pose proof Hl as [Hok Hcfg _ _ _]. unfold loop_ok, under_pressure.
  destruct memory as [v|]; [|done]. unfold shed_under_memory_pressure.
  destruct (mv_ratio v) as [ratio|].
  2:{ rewrite ledger_of_lose. cbn. by rewrite app_nil_r. }
  destruct (_ || _).
  { rewrite ledger_of_lose. cbn. by rewrite app_nil_r. }
  set (target := f_to_u64 _). pose proof (shed_to_run target (lp_buffer l) Hok) as Hr.
  destruct (shed_to target (lp_buffer l)) as [gaps rb]. destruct Hr as (shed & Hrun & -> & _).
  pose proof Hrun as (Hok' & Hc' & _ & Hs & _). rewrite ledger_of_lose. cbn.
  apply (lose_ok config (ledger_of l)); [done..|]. intros c. by apply shed_run_held.
Qed.

Lemma reschedule_ledger now current l : ledger_of (reschedule hash now current l) = ledger_of l.
Proof. unfold reschedule. by destruct (schedule_retry _ _ _ _ _). Qed.

Lemma handle_records_ok config new_id b now_ms l :
  config_ok config -> loop_ok config l -> enqueue_fits new_id b (lp_buffer l) ->
  loop_ok config (handle_records sink new_id b now_ms l).
Proof.
  intros Hc Hl Hf. unfold handle_records.
  set (l1 := accept b l).
  destruct (rb_is_empty (lp_buffer l1) && pg_is_empty (lp_gaps l1)) eqn:Hempty.
  2:{ by eapply (queue_batch_ok config new_id b now_ms l1 l). }
  apply andb_true_iff in Hempty as [Hempty _]. apply bool_decide_eq_true in Hempty.
  destruct (sink_append sink EvidenceCall b l1) as [[a|e] l2] eqn:E.
  - destruct (sink_append_delivers _ _ _ _ E) as [He _]. unfold loop_ok.
    change (ledger_of (l2 <| lp_backoff ::= backoff_reset |>)) with (ledger_of l2). rewrite He.
    by apply (inline_delivery_ok config (ledger_of l)).
  - assert (accepted_call (mkSinkCall EvidenceCall b (Err e)) = []) as Hq by done.
    destruct (sink_append_quiet _ _ _ _ _ E Hq) as [He _]. unfold ledger_of in He.
    injection He as Hb Ha Hlo Hd. destruct (should_retry e).
    + eapply (queue_batch_ok config new_id b now_ms l2 l); try done. by rewrite Hb.
    + unfold loop_ok. rewrite ledger_of_lose. rewrite Hb, Ha, Hlo, Hd.
      apply (inline_loss_ok config (ledger_of l)); [done|]. intros c. apply gap_for_batch_class.
Qed.

Lemma handle_gaps_ledger batch_id reports l :
  ledger_of (handle_gaps sink into_batch producer batch_id reports l) = ledger_of l.
Proof.
  unfold handle_gaps. destruct (has_backlog _ _); [done|].
  destruct (sink_append sink GapCall _ l) as [r l'] eqn:E.
  assert (ledger_of l' = ledger_of l) as Hl by (by destruct (sink_append_quiet _ _ _ _ _ E)).
  by destruct r.
Qed.

Lemma persist_ledger l : ledger_of (persist to_vec fault l) = ledger_of l.
Proof. unfold persist. by destruct (sync_spool _ _ _ _ _). Qed.

Lemma drain_ok config fuel clock l l' :
  config_ok config -> loop_ok config l -> drain sink into_batch fuel clock l = Some l' -> loop_ok config l'.
Proof.
  intros Hc. revert clock l. induction fuel as [|fuel IH]; intros clock l Hl; cbn [drain]; [done|].
  destruct (has_backlog _ _); [|by intros [= <-]].
  pose proof (flush_retry_buffer_ok config (clock 0%nat) l Hc Hl) as Hf.
  destruct (flush_retry_buffer _ _ _ _) as [outcome l1]. cbn [snd] in Hf.
  destruct outcome; [|by apply IH|]; (case_bool_decide; [by intros [= <-]|by apply IH]).
Qed.

(** Evidence a previous process spooled fits a machine word on top of a full buffer, as bytes of
    one address space do. *)
Definition spooled_fits (config : RetryBufferConfig) (d : Disk) : Prop :=
  Forall (fun b => forall ids, rc_max_records config + batch_len b <= u64_max /\
            rc_max_bytes config + parts_bytes (split_by_class ids b) <= u64_max)
    (replay from_slice (dk_spool d)).1.

(** Enqueuing recovered batches, as a run of the buffer's ledger. *)
Lemma recover_fold_ok config new_ids batches l n :
  config_ok config ->
  Forall (fun b => forall ids, rc_max_records config + batch_len b <= u64_max /\
            rc_max_bytes config + parts_bytes (split_by_class ids b) <= u64_max) batches ->
  loop_ok config l -> lp_gaps l = pg_extend (lp_lost l) PendingGaps_default ->
  let l' := foldl (fun l (ib : nat * EvidenceBatch) => queue_batch (new_ids ib.1) ib.2 0 (accept ib.2 l))
              l (imap (fun i b => (n + i, b)%nat) batches) in
  loop_ok config l' /\ lp_gaps l' = pg_extend (lp_lost l') PendingGaps_default /\
  lp_accepted l' = lp_accepted l ++ concat (map eb_records batches) /\
  lp_log l' = lp_log l /\ lp_next_retry l' = lp_next_retry l.
Proof.
  intros Hc Hfit. revert l n. induction Hfit as [|b batches Hb _ IH]; intros l n Hl Hpg.
  { cbn. by rewrite app_nil_r. }
  rewrite imap_cons. cbn [foldl fst snd]. rewrite Nat.add_0_r.
  assert (loop_ok config (queue_batch (new_ids n) b 0 (accept b l))) as Hl1.
  { pose proof Hl as [_ Hcfg (Hw1 & _ & Hw3) _ _]. destruct (Hb (new_ids n)) as [Hb1 Hb2].
    apply (queue_batch_ok config (new_ids n) b 0 (accept b l) l); try done.
    cbn [ledger_of lg_buffer] in *. split; rewrite Hcfg in *; cbn; lia. }
  assert (lp_gaps (queue_batch (new_ids n) b 0 (accept b l)) =
          pg_extend (lp_lost (queue_batch (new_ids n) b 0 (accept b l))) PendingGaps_default /\
          lp_accepted (queue_batch (new_ids n) b 0 (accept b l)) = lp_accepted l ++ eb_records b /\
          lp_log (queue_batch (new_ids n) b 0 (accept b l)) = lp_log l /\
          lp_next_retry (queue_batch (new_ids n) b 0 (accept b l)) = lp_next_retry l) as (Hpg1 & Ha & Hlog & Hnr).
  { unfold queue_batch. destruct (enqueue _ _ _ _). cbn. rewrite Hpg. unfold pg_extend. by rewrite foldl_app. }
  destruct (IH _ (S n) Hl1 Hpg1) as (H1 & H2 & H3 & H4 & H5). cbn zeta.
  match goal with H : loop_ok config (foldl _ _ ?x) |- context [foldl _ _ ?y] =>
    replace y with x by (apply imap_ext; intros i x' _; cbn; f_equal; lia) end.
  split_and!; [done|done| |congruence|congruence]. rewrite H3, Ha. cbn. by rewrite <- app_assoc.
Qed.

Lemma Loop_new_ok config pacer backoff spool d w :
  config_ok config -> loop_ok config (Loop_new config pacer backoff spool d w : Loop W).
Proof. exact (ledger_new_ok config). Qed.

Lemma recover_facts config pacer backoff new_ids s d w :
  config_ok config -> spooled_fits config d ->
  let l := recover to_vec from_slice fault new_ids (Loop_new config pacer backoff (Some s) d w : Loop W) in
  loop_ok config l /\ lp_gaps l = pg_extend (lp_lost l) PendingGaps_default /\
  lp_accepted l = concat (map eb_records (replay from_slice (dk_spool d)).1) /\
  lp_log l = [] /\ lp_next_retry l = None.
Proof.
  intros Hc Hfit. unfold recover, spooled_fits in *. cbn [lp_spool lp_disk Loop_new].
  destruct (replay from_slice (dk_spool d)) as [batches report]. cbn [fst] in *.
  pose proof (recover_fold_ok config new_ids batches (Loop_new config pacer backoff (Some s) d w) 0 Hc Hfit
    (Loop_new_ok _ _ _ _ _ _ Hc) eq_refl) as Hf. cbn [Nat.add] in Hf.
  change (fun i b => (i, b)) with (@pair nat EvidenceBatch) in Hf. cbv zeta in Hf.
  match type of Hf with loop_ok _ ?x /\ _ => set (l1 := x) in * end.
  destruct (compact _ _ _ _ _) as [[ok s'] d']. exact Hf.
Qed.

(** The loop as it enters [select!]: a fresh one, or one that took over a spool. *)
Inductive loop_start (config : RetryBufferConfig) : Loop W -> Prop :=
| start_fresh pacer backoff d w : loop_start config (Loop_new config pacer backoff None d w)
| start_recovered new_ids pacer backoff s d w :
    spooled_fits config d ->
    loop_start config (recover to_vec from_slice fault new_ids (Loop_new config pacer backoff (Some s) d w)).

Lemma loop_start_ok config l : config_ok config -> loop_start config l -> loop_ok config l.
Proof.
  intros Hc Hs. destruct Hs as [pacer backoff d w|new_ids pacer backoff s d w Hf]; [by apply Loop_new_ok|].
  apply (recover_facts config pacer backoff new_ids s d w Hc Hf).
Qed.

(** One turn of the [select!] loop. The buffer's counters are asked to fit a machine word, as
    bytes of one address space do. *)
Inductive loop_step : Loop W -> Loop W -> Prop :=
| turn_received batch_id new_id received memory high_watermark now now_ms l :
    (forall records, received = RecvRecords records ->
       enqueue_fits new_id (EvidenceBatch_new batch_id producer records) (lp_buffer (age_out now_ms l))) ->
    loop_step l (on_received sink into_batch producer hash to_vec fault batch_id new_id received memory
                   high_watermark now now_ms l)
| turn_timer memory high_watermark now now_ms l :
    is_Some (lp_next_retry l) ->
    loop_step l (on_timer sink into_batch hash to_vec fault memory high_watermark now now_ms l).

(** A state of a run: in the [select!] loop, or after the shutdown that ends it. *)
Inductive loop_reaches (start : Loop W) : Loop W -> Prop :=
| reach_running l : rtc loop_step start l -> loop_reaches start l
| reach_finished fuel clock l l' :
    rtc loop_step start l -> shutdown sink into_batch to_vec fault fuel clock l = Some l' ->
    loop_reaches start l'.

Lemma loop_step_ok config l l' :
  config_ok config -> loop_ok config l -> loop_step l l' -> loop_ok config l'.
Proof.
  intros Hc Hl Hs.
  destruct Hs as [batch_id new_id received memory hw now now_ms l0 Hf|memory hw now now_ms l0 _].
  - unfold on_received, loop_ok. rewrite reschedule_ledger, persist_ledger. apply under_pressure_ok.
    pose proof (age_out_ok config now_ms l0 Hc Hl) as Ha.
    destruct received as [[|r records]|reports]; [done|by apply handle_records_ok; auto|].
    unfold loop_ok. by rewrite handle_gaps_ledger.
  - unfold on_timer. pose proof (age_out_ok config now_ms l0 Hc Hl) as Ha.
    pose proof (flush_retry_buffer_ok config now_ms _ Hc Ha) as Hfl.
    destruct (flush_retry_buffer _ _ _ _) as [outcome l1]. cbn [snd] in Hfl.
    match goal with |- context [if ?t then ?x else ?y] =>
      set (l2 := if t then x else y); assert (loop_ok config l2) as Hl2 by (subst l2; by destruct t) end.
    pose proof (under_pressure_ok config memory hw l2 Hl2) as Hp. unfold loop_ok in *.
    rewrite <- persist_ledger in Hp.
    destruct outcome; [by rewrite reschedule_ledger|exact Hp|by rewrite reschedule_ledger].
Qed.

Lemma loop_reaches_ok config start l :
  config_ok config -> loop_start config start -> loop_reaches start l -> loop_ok config l.
Proof.
  intros Hc Hstart Hr.
  assert (forall l, rtc loop_step start l -> loop_ok config l) as Hrun.
  { intros l1 Hl1. pose proof (loop_start_ok config start Hc Hstart) as Hok.
    induction Hl1 as [|? ? ? Hs _ IH] in Hok |- *; [done|]. apply IH. by eapply loop_step_ok. }
  destruct Hr as [l Hl|fuel clock l l' Hl Hs]; [by apply Hrun|].
  unfold shutdown in Hs. destruct (drain _ _ _ _ _) as [l1|] eqn:E; [|done]. injection Hs as <-.
  unfold loop_ok. rewrite persist_ledger. by eapply drain_ok; [|apply Hrun|exact E].
Qed.

(** C2: the sink loop loses nothing silently and reorders nothing. Whatever the sink replies, and
    however batches, timer ticks, memory pressure, file-system failures and clocks interleave, from
    a fresh start or over a recovered spool, while running and after shutdown: for each evidence
    class the records taken over are exactly those the sink accepted, those still buffered and
    those the loop's own loss reports count; what was accepted, followed by what is buffered, is in
    arrival order; and the retry buffer stays within its configured bounds. *)
Theorem sink_loop_conservation config start l :
  config_ok config -> loop_start config start -> loop_reaches start l ->
  within_bounds (lp_buffer l) /\
  forall c,
    count_class c (lp_accepted l) =
      count_class c (delivered_records (lp_log l)) + held c (lp_buffer l)
      + zsum (gap_class c) (lp_lost l) /\
    sublist (of_class c (delivered_records (lp_log l)) ++ of_class c (buffer_records (lp_buffer l)))
            (of_class c (lp_accepted l)).
Proof.
  intros Hc Hstart Hr. destruct (loop_reaches_ok config start l Hc Hstart Hr) as [_ _ Hb Hn Ho].
  split; [done|]. intros c. split; [apply Hn|apply Ho].
Qed.

(** A restart loses nothing silently. Recovery takes over the records of every intact frame;
    for each class they are those now buffered plus those the pending gap reports count, the bounds
    hold, and what is buffered is in the order it was spooled. But no retry is scheduled for them:
    the timer arm stays off until something is received. *)
Theorem recover_accounts config pacer backoff new_ids s d w :
  config_ok config -> spooled_fits config d ->
  let spooled := concat (map eb_records (replay from_slice (dk_spool d)).1) in
  let l := recover to_vec from_slice fault new_ids (Loop_new config pacer backoff (Some s) d w : Loop W) in
  within_bounds (lp_buffer l) /\ lp_accepted l = spooled /\
  lp_gaps l = pg_extend (lp_lost l) PendingGaps_default /\
  (forall c, count_class c spooled = held c (lp_buffer l) + zsum (gap_class c) (lp_lost l) /\
             sublist (of_class c (buffer_records (lp_buffer l))) (of_class c spooled)) /\
  lp_next_retry l = None.
Proof.
  intros Hc Hfit. cbv zeta.
  destruct (recover_facts config pacer backoff new_ids s d w Hc Hfit) as (Hl & Hpg & Ha & Hlog & Hn).
  match goal with |- context [recover ?a ?b ?c ?d ?e] => set (l := recover a b c d e) in * end.
  destruct Hl as [_ _ Hb Hcount Hord]. cbn [ledger_of lg_buffer lg_accepted lg_gaps lg_delivered] in *.
  rewrite Hlog in *. rewrite <- Ha. split_and!; try done.
  intros c. specialize (Hcount c). specialize (Hord c). cbn in *. by split.
Qed.

(* ------------------------------------------------------------------ *)
(** ** Draining and scheduling *)

Lemma pg_len_nonneg p : 0 <= pg_len p.
Proof. unfold pg_len. case_bool_decide; apply Z.add_nonneg_nonneg; try lia; apply zlen_nonneg. Qed.

Lemma pg_front_none f p p' : pg_front f p = (None, p') -> pg_is_empty p' = true.
Proof. unfold pg_front. destruct p as [[b|] [|g q]]; cbn; try done. by intros [= <-]. Qed.

Lemma pg_front_len f p : pg_len (pg_front f p).2 = pg_len p.
Proof. unfold pg_front. destruct p as [[b|] [|g q]]; cbn; try done. unfold pg_len. cbn. rewrite zlen_cons. lia. Qed.

Lemma pg_pop_len p b : pg_in_flight p = Some b -> pg_len (pg_pop_front p) = pg_len p - 1.
Proof. destruct p as [[b'|] q]; [|done]. unfold pg_len. cbn. lia. Qed.

Lemma pg_front_some f p b p' : pg_front f p = (Some b, p') -> pg_in_flight p' = Some b.
Proof. unfold pg_front. by intros [= ? <-]. Qed.

Lemma sink_append_frame kind b l :
  let l' := (sink_append sink kind b l).2 in
  lp_gaps l' = lp_gaps l /\ lp_pacer l' = lp_pacer l /\
  lp_log l' = lp_log l ++ [mkSinkCall kind b (sink_append sink kind b l).1].
Proof. unfold sink_append. by destruct (append_batch sink b (lp_world l)). Qed.

Lemma note_backpressure_pacer c e (l : Loop W) :
  pace_config_ok c -> pacer_ok c (lp_pacer l) -> pacer_ok c (lp_pacer (note_backpressure e l)).
Proof.
  intros Hc Hp. unfold note_backpressure. destruct (is_backpressure e); [|done].
  by apply on_backpressure_ok.
Qed.

(** What a pass leaves behind, by outcome. *)
Definition outcome_ok (o : DrainOutcome) (l : Loop W) : Prop :=
  match o with
  | DrainEmpty => rb_is_empty (lp_buffer l) = true
  | DrainPaced ms => 1 <= ms <= 60000
  | DrainSinkRefused => exists call e, last (lp_log l) = Some call /\ call_reply call = Err e
  end.

Lemma flush_gaps_outcome c fuel now_ms l :
  pace_config_ok c -> pacer_ok c (lp_pacer l) -> (Z.to_nat (pg_len (lp_gaps l)) < fuel)%nat ->
  let '(o, l') := flush_gaps sink into_batch fuel now_ms l in
  pacer_ok c (lp_pacer l') /\
  match o with
  | None => pg_is_empty (lp_gaps l') = true
  | Some DrainSinkRefused => exists b e,
      last (lp_log l') = Some (mkSinkCall GapCall b (Err e)) /\ should_retry e = true /\
      pg_in_flight (lp_gaps l') = Some b
  | Some (DrainPaced ms) => 1 <= ms <= 60000
  | Some DrainEmpty => False
  end.
Proof.
  intros Hc. revert l. induction fuel as [|fuel IH]; intros l Hp Hlt; [lia|]. cbn [flush_gaps].
  pose proof (pg_front_len (into_batch (length (lp_log l))) (lp_gaps l)) as Hlen.
  destruct (pg_front _ _) as [[batch|] pg] eqn:Hf; cbn [snd] in Hlen.
  2:{ split; [done|]. by eapply pg_front_none. }
  apply pg_front_some in Hf. pose proof (pg_pop_len pg batch Hf) as Hpop.
  assert (0 <= pg_len pg - 1) by (rewrite <- Hpop; unfold pg_len; case_bool_decide; apply Z.add_nonneg_nonneg; try lia; apply zlen_nonneg).
  cbn [lp_pacer set].
  pose proof (poll_ok c now_ms (approx_bytes batch) (lp_pacer l) (approx_bytes_is_u64 batch) Hp) as Hp1.
  pose proof (poll_wait_range c now_ms (approx_bytes batch) (lp_pacer l) Hc Hp) as Hw.
  destruct (poll _ _ _) as [[|ms] pacer]; cbn [snd] in Hp1; [|done].
  match goal with |- context [sink_append sink GapCall batch ?x] => set (l1 := x) end.
  destruct (sink_append_frame GapCall batch l1) as (Eg & Ep & El).
  destruct (sink_append sink GapCall batch l1) as [r l2]. cbn [fst snd] in Eg, Ep, El.
  destruct r as [a|e].
  - apply IH; [apply on_delivered_ok; by rewrite Ep|]. cbn. rewrite Eg. cbn. rewrite Hpop. lia.
  - assert (pacer_ok c (lp_pacer (note_backpressure e l2))) as Hp2
      by (apply note_backpressure_pacer; [done|by rewrite Ep]).
    destruct (note_backpressure_ledger e l2) as (Hn & Hg & _).
    destruct (should_retry e) eqn:Hre.
    + split; [done|]. exists batch, e. split_and!; [|done|by rewrite Hg, Eg].
      assert (lp_log (note_backpressure e l2) = lp_log l2) as -> by
        (unfold note_backpressure; by destruct (is_backpressure e)).
      by rewrite El, last_snoc.
    + apply IH; [done|]. cbn. rewrite Hg, Eg. cbn. rewrite Hpop. lia.
Qed.

Lemma pop_delivered_len rb d rb' : pop_delivered rb = Some (d, rb') -> len_batches rb' = len_batches rb - 1.
Proof.
  unfold pop_delivered, pop_front, len_batches. destruct (rb_batches rb) as [|b rest] eqn:E; [done|].
  cbn. intros [= <- <-]. cbn. rewrite zlen_cons. lia.
Qed.

Lemma rb_front_none rb : rb_front rb = None -> rb_is_empty rb = true.
Proof. unfold rb_front, rb_is_empty. by destruct (rb_batches rb). Qed.

Lemma note_backpressure_log e (l : Loop W) : lp_log (note_backpressure e l) = lp_log l.
Proof. unfold note_backpressure. by destruct (is_backpressure e). Qed.

Lemma flush_batches_outcome c fuel now_ms l :
  pace_config_ok c -> pacer_ok c (lp_pacer l) -> (Z.to_nat (len_batches (lp_buffer l)) < fuel)%nat ->
  let '(o, l') := flush_batches sink fuel now_ms l in
  pacer_ok c (lp_pacer l') /\ outcome_ok o l' /\ (o = DrainEmpty -> lp_gaps l' = lp_gaps l).
Proof.
  intros Hc. revert l. induction fuel as [|fuel IH]; intros l Hp Hlt; [lia|]. cbn [flush_batches].
  destruct (rb_front (lp_buffer l)) as [b|] eqn:Hf.
  2:{ split_and!; [done|by apply rb_front_none|done]. }
  pose proof (poll_ok c now_ms (approx_bytes b) (lp_pacer l) (approx_bytes_is_u64 b) Hp) as Hp1.
  pose proof (poll_wait_range c now_ms (approx_bytes b) (lp_pacer l) Hc Hp) as Hw.
  destruct (poll _ _ _) as [[|ms] pacer]; cbn [snd] in Hp1; [|done].
  match goal with |- context [sink_append sink EvidenceCall b ?x] => set (l1 := x) end.
  destruct (sink_append_frame EvidenceCall b l1) as (Eg & Ep & El).
  pose proof (sink_append_buffer EvidenceCall b l1) as Eb.
  destruct (sink_append sink EvidenceCall b l1) as [r l2]. cbn [fst snd] in Eg, Ep, El, Eb.
  destruct (proj2 (pop_delivered_front (lp_buffer l))) as [[d rb] Hpop]; [by eexists|].
  pose proof (pop_delivered_len _ _ _ Hpop) as Hlen.
  assert (0 <= len_batches rb) by apply zlen_nonneg.
  destruct r as [a|e].
  - change (lp_buffer (l2 <| lp_pacer ::= on_delivered |>)) with (lp_buffer l2). rewrite Eb.
    change (lp_buffer l1) with (lp_buffer l). rewrite Hpop.
    match goal with |- context [flush_batches sink fuel now_ms ?x] =>
      pose proof (IH x ltac:(apply on_delivered_ok; by rewrite Ep) ltac:(cbn; lia)) as IHx;
      destruct (flush_batches sink fuel now_ms x) as [o l'] end.
    destruct IHx as (H1 & H2 & H3). split_and!; [done|done|]. intros Ho. rewrite (H3 Ho). cbn. by rewrite Eg.
  - assert (pacer_ok c (lp_pacer (note_backpressure e l2))) as Hp2
      by (apply note_backpressure_pacer; [done|by rewrite Ep]).
    assert (exists call e', last (lp_log (note_backpressure e l2)) = Some call /\ call_reply call = Err e') as Hlast.
    { exists (mkSinkCall EvidenceCall b (Err e)), e. rewrite note_backpressure_log, El, last_snoc. done. }
    destruct (should_retry e); [by split_and!|].
    destruct (pop_delivered (lp_buffer (note_backpressure e l2))) as [[d' rb']|]; by split_and!.
Qed.

(** C33: a drain pass always ends for a reason the loop can act on. Given the fuel [flush_fuel]
    grants, [flush_retry_buffer] reports an empty backlog only when nothing at all is left, asks
    for a bounded wait of one millisecond to one minute, or has just been refused by the sink;
    and it leaves the pacer sound for the next pass. *)
Theorem flush_outcome c now_ms l :
  pace_config_ok c -> pacer_ok c (lp_pacer l) ->
  let '(o, l') := flush_retry_buffer sink into_batch now_ms l in
  pacer_ok c (lp_pacer l') /\
  match o with
  | DrainEmpty => has_backlog (lp_buffer l') (lp_gaps l') = false
  | DrainPaced ms => 1 <= ms <= 60000
  | DrainSinkRefused => exists call e, last (lp_log l') = Some call /\ call_reply call = Err e
  end.
Proof.
  intros Hc Hp. unfold flush_retry_buffer.
  assert (0 <= len_batches (lp_buffer l)) by apply zlen_nonneg.
  pose proof (pg_len_nonneg (lp_gaps l)).
  pose proof (flush_gaps_outcome c (flush_fuel l) now_ms l Hc Hp
    ltac:(unfold flush_fuel, backlog_len; lia)) as Hg.
  destruct (flush_gaps _ _ _ _ _) as [[o|] l1]; destruct Hg as [Hp1 Ho].
  - split; [done|]. destruct o; try done.
    + destruct Ho as (b & e & Hlast & _). by exists (mkSinkCall GapCall b (Err e)), e.
  - pose proof (pg_len_nonneg (lp_gaps l1)). assert (0 <= len_batches (lp_buffer l1)) by apply zlen_nonneg.
    pose proof (flush_batches_outcome c (flush_fuel l1) now_ms l1 Hc Hp1
      ltac:(unfold flush_fuel, backlog_len; lia)) as Hf.
    destruct (flush_batches _ _ _ _) as [o l2]. destruct Hf as (Hf1 & Hf2 & Hf3). split; [done|].
    destruct o; try done. unfold has_backlog. cbn [outcome_ok] in Hf2. by rewrite Hf2, (Hf3 eq_refl), Ho.
Qed.

(** A loss report is retried as the batch it was first sent as. When a pass stops because the
    sink refused a report for now, that very batch is still in flight, and every later [front]
    gives it back until it is popped, so a retry resends the same ids. *)
Theorem refused_report_stays_in_flight c now_ms l :
  pace_config_ok c -> pacer_ok c (lp_pacer l) ->
  let '(o, l') := flush_gaps sink into_batch (flush_fuel l) now_ms l in
  o = Some DrainSinkRefused ->
  exists b e,
    last (lp_log l') = Some (mkSinkCall GapCall b (Err e)) /\ should_retry e = true /\
    forall f, pg_front f (lp_gaps l') = (Some b, lp_gaps l').
Proof.
  intros Hc Hp. assert (0 <= len_batches (lp_buffer l)) by apply zlen_nonneg.
  pose proof (pg_len_nonneg (lp_gaps l)).
  pose proof (flush_gaps_outcome c (flush_fuel l) now_ms l Hc Hp
    ltac:(unfold flush_fuel, backlog_len; lia)) as Hg.
  destruct (flush_gaps _ _ _ _ _) as [o l1]. intros ->. destruct Hg as (_ & b & e & Hg1 & Hg2 & Hg3).
  exists b, e. split_and!; [done|done|]. intros f. unfold pg_front.
  destruct (lp_gaps l1) as [fl q]. cbn in *. by subst fl.
Qed.

(** Handling a message does not touch the timer. *)
Lemma sink_append_next_retry kind b (l : Loop W) :
  lp_next_retry (sink_append sink kind b l).2 = lp_next_retry l.
Proof. unfold sink_append. by destruct (append_batch sink b (lp_world l)). Qed.

Lemma queue_batch_next_retry new_id b now_ms (l : Loop W) :
  lp_next_retry (queue_batch new_id b now_ms l) = lp_next_retry l.
Proof. unfold queue_batch. by destruct (enqueue _ _ _ _). Qed.

Lemma received_next_retry batch_id new_id received now_ms (l : Loop W) :
  lp_next_retry (match received with
    | RecvRecords [] => age_out now_ms l
    | RecvRecords records =>
        handle_records sink new_id (EvidenceBatch_new batch_id producer records) now_ms (age_out now_ms l)
    | RecvGaps reports => handle_gaps sink into_batch producer batch_id reports (age_out now_ms l)
    end) = lp_next_retry l.
Proof.
  assert (lp_next_retry (age_out now_ms l) = lp_next_retry l) as <-
    by (unfold age_out; by destruct (drop_expired _ _)).
  generalize (age_out now_ms l). intros l0. destruct received as [[|r records]|reports]; [done|..].
  - unfold handle_records. destruct (_ && _); [|by rewrite queue_batch_next_retry].
    match goal with |- context [sink_append sink ?k ?b ?x] =>
      pose proof (sink_append_next_retry k b x) as Hn; destruct (sink_append sink k b x) as [[a|e] l2] end;
      [done|]. destruct (should_retry e); [by rewrite queue_batch_next_retry|done].
  - unfold handle_gaps. destruct (has_backlog _ _); [done|].
    match goal with |- context [sink_append sink ?k ?b ?x] =>
      pose proof (sink_append_next_retry k b x) as Hn; destruct (sink_append sink k b x) as [[a|e] l2] end; done.
Qed.

(** The timer is armed whenever there is a backlog. *)
Definition armed (l : Loop W) : Prop :=
  has_backlog (lp_buffer l) (lp_gaps l) = true -> is_Some (lp_next_retry l).

Lemma reschedule_armed now current l : armed (reschedule hash now current l).
Proof.
  unfold armed, reschedule, schedule_retry.
  destruct (has_backlog (lp_buffer l) (lp_gaps l)) eqn:E; cbn [negb].
  - destruct current as [d|]; [cbn; by eexists|]. destruct (next_delay_ms hash (lp_backoff l)). cbn. by eexists.
  - cbn. by rewrite E.
Qed.

Lemma persist_next_retry (l : Loop W) : lp_next_retry (persist to_vec fault l) = lp_next_retry l.
Proof. unfold persist. by destruct (sync_spool _ _ _ _ _). Qed.

Lemma loop_step_armed l l' : loop_step l l' -> armed l'.
Proof.
  intros Hs. destruct Hs as [batch_id new_id received memory hw now now_ms l0 Hf|memory hw now now_ms l0 _].
  - apply reschedule_armed.
  - unfold on_timer. destruct (flush_retry_buffer _ _ _ _) as [outcome l1].
    destruct outcome; [apply reschedule_armed|intros _; cbn; by eexists|apply reschedule_armed].
Qed.

(** C32: once the loop has taken a turn its backlog is never stranded, nor its retry put off by
    traffic. After any turn a backlog has a retry scheduled; and however much evidence arrives
    before the deadline, a receive turn that leaves a backlog leaves the deadline where it was. *)
Theorem backlog_always_scheduled start l :
  tc loop_step start l ->
  (has_backlog (lp_buffer l) (lp_gaps l) = true -> is_Some (lp_next_retry l)) /\
  forall batch_id new_id received memory high_watermark now now_ms deadline,
    lp_next_retry l = Some deadline ->
    let l' := on_received sink into_batch producer hash to_vec fault batch_id new_id received memory
                high_watermark now now_ms l in
    has_backlog (lp_buffer l') (lp_gaps l') = true -> lp_next_retry l' = Some deadline.
Proof.
  intros Hr. split.
  - assert (exists l1, loop_step l1 l) as [l1 Hs] by (clear -Hr; induction Hr; eauto).
    by eapply loop_step_armed.
  - intros batch_id new_id received memory hw now now_ms deadline Hd. cbv zeta. unfold on_received.
    match goal with |- context [reschedule hash now _ ?x] => set (l1 := x) end.
    assert (lp_next_retry l1 = Some deadline) as Hcur.
    { subst l1. rewrite persist_next_retry, <- Hd. clear.
      assert (forall gaps (l : Loop W), lp_next_retry (lose gaps l) = lp_next_retry l) as Hlose by done.
      unfold under_pressure. destruct memory as [v|].
      2:{ apply received_next_retry. }
      destruct (shed_under_memory_pressure _ _ _ _ _) as [[[? ?] ?] ?]. rewrite Hlose. cbn.
      apply received_next_retry. }
    unfold reschedule, schedule_retry. rewrite Hcur.
    destruct (has_backlog (lp_buffer l1) (lp_gaps l1)) eqn:E; cbn [negb]; [done|].
    cbn. by rewrite E.
Qed.
End conservation.

(* ------------------------------------------------------------------ *)
(** ** The spool follows the buffer *)

Section spool_properties.
Context `{ByteModel}.
Variable to_vec : EvidenceBatch -> result string (list byte).
Variable from_slice : list byte -> option EvidenceBatch.

Lemma Forall2_ok_bodies batches bodies bodies' :
  Forall2 (fun b r => to_vec b = Ok r) batches bodies ->
  Forall2 (good_frame to_vec from_slice) batches bodies' -> bodies = bodies'.
Proof.
  intros Hf. revert bodies'. induction Hf as [|b body batches bodies Hb _ IH]; intros bodies' Hg;
    inversion Hg as [|? body' ? ? (Hb' & _) Hg']; subst; [done|]. f_equal; [congruence|by apply IH].
Qed.

Lemma filter_good_frames batches bodies :
  Forall2 (good_frame to_vec from_slice) batches bodies ->
  filter (fun body => zlen body < u32_limit) bodies = bodies.
Proof.
  induction 1 as [|b body batches bodies (_ & _ & Hl) _ IH]; [done|].
  pose proof max_frame_u32. rewrite filter_cons, decide_True by lia. by rewrite IH.
Qed.

(** What one sync leaves: the spool is still on and holds the buffer, or it is off. *)
Lemma sync_spool_facts fault s rb bodies d :
  Forall2 (good_frame to_vec from_slice) (iter_batches rb) bodies ->
  let '(spool', d') := sync_spool to_vec fault (Some s) rb d in
  exists s', spool' = Some s' /\
  match sp_disabled s' with
  | None => replay from_slice (dk_spool d') =
              (iter_batches rb, mkReplayReport (len_batches rb) (zsum batch_len (iter_batches rb)) 0)
  | Some _ => dk_spool d' = dk_spool d
  end.
Proof.
  intros Hg. unfold sync_spool, compact.
  destruct (sp_disabled s) as [reason|] eqn:Hs.
  { rewrite bool_decide_true by (by eexists). exists s. by rewrite Hs. }
  rewrite bool_decide_false by (by intros []).
  pose proof (try_compact_facts to_vec fault (iter_batches rb) d) as Ht.
  destruct (try_compact _ _ _ _) as [[bytes|e] d']; eexists; (split; [done|]); cbn; [|done].
  destruct Ht as (bodies' & Hf & _ & Hd). rewrite Hs.
  rewrite (Forall2_ok_bodies _ _ _ Hf Hg), (filter_good_frames _ _ Hg) in Hd. rewrite Hd.
  pose proof (replay_loop_frames to_vec from_slice (iter_batches rb) bodies 0 []
    (length (frames bodies)) Hg ltac:(by vm_compute) ltac:(cbn; lia) ltac:(lia)) as Hr.
  cbn [take] in Hr. rewrite app_nil_r in Hr. unfold replay. rewrite Hr, sat_sub_exact by lia.
  do 2 f_equal; [|lia]. unfold iter_batches, len_batches, zlen. by rewrite length_map.
Qed.

Context {W : Type}.
Variable sink : EvidenceSink W.
Variable into_batch : nat -> GapReport -> EvidenceBatch.
Variable producer : ProducerMetadata.
Variable hash : Z -> Z.
Variable fault : nat -> option (string * nat).

(** The state a turn ends in is a persisted one, but for its timer and backoff. *)
Lemma loop_step_persisted (l l' : Loop W) :
  loop_step sink into_batch producer hash to_vec fault l l' ->
  exists l1 : Loop W, lp_spool l' = lp_spool (persist to_vec fault l1) /\
             lp_disk l' = lp_disk (persist to_vec fault l1) /\
             lp_buffer l' = lp_buffer (persist to_vec fault l1).
Proof.
  assert (forall now current (l : Loop W),
    lp_spool (reschedule hash now current l) = lp_spool l /\
    lp_disk (reschedule hash now current l) = lp_disk l /\
    lp_buffer (reschedule hash now current l) = lp_buffer l) as Hre.
  { intros now current l0. unfold reschedule. by destruct (schedule_retry _ _ _ _ _). }
  intros Hs. destruct Hs as [batch_id new_id received memory hw now now_ms l0 Hf|memory hw now now_ms l0 _].
  - unfold on_received. eexists. apply Hre.
  - unfold on_timer. destruct (flush_retry_buffer _ _ _ _) as [outcome l1].
    destruct outcome; eexists; [apply Hre|by split_and!|apply Hre].
Qed.

(** C31: the file is always exactly what is still undelivered. After any turn of the loop, whatever
    file-system call failed, a spool that is still on holds the retry buffer's batches in order
    and nothing torn: a process killed there restarts with just those. *)
Theorem spool_is_backlog (l l' : Loop W) s bodies :
  loop_step sink into_batch producer hash to_vec fault l l' ->
  lp_spool l' = Some s -> sp_disabled s = None ->
  Forall2 (good_frame to_vec from_slice) (iter_batches (lp_buffer l')) bodies ->
  replay from_slice (dk_spool (lp_disk l')) =
    (iter_batches (lp_buffer l'),
     mkReplayReport (len_batches (lp_buffer l')) (zsum batch_len (iter_batches (lp_buffer l'))) 0).
Proof.
  intros Hstep Hs Hon Hg. destruct (loop_step_persisted l l' Hstep) as (l1 & H1 & H2 & H3).
  rewrite H2, H3 in *. rewrite H1 in Hs. unfold persist in *.
  destruct (lp_spool l1) as [s1|].
  2:{ done. }
  pose proof (sync_spool_facts fault s1 (lp_buffer l1) bodies (lp_disk l1)) as Hf.
  destruct (sync_spool _ _ _ _ _) as [spool' d']. cbn in *. subst spool'.
  destruct (Hf Hg) as (s' & [= <-] & Hr). by rewrite Hon in Hr.
Qed.
End spool_properties.

(* ------------------------------------------------------------------ *)
(** ** Concrete runs *)

Definition w_sink (reply : result SinkError AppendResult) : EvidenceSink unit :=
  mkEvidenceSink "vartio" (fun _ w => (reply, w)) (fun w => (Healthy, w)).

Definition w_into_batch (n : nat) (gap : GapReport) : EvidenceBatch :=
  gap_into_batch (fun _ => "[]") ("gap-" +:+ dec (Z.of_nat n)) 0 ("b-" +:+ dec (Z.of_nat n)) gap sample_producer.

Definition w_from_slice1 (body : list byte) : option EvidenceBatch :=
  Some (sample_batch (string_of body) [sample_attribution]).

Definition w_loop_config : RetryBufferConfig := mkRetryBufferConfig 1000 100 60000 100000.

Definition w_new (spool : option Spool) (d : Disk) : Loop unit :=
  Loop_new w_loop_config (DrainPacer_new DrainPaceConfig_default) (RetryBackoff_new RetryBackoffConfig_default)
    spool d tt.

Definition w_recover (file : list byte) : Loop unit :=
  recover w_to_vec w_from_slice1 (fun _ => None) (fun _ => w_ids)
    (w_new (Some (mkSpool (mkSpoolConfig "p" 10) (zlen file) None)) (mkDisk (Some file) None 0)).

(** A loop that found an empty spool. *)
Definition w_loop : Loop unit := w_recover [].

(** A message with one record, at time zero. *)
Definition w_received (sink : EvidenceSink unit) (l : Loop unit) : Loop unit :=
  on_received sink w_into_batch sample_producer (fun c => c) w_to_vec (fun _ => None) "b" w_ids
    (RecvRecords [sample_attribution]) None DEFAULT_MEMORY_HIGH_WATERMARK 0 0 l.

(** A pass in which the sink accepts nothing resets the backoff. Two batches are buffered and a
    loss report is pending when the sink starts rejecting for good; the pass drops the report and
    the first batch, the backlog shrinks from three to two, and the failure count that stood at
    five starts over, although every call was refused. *)
Theorem rejections_reset_backoff :
  let batch := sample_batch "b" [sample_attribution] in
  let rb := (enqueue w_ids batch 0 (enqueue w_ids batch 0 (lp_buffer w_loop)).2).2 in
  let l := w_loop <| lp_buffer := rb |>
                  <| lp_gaps := pg_merge (gap_for_batch "retry_buffer_expired" batch) PendingGaps_default |>
                  <| lp_backoff := mkRetryBackoff RetryBackoffConfig_default 5 (mkJitter 0) |>
                  <| lp_next_retry := Some 0 |> in
  let l' := on_timer (w_sink (Err (Rejected "vartio" "no"))) w_into_batch (fun c => c) w_to_vec (fun _ => None)
              None DEFAULT_MEMORY_HIGH_WATERMARK 0 0 l in
  map call_reply (lp_log l') = [Err (Rejected "vartio" "no"); Err (Rejected "vartio" "no")] /\
  rbo_attempt (lp_backoff l) = 5 /\ rbo_attempt (lp_backoff l') = 1.
Proof. vm_compute. split_and!; reflexivity. Qed.

(** A torn tail is lost without a gap report: recovery from a file that holds one intact frame
    and five bytes of another reports the five bytes to the log only. *)
Theorem torn_tail_gets_no_gap :
  let file := frame (bytes_of "b1") ++ take 5 (frame (bytes_of "b2")) in
  rr_torn_tail_bytes (replay w_from_slice1 (Some file)).2 = 5 /\
  lp_gaps (w_recover file) = PendingGaps_default /\ lp_lost (w_recover file) = [].
Proof. vm_compute. split_and!; reflexivity. Qed.

Lemma w_start : loop_start w_to_vec w_from_slice1 (fun _ => None) w_loop_config w_loop.
Proof. apply start_recovered. by constructor. Qed.

Lemma w_turn sink :
  loop_step sink w_into_batch sample_producer (fun c => c) w_to_vec (fun _ => None) w_loop
    (w_received sink w_loop).
Proof. apply turn_received. intros records [= <-]. by vm_compute. Qed.

Definition w_down : EvidenceSink unit := w_sink (Err (Unavailable "vartio" "down")).

(** The state after the sink refused the first batch. *)
Definition w_refused_loop : Loop unit := w_received w_down w_loop.

Lemma w_refused_reached :
  loop_reaches w_down w_into_batch sample_producer (fun c => c) w_to_vec (fun _ => None) w_loop w_refused_loop.
Proof. apply reach_running, rtc_once, w_turn. Qed.

Lemma sink_loop_conservation_witness :
  held Attribution (lp_buffer w_refused_loop) = 1 /\
  count_class Attribution (lp_accepted w_refused_loop) =
    count_class Attribution (delivered_records (lp_log w_refused_loop))
    + held Attribution (lp_buffer w_refused_loop) + zsum (gap_class Attribution) (lp_lost w_refused_loop).
Proof.
  split; [by vm_compute|].
  exact (proj1 (proj2 (sink_loop_conservation w_down w_into_batch sample_producer (fun c => c) w_to_vec
    w_from_slice1 (fun _ => None) w_loop_config w_loop w_refused_loop ltac:(by vm_compute) w_start
    w_refused_reached) Attribution)).
Defined.

Lemma flush_outcome_witness :
  let '(o, l') := flush_retry_buffer (w_sink (Ok (AppendResult_accepted "vartio" 1))) w_into_batch 0 w_refused_loop in
  has_backlog (lp_buffer w_refused_loop) (lp_gaps w_refused_loop) = true /\
  has_backlog (lp_buffer l') (lp_gaps l') = false.
Proof.
  pose proof (flush_outcome (w_sink (Ok (AppendResult_accepted "vartio" 1))) w_into_batch
    DrainPaceConfig_default 0 w_refused_loop default_pace_config_ok ltac:(by split; vm_compute)) as H.
  destruct (flush_retry_buffer _ _ _ _) as [o l'] eqn:E. vm_compute in E. injection E as <- <-.
  split; [by vm_compute|]. exact (proj2 H).
Defined.

(** A loss report refused for now. *)
Definition w_gap_loop : Loop unit :=
  w_loop <| lp_gaps := pg_merge (gap_for_records "sink_queue_overflow" [sample_reliability]) PendingGaps_default |>.

Lemma refused_report_stays_in_flight_witness :
  let l' := (flush_gaps (w_sink (Err (Timeout "vartio" "slow"))) w_into_batch (flush_fuel w_gap_loop) 0 w_gap_loop).2 in
  exists b e, last (lp_log l') = Some (mkSinkCall GapCall b (Err e)) /\ should_retry e = true.
Proof.
  cbv zeta.
  pose proof (refused_report_stays_in_flight (w_sink (Err (Timeout "vartio" "slow"))) w_into_batch
    DrainPaceConfig_default 0 w_gap_loop default_pace_config_ok ltac:(by split; vm_compute)) as H.
  destruct (flush_gaps _ _ _ _ _) as [o l'] eqn:E.
  assert (o = Some DrainSinkRefused) as Ho by (vm_compute in E; by injection E as <- <-).
  destruct (H Ho) as (b & e & H1 & H2 & _). by exists b, e.
Defined.

Lemma backlog_always_scheduled_witness :
  has_backlog (lp_buffer w_refused_loop) (lp_gaps w_refused_loop) = true /\
  is_Some (lp_next_retry w_refused_loop).
Proof.
  split; [by vm_compute|].
  apply (backlog_always_scheduled w_down w_into_batch sample_producer (fun c => c) w_to_vec (fun _ => None)
    w_loop w_refused_loop ltac:(apply tc_once, w_turn)).
  by vm_compute.
Defined.

Lemma w_refused_frames :
  Forall2 (good_frame w_to_vec w_from_slice1) (iter_batches (lp_buffer w_refused_loop)) [bytes_of "a"].
Proof.
  assert (iter_batches (lp_buffer w_refused_loop) = [sample_batch "a" [sample_attribution]]) as -> by (by vm_compute).
  constructor; [|constructor]. split; [by vm_compute|]. split; [by vm_compute|]. by split; vm_compute.
Qed.

Lemma spool_is_backlog_witness :
  replay w_from_slice1 (dk_spool (lp_disk w_refused_loop)) =
    ([sample_batch "a" [sample_attribution]], mkReplayReport 1 1 0).
Proof.
  exact (spool_is_backlog w_to_vec w_from_slice1 w_down w_into_batch sample_producer (fun c => c)
    (fun _ => None) w_loop w_refused_loop _ [bytes_of "a"] (w_turn w_down) eq_refl eq_refl w_refused_frames).
Defined.

Lemma w_spooled_fits :
  spooled_fits w_from_slice1 w_loop_config (mkDisk (Some (frame (bytes_of "b1"))) None 0).
Proof.
  unfold spooled_fits. cbn [dk_spool].
  assert ((replay w_from_slice1 (Some (frame (bytes_of "b1")))).1 = [sample_batch "b1" [sample_attribution]]) as ->
    by (by vm_compute).
  constructor; [|constructor]. intros ids. split; [by vm_compute|].
  by vm_compute.
Qed.

Lemma recover_accounts_witness :
  let l := w_recover (frame (bytes_of "b1")) in
  held Attribution (lp_buffer l) = 1 /\ lp_accepted l = [sample_attribution] /\ lp_next_retry l = None.
Proof.
  cbv zeta. split; [by vm_compute|].
  pose proof (recover_accounts w_to_vec w_from_slice1 (fun _ => None) w_loop_config
    (DrainPacer_new DrainPaceConfig_default) (RetryBackoff_new RetryBackoffConfig_default) (fun _ => w_ids)
    (mkSpool (mkSpoolConfig "p" 10) (zlen (frame (bytes_of "b1"))) None)
    (mkDisk (Some (frame (bytes_of "b1"))) None 0) tt ltac:(by vm_compute) w_spooled_fits) as (_ & Ha & _ & _ & Hn).
  exact (conj Ha Hn).
Defined.
