(* ===== verification/Event.v ===== *)
(** Decoding kernel events: the [repr(C)] structs of [jalki-common/src/events.rs], the typed events
    [jalki-evidence/src/event.rs] makes of their bytes, and each probe's [decode_event].

    The agent runs on little-endian machines. [read_unaligned] of a [repr(C)] struct reads each
    field at the offset the C layout rule gives it. *)
From Stdlib Require Import Strings.Byte.
From S2P Require Import Prelude.

(* ------------------------------------------------------------------ *)
(** ** C layout *)

Inductive FieldTy := U8 | U16 | U32 | U64 | I32 | Bytes (n : nat).

Definition field_size (f : FieldTy) : nat :=
  match f with U8 => 1 | U16 => 2 | U32 => 4 | U64 => 8 | I32 => 4 | Bytes n => n end.

Definition field_align (f : FieldTy) : nat :=
  match f with Bytes _ => 1 | f => field_size f end.

Definition align_up (off align : nat) : nat := ((off + align - 1) / align * align)%nat.

(** The offset of each field from [off] on, and where the last one ends. *)
Fixpoint field_offsets (off : nat) (fields : list FieldTy) : list nat * nat :=
  match fields with
  | [] => ([], off)
  | f :: rest =>
      let o := align_up off (field_align f) in
      let '(os, e) := field_offsets (o + field_size f) rest in
      (o :: os, e)
  end.

(** [core::mem::size_of] *)
Definition size_of (fields : list FieldTy) : nat :=
  align_up (field_offsets 0 fields).2 (foldr Nat.max 1%nat (map field_align fields)).

(** The bytes of field [i]. *)
Definition field (fields : list FieldTy) (i : nat) (bs : list byte) : list byte :=
  slice (default 0%nat ((field_offsets 0 fields).1 !! i)) (default 0%nat (field_size <$> fields !! i)) bs.

Definition field_u (fields : list FieldTy) (i : nat) (bs : list byte) : Z := le_get (field fields i bs).
Definition field_i32 (fields : list FieldTy) (i : nat) (bs : list byte) : Z :=
  wrap_signed 32 (le_get (field fields i bs)).

(* ------------------------------------------------------------------ *)
(** ** jalki-common: the raw events *)

Definition AF_INET : Z := 2.
Definition AF_INET6 : Z := 10.
Definition PROCESS_EXEC_FILENAME_LEN : nat := 256.
Definition FILE_OPEN_PATH_LEN : nat := 256.

Record RawTcpConnect := mkRawTcpConnect {
  rtc_timestamp_ns : Z; rtc_pid : Z; rtc_tid : Z; rtc_src_addr : list byte; rtc_dst_addr : list byte;
  rtc_src_port : Z; rtc_dst_port : Z; rtc_addr_family : Z; rtc_pad1 : Z; rtc_ret : Z;
  rtc_cgroup_id : Z; rtc_comm : list byte; rtc_netns : Z; rtc_pad2 : Z
}.

Record RawTcpClose := mkRawTcpClose {
  rcl_timestamp_ns : Z; rcl_pid : Z; rcl_tid : Z; rcl_src_addr : list byte; rcl_dst_addr : list byte;
  rcl_src_port : Z; rcl_dst_port : Z; rcl_addr_family : Z; rcl_pad1 : Z; rcl_bytes_sent : Z;
  rcl_bytes_received : Z; rcl_duration_ns : Z; rcl_cgroup_id : Z; rcl_comm : list byte;
  rcl_netns : Z; rcl_pad2 : Z
}.

Record RawTcpRetransmit := mkRawTcpRetransmit {
  rre_timestamp_ns : Z; rre_pid : Z; rre_tid : Z; rre_src_addr : list byte; rre_dst_addr : list byte;
  rre_src_port : Z; rre_dst_port : Z; rre_addr_family : Z; rre_state : Z; rre_pad1 : Z; rre_pad2 : Z;
  rre_cgroup_id : Z; rre_comm : list byte; rre_netns : Z; rre_pad3 : Z
}.

Record RawProcessExec := mkRawProcessExec {
  rpe_timestamp_ns : Z; rpe_pid : Z; rpe_ppid : Z; rpe_uid : Z; rpe_gid : Z; rpe_cgroup_id : Z;
  rpe_ret : Z; rpe_tid : Z; rpe_comm : list byte; rpe_filename : list byte; rpe_argv_hash : list byte;
  rpe_leader_start_boottime_ns : Z
}.

Record RawFileOpen := mkRawFileOpen {
  rfo_timestamp_ns : Z; rfo_pid : Z; rfo_uid : Z; rfo_cgroup_id : Z; rfo_ret : Z; rfo_flags : Z;
  rfo_comm : list byte; rfo_path : list byte
}.

Definition TcpConnect_fields : list FieldTy :=
  [U64; U32; U32; Bytes 16; Bytes 16; U16; U16; U16; U16; I32; U64; Bytes 16; U32; U32].
Definition TcpClose_fields : list FieldTy :=
  [U64; U32; U32; Bytes 16; Bytes 16; U16; U16; U16; U16; U64; U64; U64; U64; Bytes 16; U32; U32].
Definition TcpRetransmit_fields : list FieldTy :=
  [U64; U32; U32; Bytes 16; Bytes 16; U16; U16; U16; U8; U8; U32; U64; Bytes 16; U32; U32].
Definition ProcessExec_fields : list FieldTy :=
  [U64; U32; U32; U32; U32; U64; I32; U32; Bytes 16; Bytes PROCESS_EXEC_FILENAME_LEN; Bytes 32; U64].
Definition FileOpen_fields : list FieldTy :=
  [U64; U32; U32; U64; I32; U32; Bytes 16; Bytes FILE_OPEN_PATH_LEN].

(** [nul_terminated_str], and the three [comm_str]s that spell it out. *)
Definition nul_terminated_str (buf : list byte) : string :=
  let len := default (length buf) (position (fun b => bool_decide (b = x00)) buf) in
  str_or_empty (take len buf).

Definition path_truncated (path : list byte) : bool := negb (bool_decide (x00 ∈ path)).

(* ------------------------------------------------------------------ *)
(** ** event.rs *)

Inductive DecodeError :=
| TooShort (expected actual : Z)
| Invalid (msg : string).
#[export] Instance DecodeError_eq_dec : EqDecision DecodeError.
Proof. solve_decision. Defined.

(** [read_raw]; [get] is the unaligned read of the struct. *)
Definition read_raw {A} (fields : list FieldTy) (get : list byte -> A) (raw : list byte)
  : result DecodeError A :=
  let expected := Z.of_nat (size_of fields) in
  if zlen raw <? expected then Err (TooShort expected (zlen raw)) else Ok (get raw).

Inductive IpAddr :=
| V4 (octets : list byte)
| V6 (octets : list byte).

Definition ip_from (raw : list byte) (family : Z) : IpAddr :=
  if family =? AF_INET6 then V6 raw else V4 (take 4 raw).

(** [u16::from_be] *)
Definition u16_from_be (z : Z) : Z := be_get (le_put 2 z).

Inductive TcpState :=
| Established | SynSent | SynRecv | FinWait1 | FinWait2 | TimeWait | Close | CloseWait | LastAck
| Listen | Closing | Unknown (value : Z).

(** [TcpState::from_u8] *)
Definition tcp_state_from_u8 (value : Z) : TcpState :=
  match value with
  | 1 => Established | 2 => SynSent | 3 => SynRecv | 4 => FinWait1 | 5 => FinWait2 | 6 => TimeWait
  | 7 => Close | 8 => CloseWait | 9 => LastAck | 10 => Listen | 11 => Closing
  | other => Unknown other
  end.

(** [TcpState::as_str] *)
Definition tcp_state_as_str (s : TcpState) : string :=
  match s with
  | Established => "ESTABLISHED" | SynSent => "SYN_SENT" | SynRecv => "SYN_RECV"
  | FinWait1 => "FIN_WAIT1" | FinWait2 => "FIN_WAIT2" | TimeWait => "TIME_WAIT"
  | Close => "CLOSE" | CloseWait => "CLOSE_WAIT" | LastAck => "LAST_ACK" | Listen => "LISTEN"
  | Closing => "CLOSING" | Unknown _ => "UNKNOWN"
  end.

Record FileOpenEvent := mkFileOpenEvent {
  fo_observed_at_ns : Z; fo_pid : Z; fo_uid : Z; fo_cgroup_id : Z; fo_ret : Z; fo_flags : Z;
  fo_comm : string; fo_path : string; fo_path_truncated : bool
}.

Record ProcessExecEvent := mkProcessExecEvent {
  pe_observed_at_ns : Z; pe_pid : Z; pe_tid : Z; pe_ppid : Z; pe_uid : Z; pe_gid : Z;
  pe_cgroup_id : Z; pe_ret : Z; pe_comm : string; pe_filename : string; pe_argv_hash : list byte;
  pe_leader_start_boottime_ns : Z
}.

Record TcpConnectEvent := mkTcpConnectEvent {
  tc_observed_at_ns : Z; tc_pid : Z; tc_tid : Z; tc_src_ip : IpAddr; tc_dst_ip : IpAddr;
  tc_src_port : Z; tc_dst_port : Z; tc_addr_family : Z; tc_ret : Z; tc_cgroup_id : Z;
  tc_comm : string; tc_netns : Z
}.

Record TcpCloseEvent := mkTcpCloseEvent {
  cl_observed_at_ns : Z; cl_pid : Z; cl_tid : Z; cl_src_ip : IpAddr; cl_dst_ip : IpAddr;
  cl_src_port : Z; cl_dst_port : Z; cl_addr_family : Z; cl_bytes_sent : Z; cl_bytes_received : Z;
  cl_duration_ns : Z; cl_cgroup_id : Z; cl_comm : string; cl_netns : Z
}.

Record TcpRetransmitEvent := mkTcpRetransmitEvent {
  re_observed_at_ns : Z; re_pid : Z; re_tid : Z; re_src_ip : IpAddr; re_dst_ip : IpAddr;
  re_src_port : Z; re_dst_port : Z; re_addr_family : Z; re_state : TcpState; re_cgroup_id : Z;
  re_comm : string; re_netns : Z
}.

Inductive KernelEvent :=
| ProcessExec (e : ProcessExecEvent)
| FileOpen (e : FileOpenEvent)
| FileOpenAttempt (e : FileOpenEvent)
| TcpConnect (e : TcpConnectEvent)
| TcpClose (e : TcpCloseEvent)
| TcpRetransmit (e : TcpRetransmitEvent).

Definition event_observed_at_ns (k : KernelEvent) : Z :=
  match k with
  | ProcessExec e => pe_observed_at_ns e
  | FileOpen e | FileOpenAttempt e => fo_observed_at_ns e
  | TcpConnect e => tc_observed_at_ns e
  | TcpClose e => cl_observed_at_ns e
  | TcpRetransmit e => re_observed_at_ns e
  end.

Definition event_pid (k : KernelEvent) : Z :=
  match k with
  | ProcessExec e => pe_pid e
  | FileOpen e | FileOpenAttempt e => fo_pid e
  | TcpConnect e => tc_pid e
  | TcpClose e => cl_pid e
  | TcpRetransmit e => re_pid e
  end.

Definition event_cgroup_id (k : KernelEvent) : Z :=
  match k with
  | ProcessExec e => pe_cgroup_id e
  | FileOpen e | FileOpenAttempt e => fo_cgroup_id e
  | TcpConnect e => tc_cgroup_id e
  | TcpClose e => cl_cgroup_id e
  | TcpRetransmit e => re_cgroup_id e
  end.

(** The unaligned reads. *)
Definition get_tcp_connect (bs : list byte) : RawTcpConnect :=
  let u i := field_u TcpConnect_fields i bs in
  let b i := field TcpConnect_fields i bs in
  mkRawTcpConnect (u 0%nat) (u 1%nat) (u 2%nat) (b 3%nat) (b 4%nat) (u 5%nat) (u 6%nat) (u 7%nat) (u 8%nat)
    (field_i32 TcpConnect_fields 9 bs) (u 10%nat) (b 11%nat) (u 12%nat) (u 13%nat).

Definition get_tcp_close (bs : list byte) : RawTcpClose :=
  let u i := field_u TcpClose_fields i bs in
  let b i := field TcpClose_fields i bs in
  mkRawTcpClose (u 0%nat) (u 1%nat) (u 2%nat) (b 3%nat) (b 4%nat) (u 5%nat) (u 6%nat) (u 7%nat) (u 8%nat)
    (u 9%nat) (u 10%nat) (u 11%nat) (u 12%nat) (b 13%nat) (u 14%nat) (u 15%nat).

Definition get_tcp_retransmit (bs : list byte) : RawTcpRetransmit :=
  let u i := field_u TcpRetransmit_fields i bs in
  let b i := field TcpRetransmit_fields i bs in
  mkRawTcpRetransmit (u 0%nat) (u 1%nat) (u 2%nat) (b 3%nat) (b 4%nat) (u 5%nat) (u 6%nat) (u 7%nat) (u 8%nat)
    (u 9%nat) (u 10%nat) (u 11%nat) (b 12%nat) (u 13%nat) (u 14%nat).

Definition get_process_exec (bs : list byte) : RawProcessExec :=
  let u i := field_u ProcessExec_fields i bs in
  let b i := field ProcessExec_fields i bs in
  mkRawProcessExec (u 0%nat) (u 1%nat) (u 2%nat) (u 3%nat) (u 4%nat) (u 5%nat)
    (field_i32 ProcessExec_fields 6 bs) (u 7%nat) (b 8%nat) (b 9%nat) (b 10%nat) (u 11%nat).

Definition get_file_open (bs : list byte) : RawFileOpen :=
  let u i := field_u FileOpen_fields i bs in
  let b i := field FileOpen_fields i bs in
  mkRawFileOpen (u 0%nat) (u 1%nat) (u 2%nat) (u 3%nat) (field_i32 FileOpen_fields 4 bs) (u 5%nat)
    (b 6%nat) (b 7%nat).

(** What [from_bytes] makes of a raw struct. *)
Definition file_open_of_raw (raw : RawFileOpen) : FileOpenEvent :=
  {| fo_observed_at_ns := rfo_timestamp_ns raw;
     fo_pid := rfo_pid raw;
     fo_uid := rfo_uid raw;
     fo_cgroup_id := rfo_cgroup_id raw;
     fo_ret := rfo_ret raw;
     fo_flags := rfo_flags raw;
     fo_comm := nul_terminated_str (rfo_comm raw);
     fo_path := nul_terminated_str (rfo_path raw);
     fo_path_truncated := path_truncated (rfo_path raw) |}.

Definition process_exec_of_raw (raw : RawProcessExec) : ProcessExecEvent :=
  {| pe_observed_at_ns := rpe_timestamp_ns raw;
     pe_pid := rpe_pid raw;
     pe_tid := rpe_tid raw;
     pe_ppid := rpe_ppid raw;
     pe_uid := rpe_uid raw;
     pe_gid := rpe_gid raw;
     pe_cgroup_id := rpe_cgroup_id raw;
     pe_ret := rpe_ret raw;
     pe_comm := nul_terminated_str (rpe_comm raw);
     pe_filename := nul_terminated_str (rpe_filename raw);
     pe_argv_hash := rpe_argv_hash raw;
     pe_leader_start_boottime_ns := rpe_leader_start_boottime_ns raw |}.

Definition tcp_connect_of_raw (raw : RawTcpConnect) : TcpConnectEvent :=
  {| tc_observed_at_ns := rtc_timestamp_ns raw;
     tc_pid := rtc_pid raw;
     tc_tid := rtc_tid raw;
     tc_src_ip := ip_from (rtc_src_addr raw) (rtc_addr_family raw);
     tc_dst_ip := ip_from (rtc_dst_addr raw) (rtc_addr_family raw);
     tc_src_port := rtc_src_port raw;
     tc_dst_port := u16_from_be (rtc_dst_port raw);
     tc_addr_family := rtc_addr_family raw;
     tc_ret := rtc_ret raw;
     tc_cgroup_id := rtc_cgroup_id raw;
     tc_comm := nul_terminated_str (rtc_comm raw);
     tc_netns := rtc_netns raw |}.

Definition tcp_close_of_raw (raw : RawTcpClose) : TcpCloseEvent :=
  {| cl_observed_at_ns := rcl_timestamp_ns raw;
     cl_pid := rcl_pid raw;
     cl_tid := rcl_tid raw;
     cl_src_ip := ip_from (rcl_src_addr raw) (rcl_addr_family raw);
     cl_dst_ip := ip_from (rcl_dst_addr raw) (rcl_addr_family raw);
     cl_src_port := rcl_src_port raw;
     cl_dst_port := u16_from_be (rcl_dst_port raw);
     cl_addr_family := rcl_addr_family raw;
     cl_bytes_sent := rcl_bytes_sent raw;
     cl_bytes_received := rcl_bytes_received raw;
     cl_duration_ns := rcl_duration_ns raw;
     cl_cgroup_id := rcl_cgroup_id raw;
     cl_comm := nul_terminated_str (rcl_comm raw);
     cl_netns := rcl_netns raw |}.

Definition tcp_retransmit_of_raw (raw : RawTcpRetransmit) : TcpRetransmitEvent :=
  {| re_observed_at_ns := rre_timestamp_ns raw;
     re_pid := rre_pid raw;
     re_tid := rre_tid raw;
     re_src_ip := ip_from (rre_src_addr raw) (rre_addr_family raw);
     re_dst_ip := ip_from (rre_dst_addr raw) (rre_addr_family raw);
     re_src_port := rre_src_port raw;
     re_dst_port := u16_from_be (rre_dst_port raw);
     re_addr_family := rre_addr_family raw;
     re_state := tcp_state_from_u8 (rre_state raw);
     re_cgroup_id := rre_cgroup_id raw;
     re_comm := nul_terminated_str (rre_comm raw);
     re_netns := rre_netns raw |}.

(** The [from_bytes] of the five events. *)
Definition FileOpenEvent_from_bytes (raw : list byte) : result DecodeError FileOpenEvent :=
  raw <-? read_raw FileOpen_fields get_file_open raw ;; Ok (file_open_of_raw raw).
Definition ProcessExecEvent_from_bytes (raw : list byte) : result DecodeError ProcessExecEvent :=
  raw <-? read_raw ProcessExec_fields get_process_exec raw ;; Ok (process_exec_of_raw raw).
Definition TcpConnectEvent_from_bytes (raw : list byte) : result DecodeError TcpConnectEvent :=
  raw <-? read_raw TcpConnect_fields get_tcp_connect raw ;; Ok (tcp_connect_of_raw raw).
Definition TcpCloseEvent_from_bytes (raw : list byte) : result DecodeError TcpCloseEvent :=
  raw <-? read_raw TcpClose_fields get_tcp_close raw ;; Ok (tcp_close_of_raw raw).
Definition TcpRetransmitEvent_from_bytes (raw : list byte) : result DecodeError TcpRetransmitEvent :=
  raw <-? read_raw TcpRetransmit_fields get_tcp_retransmit raw ;; Ok (tcp_retransmit_of_raw raw).

(* ------------------------------------------------------------------ *)
(** ** The probes' decoders *)

(** The built-in probes ([jalki/src/probes]). *)
Inductive BuiltinProbe :=
| PProcessExec | PFileOpen | PFileOpenAttempt | PTcpConnect | PTcpClose | PTcpRetransmit.

(** [Probe::decode_event]; the conversion of the error keeps its constructor. *)
Definition decode_event (p : BuiltinProbe) (raw : list byte) : result DecodeError KernelEvent :=
  match p with
  | PProcessExec => e <-? ProcessExecEvent_from_bytes raw ;; Ok (ProcessExec e)
  | PFileOpen => e <-? FileOpenEvent_from_bytes raw ;; Ok (FileOpen e)
  | PFileOpenAttempt => e <-? FileOpenEvent_from_bytes raw ;; Ok (FileOpenAttempt e)
  | PTcpConnect => e <-? TcpConnectEvent_from_bytes raw ;; Ok (TcpConnect e)
  | PTcpClose => e <-? TcpCloseEvent_from_bytes raw ;; Ok (TcpClose e)
  | PTcpRetransmit => e <-? TcpRetransmitEvent_from_bytes raw ;; Ok (TcpRetransmit e)
  end.

Definition probe_fields (p : BuiltinProbe) : list FieldTy :=
  match p with
  | PProcessExec => ProcessExec_fields
  | PFileOpen | PFileOpenAttempt => FileOpen_fields
  | PTcpConnect => TcpConnect_fields
  | PTcpClose => TcpClose_fields
  | PTcpRetransmit => TcpRetransmit_fields
  end.

(* ------------------------------------------------------------------ *)
(** ** The bytes of a raw event

    What an eBPF program hands to the ring buffer: the struct's memory, with whatever the holes
    between the fields hold. *)

(** The struct's memory from [off] on; [hole] is the content of the bytes no field covers. *)
Fixpoint emit (hole : nat -> byte) (total off : nat) (fields : list FieldTy) (vals : list (list byte))
  : list byte :=
  match fields, vals with
  | f :: fields, v :: vals =>
      let o := align_up off (field_align f) in
      map hole (seq off (o - off)) ++ v ++ emit hole total (o + field_size f) fields vals
  | _, _ => map hole (seq off (total - off))
  end.

Definition values_tcp_connect (r : RawTcpConnect) : list (list byte) :=
  [le_put 8 (rtc_timestamp_ns r); le_put 4 (rtc_pid r); le_put 4 (rtc_tid r); rtc_src_addr r; rtc_dst_addr r;
   le_put 2 (rtc_src_port r); le_put 2 (rtc_dst_port r); le_put 2 (rtc_addr_family r); le_put 2 (rtc_pad1 r);
   le_put 4 (rtc_ret r); le_put 8 (rtc_cgroup_id r); rtc_comm r; le_put 4 (rtc_netns r); le_put 4 (rtc_pad2 r)].

Definition values_tcp_close (r : RawTcpClose) : list (list byte) :=
  [le_put 8 (rcl_timestamp_ns r); le_put 4 (rcl_pid r); le_put 4 (rcl_tid r); rcl_src_addr r; rcl_dst_addr r;
   le_put 2 (rcl_src_port r); le_put 2 (rcl_dst_port r); le_put 2 (rcl_addr_family r); le_put 2 (rcl_pad1 r);
   le_put 8 (rcl_bytes_sent r); le_put 8 (rcl_bytes_received r); le_put 8 (rcl_duration_ns r);
   le_put 8 (rcl_cgroup_id r); rcl_comm r; le_put 4 (rcl_netns r); le_put 4 (rcl_pad2 r)].

Definition values_tcp_retransmit (r : RawTcpRetransmit) : list (list byte) :=
  [le_put 8 (rre_timestamp_ns r); le_put 4 (rre_pid r); le_put 4 (rre_tid r); rre_src_addr r; rre_dst_addr r;
   le_put 2 (rre_src_port r); le_put 2 (rre_dst_port r); le_put 2 (rre_addr_family r); le_put 1 (rre_state r);
   le_put 1 (rre_pad1 r); le_put 4 (rre_pad2 r); le_put 8 (rre_cgroup_id r); rre_comm r;
   le_put 4 (rre_netns r); le_put 4 (rre_pad3 r)].

Definition values_process_exec (r : RawProcessExec) : list (list byte) :=
  [le_put 8 (rpe_timestamp_ns r); le_put 4 (rpe_pid r); le_put 4 (rpe_ppid r); le_put 4 (rpe_uid r);
   le_put 4 (rpe_gid r); le_put 8 (rpe_cgroup_id r); le_put 4 (rpe_ret r); le_put 4 (rpe_tid r); rpe_comm r;
   rpe_filename r; rpe_argv_hash r; le_put 8 (rpe_leader_start_boottime_ns r)].

Definition values_file_open (r : RawFileOpen) : list (list byte) :=
  [le_put 8 (rfo_timestamp_ns r); le_put 4 (rfo_pid r); le_put 4 (rfo_uid r); le_put 8 (rfo_cgroup_id r);
   le_put 4 (rfo_ret r); le_put 4 (rfo_flags r); rfo_comm r; rfo_path r].

(** A raw event and the probe that made it. *)
Inductive RawEvent :=
| RawExec (r : RawProcessExec)
| RawOpen (r : RawFileOpen)
| RawOpenAttempt (r : RawFileOpen)
| RawConnect (r : RawTcpConnect)
| RawClose (r : RawTcpClose)
| RawRetransmit (r : RawTcpRetransmit).

Definition raw_probe (r : RawEvent) : BuiltinProbe :=
  match r with
  | RawExec _ => PProcessExec | RawOpen _ => PFileOpen | RawOpenAttempt _ => PFileOpenAttempt
  | RawConnect _ => PTcpConnect | RawClose _ => PTcpClose | RawRetransmit _ => PTcpRetransmit
  end.

Definition raw_values (r : RawEvent) : list (list byte) :=
  match r with
  | RawExec r => values_process_exec r
  | RawOpen r | RawOpenAttempt r => values_file_open r
  | RawConnect r => values_tcp_connect r
  | RawClose r => values_tcp_close r
  | RawRetransmit r => values_tcp_retransmit r
  end.

Definition raw_bytes (hole : nat -> byte) (r : RawEvent) : list byte :=
  let fields := probe_fields (raw_probe r) in
  emit hole (size_of fields) 0 fields (raw_values r).

Definition event_of_raw (r : RawEvent) : KernelEvent :=
  match r with
  | RawExec r => ProcessExec (process_exec_of_raw r)
  | RawOpen r => FileOpen (file_open_of_raw r)
  | RawOpenAttempt r => FileOpenAttempt (file_open_of_raw r)
  | RawConnect r => TcpConnect (tcp_connect_of_raw r)
  | RawClose r => TcpClose (tcp_close_of_raw r)
  | RawRetransmit r => TcpRetransmit (tcp_retransmit_of_raw r)
  end.

(** The fields fit their types. *)
Definition raw_ok (r : RawEvent) : Prop :=
  match r with
  | RawConnect r =>
      in_width 64 (rtc_timestamp_ns r) /\ in_width 32 (rtc_pid r) /\ in_width 32 (rtc_tid r) /\
      length (rtc_src_addr r) = 16%nat /\ length (rtc_dst_addr r) = 16%nat /\ in_width 16 (rtc_src_port r) /\
      in_width 16 (rtc_dst_port r) /\ in_width 16 (rtc_addr_family r) /\ in_width 16 (rtc_pad1 r) /\
      - 2 ^ 31 <= rtc_ret r < 2 ^ 31 /\ in_width 64 (rtc_cgroup_id r) /\ length (rtc_comm r) = 16%nat /\
      in_width 32 (rtc_netns r) /\ in_width 32 (rtc_pad2 r)
  | RawClose r =>
      in_width 64 (rcl_timestamp_ns r) /\ in_width 32 (rcl_pid r) /\ in_width 32 (rcl_tid r) /\
      length (rcl_src_addr r) = 16%nat /\ length (rcl_dst_addr r) = 16%nat /\ in_width 16 (rcl_src_port r) /\
      in_width 16 (rcl_dst_port r) /\ in_width 16 (rcl_addr_family r) /\ in_width 16 (rcl_pad1 r) /\
      in_width 64 (rcl_bytes_sent r) /\ in_width 64 (rcl_bytes_received r) /\ in_width 64 (rcl_duration_ns r) /\
      in_width 64 (rcl_cgroup_id r) /\ length (rcl_comm r) = 16%nat /\ in_width 32 (rcl_netns r) /\
      in_width 32 (rcl_pad2 r)
  | RawRetransmit r =>
      in_width 64 (rre_timestamp_ns r) /\ in_width 32 (rre_pid r) /\ in_width 32 (rre_tid r) /\
      length (rre_src_addr r) = 16%nat /\ length (rre_dst_addr r) = 16%nat /\ in_width 16 (rre_src_port r) /\
      in_width 16 (rre_dst_port r) /\ in_width 16 (rre_addr_family r) /\ in_width 8 (rre_state r) /\
      in_width 8 (rre_pad1 r) /\ in_width 32 (rre_pad2 r) /\ in_width 64 (rre_cgroup_id r) /\
      length (rre_comm r) = 16%nat /\ in_width 32 (rre_netns r) /\ in_width 32 (rre_pad3 r)
  | RawExec r =>
      in_width 64 (rpe_timestamp_ns r) /\ in_width 32 (rpe_pid r) /\ in_width 32 (rpe_ppid r) /\
      in_width 32 (rpe_uid r) /\ in_width 32 (rpe_gid r) /\ in_width 64 (rpe_cgroup_id r) /\
      - 2 ^ 31 <= rpe_ret r < 2 ^ 31 /\ in_width 32 (rpe_tid r) /\ length (rpe_comm r) = 16%nat /\
      length (rpe_filename r) = PROCESS_EXEC_FILENAME_LEN /\ length (rpe_argv_hash r) = 32%nat /\
      in_width 64 (rpe_leader_start_boottime_ns r)
  | RawOpen r | RawOpenAttempt r =>
      in_width 64 (rfo_timestamp_ns r) /\ in_width 32 (rfo_pid r) /\ in_width 32 (rfo_uid r) /\
      in_width 64 (rfo_cgroup_id r) /\ - 2 ^ 31 <= rfo_ret r < 2 ^ 31 /\ in_width 32 (rfo_flags r) /\
      length (rfo_comm r) = 16%nat /\ length (rfo_path r) = FILE_OPEN_PATH_LEN
  end.

(* ------------------------------------------------------------------ *)
(** ** Lemmas *)

Lemma align_up_ge off a : (0 < a)%nat -> (off <= align_up off a)%nat.
Proof.
  intros Ha. unfold align_up. pose proof (Nat.div_mod_eq (off + a - 1) a).
  pose proof (Nat.mod_upper_bound (off + a - 1) a ltac:(lia)). lia.
Qed.

Lemma field_align_pos f : field_size f <> 0%nat -> (0 < field_align f)%nat.
Proof. destruct f; cbn; lia. Qed.

Definition sized (f : FieldTy) (v : list byte) : Prop := length v = field_size f /\ (0 < field_align f)%nat.

Lemma slice_emit hole total off fields vals pre rest i f v :
  length pre = off -> Forall2 sized fields vals -> fields !! i = Some f -> vals !! i = Some v ->
  slice (default 0%nat ((field_offsets off fields).1 !! i)) (field_size f)
    (pre ++ emit hole total off fields vals ++ rest) = v.
Proof.
  intros Hpre HF. revert off pre i Hpre.
  induction HF as [|f0 v0 fields vals [Hv Ha] HF IH]; intros off pre i Hpre Hf Hi; [done|].
  cbn [emit field_offsets]. set (o := align_up off (field_align f0)).
  assert (off <= o)%nat as Ho by (by apply align_up_ge).
  set (gap := map hole (seq off (o - off))).
  assert (length (pre ++ gap) = o) as Hgap by (subst gap; rewrite length_app, length_map, length_seq; lia).
  specialize (IH (o + field_size f0)%nat).
  destruct (field_offsets (o + field_size f0) fields) as [os e]. cbn [fst] in *.
  destruct i as [|i]; cbn in Hf, Hi |- *.
  - injection Hf as ->. injection Hi as ->. unfold slice. rewrite <- !app_assoc, (app_assoc pre gap), <- Hgap.
    by rewrite drop_app_length, <- Hv, take_app_length.
  - rewrite <- !app_assoc, (app_assoc pre gap), (app_assoc (pre ++ gap) v0). apply IH; [|done|done].
    rewrite length_app, Hgap. lia.
Qed.

Lemma emit_length hole total off fields vals :
  Forall2 sized fields vals -> ((field_offsets off fields).2 <= total)%nat ->
  (off <= (field_offsets off fields).2)%nat /\ length (emit hole total off fields vals) = (total - off)%nat.
Proof.
  intros HF. revert off. induction HF as [|f v fields vals [Hv Ha] HF IH]; intros off Ht; cbn [emit field_offsets] in *.
  { cbn in *. split; [lia|]. by rewrite length_map, length_seq. }
  pose proof (align_up_ge off (field_align f) Ha). specialize (IH (align_up off (field_align f) + field_size f)%nat).
  destruct (field_offsets _ fields) as [os e]. cbn [snd] in *. destruct (IH Ht) as [Hle Hlen].
  split; [lia|]. rewrite !length_app, length_map, length_seq, Hlen, Hv. lia.
Qed.

Lemma le_get_u (n : nat) (w z : Z) : w = 8 * Z.of_nat n -> in_width w z -> le_get (le_put n z) = z.
Proof.
  intros -> H. rewrite le_get_put. apply Z.mod_small. unfold in_width in H.
  by replace (256 ^ Z.of_nat n) with (2 ^ (8 * Z.of_nat n)) by (rewrite Z.pow_mul_r by lia; done).
Qed.

Lemma le_get_i32 z : - 2 ^ 31 <= z < 2 ^ 31 -> wrap_signed 32 (le_get (le_put 4 z)) = z.
Proof.
  intros H. rewrite le_get_put. unfold wrap_signed. change (256 ^ Z.of_nat 4) with (2 ^ 32).
  rewrite Zplus_mod_idemp_l, Z.mod_small by lia. lia.
Qed.

Lemma raw_values_sized r : raw_ok r -> Forall2 sized (probe_fields (raw_probe r)) (raw_values r).
Proof.
  intros H. destruct r as [[]|[]|[]|[]|[]|[]]; cbn in H |- *; destruct_and?;
    repeat (constructor; [split; [rewrite ?le_put_length; done|cbn; lia]|]); constructor.
Qed.

Lemma raw_bytes_length hole r :
  raw_ok r -> length (raw_bytes hole r) = size_of (probe_fields (raw_probe r)).
Proof.
  intros H. unfold raw_bytes.
  assert ((field_offsets 0 (probe_fields (raw_probe r))).2 <= size_of (probe_fields (raw_probe r)))%nat as Hle
    by (destruct r; by vm_compute; repeat constructor).
  rewrite (proj2 (emit_length hole _ 0 _ _ (raw_values_sized r H) Hle)). lia.
Qed.

Lemma field_raw hole r rest i f v :
  raw_ok r -> probe_fields (raw_probe r) !! i = Some f -> raw_values r !! i = Some v ->
  field (probe_fields (raw_probe r)) i (raw_bytes hole r ++ rest) = v.
Proof.
  intros H Hf Hv. unfold field, raw_bytes. rewrite Hf.
  by apply (slice_emit hole _ 0 _ _ []); [|apply raw_values_sized|..].
Qed.

Lemma field_u_raw hole r rest i f n w z :
  raw_ok r -> probe_fields (raw_probe r) !! i = Some f -> raw_values r !! i = Some (le_put n z) ->
  w = 8 * Z.of_nat n -> in_width w z -> field_u (probe_fields (raw_probe r)) i (raw_bytes hole r ++ rest) = z.
Proof. intros H Hf Hv Hw Hz. unfold field_u. rewrite (field_raw hole r rest i f _ H Hf Hv). by apply (le_get_u n w). Qed.

Lemma field_i32_raw hole r rest i f z :
  raw_ok r -> probe_fields (raw_probe r) !! i = Some f -> raw_values r !! i = Some (le_put 4 z) ->
  - 2 ^ 31 <= z < 2 ^ 31 -> field_i32 (probe_fields (raw_probe r)) i (raw_bytes hole r ++ rest) = z.
Proof. intros H Hf Hv Hz. unfold field_i32. rewrite (field_raw hole r rest i f _ H Hf Hv). by apply le_get_i32. Qed.

(** Read back one field of a raw event. *)
Ltac read_field :=
  match goal with
  | |- context [raw_bytes ?hole ?r ++ ?rest] =>
      first [ eapply (field_i32_raw hole r rest); [eassumption|reflexivity|reflexivity|by split]
            | eapply (field_u_raw hole r rest); [eassumption|reflexivity|reflexivity|reflexivity|eassumption]
            | eapply (field_raw hole r rest); [eassumption|reflexivity|reflexivity] ]
  end.

(** Read back the struct: [H] says its fields fit. *)
Ltac read_struct r H :=
  let Hok := fresh in pose proof H as Hok; destruct r; cbn in Hok; destruct_and? Hok; f_equal; read_field.

Lemma get_raw_connect hole r rest :
  raw_ok (RawConnect r) -> get_tcp_connect (raw_bytes hole (RawConnect r) ++ rest) = r.
Proof. intros H. unfold get_tcp_connect. read_struct r H. Qed.

Lemma get_raw_close hole r rest :
  raw_ok (RawClose r) -> get_tcp_close (raw_bytes hole (RawClose r) ++ rest) = r.
Proof. intros H. unfold get_tcp_close. read_struct r H. Qed.

Lemma get_raw_retransmit hole r rest :
  raw_ok (RawRetransmit r) -> get_tcp_retransmit (raw_bytes hole (RawRetransmit r) ++ rest) = r.
Proof. intros H. unfold get_tcp_retransmit. read_struct r H. Qed.

Lemma get_raw_exec hole r rest :
  raw_ok (RawExec r) -> get_process_exec (raw_bytes hole (RawExec r) ++ rest) = r.
Proof. intros H. unfold get_process_exec. read_struct r H. Qed.

Lemma get_raw_open hole r rest :
  raw_ok (RawOpen r) -> get_file_open (raw_bytes hole (RawOpen r) ++ rest) = r.
Proof. intros H. unfold get_file_open. read_struct r H. Qed.

Lemma read_raw_long {A} fields (get : list byte -> A) raw :
  (size_of fields <= length raw)%nat -> read_raw fields get raw = Ok (get raw).
Proof.
  intros H. unfold read_raw. destruct (Z.ltb_spec (zlen raw) (Z.of_nat (size_of fields))); [|done].
  unfold zlen in *. lia.
Qed.

(** A raw event's bytes, whatever its holes hold and whatever follows. *)
Lemma decode_raw hole r rest : raw_ok r -> decode_event (raw_probe r) (raw_bytes hole r ++ rest) = Ok (event_of_raw r).
Proof.
  intros H.
  assert (size_of (probe_fields (raw_probe r)) <= length (raw_bytes hole r ++ rest))%nat as Hlen
    by (rewrite length_app, raw_bytes_length by done; lia).
  destruct r as [r|r|r|r|r|r]; cbn [raw_probe probe_fields decode_event event_of_raw] in *;
    unfold ProcessExecEvent_from_bytes, FileOpenEvent_from_bytes, TcpConnectEvent_from_bytes,
      TcpCloseEvent_from_bytes, TcpRetransmitEvent_from_bytes;
    rewrite read_raw_long by done; cbn [result_bind]; do 3 f_equal.
  - by apply get_raw_exec.
  - by apply get_raw_open.
  - by apply (get_raw_open hole r rest).
  - by apply get_raw_connect.
  - by apply get_raw_close.
  - by apply get_raw_retransmit.
Qed.

(** C19: decoding undoes the kernel's layout. Whatever an eBPF program put in the fields of an event
    and whatever lies in the struct's holes and after it, the probe's [decode_event] gives the
    typed event of those fields; and the only way it fails is on fewer bytes than the struct has,
    which it reports with both lengths. *)
Theorem decode_event_correct :
  (forall hole r rest, raw_ok r ->
     decode_event (raw_probe r) (raw_bytes hole r ++ rest) = Ok (event_of_raw r)) /\
  (forall p raw,
     let expected := Z.of_nat (size_of (probe_fields p)) in
     if zlen raw <? expected then decode_event p raw = Err (TooShort expected (zlen raw))
     else exists e, decode_event p raw = Ok e).
Proof.
  split.
  - exact decode_raw.
  - intros p raw. cbv zeta. destruct (Z.ltb_spec (zlen raw) (Z.of_nat (size_of (probe_fields p)))) as [H|H];
      apply Z.ltb_lt in H || apply Z.ltb_ge in H;
      destruct p; cbn [probe_fields decode_event] in *;
      unfold ProcessExecEvent_from_bytes, FileOpenEvent_from_bytes, TcpConnectEvent_from_bytes,
        TcpCloseEvent_from_bytes, TcpRetransmitEvent_from_bytes, read_raw; rewrite H; cbn [result_bind]; eauto.
Qed.

(** The bytes of a struct no field covers. *)
Definition covered (fields : list FieldTy) (b : nat) : bool :=
  existsb (fun p => (p.1 <=? b)%nat && (b <? p.1 + field_size p.2)%nat)
    (zip (field_offsets 0 fields).1 fields).
Definition holes (fields : list FieldTy) : list nat :=
  List.filter (fun b => negb (covered fields b)) (seq 0 (size_of fields)).

(** The sizes the tests pin, and the holes: the connect and retransmit events, for all their named
    padding, leave four bytes before [cgroup_id] that no field names and no initialiser sets. *)
Theorem event_layouts :
  map (fun p => size_of (probe_fields p)) [PTcpConnect; PTcpClose; PTcpRetransmit; PProcessExec; PFileOpen]
    = [96; 112; 96; 352; 304]%nat /\
  map (fun p => holes (probe_fields p)) [PTcpConnect; PTcpClose; PTcpRetransmit; PProcessExec; PFileOpen]
    = [[60; 61; 62; 63]; []; [60; 61; 62; 63]; []; []]%nat.
Proof. split; vm_compute; reflexivity. Qed.

Definition w_comm (s : string) : list byte := bytes_of s ++ repeat x00 (16 - String.length s).
Definition w_path (s : string) : list byte := bytes_of s ++ repeat x00 (256 - String.length s).

Definition w_raw_open (path : list byte) : RawEvent :=
  RawOpen (mkRawFileOpen 123 456 1000 789 (-13) 42 (w_comm "cat") path).

Lemma decode_event_correct_witness :
  exists e, decode_event PFileOpen (raw_bytes (fun _ => x00) (w_raw_open (w_path "/etc/shadow")) ++ [x00]) = Ok (FileOpen e) /\
  fo_path e = "/etc/shadow" /\ fo_ret e = -13 /\ fo_path_truncated e = false.
Proof.
  eexists. split; [|split_and!].
  - exact (proj1 decode_event_correct (fun _ => x00) (w_raw_open (w_path "/etc/shadow")) [x00]
      ltac:(by vm_compute; repeat split)).
  - by vm_compute.
  - by vm_compute.
  - by vm_compute.
Defined.
