(* ===== verification/SensitivePaths.v ===== *)
(** The sensitive-path gate: the patterns and the wildcard matcher of
    [jalki/src/sensitive_paths.rs], the coarse prefixes it loads into the kernel, and the in-kernel
    half of the gate, [matches_sensitive_prefix] of [jalki-ebpf/src/file_open.rs].

    A path is its bytes. Loading the map through aya is the function [populate_sensitive_prefixes]
    over the map's sixteen slots; its [map.set] calls do not fail. *)
From Stdlib Require Import Strings.Byte Strings.Ascii.
From S2P Require Import Prelude Event.

(* ------------------------------------------------------------------ *)
(** ** The wildcard matcher *)

Definition STAR : byte := "*"%byte.
Definition QUESTION : byte := "?"%byte.

(** The variables of [glob_match]. *)
Record Glob := mkGlob {
  g_p : nat;
  g_v : nat;
  g_star : option nat;
  g_star_v : nat
}.

Section glob.
Variables pattern value : list byte.

(** One turn of the [while] loop, [None] for [return false]. *)
Definition glob_step (g : Glob) : option Glob :=
  let here := pattern !! g_p g in
  if match here with
     | Some c => bool_decide (c = QUESTION) || bool_decide (value !! g_v g = Some c)
     | None => false
     end
  then Some (mkGlob (S (g_p g)) (S (g_v g)) (g_star g) (g_star_v g))
  else if bool_decide (here = Some STAR)
  then Some (mkGlob (S (g_p g)) (g_v g) (Some (g_p g)) (g_v g))
  else match g_star g with
       | Some sp => Some (mkGlob (S sp) (S (g_star_v g)) (g_star g) (S (g_star_v g)))
       | None => None
       end.

(** The trailing stars and the final test. *)
Definition glob_finish (g : Glob) : bool :=
  forallb (fun c => bool_decide (c = STAR)) (drop (g_p g) pattern).

(** The loop; the outer [None] is out of fuel. *)
Fixpoint glob_loop (fuel : nat) (g : Glob) : option bool :=
  match fuel with
  | O => None
  | S fuel' =>
      if (g_v g <? length value)%nat then
        match glob_step g with
        | Some g' => glob_loop fuel' g'
        | None => Some false
        end
      else Some (glob_finish g)
  end.

Definition glob_fuel : nat := S (S (length value) * S (length pattern)).

(** [glob_match] *)
Definition glob_match : bool := default false (glob_loop glob_fuel (mkGlob 0 0 None 0)).
End glob.

(* ------------------------------------------------------------------ *)
(** ** Patterns *)

Definition is_wild (c : ascii) : bool :=
  bool_decide (c = "*"%char) || bool_decide (c = "?"%char) || bool_decide (c = "["%char).

Fixpoint has_glob (s : string) : bool :=
  match s with
  | EmptyString => false
  | String c rest => is_wild c || has_glob rest
  end.

Definition pattern_matches (pattern path : string) : bool :=
  if negb (has_glob pattern) && ends_with pattern "/" then starts_with path pattern
  else if has_glob pattern && ends_with pattern "/"
  then glob_match (bytes_of (pattern +:+ "*")) (bytes_of path)
  else glob_match (bytes_of pattern) (bytes_of path).

(** [SensitivePathMatcher::is_match] *)
Definition is_match (patterns : list string) (path : string) : bool :=
  existsb (fun pattern => pattern_matches pattern path) patterns.

Definition DEFAULT_SENSITIVE_PATHS : list string :=
  ["/var/run/secrets/"; "/run/secrets/"; "/etc/shadow*"; "/etc/kubernetes/"; "/root/.ssh/";
   "/home/*/.ssh/"].

Fixpoint split_comma (s acc : string) : list string :=
  match s with
  | EmptyString => [acc]
  | String c rest => if decide (c = ","%char) then acc :: split_comma rest ""
                     else split_comma rest (acc +:+ String c "")
  end.

Definition parse_sensitive_paths (values : list string) : list string :=
  let parts := concat (map (fun value => split_comma value "") values) in
  let paths := filter (fun part => part <> "") (map trim parts) in
  if bool_decide (paths = []) then DEFAULT_SENSITIVE_PATHS else paths.

(* ------------------------------------------------------------------ *)
(** ** The in-kernel gate *)

Definition MAX_SENSITIVE_PREFIXES : nat := 16.
Definition SENSITIVE_PREFIX_LEN : nat := 128.

Record SensitivePrefix := mkSensitivePrefix {
  pre_len : Z;
  pre_bytes : list byte
}.

Definition SensitivePrefix_empty : SensitivePrefix :=
  mkSensitivePrefix 0 (repeat x00 SENSITIVE_PREFIX_LEN).

Definition sensitive_prefix (prefix : string) : SensitivePrefix :=
  let bytes := bytes_of prefix in
  let len := Nat.min (length bytes) SENSITIVE_PREFIX_LEN in
  mkSensitivePrefix (Z.of_nat len) (take len bytes ++ repeat x00 (SENSITIVE_PREFIX_LEN - len)).

(** What precedes the first wildcard. *)
Fixpoint literal_head (s : string) : string :=
  match s with
  | EmptyString => ""
  | String c rest => if is_wild c then "" else String c (literal_head rest)
  end.

Definition coarse_prefix (pattern : string) : string :=
  if bool_decide (literal_head pattern = "") then "/" else literal_head pattern.

(** [populate_sensitive_prefixes]: every slot cleared, then one per pattern, in order. *)
Definition populate_sensitive_prefixes (patterns : list string) : list SensitivePrefix :=
  let prefixes := filter (fun p => p <> "") (map coarse_prefix (take MAX_SENSITIVE_PREFIXES patterns)) in
  map sensitive_prefix prefixes ++ repeat SensitivePrefix_empty (MAX_SENSITIVE_PREFIXES - length prefixes).

(** The 128-step loop of [prefix_matches]; a path buffer is longer than a prefix buffer. *)
Fixpoint prefix_loop (n : nat) (i prefix_len : nat) (path prefix : list byte) : bool :=
  match n with
  | O => true
  | S n' =>
      if (prefix_len <=? i)%nat then true
      else if negb (bool_decide (path !! i = prefix !! i)) then false
      else prefix_loop n' (S i) prefix_len path prefix
  end.

Definition prefix_matches (path prefix : list byte) (prefix_len : Z) : bool :=
  if (prefix_len =? 0) || (128 <? prefix_len) || (Z.of_nat FILE_OPEN_PATH_LEN <? prefix_len) then false
  else prefix_loop 128 0 (Z.to_nat prefix_len) path prefix.

Definition matches_sensitive_prefix (prefixes : list SensitivePrefix) (path : list byte) : bool :=
  existsb (fun p => negb (pre_len p =? 0) && prefix_matches path (pre_bytes p) (pre_len p)) prefixes.

(* ------------------------------------------------------------------ *)
(** ** What a pattern means

    [*] matches any run of bytes, [?] any one byte, every other byte itself. *)

Inductive glob : list byte -> list byte -> Prop :=
| glob_end : glob [] []
| glob_byte c p v : c <> STAR -> c <> QUESTION -> glob p v -> glob (c :: p) (c :: v)
| glob_any c p v : glob p v -> glob (QUESTION :: p) (c :: v)
| glob_star_none p v : glob p v -> glob (STAR :: p) v
| glob_star_more c p v : glob (STAR :: p) v -> glob (STAR :: p) (c :: v).
#[export] Hint Constructors glob : jalki.

Lemma glob_star_absorb u p v : glob (STAR :: p) v -> glob (STAR :: p) (u ++ v).
Proof. intros H. induction u as [|c u IH]; cbn; [done|]. by constructor. Qed.

Lemma glob_star_inv p v : glob (STAR :: p) v -> exists n, glob p (drop n v).
Proof.
  intros H. remember (STAR :: p) as q eqn:E. revert p E.
  induction H as [|c p v Hc| |p v Hg _|c p v _ IH]; intros p0 E; try done.
  - by injection E as -> ->.
  - injection E as ->. by exists 0%nat.
  - destruct (IH _ E) as [n Hn]. by exists (S n).
Qed.

(** A star-free stretch of pattern takes as many bytes. *)
Lemma glob_segment seg rest v :
  STAR ∉ seg -> glob (seg ++ rest) v -> (length seg <= length v)%nat /\ glob rest (drop (length seg) v).
Proof.
  revert v. induction seg as [|c seg IH]; intros v Hs H; cbn in *; [split; [lia|done]|].
  apply not_elem_of_cons in Hs as [Hc Hs]. inversion H; subst; try done.
  - destruct (IH _ Hs ltac:(eassumption)). split; [cbn; lia|done].
  - destruct (IH _ Hs ltac:(eassumption)). split; [cbn; lia|done].
Qed.

(** A literal stretch of pattern is found in the value as it is. *)
Lemma glob_literal lit rest v :
  STAR ∉ lit -> QUESTION ∉ lit -> glob (lit ++ rest) v -> exists v', v = lit ++ v'.
Proof.
  revert v. induction lit as [|c lit IH]; intros v Hs Hq H; cbn in *; [by exists v|].
  apply not_elem_of_cons in Hs as [Hc Hs]. apply not_elem_of_cons in Hq as [Hq Hqs].
  inversion H; subst; try done. destruct (IH _ Hs Hqs ltac:(eassumption)) as [v' ->]. by exists v'.
Qed.

Lemma glob_nil_r p : glob p [] <-> forallb (fun c => bool_decide (c = STAR)) p = true.
Proof.
  induction p as [|c p IH]; cbn; [split; [done|constructor]|]. rewrite andb_true_iff, bool_decide_eq_true, <- IH.
  split; [intros H; inversion H; by subst|intros [-> H]; by constructor].
Qed.

(* ------------------------------------------------------------------ *)
(** ** The matcher's loop *)

Section glob_proofs.
Variables pattern value : list byte.
Implicit Types g : Glob.

Definition glob_measure g : nat :=
  (length value - g_star_v g) * S (length pattern) + (length pattern - g_p g).

Record glob_inv g : Prop := {
  gi_p : (g_p g <= length pattern)%nat;
  gi_v : (g_v g <= length value)%nat;
  gi_star : match g_star g with
            | None => g_v g = g_p g /\ g_star_v g = 0%nat
            | Some sp => (sp < g_p g)%nat /\ (g_star_v g <= g_v g)%nat /\
                         (g_v g = g_star_v g + (g_p g - S sp))%nat
            end;
  gi_sound : glob (drop (g_p g) pattern) (drop (g_v g) value) -> glob pattern value;
  gi_star_sound sp v' : g_star g = Some sp -> (g_star_v g <= v')%nat ->
                        glob (drop (S sp) pattern) (drop v' value) -> glob pattern value
}.

(** The pattern since the last star. *)
Definition glob_base g : nat := match g_star g with None => 0%nat | Some sp => S sp end.
Definition glob_seg g : list byte := take (g_p g - glob_base g) (drop (glob_base g) pattern).

(** When the value has no star of its own, no match is lost: it goes on from here, or from the
    last star at a later byte. *)
Record glob_complete g : Prop := {
  gc_seg : STAR ∉ glob_seg g;
  gc_match : glob pattern value ->
    glob (drop (g_p g) pattern) (drop (g_v g) value) \/
    exists sp v', g_star g = Some sp /\ (g_star_v g < v' <= length value)%nat /\
                  glob (drop (S sp) pattern) (drop v' value)
}.

Lemma glob_seg_app g :
  glob_inv g -> drop (glob_base g) pattern = glob_seg g ++ drop (g_p g) pattern /\
                length (glob_seg g) = (g_p g - glob_base g)%nat.
Proof.
  intros [Hp _ Hs _ _]. unfold glob_seg.
  assert (glob_base g <= g_p g)%nat as Hb by (unfold glob_base; destruct (g_star g); lia).
  split; [|rewrite length_take, length_drop; lia].
  rewrite <- (take_drop (g_p g - glob_base g) (drop (glob_base g) pattern)) at 1.
  rewrite drop_drop. do 2 f_equal. lia.
Qed.

(** The three ways a turn goes on. *)
Inductive glob_turn g : option Glob -> Prop :=
| turn_match c w :
    pattern !! g_p g = Some c -> value !! g_v g = Some w -> c = QUESTION \/ c = w ->
    glob_turn g (Some (mkGlob (S (g_p g)) (S (g_v g)) (g_star g) (g_star_v g)))
| turn_star w :
    pattern !! g_p g = Some STAR -> value !! g_v g = Some w -> STAR <> w ->
    glob_turn g (Some (mkGlob (S (g_p g)) (g_v g) (Some (g_p g)) (g_v g)))
| turn_back sp w :
    g_star g = Some sp -> value !! g_v g = Some w ->
    (forall c, pattern !! g_p g = Some c -> c <> QUESTION /\ c <> w /\ c <> STAR) ->
    glob_turn g (Some (mkGlob (S sp) (S (g_star_v g)) (Some sp) (S (g_star_v g))))
| turn_fail w :
    g_star g = None -> value !! g_v g = Some w ->
    (forall c, pattern !! g_p g = Some c -> c <> QUESTION /\ c <> w /\ c <> STAR) ->
    glob_turn g None.

Lemma glob_step_turn g : (g_v g < length value)%nat -> glob_turn g (glob_step pattern value g).
Proof.
  intros Hv. destruct (lookup_lt_is_Some_2 value (g_v g) Hv) as [w Hw]. unfold glob_step. rewrite Hw.
  destruct (pattern !! g_p g) as [c|] eqn:Hc.
  - destruct (bool_decide (c = QUESTION) || bool_decide (Some w = Some c)) eqn:Hm.
    + apply (turn_match g c w); [done..|].
      apply orb_true_iff in Hm as [Hm|Hm]; apply bool_decide_eq_true in Hm; [by left|right; congruence].
    + apply orb_false_iff in Hm as [Hq Hn]. apply bool_decide_eq_false in Hq, Hn.
      assert (c <> w) by congruence. case_bool_decide as Hs.
      * injection Hs as ->. by apply (turn_star g w).
      * destruct (g_star g) as [sp|] eqn:Hsp.
        -- apply (turn_back g sp w); [done..|]. intros c' E. rewrite Hc in E. injection E as <-. split_and!; congruence.
        -- apply (turn_fail g w); [done..|]. intros c' E. rewrite Hc in E. injection E as <-. split_and!; congruence.
  - rewrite bool_decide_false by done. destruct (g_star g) as [sp|] eqn:Hsp.
    + apply (turn_back g sp w); [done..|]. by rewrite Hc.
    + apply (turn_fail g w); [done..|]. by rewrite Hc.
Qed.

(** A stuck position does not match. *)
Lemma glob_stuck g w :
  value !! g_v g = Some w -> (forall c, pattern !! g_p g = Some c -> c <> QUESTION /\ c <> w /\ c <> STAR) ->
  ~ glob (drop (g_p g) pattern) (drop (g_v g) value).
Proof.
  intros Hw Hc Hg. rewrite (drop_S _ _ _ Hw) in Hg.
  destruct (pattern !! g_p g) as [c|] eqn:E.
  - rewrite (drop_S _ _ _ E) in Hg. destruct (Hc c eq_refl) as (? & ? & ?). by inversion Hg; subst.
  - rewrite drop_ge in Hg by (by apply lookup_ge_None_1). by inversion Hg.
Qed.

Lemma glob_step_inv g g' :
  glob_inv g -> (g_v g < length value)%nat -> glob_step pattern value g = Some g' ->
  glob_inv g' /\ (glob_measure g' < glob_measure g)%nat.
Proof.
  intros [Hp Hv Hs Hsound Hstar] Hlt Hg. pose proof (glob_step_turn g Hlt) as Ht. rewrite Hg in Ht.
  unfold glob_measure. inversion Ht as [c w Hc Hw Hm E|w Hc Hw Hm E|sp w Hsp Hw Hm E|]; subst g'; clear Hg Ht.
  - pose proof (lookup_lt_Some _ _ _ Hc). split; [|cbn; lia]. split; cbn; [lia|lia| | |].
    + destruct (g_star g); lia.
    + intros Hgl. apply Hsound. rewrite (drop_S _ _ _ Hc), (drop_S _ _ _ Hw).
      destruct (decide (c = STAR)) as [->|Hns]; [by apply glob_star_more, glob_star_none|].
      destruct (decide (c = QUESTION)) as [->|Hnq]; [by constructor|].
      destruct Hm as [-> | ->]; [done|by constructor].
    + intros sp v' Hsp Hv'. by apply Hstar.
  - pose proof (lookup_lt_Some _ _ _ Hc).
    assert (g_star_v g <= g_v g)%nat by (destruct (g_star g); lia).
    assert (forall n, (g_v g <= n)%nat -> glob (drop (S (g_p g)) pattern) (drop n value) -> glob pattern value) as Hany.
    { intros n Hn Hgl. apply Hsound. rewrite (drop_S _ _ _ Hc).
      rewrite <- (take_drop (n - g_v g) (drop (g_v g) value)). apply glob_star_absorb, glob_star_none.
      rewrite drop_drop. by replace (g_v g + (n - g_v g))%nat with n by lia. }
    split; [|cbn; nia]. split; cbn; [lia|lia|lia| |].
    + by apply Hany.
    + intros sp v' [= <-] Hv'. by apply Hany.
  - rewrite Hsp in Hs. split; [|cbn; nia]. split; cbn; [lia|lia|lia| |].
    + apply Hstar; [done|lia].
    + intros sp' v' [= <-] Hv'. apply Hstar; [done|lia].
Qed.

Lemma glob_step_complete g g' :
  STAR ∉ value -> glob_inv g -> glob_complete g -> (g_v g < length value)%nat ->
  glob_step pattern value g = Some g' -> glob_complete g'.
Proof.
  intros Hnv Hinv [Hseg Hmatch] Hlt Hg. pose proof (glob_step_turn g Hlt) as Ht. rewrite Hg in Ht.
  destruct (glob_seg_app g Hinv) as [Happ Hlen]. pose proof Hinv as [Hp Hv Hs _ _].
  inversion Ht as [c w Hc Hw Hm E|w Hc Hw Hm E|sp w Hsp Hw Hm E|]; subst g'; clear Hg Ht.
  - assert (c <> STAR) as Hcs.
    { destruct Hm as [->| ->]; [done|]. intros ->. by apply Hnv, (list_elem_of_lookup_2 _ _ _ Hw). }
    split.
    + unfold glob_seg, glob_base in *. cbn.
      assert (match g_star g with None => 0%nat | Some sp => S sp end <= g_p g)%nat by (destruct (g_star g); lia).
      set (base := match g_star g with None => 0%nat | Some sp => S sp end) in *.
      replace (S (g_p g) - base)%nat with (S (g_p g - base)) by lia.
      rewrite (take_S_r _ _ c); [|rewrite lookup_drop; by replace (base + (g_p g - base))%nat with (g_p g) by lia].
      rewrite elem_of_app, list_elem_of_singleton. intros [?|?]; congruence.
    + intros Hgl. destruct (Hmatch Hgl) as [H|H]; [left|by right]. cbn.
      rewrite (drop_S _ _ _ Hc), (drop_S _ _ _ Hw) in H. inversion H; by subst.
  - split.
    + unfold glob_seg, glob_base. cbn. rewrite Nat.sub_diag. cbn. apply not_elem_of_nil.
    + intros Hgl. cbn.
      assert (glob (drop (g_p g) pattern) (drop (g_v g) value)) as Hhere.
      { destruct (Hmatch Hgl) as [H|(sp & v' & Hsp & Hv' & H)]; [done|].
        unfold glob_base in Happ, Hlen. rewrite Hsp in Happ, Hlen, Hs. rewrite Happ in H.
        destruct (glob_segment _ _ _ Hseg H) as [Hl H2]. rewrite drop_drop, Hlen in H2.
        rewrite (drop_S _ _ _ Hc) in H2 |- *.
        rewrite <- (take_drop (v' + (g_p g - S sp) - g_v g) (drop (g_v g) value)). apply glob_star_absorb.
        rewrite drop_drop. by replace (g_v g + (v' + (g_p g - S sp) - g_v g))%nat with (v' + (g_p g - S sp))%nat by lia. }
      rewrite (drop_S _ _ _ Hc) in Hhere. destruct (glob_star_inv _ _ Hhere) as [n Hn].
      destruct n as [|n]; [by left|right]. exists (g_p g), (Nat.min (g_v g + S n) (length value)).
      rewrite drop_drop in Hn. split_and!; [done|lia|lia|].
      destruct (Nat.min_spec (g_v g + S n) (length value)) as [[? ->]|[? ->]]; [done|].
      rewrite (drop_ge value) in Hn by lia. by rewrite drop_all.
  - split.
    + unfold glob_seg, glob_base. cbn. rewrite Nat.sub_diag. cbn. apply not_elem_of_nil.
    + intros Hgl. cbn. destruct (Hmatch Hgl) as [H|(sp' & v' & Hsp' & Hv' & H)].
      * by destruct (glob_stuck g w Hw Hm).
      * rewrite Hsp in Hsp'. injection Hsp' as <-.
        destruct (decide (v' = S (g_star_v g))) as [->|Hne]; [by left|right].
        exists sp, v'. split_and!; [done|lia|lia|done].
Qed.

Lemma glob_loop_spec fuel g :
  glob_inv g -> (glob_measure g < fuel)%nat ->
  exists b, glob_loop pattern value fuel g = Some b /\
    (b = true -> glob pattern value) /\
    (STAR ∉ value -> glob_complete g -> glob pattern value -> b = true).
Proof.
  revert g. induction fuel as [|fuel IH]; intros g Hinv Hm; [lia|]. cbn [glob_loop].
  destruct (Nat.ltb_spec (g_v g) (length value)) as [Hlt|Hge].
  - destruct (glob_step pattern value g) as [g'|] eqn:Hstep.
    + destruct (glob_step_inv g g' Hinv Hlt Hstep) as [Hinv' Hm'].
      destruct (IH g' Hinv' ltac:(lia)) as (b & Hb & Hsound & Hcomp). exists b. split_and!; [done|done|].
      intros Hnv Hc. apply Hcomp; [done|]. by apply (glob_step_complete g g').
    + exists false. split_and!; [done|done|]. intros Hnv [_ Hmatch] Hgl.
      pose proof (glob_step_turn g Hlt) as Ht. rewrite Hstep in Ht. inversion Ht as [| | |w Hsp Hw Hst E].
      destruct (Hmatch Hgl) as [H|(sp & v' & Hsp' & _)]; [|congruence].
      by destruct (glob_stuck g w Hw Hst).
  - exists (glob_finish pattern g). pose proof Hinv as [Hp Hv Hs Hsound _].
    assert (drop (g_v g) value = []) as Hnil by (apply drop_ge; lia). rewrite Hnil in Hsound.
    split_and!; [done| |].
    + intros Hf. apply Hsound, glob_nil_r, Hf.
    + intros Hnv [Hseg Hmatch] Hgl. apply glob_nil_r.
      destruct (Hmatch Hgl) as [H|(sp & v' & Hsp & Hv' & H)]; [by rewrite Hnil in H|].
      destruct (glob_seg_app g Hinv) as [Happ Hlen]. unfold glob_base in Happ, Hlen.
      rewrite Hsp in Happ, Hlen, Hs. rewrite Happ in H.
      destruct (glob_segment _ _ _ Hseg H) as [Hl _]. rewrite length_drop in Hl. lia.
Qed.

Lemma glob_start_inv : glob_inv (mkGlob 0 0 None 0).
Proof. split; cbn; [lia|lia|done|by rewrite !drop_0|done]. Qed.

Lemma glob_start_complete : glob_complete (mkGlob 0 0 None 0).
Proof. split; [apply not_elem_of_nil|]. intros H. left. cbn. by rewrite !drop_0. Qed.

Lemma glob_match_facts :
  exists b, glob_loop pattern value (glob_fuel pattern value) (mkGlob 0 0 None 0) = Some b /\
    glob_match pattern value = b /\ (b = true -> glob pattern value) /\
    (STAR ∉ value -> glob pattern value -> b = true).
Proof.
  destruct (glob_loop_spec (glob_fuel pattern value) (mkGlob 0 0 None 0) glob_start_inv) as (b & Hb & H1 & H2).
  { unfold glob_measure, glob_fuel. cbn. nia. }
  exists b. split_and!; [done|by unfold glob_match; rewrite Hb|done|].
  intros Hnv. apply H2; [done|apply glob_start_complete].
Qed.
End glob_proofs.

Lemma glob_match_sound pattern value : glob_match pattern value = true -> glob pattern value.
Proof. destruct (glob_match_facts pattern value) as (b & _ & -> & Hs & _). exact Hs. Qed.

(** C22: the wildcard matcher decides the wildcard language. It always ends, within
    [(|value|+1)(|pattern|+1)] turns; what it accepts the pattern means, whatever the bytes; and a
    value without a literal [*] that the pattern means is accepted. *)
Theorem glob_match_correct pattern value :
  is_Some (glob_loop pattern value (glob_fuel pattern value) (mkGlob 0 0 None 0)) /\
  (glob_match pattern value = true -> glob pattern value) /\
  (STAR ∉ value -> glob_match pattern value = true <-> glob pattern value).
Proof.
  destruct (glob_match_facts pattern value) as (b & Hb & -> & Hs & Hc). split_and!; [by eexists|done|].
  intros Hnv. split; [done|by apply Hc].
Qed.

Lemma glob_match_correct_witness :
  glob (bytes_of "/h/*/.ssh/?d*") (bytes_of "/h/u/.ssh/id_rsa").
Proof.
  apply (proj2 (proj2 (glob_match_correct (bytes_of "/h/*/.ssh/?d*") (bytes_of "/h/u/.ssh/id_rsa")))).
  - by apply (bool_decide_eq_true_1 (STAR ∉ bytes_of "/h/u/.ssh/id_rsa")); vm_compute.
  - by vm_compute.
Defined.

(** A literal [*] in the path defeats the matcher. The loop compares bytes before it looks for a
    wildcard, so the pattern's [*] is spent on the path's [*] as if it were a literal: a file
    [/etc/shadow*copy] or a home directory called [*u] is not sensitive to the agent, although the
    patterns cover both. *)
Theorem literal_star_evades :
  glob (bytes_of "/etc/shadow*") (bytes_of "/etc/shadow*copy") /\
  glob (bytes_of "/home/*/.ssh/*") (bytes_of "/home/*u/.ssh/id_rsa") /\
  is_match DEFAULT_SENSITIVE_PATHS "/etc/shadow*copy" = false /\
  is_match DEFAULT_SENSITIVE_PATHS "/home/*u/.ssh/id_rsa" = false /\
  is_match DEFAULT_SENSITIVE_PATHS "/etc/shadow-copy" = true /\
  is_match DEFAULT_SENSITIVE_PATHS "/home/u/.ssh/id_rsa" = true.
Proof.
  split_and!; [| |by vm_compute..]; cbn; repeat (first [apply glob_end|apply glob_star_none; by repeat constructor
    |by repeat constructor|apply glob_byte; [done|done|]|apply glob_star_more]).
Qed.

(* ------------------------------------------------------------------ *)
(** ** The kernel's half *)

Lemma literal_head_split s : exists r, s = literal_head s +:+ r.
Proof.
  induction s as [|c s [r IH]]; cbn; [by exists ""|]. destruct (is_wild c); [by exists (String c s)|].
  exists r. change (String c s = String c (literal_head s +:+ r)). by f_equal.
Qed.

Lemma literal_head_plain s : has_glob s = false -> literal_head s = s.
Proof. induction s as [|c s IH]; cbn; [done|]. destruct (is_wild c); [done|]. intros H. by rewrite IH. Qed.

Lemma literal_head_no_wild s : STAR ∉ bytes_of (literal_head s) /\ QUESTION ∉ bytes_of (literal_head s).
Proof.
  induction s as [|c s IH]; cbn [literal_head]; [split; apply not_elem_of_nil|].
  destruct (is_wild c) eqn:Hc; [split; apply not_elem_of_nil|]. rewrite bytes_of_cons, !not_elem_of_cons.
  unfold is_wild in Hc. apply orb_false_iff in Hc as [Hc _]. apply orb_false_iff in Hc as [Hs Hq].
  apply bool_decide_eq_false in Hs, Hq. destruct IH as [IH1 IH2].
  split_and!; try done; intros E; apply (f_equal ascii_of_byte) in E; rewrite ascii_of_byte_of_ascii in E;
    cbn in E; congruence.
Qed.

(** What a pattern accepts begins with its literal head. *)
Lemma pattern_matches_head pattern path :
  pattern_matches pattern path = true -> exists r, path = literal_head pattern +:+ r.
Proof.
  intros H. unfold pattern_matches in H.
  destruct (negb (has_glob pattern) && ends_with pattern "/") eqn:E1.
  { apply andb_true_iff in E1 as [E1 _]. apply negb_true_iff in E1. rewrite literal_head_plain by done.
    by apply starts_with_spec. }
  assert (exists rest, glob (bytes_of (literal_head pattern) ++ rest) (bytes_of path)) as [rest Hg].
  { destruct (literal_head_split pattern) as [r Hr].
    destruct (has_glob pattern && ends_with pattern "/"); apply glob_match_sound in H.
    - exists (bytes_of r ++ bytes_of "*"). by rewrite app_assoc, <- !bytes_of_app, <- Hr.
    - exists (bytes_of r). by rewrite <- bytes_of_app, <- Hr. }
  destruct (literal_head_no_wild pattern) as [Hs Hq].
  destruct (glob_literal _ _ _ Hs Hq Hg) as [v' Hv]. by apply bytes_of_prefix in Hv.
Qed.

Lemma coarse_prefix_nonempty pattern : coarse_prefix pattern <> "".
Proof. unfold coarse_prefix. by case_bool_decide. Qed.

(** An absolute path a pattern accepts begins with the pattern's coarse prefix. *)
Lemma pattern_matches_coarse pattern path :
  starts_with path "/" = true -> pattern_matches pattern path = true ->
  exists r, path = coarse_prefix pattern +:+ r.
Proof.
  intros Habs Hm. unfold coarse_prefix. case_bool_decide; [by apply starts_with_spec|].
  by apply pattern_matches_head.
Qed.

Lemma prefix_loop_spec n i len path prefix :
  (len <= i + n)%nat ->
  prefix_loop n i len path prefix = true <-> forall j, (i <= j < len)%nat -> path !! j = prefix !! j.
Proof.
  revert i. induction n as [|n IH]; intros i Hn; cbn [prefix_loop]; [split; [intros _ j Hj; lia|done]|].
  destruct (Nat.leb_spec len i) as [Hle|Hlt]; [split; [intros _ j Hj; lia|done]|].
  destruct (decide (path !! i = prefix !! i)) as [He|He].
  - rewrite bool_decide_true by done. cbn [negb]. rewrite IH by lia. split; intros H j Hj; [|apply H; lia].
    destruct (decide (j = i)) as [->|]; [done|apply H; lia].
  - rewrite bool_decide_false by done. cbn [negb]. split; [done|]. intros H. by destruct (He (H i ltac:(lia))).
Qed.

(** One slot accepts the buffers that begin with its bytes. *)
Lemma slot_matches prefix buf :
  prefix <> "" ->
  let p := sensitive_prefix prefix in
  negb (pre_len p =? 0) && prefix_matches buf (pre_bytes p) (pre_len p) = true <->
  take SENSITIVE_PREFIX_LEN (bytes_of prefix) `prefix_of` buf.
Proof.
  intros Hne. cbv zeta. unfold sensitive_prefix, prefix_matches. cbn [pre_len pre_bytes].
  set (bs := bytes_of prefix). set (n := Nat.min (length bs) SENSITIVE_PREFIX_LEN).
  assert (0 < n <= 128)%nat as Hn.
  { subst n bs. unfold SENSITIVE_PREFIX_LEN. rewrite bytes_of_length. destruct prefix; [done|]. cbn [String.length]. lia. }
  assert (take SENSITIVE_PREFIX_LEN bs = take n bs) as ->.
  { subst n. destruct (Nat.min_spec (length bs) SENSITIVE_PREFIX_LEN) as [[? ->]|[? ->]]; [|done].
    by rewrite !take_ge by lia. }
  assert (length (take n bs) = n) as Hlen by (rewrite length_take; lia).
  replace ((Z.of_nat n =? 0)) with false by (symmetry; apply Z.eqb_neq; lia).
  replace (128 <? Z.of_nat n) with false by (symmetry; apply Z.ltb_ge; lia).
  replace (Z.of_nat FILE_OPEN_PATH_LEN <? Z.of_nat n) with false
    by (symmetry; apply Z.ltb_ge; unfold FILE_OPEN_PATH_LEN; lia).
  cbn [negb andb orb]. rewrite Nat2Z.id, prefix_loop_spec by lia. split.
  - intros H. exists (drop n buf). rewrite <- (take_drop n buf) at 1. f_equal.
    apply list_eq. intros j. destruct (decide (j < n)%nat).
    + rewrite lookup_take_lt, H, lookup_app_l by lia. done.
    + by rewrite !lookup_ge_None_2 by (rewrite ?length_take; lia).
  - intros [rest ->] j Hj. by rewrite !lookup_app_l by lia.
Qed.

(** What the loaded map accepts. *)
Lemma gate_exact patterns buf :
  matches_sensitive_prefix (populate_sensitive_prefixes patterns) buf = true <->
  exists pattern, pattern ∈ take MAX_SENSITIVE_PREFIXES patterns /\
    take SENSITIVE_PREFIX_LEN (bytes_of (coarse_prefix pattern)) `prefix_of` buf.
Proof.
  unfold matches_sensitive_prefix, populate_sensitive_prefixes. rewrite existsb_app, orb_true_iff.
  rewrite (existsb_exists _ (map _ _)). split.
  - intros [(p & Hp & Hm)|H].
    + apply in_map_iff in Hp as (prefix & <- & Hin). apply list_elem_of_In, list_elem_of_filter in Hin as [Hne Hin].
      apply list_elem_of_In, in_map_iff in Hin as (pattern & <- & Hin). exists pattern.
      split; [by apply list_elem_of_In|]. by apply slot_matches.
    + apply existsb_exists in H as (p & Hp & Hm). by apply repeat_spec in Hp as ->.
  - intros (pattern & Hin & Hpre). left. exists (sensitive_prefix (coarse_prefix pattern)).
    pose proof (coarse_prefix_nonempty pattern). split; [|by apply slot_matches].
    apply in_map, list_elem_of_In, list_elem_of_filter. split; [done|]. apply list_elem_of_In, in_map, list_elem_of_In, Hin.
Qed.

(** The kernel's half of the gate never hides what the userspace half would keep. With at most
    sixteen patterns loaded, an absolute path some pattern accepts passes the in-kernel prefix
    test, wildcards, truncated prefixes and all. *)
Theorem kernel_gate_covers patterns path rest :
  (length patterns <= MAX_SENSITIVE_PREFIXES)%nat -> starts_with path "/" = true ->
  is_match patterns path = true ->
  matches_sensitive_prefix (populate_sensitive_prefixes patterns) (bytes_of path ++ rest) = true.
Proof.
  intros Hlen Habs Hm. apply gate_exact. unfold is_match in Hm.
  apply existsb_exists in Hm as (pattern & Hin & Hm). exists pattern.
  rewrite take_ge by done. split; [by apply list_elem_of_In|].
  destruct (pattern_matches_coarse pattern path Habs Hm) as [r ->]. rewrite bytes_of_app.
  exists (drop SENSITIVE_PREFIX_LEN (bytes_of (coarse_prefix pattern)) ++ bytes_of r ++ rest).
  by rewrite !app_assoc, take_drop.
Qed.

Example default_patterns_gated :
  matches_sensitive_prefix (populate_sensitive_prefixes DEFAULT_SENSITIVE_PATHS)
    (bytes_of "/home/u/.ssh/id_rsa" ++ repeat x00 237) = true.
Proof. by vm_compute. Qed.

(** The slot for a seventeenth pattern does not exist. *)
Example seventeenth_pattern_not_gated :
  let patterns := repeat "/a/" 16 ++ ["/b/"] in
  is_match patterns "/b/c" = true /\
  matches_sensitive_prefix (populate_sensitive_prefixes patterns) (bytes_of "/b/c" ++ repeat x00 252) = false.
Proof. by vm_compute. Qed.
