(* ===== verification/Normalize.v ===== *)
(** Normalization: a typed kernel event becomes a FALSE Protocol occurrence
    ([jalki-evidence/src/normalize.rs]) and an evidence record stamped with its probe
    ([jalki/src/probe.rs], [jalki/src/probes]).

    [id] and [now] are what [Ulid::new] and [Utc::now] return. [Display] of an address is the
    standard library's. *)
From Stdlib Require Import Strings.Byte Strings.Ascii.
From S2P Require Import Prelude Text Protocol Evidence Event.

(* ------------------------------------------------------------------ *)
(** ** Text *)

Definition ipv4_display (octets : list byte) : string := join "." (map (fun b => dec (bZ b)) octets).

(** The sixteen-bit groups of an address. *)
Fixpoint segments (octets : list byte) : list Z :=
  match octets with
  | a :: b :: rest => (256 * bZ a + bZ b) :: segments rest
  | _ => []
  end.

(** A run of zero groups: where it starts, how long it is. *)
Record Span := mkSpan { span_start : Z; span_len : Z }.

(** The first longest run, as [Ipv6Addr]'s [Display] finds it. *)
Fixpoint longest_zeros (i : Z) (segs : list Z) (longest current : Span) : Span :=
  match segs with
  | [] => longest
  | s :: rest =>
      if s =? 0 then
        let start := if span_len current =? 0 then i else span_start current in
        let current := mkSpan start (span_len current + 1) in
        longest_zeros (i + 1) rest (if span_len longest <? span_len current then current else longest) current
      else longest_zeros (i + 1) rest longest (mkSpan 0 0)
  end.

Definition ipv6_display (octets : list byte) : string :=
  if bool_decide (take 12 octets = repeat x00 10 ++ repeat xff 2) then "::ffff:" +:+ ipv4_display (drop 12 octets)
  else
    let segs := segments octets in
    let zeros := longest_zeros 0 segs (mkSpan 0 0) (mkSpan 0 0) in
    if 1 <? span_len zeros then
      join ":" (map hex16 (take (Z.to_nat (span_start zeros)) segs)) +:+ "::" +:+
      join ":" (map hex16 (drop (Z.to_nat (span_start zeros + span_len zeros)) segs))
    else join ":" (map hex16 segs).

Definition ip_display (ip : IpAddr) : string :=
  match ip with
  | V4 octets => ipv4_display octets
  | V6 octets => ipv6_display octets
  end.

(** [errno_name]; [-ret] of an [i32] wraps in a release build. *)
Definition errno_name (ret : Z) : string :=
  let n := wrap_signed 32 (- ret) in
  match n with
  | 111 => "ECONNREFUSED"
  | 110 => "ETIMEDOUT"
  | 113 => "EHOSTUNREACH"
  | 101 => "ENETUNREACH"
  | 1 => "EPERM"
  | 2 => "ENOENT"
  | 6 => "ENXIO"
  | 13 => "EACCES"
  | 20 => "ENOTDIR"
  | 21 => "EISDIR"
  | 40 => "ELOOP"
  | _ => "E" +:+ dec n
  end.

Definition hex32 (bytes : list byte) : string :=
  String.concat "" (map (fun b => hex_digit (bZ b / 16) +:+ hex_digit (bZ b mod 16)) bytes).

(* ------------------------------------------------------------------ *)
(** ** Occurrences *)

(** [if c { occ.labels.insert(k, v) }] *)
Definition label_if (c : bool) (k v : string) (o : Occurrence) : Occurrence :=
  if c then label k v o else o.

Definition process_entity (pid : Z) : string := "process:" +:+ dec pid.

Section occurrences.
Variables (id : string) (now : Z).
Implicit Types cluster : string.

Definition outcome_of (success : bool) : Outcome := if success then OutSuccess else OutFailure.

Definition file_open_to_occurrence (e : FileOpenEvent) cluster : Occurrence :=
  let success := fo_ret e =? 0 in
  let result := if success then "allowed" else "denied" in
  let occ := with_entities [process_entity (fo_pid e); "file:" +:+ fo_path e]
    (in_cluster cluster (outcome (outcome_of success) (severity SevInfo
      (Occurrence_new id now "jalki/file_open" "kernel.file.open")))) in
  let occ := occ <| occ_process_data := Some (mkProcessEventData (fo_pid e) None (fo_comm e) None (Some (fo_uid e)) None) |> in
  let occ := label "result" result occ in
  let occ := if negb success then label "errno_num" (dec (fo_ret e)) (label "errno" (errno_name (fo_ret e)) occ) else occ in
  let occ := label "flags" (dec (fo_flags e)) occ in
  let occ := label "cgroup_id" (dec (fo_cgroup_id e)) occ in
  let occ := label "coverage" "lsm_gated" occ in
  let occ := label "resource_ref_kind" "file" occ in
  let occ := label "resource_ref_id" (fo_path e) occ in
  let occ := label_if (fo_path_truncated e) "path_truncated" "true" occ in
  occ <| occ_correlation_keys := [process_entity (fo_pid e)] |>.

Definition open_attempt_to_occurrence (e : FileOpenEvent) cluster : Occurrence :=
  let occ := with_entities [process_entity (fo_pid e)]
    (in_cluster cluster (outcome OutFailure (severity SevInfo
      (Occurrence_new id now "jalki/file_open_attempt" "kernel.file.open_attempt")))) in
  let occ := occ <| occ_process_data := Some (mkProcessEventData (fo_pid e) None (fo_comm e) None (Some (fo_uid e)) None) |> in
  let occ := label "result" "failed" occ in
  let occ := label "errno" (errno_name (fo_ret e)) occ in
  let occ := label "errno_num" (dec (fo_ret e)) occ in
  let occ := label "cgroup_id" (dec (fo_cgroup_id e)) occ in
  let occ := label "requested_path" (fo_path e) occ in
  let occ := label "path_resolution" "unresolved" occ in
  let occ := label_if (fo_path_truncated e) "path_truncated" "true" occ in
  occ <| occ_correlation_keys := [process_entity (fo_pid e)] |>.

Definition process_exec_to_occurrence (e : ProcessExecEvent) cluster : Occurrence :=
  let success := pe_ret e =? 0 in
  let occ := with_entities [process_entity (pe_pid e); "executable:" +:+ pe_filename e]
    (in_cluster cluster (outcome (outcome_of success) (severity SevInfo
      (Occurrence_new id now "jalki/process_exec" "kernel.process.exec")))) in
  let occ := occ <| occ_process_data := Some (mkProcessEventData (pe_pid e)
    (if pe_ppid e =? 0 then None else Some (pe_ppid e)) (pe_filename e) None (Some (pe_uid e))
    (if success then None else Some (pe_ret e))) |> in
  let occ := label "cgroup_id" (dec (pe_cgroup_id e)) occ in
  let occ := label "gid" (dec (pe_gid e)) occ in
  let occ := label "host_tgid" (dec (pe_pid e)) occ in
  let occ := label "host_tid" (dec (pe_tid e)) occ in
  let occ :=
    if negb (pe_leader_start_boottime_ns e =? 0) then
      label "runtime_identity_method" "task_start_boottime_btf_v1"
        (label "leader_start_boottime_ns" (dec (pe_leader_start_boottime_ns e)) occ)
    else occ in
  let occ := label "resource_ref_kind" "executable" occ in
  let occ := label "resource_ref_id" (pe_filename e) occ in
  let occ := label "argv_hash" ("sha256:" +:+ hex32 (pe_argv_hash e)) occ in
  occ <| occ_correlation_keys := [process_entity (pe_pid e)] |>.

(** The parts the three TCP events share. *)
Definition conn_id (src_ip dst_ip : string) (src_port dst_port : Z) : string :=
  src_ip +:+ ":" +:+ dec src_port +:+ "->" +:+ dst_ip +:+ ":" +:+ dec dst_port.

Definition tcp_network_data (src_ip dst_ip : string) (src_port dst_port : Z)
    (bytes_sent bytes_received : option Z) : NetworkEventData :=
  mkNetworkEventData "tcp" src_ip dst_ip src_port dst_port "egress" None None None None None
    bytes_sent bytes_received None None None.

Definition tcp_process_data (pid : Z) (comm : string) : ProcessEventData :=
  mkProcessEventData pid None comm None None None.

Definition tcp_connect_to_occurrence (e : TcpConnectEvent) cluster : Occurrence :=
  let src_ip := ip_display (tc_src_ip e) in
  let dst_ip := ip_display (tc_dst_ip e) in
  let conn := conn_id src_ip dst_ip (tc_src_port e) (tc_dst_port e) in
  let success := tc_ret e =? 0 in
  let occ := with_entities [process_entity (tc_pid e); "connection:" +:+ conn]
    (in_cluster cluster (outcome (outcome_of success) (severity (if success then SevInfo else SevWarning)
      (Occurrence_new id now "jalki/tcp_connect" "kernel.tcp.connect")))) in
  let occ := occ <| occ_network_data := Some (tcp_network_data src_ip dst_ip (tc_src_port e) (tc_dst_port e) None None) |> in
  let occ := occ <| occ_process_data := Some (tcp_process_data (tc_pid e) (tc_comm e)) |> in
  let occ := label "cgroup_id" (dec (tc_cgroup_id e)) occ in
  let occ := label "netns" (dec (tc_netns e)) occ in
  let occ :=
    if negb success then
      (label "errno_num" (dec (tc_ret e)) occ)
        <| occ_error := Some (mkOccurrenceError (errno_name (tc_ret e)) None None None
             ("TCP connect from " +:+ tc_comm e +:+ " (pid " +:+ dec (tc_pid e) +:+ ") to " +:+ dst_ip +:+ ":" +:+
              dec (tc_dst_port e))
             (Some "Connection failure may indicate backend unreachability")
             ["Destination host unreachable"; "Port not listening"; "Firewall blocking connection"] None) |>
    else occ in
  occ <| occ_correlation_keys := [conn] |>.

Definition tcp_close_to_occurrence (e : TcpCloseEvent) cluster : Occurrence :=
  let src_ip := ip_display (cl_src_ip e) in
  let dst_ip := ip_display (cl_dst_ip e) in
  let conn := conn_id src_ip dst_ip (cl_src_port e) (cl_dst_port e) in
  let occ := with_entities [process_entity (cl_pid e); "connection:" +:+ conn]
    (in_cluster cluster (outcome OutSuccess (severity SevInfo
      (Occurrence_new id now "jalki/tcp_close" "kernel.tcp.close")))) in
  let occ := occ <| occ_network_data := Some (tcp_network_data src_ip dst_ip (cl_src_port e) (cl_dst_port e)
    (Some (cl_bytes_sent e)) (Some (cl_bytes_received e))) |> in
  let occ := occ <| occ_process_data := Some (tcp_process_data (cl_pid e) (cl_comm e)) |> in
  let occ := label "cgroup_id" (dec (cl_cgroup_id e)) occ in
  let occ := label "netns" (dec (cl_netns e)) occ in
  let occ := if 0 <? cl_duration_ns e then occ <| occ_duration_us := Some (cl_duration_ns e / 1000) |> else occ in
  occ <| occ_correlation_keys := [conn] |>.

Definition tcp_retransmit_to_occurrence (e : TcpRetransmitEvent) cluster : Occurrence :=
  let src_ip := ip_display (re_src_ip e) in
  let dst_ip := ip_display (re_dst_ip e) in
  let conn := conn_id src_ip dst_ip (re_src_port e) (re_dst_port e) in
  let occ := with_entities [process_entity (re_pid e); "connection:" +:+ conn]
    (in_cluster cluster (outcome OutFailure (severity SevWarning
      (Occurrence_new id now "jalki/tcp_retransmit" "kernel.tcp.retransmit")))) in
  let occ := occ <| occ_network_data := Some (tcp_network_data src_ip dst_ip (re_src_port e) (re_dst_port e) None None) |> in
  let occ := occ <| occ_process_data := Some (tcp_process_data (re_pid e) (re_comm e)) |> in
  let occ := label "cgroup_id" (dec (re_cgroup_id e)) occ in
  let occ := label "netns" (dec (re_netns e)) occ in
  let occ := label "tcp_state" (tcp_state_as_str (re_state e)) occ in
  occ <| occ_correlation_keys := [conn] |>.

(** [KernelEvent::to_occurrence] *)
Definition to_occurrence (k : KernelEvent) cluster : Occurrence :=
  match k with
  | ProcessExec e => process_exec_to_occurrence e cluster
  | FileOpen e => file_open_to_occurrence e cluster
  | FileOpenAttempt e => open_attempt_to_occurrence e cluster
  | TcpConnect e => tcp_connect_to_occurrence e cluster
  | TcpClose e => tcp_close_to_occurrence e cluster
  | TcpRetransmit e => tcp_retransmit_to_occurrence e cluster
  end.

(** [KernelEvent::normalize] *)
Definition normalize (probe : ProbeMetadata) cluster (k : KernelEvent) : list EvidenceRecord :=
  single {| er_observed_at_ns := event_observed_at_ns k;
            er_pid := event_pid k;
            er_cgroup_id := event_cgroup_id k;
            er_probe := probe;
            er_occurrence := to_occurrence k cluster;
            er_binding := None |}.
End occurrences.

(* ------------------------------------------------------------------ *)
(** ** Probes *)

Inductive Attachment :=
| AFentry (function : string)
| AFexit (function : string)
| ATracepoint (program category name : string).

Definition attachment_hook_kind (a : Attachment) : HookKind :=
  match a with AFentry _ => Fentry | AFexit _ => Fexit | ATracepoint _ _ _ => Tracepoint end.

Definition attachment_function (a : Attachment) : string :=
  match a with AFentry f | AFexit f => f | ATracepoint _ _ name => name end.

(** What a [Probe] implementation says of itself. *)
Record Probe := mkProbe {
  pb_attachments : list Attachment;
  pb_name : string;
  pb_occurrence_type : string;
  pb_program_name : string;
  pb_ring_buffer_map : string
}.

Definition builtin (p : BuiltinProbe) : Probe :=
  match p with
  | PProcessExec =>
      mkProbe [ATracepoint "jalki_process_exec" "sched" "sched_process_exec"]
        "process_exec" "kernel.process.exec" "jalki_process_exec" "PROCESS_EXEC_EVENTS"
  | PFileOpen =>
      mkProbe [AFexit "security_file_open"]
        "file_open" "kernel.file.open" "jalki_file_open" "FILE_OPEN_EVENTS"
  | PFileOpenAttempt =>
      mkProbe [ATracepoint "jalki_sys_enter_openat" "syscalls" "sys_enter_openat";
               ATracepoint "jalki_sys_exit_openat" "syscalls" "sys_exit_openat";
               ATracepoint "jalki_sys_enter_openat2" "syscalls" "sys_enter_openat2";
               ATracepoint "jalki_sys_exit_openat2" "syscalls" "sys_exit_openat2"]
        "file_open_attempt" "kernel.file.open_attempt" "jalki_sys_exit_openat" "OPEN_ATTEMPT_EVENTS"
  | PTcpConnect =>
      mkProbe [AFexit "tcp_connect"] "tcp_connect" "kernel.tcp.connect" "jalki_tcp_connect" "TCP_CONNECT_EVENTS"
  | PTcpClose =>
      mkProbe [AFexit "tcp_close"] "tcp_close" "kernel.tcp.close" "jalki_tcp_close" "TCP_CLOSE_EVENTS"
  | PTcpRetransmit =>
      mkProbe [AFentry "tcp_retransmit_skb"] "tcp_retransmit" "kernel.tcp.retransmit" "jalki_tcp_retransmit"
        "TCP_RETRANSMIT_EVENTS"
  end.

(** [Probe::family]: the name up to its first underscore, the whole name when that is empty. *)
Fixpoint before_underscore (s : string) : string :=
  match s with
  | EmptyString => ""
  | String c rest => if decide (c = "_"%char) then "" else String c (before_underscore rest)
  end.

Definition probe_family (p : Probe) : string :=
  if bool_decide (before_underscore (pb_name p) = "") then pb_name p else before_underscore (pb_name p).

(** [Probe::probe_metadata], with the default [probe_version]. *)
Definition probe_metadata (p : Probe) : ProbeMetadata :=
  mkProbeMetadata (pb_name p) "1" (probe_family p)
    (default Fentry (attachment_hook_kind <$> head (pb_attachments p)))
    (default "unknown" (attachment_function <$> head (pb_attachments p))).

(** [Probe::to_evidence] *)
Definition to_evidence (p : BuiltinProbe) (id : string) (now : Z) (raw : list byte) (cluster : string)
  : result DecodeError (list EvidenceRecord) :=
  event <-? decode_event p raw ;; Ok (normalize id now (probe_metadata (builtin p)) cluster event).

(* ------------------------------------------------------------------ *)
(** ** What decoding bounds *)

Definition str_ok (s : string) : Prop := slen s <= 256.
Definition i32_ok (z : Z) : Prop := - 2 ^ 31 <= z < 2 ^ 31.

(** The parts of an event that become labels. *)
Definition event_ok (k : KernelEvent) : Prop :=
  match k with
  | ProcessExec e =>
      is_u64 (pe_cgroup_id e) /\ is_u64 (pe_gid e) /\ is_u64 (pe_pid e) /\ is_u64 (pe_tid e) /\
      is_u64 (pe_leader_start_boottime_ns e) /\ str_ok (pe_filename e) /\ length (pe_argv_hash e) = 32%nat
  | FileOpen e | FileOpenAttempt e =>
      is_u64 (fo_flags e) /\ is_u64 (fo_cgroup_id e) /\ str_ok (fo_path e) /\ i32_ok (fo_ret e)
  | TcpConnect e => is_u64 (tc_cgroup_id e) /\ is_u64 (tc_netns e) /\ i32_ok (tc_ret e)
  | TcpClose e => is_u64 (cl_cgroup_id e) /\ is_u64 (cl_netns e)
  | TcpRetransmit e => is_u64 (re_cgroup_id e) /\ is_u64 (re_netns e)
  end.

Lemma field_length fields i bs :
  (length (field fields i bs) <= default 0 (field_size <$> fields !! i))%nat.
Proof. unfold field, slice. rewrite length_take. lia. Qed.

Lemma field_u_is_u64 fields i bs :
  (default 0 (field_size <$> fields !! i) <= 8)%nat -> is_u64 (field_u fields i bs).
Proof.
  intros H. unfold field_u. pose proof (le_get_range (field fields i bs)) as Hr.
  pose proof (field_length fields i bs). unfold is_u64, u64_max, zlen in *.
  assert (256 ^ Z.of_nat (length (field fields i bs)) <= 256 ^ 8) by (apply Z.pow_le_mono_r; lia).
  change (256 ^ 8) with (2 ^ 64) in *. lia.
Qed.

Lemma field_i32_ok fields i bs : i32_ok (field_i32 fields i bs).
Proof.
  unfold i32_ok, field_i32, wrap_signed. pose proof (Z.mod_pos_bound (le_get (field fields i bs) + 2 ^ (32 - 1)) (2 ^ 32) ltac:(lia)).
  change (2 ^ (32 - 1)) with (2 ^ 31) in *. lia.
Qed.

Lemma string_of_length bs : slen (string_of bs) = zlen bs.
Proof.
  unfold slen, zlen, string_of. f_equal. rewrite <- bytes_of_length. unfold bytes_of.
  by rewrite String.list_byte_of_string_of_list_byte.
Qed.

Lemma nul_terminated_str_length buf : slen (nul_terminated_str buf) <= zlen buf.
Proof.
  unfold nul_terminated_str, str_or_empty. case_match.
  - rewrite string_of_length. unfold zlen. rewrite length_take. lia.
  - cbn. apply zlen_nonneg.
Qed.

Lemma nul_field_ok fields i bs :
  (default 0 (field_size <$> fields !! i) <= 256)%nat -> str_ok (nul_terminated_str (field fields i bs)).
Proof.
  intros H. unfold str_ok. pose proof (nul_terminated_str_length (field fields i bs)).
  pose proof (field_length fields i bs). unfold zlen in *. lia.
Qed.

Lemma field_length_exact fields i bs off f :
  (field_offsets 0 fields).1 !! i = Some off -> fields !! i = Some f -> (off + field_size f <= length bs)%nat ->
  length (field fields i bs) = field_size f.
Proof. intros Ho Hf H. unfold field, slice. rewrite Ho, Hf. cbn. rewrite length_take, length_drop. lia. Qed.

Lemma decode_event_ok p raw k : decode_event p raw = Ok k -> event_ok k.
Proof.
  unfold decode_event, ProcessExecEvent_from_bytes, FileOpenEvent_from_bytes, TcpConnectEvent_from_bytes,
    TcpCloseEvent_from_bytes, TcpRetransmitEvent_from_bytes, read_raw.
  destruct p;
    match goal with |- context [zlen raw <? ?n] => destruct (Z.ltb_spec (zlen raw) n) as [|Hlen] end; cbn [result_bind]; intros E; try done;
    injection E as <-; cbn [event_ok]; split_and?;
    first [by apply field_u_is_u64; vm_compute; lia|by apply nul_field_ok; vm_compute; lia|by apply field_i32_ok|idtac].
  apply (field_length_exact ProcessExec_fields 10 raw 312 (Bytes 32)); [by vm_compute|done|].
  change (Z.of_nat (size_of ProcessExec_fields)) with 352 in Hlen. unfold zlen in Hlen. cbn. lia.
Qed.

(* ------------------------------------------------------------------ *)
(** ** Labels within the protocol's bounds *)

Definition map_fits (n : nat) (m : gmap string string) : Prop :=
  (size m <= n)%nat /\ forall k v, m !! k = Some v -> slen k <= MAX_LABEL /\ slen v <= MAX_LABEL.

Lemma map_fits_empty : map_fits 0 ∅.
Proof. split; [by rewrite map_size_empty|]. intros k v H. by rewrite lookup_empty in H. Qed.

Lemma map_fits_insert n m k v :
  slen k <= MAX_LABEL -> slen v <= MAX_LABEL -> map_fits n m -> map_fits (S n) (<[k := v]> m).
Proof.
  intros Hk Hv [Hn Hm]. split.
  - rewrite map_size_insert. destruct (m !! k); cbn; lia.
  - intros k' v' H. apply lookup_insert_Some in H as [[<- <-]|[_ H]]; [done|by apply Hm].
Qed.

Lemma map_fits_mono n n' m : (n <= n')%nat -> map_fits n m -> map_fits n' m.
Proof. intros Hn [H1 H2]. split; [lia|done]. Qed.

Lemma dec_fits_u64 z : is_u64 z -> slen (dec z) <= MAX_LABEL.
Proof. intros H. pose proof (dec_length z H). unfold MAX_LABEL. lia. Qed.

Lemma dec_fits_i32 z : i32_ok z -> slen (dec z) <= 21.
Proof.
  unfold i32_ok. intros H. destruct (Z.leb_spec 0 z) as [Hz|Hz].
  - pose proof (dec_length z ltac:(unfold is_u64, u64_max; lia)). lia.
  - destruct z as [|z|z]; [lia|lia|]. change (dec (Z.neg z)) with ("-" +:+ dec (Z.pos z)).
    rewrite <- Pos2Z.opp_pos in *. rewrite slen_app. change (2 ^ 31) with 2147483648 in H.
    pose proof (dec_length (Z.pos z)) as Hd. unfold is_u64, u64_max in Hd. specialize (Hd ltac:(lia)).
    change (slen "-") with 1. lia.
Qed.

Lemma errno_name_fits z : i32_ok z -> slen (errno_name z) <= 22.
Proof.
  intros H. assert (slen ("E" +:+ dec (wrap_signed 32 (- z))) <= 22) as He.
  { rewrite slen_app. pose proof (dec_fits_i32 (wrap_signed 32 (- z))) as Hd.
    assert (i32_ok (wrap_signed 32 (- z))); [|specialize (Hd ltac:(done)); change (slen "E") with 1; lia].
    unfold i32_ok, wrap_signed. pose proof (Z.mod_pos_bound (- z + 2 ^ (32 - 1)) (2 ^ 32) ltac:(lia)).
    change (2 ^ (32 - 1)) with (2 ^ 31) in *. lia. }
  unfold errno_name. repeat case_match; first [exact He|by vm_compute].
Qed.

(** The named errnos, and what an unnamed one is printed as. *)
Definition ERRNO_NAMES : list (Z * string) :=
  [(111, "ECONNREFUSED"); (110, "ETIMEDOUT"); (113, "EHOSTUNREACH"); (101, "ENETUNREACH"); (1, "EPERM"); (2, "ENOENT");
   (6, "ENXIO"); (13, "EACCES"); (20, "ENOTDIR"); (21, "EISDIR"); (40, "ELOOP")].

Lemma errno_name_cases ret :
  let n := wrap_signed 32 (- ret) in
  (n, errno_name ret) ∈ ERRNO_NAMES \/ errno_name ret = "E" +:+ dec n.
Proof.
  cbv zeta. unfold errno_name. generalize (wrap_signed 32 (- ret)) as n. intros n.
  repeat case_match; first [by right|left; apply (bool_decide_unpack _); by vm_compute].
Qed.

Lemma str_ok_fits s : str_ok s -> slen s <= MAX_LABEL.
Proof. unfold str_ok, MAX_LABEL. lia. Qed.

Lemma concat_empty_cons x l : String.concat "" (x :: l) = x +:+ String.concat "" l.
Proof.
  destruct l; [|done]. change (x = x +:+ ""). induction x as [|c x IH]; [done|].
  change (String c x = String c (x +:+ "")). by rewrite <- IH.
Qed.

Lemma hex32_length bs : slen (hex32 bs) <= 2 * zlen bs.
Proof.
  assert (forall n, slen (hex_digit n) <= 1) as Hd.
  { intros n. unfold hex_digit. generalize (Z.to_nat n). intros i. do 16 (destruct i as [|i]; [by vm_compute|]).
    destruct i; by vm_compute. }
  induction bs as [|b bs IH]; [by vm_compute|].
  unfold hex32 in *. cbn [map]. rewrite concat_empty_cons, !slen_app, zlen_cons.
  pose proof (Hd (bZ b / 16)). pose proof (Hd (bZ b mod 16)). lia.
Qed.

Lemma tcp_state_as_str_fits s : slen (tcp_state_as_str s) <= MAX_LABEL.
Proof. by destruct s; vm_compute. Qed.

Lemma argv_hash_fits bs : length bs = 32%nat -> slen ("sha256:" +:+ hex32 bs) <= MAX_LABEL.
Proof.
  intros H. rewrite slen_app. pose proof (hex32_length bs) as Hh. unfold zlen in Hh. rewrite H in Hh.
  change (slen "sha256:") with 7. unfold MAX_LABEL. lia.
Qed.

(** One label's value fits. *)
Ltac label_value :=
  lazymatch goal with
  | H : is_u64 ?z |- slen (dec ?z) <= _ => exact (dec_fits_u64 z H)
  | H : i32_ok ?z |- slen (dec ?z) <= _ => etrans; [exact (dec_fits_i32 z H)|by vm_compute]
  | H : i32_ok ?z |- slen (errno_name ?z) <= _ => etrans; [exact (errno_name_fits z H)|by vm_compute]
  | H : length ?bs = 32%nat |- slen (_ +:+ hex32 ?bs) <= _ => exact (argv_hash_fits bs H)
  | H : str_ok ?s |- slen ?s <= _ => exact (str_ok_fits s H)
  | |- slen (tcp_state_as_str ?s) <= _ => exact (tcp_state_as_str_fits s)
  | |- _ => by vm_compute
  end.

Ltac labels_fit :=
  eapply (map_fits_mono _ 13); cycle 1;
  [repeat (apply map_fits_insert; [by vm_compute|label_value|]); apply map_fits_empty|lia].

Lemma to_occurrence_labels_fit id now cluster k :
  event_ok k -> map_fits 13 (occ_labels (to_occurrence id now k cluster)).
Proof.
  intros H. destruct k as [e|e|e|e|e|e]; cbn [event_ok] in H; destruct_and? H; cbn [to_occurrence].
  - unfold process_exec_to_occurrence. destruct (negb (pe_leader_start_boottime_ns e =? 0)); cbn; labels_fit.
  - unfold file_open_to_occurrence, label_if. destruct (fo_ret e =? 0), (fo_path_truncated e); cbn; labels_fit.
  - unfold open_attempt_to_occurrence, label_if. destruct (fo_path_truncated e); cbn; labels_fit.
  - unfold tcp_connect_to_occurrence. destruct (tc_ret e =? 0); cbn; labels_fit.
  - unfold tcp_close_to_occurrence. destruct (0 <? cl_duration_ns e); cbn; labels_fit.
  - unfold tcp_retransmit_to_occurrence. cbn; labels_fit.
Qed.

(** The fields every occurrence has. *)
Lemma to_occurrence_frame id now cluster p raw k :
  decode_event p raw = Ok k ->
  let o := to_occurrence id now k cluster in
  occ_source o = "jalki/" +:+ pb_name (builtin p) /\ occ_type o = pb_occurrence_type (builtin p) /\
  occ_cluster o = cluster /\ occ_namespace o = None /\ zlen (occ_entity_ids o) <= 2 /\
  occ_id o = id /\ occ_timestamp o = now.
Proof.
  unfold decode_event. destruct p; intros (e & _ & [= <-])%result_bind_ok; cbn [to_occurrence].
  - unfold process_exec_to_occurrence. by destruct (negb (pe_leader_start_boottime_ns e =? 0)).
  - unfold file_open_to_occurrence, label_if. by destruct (fo_ret e =? 0), (fo_path_truncated e).
  - unfold open_attempt_to_occurrence, label_if. by destruct (fo_path_truncated e).
  - unfold tcp_connect_to_occurrence. by destruct (tc_ret e =? 0).
  - unfold tcp_close_to_occurrence. by destruct (0 <? cl_duration_ns e).
  - by unfold tcp_retransmit_to_occurrence.
Qed.

(** Where the C structs of the probes keep the cgroup; the time is their first eight bytes, the
    process identifier the next four. *)
Definition cgroup_offset (p : BuiltinProbe) : nat :=
  match p with
  | PFileOpen | PFileOpenAttempt => 16
  | PProcessExec => 24
  | PTcpConnect | PTcpRetransmit => 64
  | PTcpClose => 80
  end.

Lemma decode_event_who p raw k :
  decode_event p raw = Ok k ->
  event_observed_at_ns k = le_get (slice 0 8 raw) /\ event_pid k = le_get (slice 8 4 raw) /\
  event_cgroup_id k = le_get (slice (cgroup_offset p) 8 raw).
Proof.
  unfold decode_event, ProcessExecEvent_from_bytes, FileOpenEvent_from_bytes, TcpConnectEvent_from_bytes,
    TcpCloseEvent_from_bytes, TcpRetransmitEvent_from_bytes.
  destruct p; intros (e & (r & Hr & [= <-])%result_bind_ok & [= <-])%result_bind_ok; unfold read_raw in Hr;
    (destruct (zlen raw <? _); [done|]); by injection Hr as <-.
Qed.

(** What every occurrence says of the process and of how the call went. *)
Definition event_success (k : KernelEvent) : bool :=
  match k with
  | ProcessExec e => pe_ret e =? 0
  | FileOpen e => fo_ret e =? 0
  | TcpConnect e => tc_ret e =? 0
  | TcpClose _ => true
  | FileOpenAttempt _ | TcpRetransmit _ => false
  end.

Lemma to_occurrence_who id now cluster k :
  let o := to_occurrence id now k cluster in
  proc_pid <$> occ_process_data o = Some (event_pid k) /\
  head (occ_entity_ids o) = Some (process_entity (event_pid k)) /\
  occ_labels o !! "cgroup_id" = Some (dec (event_cgroup_id k)) /\
  occ_outcome o = Some (outcome_of (event_success k)).
Proof.
  destruct k as [e|e|e|e|e|e]; cbn [to_occurrence].
  - unfold process_exec_to_occurrence. destruct (negb (pe_leader_start_boottime_ns e =? 0)); by split_and!.
  - unfold file_open_to_occurrence, label_if. destruct (negb (fo_ret e =? 0)), (fo_path_truncated e); by split_and!.
  - unfold open_attempt_to_occurrence, label_if. destruct (fo_path_truncated e); by split_and!.
  - unfold tcp_connect_to_occurrence. destruct (negb (tc_ret e =? 0)); by split_and!.
  - unfold tcp_close_to_occurrence. destruct (0 <? cl_duration_ns e); by split_and!.
  - unfold tcp_retransmit_to_occurrence. by split_and!.
Qed.

(** C26: every event a built-in probe decodes becomes one valid record. Whatever bytes the ring buffer
    holds, if they decode then there is one record: it carries the time, the process and the cgroup
    that the bytes have at the places the C struct gives them, names the probe, and its occurrence
    carries the type the probe declares, the identifier and time of its creation, the process, the
    cgroup and whether the call succeeded. Given a cluster name that is not blank and no longer than
    [MAX_SHORT], the occurrence passes [validate]: no path, address, errno or counter a kernel event
    can carry makes a label too long. *)
Theorem to_evidence_valid p id now raw cluster records :
  to_evidence p id now raw cluster = Ok records ->
  trim cluster <> "" -> slen cluster <= MAX_SHORT ->
  exists k r,
    decode_event p raw = Ok k /\ records = [r] /\ validate (er_occurrence r) = Ok tt /\
    occ_type (er_occurrence r) = pb_occurrence_type (builtin p) /\
    occ_source (er_occurrence r) = "jalki/" +:+ pb_name (builtin p) /\
    er_probe r = probe_metadata (builtin p) /\ er_pid r = event_pid k /\
    er_cgroup_id r = event_cgroup_id k /\ er_binding r = None /\
    er_observed_at_ns r = event_observed_at_ns k /\
    er_observed_at_ns r = le_get (slice 0 8 raw) /\ er_pid r = le_get (slice 8 4 raw) /\
    er_cgroup_id r = le_get (slice (cgroup_offset p) 8 raw) /\
    occ_id (er_occurrence r) = id /\ occ_timestamp (er_occurrence r) = now /\
    occ_cluster (er_occurrence r) = cluster /\
    proc_pid <$> occ_process_data (er_occurrence r) = Some (er_pid r) /\
    head (occ_entity_ids (er_occurrence r)) = Some (process_entity (er_pid r)) /\
    occ_labels (er_occurrence r) !! "cgroup_id" = Some (dec (er_cgroup_id r)) /\
    occ_outcome (er_occurrence r) = Some (outcome_of (event_success k)).
Proof.
  unfold to_evidence. intros (k & Hk & [= <-])%result_bind_ok Hc Hl. exists k. eexists.
  destruct (to_occurrence_frame id now cluster p raw k Hk) as (Hs & Ht & Hcl & Hns & Hen & Hid & Hnow).
  destruct (to_occurrence_labels_fit id now cluster k (decode_event_ok p raw k Hk)) as [Hn Hlab].
  destruct (to_occurrence_who id now cluster k) as (Hpd & Hent & Hcg & Hout).
  destruct (decode_event_who p raw k Hk) as (Hat & Hpid & Hcgr).
  split; [done|]. split; [reflexivity|]. cbn. split_and!; try done.
  apply validate_spec. split.
  - rewrite Hs. by destruct p; vm_compute.
  - rewrite Ht. by destruct p; vm_compute.
  - by rewrite Hcl.
  - by rewrite Hns.
  - unfold MAX_LABELS. lia.
  - done.
  - unfold MAX_ENTITY_IDS. lia.
Qed.

Lemma to_evidence_valid_witness :
  exists r, to_evidence PFileOpen "01J" 5 (raw_bytes (fun _ => x00) (w_raw_open (w_path "/etc/shadow"))) "prod" = Ok [r] /\
  validate (er_occurrence r) = Ok tt /\ occ_labels (er_occurrence r) !! "errno" = Some "EACCES".
Proof.
  destruct (to_evidence PFileOpen "01J" 5 (raw_bytes (fun _ => x00) (w_raw_open (w_path "/etc/shadow"))) "prod")
    as [records|e] eqn:E; [|by vm_compute in E].
  destruct (to_evidence_valid PFileOpen "01J" 5 _ "prod" records E ltac:(by vm_compute) ltac:(by vm_compute))
    as (k & r & _ & -> & Hv & _).
  exists r. split; [done|]. split; [exact Hv|]. vm_compute in E. injection E as <-. by vm_compute.
Defined.

Example ipv6_display_examples :
  map ipv6_display [repeat x00 15 ++ [x01]; repeat x00 16; [x20; x01; x0d; xb8] ++ repeat x00 11 ++ [x01];
                    repeat x00 10 ++ [xff; xff; x0a; x00; x00; x01]; repeat x11 16]
  = ["::1"; "::"; "2001:db8::1"; "::ffff:10.0.0.1"; "1111:1111:1111:1111:1111:1111:1111:1111"].
Proof. by vm_compute. Qed.
