(* ===== verification/Store.v ===== *)
(** The local event store ([jalki/src/store.rs]): a ring buffer of recent occurrences per probe, and
    the filtered queries the IPC handlers make of it.

    [Vec::with_capacity] is taken to allocate what it is asked for. The lock is left out: each
    operation holds it throughout. [chrono]'s [now - Duration::seconds(secs)] is a parameter. *)
From Stdlib Require Import Strings.String.
From S2P Require Import Prelude Protocol Evidence Samples.

Record ProbeBuffer := mkProbeBuffer {
  pbf_capacity : Z;
  pbf_events : list Occurrence;
  pbf_head : Z;
  pbf_count : Z
}.

Definition ProbeBuffer_new (capacity : Z) : ProbeBuffer := mkProbeBuffer capacity [] 0 0.

(** [ProbeBuffer::push]; [None] is the panic of an index out of range. *)
Definition buffer_push (occ : Occurrence) (b : ProbeBuffer) : option ProbeBuffer :=
  if zlen (pbf_events b) <? pbf_capacity b then
    Some (mkProbeBuffer (pbf_capacity b) (pbf_events b ++ [occ]) (pbf_head b) (add64 (pbf_count b) 1))
  else
    _ ← pbf_events b !! Z.to_nat (pbf_head b);
    Some (mkProbeBuffer (pbf_capacity b) (<[Z.to_nat (pbf_head b) := occ]> (pbf_events b))
            ((pbf_head b + 1) mod pbf_capacity b) (add64 (pbf_count b) 1)).

(** [ProbeBuffer::iter] *)
Definition buffer_iter (b : ProbeBuffer) : list Occurrence :=
  let cap := zlen (pbf_events b) in
  let start := if cap <=? pbf_count b then pbf_head b else 0 in
  omap (fun i => pbf_events b !! Z.to_nat ((start + Z.of_nat i) mod cap)) (seq 0 (length (pbf_events b))).

Record EventFilter := mkEventFilter {
  ef_last_seconds : option Z;
  ef_src_ip : option string;
  ef_dst_ip : option string;
  ef_src_port : option Z;
  ef_dst_port : option Z;
  ef_pid : option Z;
  ef_command : option string;
  ef_limit : option Z
}.

Definition EventFilter_default : EventFilter := mkEventFilter None None None None None None None None.

Record EventStore := mkEventStore {
  es_capacity : Z;
  es_buffers : gmap string ProbeBuffer
}.

Definition EventStore_new (capacity : Z) : EventStore := mkEventStore capacity ∅.

(** [EventStore::push] *)
Definition store_push (probe_name : string) (occ : Occurrence) (s : EventStore) : option EventStore :=
  let buffer := default (ProbeBuffer_new (es_capacity s)) (es_buffers s !! probe_name) in
  buffer ← buffer_push occ buffer;
  Some (mkEventStore (es_capacity s) (<[probe_name := buffer]> (es_buffers s))).

(** One [if let Some(x) = filter.field { .. }] on a payload that may be missing. *)
Definition field_is {P A} `{EqDecision A} (wanted : option A) (payload : option P) (get : P -> A) : bool :=
  match wanted with
  | None => true
  | Some x => match payload with
              | Some p => bool_decide (get p = x)
              | None => false
              end
  end.

Section queries.
(** [now - chrono::Duration::seconds(secs as i64)] *)
Variable seconds_before : Z -> Z -> Z.

(** The closure of [filter_events]. *)
Definition event_matches (now : Z) (f : EventFilter) (occ : Occurrence) : bool :=
  match ef_last_seconds f with
  | Some secs => negb (occ_timestamp occ <? seconds_before now (wrap_signed 64 secs))
  | None => true
  end
  && field_is (ef_src_ip f) (occ_network_data occ) net_src_ip
  && field_is (ef_dst_ip f) (occ_network_data occ) net_dst_ip
  && field_is (ef_src_port f) (occ_network_data occ) net_src_port
  && field_is (ef_dst_port f) (occ_network_data occ) net_dst_port
  && field_is (ef_pid f) (occ_process_data occ) proc_pid
  && field_is (ef_command f) (occ_process_data occ) proc_command.

Definition filter_limit (f : EventFilter) : Z := default 100 (ef_limit f).

Definition filter_events (now : Z) (f : EventFilter) (events : list Occurrence) : list Occurrence :=
  take (Z.to_nat (filter_limit f)) (List.filter (event_matches now f) events).

(** [EventStore::query] *)
Definition query (now : Z) (probe_name : string) (f : EventFilter) (s : EventStore) : list Occurrence :=
  match es_buffers s !! probe_name with
  | Some b => filter_events now f (buffer_iter b)
  | None => []
  end.

(** [sort_by_key(|occ| Reverse(occ.timestamp))]: stable, most recent first. *)
Fixpoint insert_recent (occ : Occurrence) (l : list Occurrence) : list Occurrence :=
  match l with
  | [] => [occ]
  | o :: rest => if occ_timestamp o <? occ_timestamp occ then occ :: l else o :: insert_recent occ rest
  end.
Definition sort_recent (l : list Occurrence) : list Occurrence := foldl (fun acc o => insert_recent o acc) [] l.

(** [EventStore::query_all]; the buffers come in the map's order, which is unspecified. *)
Definition query_all (now : Z) (f : EventFilter) (s : EventStore) : list Occurrence :=
  let results := concat (map (fun nb : string * ProbeBuffer => filter_events now f (buffer_iter nb.2))
                           (map_to_list (es_buffers s))) in
  take (Z.to_nat (filter_limit f)) (sort_recent results).

(** [EventStore::query_since] *)
Definition query_since (now : Z) (probe_name : string) (last_seen_id : option string) (f : EventFilter)
    (s : EventStore) : list Occurrence :=
  match es_buffers s !! probe_name with
  | Some b =>
      let filtered := List.filter (fun occ => match last_seen_id with
                                              | Some last => negb (String.leb (occ_id occ) last)
                                              | None => true
                                              end) (buffer_iter b) in
      filter_events now f filtered
  | None => []
  end.
End queries.

(** [EventStore::probe_names] *)
Definition probe_names (s : EventStore) : list string := (map_to_list (es_buffers s)).*1.

(* ------------------------------------------------------------------ *)
(** ** The ring holds the newest events *)

(** The last [n] of a list. *)
Definition lastn {A} (n : nat) (l : list A) : list A := drop (length l - n) l.

Lemma tail_drop_S {A} (k : nat) (l : list A) : tail (drop k l) = drop (S k) l.
Proof. revert l. induction k as [|k IH]; intros [|x l]; try done. apply IH. Qed.

Lemma lastn_snoc {A} (n : nat) (l : list A) x :
  (0 < n)%nat -> lastn n (l ++ [x]) = (if (length l <? n)%nat then lastn n l else tail (lastn n l)) ++ [x].
Proof.
  intros Hn. unfold lastn. rewrite length_app. cbn [length]. destruct (Nat.ltb_spec (length l) n).
  - replace (length l + 1 - n)%nat with 0%nat by lia. by replace (length l - n)%nat with 0%nat by lia.
  - rewrite drop_app_le by lia. f_equal. rewrite tail_drop_S. f_equal. lia.
Qed.

Lemma lastn_length {A} n (l : list A) : length (lastn n l) = Nat.min n (length l).
Proof. unfold lastn. rewrite length_drop. lia. Qed.

Section ring.
Implicit Types (b : ProbeBuffer) (xs : list Occurrence).

(** Reading the events from [start] on, round the end. *)
Lemma ring_read (events : list Occurrence) (start : nat) :
  (start < length events)%nat ->
  omap (fun i => events !! Z.to_nat ((Z.of_nat start + Z.of_nat i) mod zlen events)) (seq 0 (length events))
    = drop start events ++ take start events.
Proof.
  intros Hs. unfold zlen.
  assert (forall i, (i < length events)%nat ->
    events !! Z.to_nat ((Z.of_nat start + Z.of_nat i) mod Z.of_nat (length events))
      = (drop start events ++ take start events) !! i) as Hi.
  { intros i Hi. rewrite <- Nat2Z.inj_add, <- Nat2Z.inj_mod, Nat2Z.id.
    destruct (decide (start + i < length events)%nat).
    - rewrite Nat.mod_small by done. rewrite lookup_app_l by (rewrite length_drop; lia). by rewrite lookup_drop.
    - replace (start + i)%nat with (start + i - length events + 1 * length events)%nat by lia.
      rewrite Nat.Div0.mod_add, Nat.mod_small by lia.
      rewrite lookup_app_r by (rewrite length_drop; lia). rewrite length_drop, lookup_take_lt by lia. f_equal. lia. }
  set (l := drop start events ++ take start events) in *.
  assert (length l = length events) as Hl by (subst l; rewrite length_app, length_drop, length_take; lia).
  rewrite <- Hl in *. clearbody l. clear Hs. rename Hi into H. 
  transitivity (omap (fun i => l !! i) (seq 0 (length l))).
  - apply list_omap_ext, Forall2_same_length_lookup. split; [done|]. intros i x y Hx Hy.
    rewrite Hx in Hy. injection Hy as ->. apply lookup_seq in Hx as [-> ?]. by apply H.
  - clear. induction l as [|x l IH] using rev_ind; [done|].
    rewrite length_app. cbn [length]. rewrite seq_app, omap_app. cbn.
    rewrite list_lookup_middle by done. f_equal. rewrite <- IH at 2.
    apply list_omap_ext, Forall2_same_length_lookup. split; [done|]. intros i x' y Hx Hy.
    rewrite Hx in Hy. injection Hy as ->. apply lookup_seq in Hx as [-> ?]. by rewrite lookup_app_l by lia.
Qed.

(** The buffer after pushing [xs]: it holds the newest, the oldest of them at the head. *)
Record buffer_ok (cap : nat) xs b : Prop := {
  bo_capacity : pbf_capacity b = Z.of_nat cap;
  bo_count : pbf_count b = zlen xs;
  bo_length : length (pbf_events b) = Nat.min cap (length xs);
  bo_head : 0 <= pbf_head b < Z.of_nat cap;
  bo_fill : (length xs < cap)%nat -> pbf_head b = 0;
  bo_window : drop (Z.to_nat (pbf_head b)) (pbf_events b) ++ take (Z.to_nat (pbf_head b)) (pbf_events b)
              = lastn cap xs
}.

Lemma buffer_new_ok cap : (0 < cap)%nat -> buffer_ok cap [] (ProbeBuffer_new (Z.of_nat cap)).
Proof. intros H. split; cbn; try done; try lia. Qed.

Lemma buffer_push_ok cap xs b occ :
  (0 < cap)%nat -> zlen xs < u64_max -> buffer_ok cap xs b ->
  exists b', buffer_push occ b = Some b' /\ buffer_ok cap (xs ++ [occ]) b'.
Proof.
  intros Hc Hx [Hcap Hcount Hlen Hhead Hfill Hw]. unfold buffer_push. rewrite Hcap.
  assert (add64 (pbf_count b) 1 = zlen (xs ++ [occ])) as Hcount'.
  { rewrite Hcount, zlen_app. change (zlen [occ]) with 1. pose proof (zlen_nonneg xs). apply add64_small. lia. }
  destruct (Z.ltb_spec (zlen (pbf_events b)) (Z.of_nat cap)) as [Hlt|Hge]; unfold zlen in *.
  - assert (length xs < cap)%nat as Hlt' by lia. rewrite (Hfill Hlt') in *. change (Z.to_nat 0) with 0%nat in *. rewrite drop_0, take_0, app_nil_r in Hw.
    assert (pbf_events b = xs) as He by (rewrite Hw; unfold lastn; by replace (length xs - cap)%nat with 0%nat by lia).
    eexists. split; [done|]. split; cbn [pbf_capacity pbf_count pbf_events pbf_head]; rewrite ?length_app in *; cbn [length] in *.
    + done.
    + rewrite Hcount'. unfold zlen. by rewrite length_app.
    + lia.
    + lia.
    + lia.
    + change (Z.to_nat 0) with 0%nat. rewrite drop_0, take_0, app_nil_r, lastn_snoc by lia. destruct (Nat.ltb_spec (length xs) cap); [by rewrite <- Hw|lia].
  - set (h := Z.to_nat (pbf_head b)) in *. assert (h < length (pbf_events b))%nat as Hh by (unfold h; lia).
    destruct (lookup_lt_is_Some_2 _ _ Hh) as [a Ha]. rewrite Ha. cbn [mbind option_bind].
    assert (length (pbf_events b) = cap) as Hfull by lia.
    eexists. split; [done|]. split; cbn [pbf_capacity pbf_count pbf_events pbf_head];
      rewrite ?length_app, ?length_insert in *; cbn [length] in *.
    + done.
    + rewrite Hcount'. unfold zlen. by rewrite length_app.
    + lia.
    + apply Z.mod_pos_bound. lia.
    + lia.
    + rewrite lastn_snoc by lia. destruct (Nat.ltb_spec (length xs) cap); [lia|]. rewrite <- Hw.
      pose proof (take_drop_middle _ _ _ Ha) as Hmid.
      assert (length (take h (pbf_events b)) = h) as Hth by (rewrite length_take; lia).
      rewrite insert_take_drop by done. rewrite (drop_S _ _ _ Ha). cbn [tail].
      destruct (decide (S h = cap)) as [Heq|Hne].
      * replace ((pbf_head b + 1) mod Z.of_nat cap) with 0 by (replace (pbf_head b + 1) with (Z.of_nat cap) by lia;
          symmetry; apply Z_mod_same_full).
        change (Z.to_nat 0) with 0%nat. rewrite drop_0, take_0, app_nil_r, (drop_ge (pbf_events b) (S h)) by lia. done.
      * rewrite Z.mod_small by lia. replace (Z.to_nat (pbf_head b + 1)) with (S h) by lia.
        rewrite !(cons_middle occ), !(app_assoc (take h _)).
        assert (length (take h (pbf_events b) ++ [occ]) = S h) as Hl by (rewrite length_app, Hth; cbn; lia).
        rewrite drop_app_length', take_app_length' by done. cbn. by rewrite <- app_assoc.
Qed.

Lemma buffer_iter_ok cap xs b : buffer_ok cap xs b -> buffer_iter b = lastn cap xs.
Proof.
  intros [Hcap Hcount Hlen Hhead Hfill Hw]. unfold buffer_iter. rewrite Hcount.
  destruct (Z.leb_spec (zlen (pbf_events b)) (zlen xs)) as [_|H]; [|unfold zlen in *; lia].
  destruct (decide (xs = [])) as [->|Hne].
  { cbn in Hlen. destruct (pbf_events b) as [|x l]; [by unfold lastn; cbn|cbn in Hlen; lia]. }
  rewrite <- Hw, <- ring_read.
  - by rewrite Z2Nat.id by lia.
  - assert (0 < length xs)%nat by (destruct xs; [done|cbn; lia]). rewrite Hlen.
    destruct (decide (length xs < cap)%nat) as [Hlt|]; [rewrite (Hfill Hlt); cbn; lia|lia].
Qed.
End ring.

(* ------------------------------------------------------------------ *)
(** ** The store *)

(** A history of pushes. *)
Definition store_pushes (ps : list (string * Occurrence)) (s : EventStore) : option EventStore :=
  foldl (fun acc p => s ← acc; store_push p.1 p.2 s) (Some s) ps.

Definition of_probe (probe : string) (ps : list (string * Occurrence)) : list Occurrence :=
  (List.filter (fun p => bool_decide (p.1 = probe)) ps).*2.

Definition store_ok (cap : nat) (ps : list (string * Occurrence)) (s : EventStore) : Prop :=
  es_capacity s = Z.of_nat cap /\
  forall probe, match es_buffers s !! probe with
                | None => of_probe probe ps = []
                | Some b => buffer_ok cap (of_probe probe ps) b
                end.

Lemma of_probe_snoc probe ps p :
  of_probe probe (ps ++ [p]) = of_probe probe ps ++ (if bool_decide (p.1 = probe) then [p.2] else []).
Proof.
  unfold of_probe. rewrite List.filter_app, fmap_app. f_equal. cbn. by case_bool_decide.
Qed.

Lemma of_probe_length probe ps : zlen (of_probe probe ps) <= zlen ps.
Proof.
  unfold zlen, of_probe. rewrite length_fmap. apply inj_le. apply List.filter_length_le.
Qed.

(** One push. *)
Lemma store_push_ok cap ps s p :
  (0 < cap)%nat -> zlen ps < u64_max -> store_ok cap ps s ->
  exists s', store_push p.1 p.2 s = Some s' /\ store_ok cap (ps ++ [p]) s'.
Proof.
  intros Hc Hl [Hcap Hb]. unfold store_push. pose proof (of_probe_length p.1 ps) as Hle.
  assert (buffer_ok cap (of_probe p.1 ps) (default (ProbeBuffer_new (es_capacity s)) (es_buffers s !! p.1))) as Hok.
  { specialize (Hb p.1). rewrite Hcap. destruct (es_buffers s !! p.1); [done|]. rewrite Hb. by apply buffer_new_ok. }
  destruct (buffer_push_ok cap (of_probe p.1 ps) _ p.2 Hc ltac:(lia) Hok) as (b' & Hb' & Hok').
  rewrite Hb'. cbn [mbind option_bind]. eexists. split; [done|]. split; [done|].
  intros probe. cbn [es_buffers]. rewrite of_probe_snoc. destruct (decide (p.1 = probe)) as [<-|Hne].
  - rewrite lookup_insert_eq, bool_decide_true by done. exact Hok'.
  - rewrite lookup_insert_ne, bool_decide_false by done. rewrite app_nil_r. apply Hb.
Qed.

Lemma store_new_ok cap : store_ok cap [] (EventStore_new (Z.of_nat cap)).
Proof. split; [done|]. intros probe. cbn. by rewrite lookup_empty. Qed.

Lemma store_pushes_ok cap ps :
  (0 < cap)%nat -> zlen ps <= u64_max ->
  exists s, store_pushes ps (EventStore_new (Z.of_nat cap)) = Some s /\ store_ok cap ps s.
Proof.
  intros Hc. induction ps as [|p ps IH] using rev_ind; intros Hl.
  { eexists. split; [done|apply store_new_ok]. }
  rewrite zlen_app in Hl. change (zlen [p]) with 1 in Hl. destruct IH as (s & Hs & Hok); [lia|].
  destruct (store_push_ok cap ps s p Hc ltac:(lia) Hok) as (s' & Hs' & Hok'). exists s'. split; [|done].
  unfold store_pushes in *. by rewrite foldl_app, Hs.
Qed.

(** C29: the store is a bounded, per-probe memory of the newest events. However pushes to the probes
    interleave, no push panics, and a query of a probe sees exactly its last [capacity]
    occurrences, oldest first, filtered, and cut to the first [limit]. *)
Theorem store_holds_newest cap ps :
  (0 < cap)%nat -> zlen ps <= u64_max ->
  exists s, store_pushes ps (EventStore_new (Z.of_nat cap)) = Some s /\
  forall seconds_before now probe f,
    query seconds_before now probe f s =
      take (Z.to_nat (filter_limit f))
        (List.filter (event_matches seconds_before now f) (lastn cap (of_probe probe ps))).
Proof.
  intros Hc Hl. destruct (store_pushes_ok cap ps Hc Hl) as (s & Hs & _ & Hb). exists s. split; [done|].
  intros seconds_before now probe f. unfold query, filter_events. specialize (Hb probe).
  destruct (es_buffers s !! probe) as [b|].
  - by rewrite (buffer_iter_ok _ _ _ Hb).
  - rewrite Hb. unfold lastn. cbn. symmetry. apply take_nil.
Qed.

Definition w_occ (n : nat) : Occurrence := er_occurrence (sample_record "kernel.tcp.connect" (Z.of_nat n)).
Definition w_before (now secs : Z) : Z := now - 1000000000 * secs.

(** The newest events are the ones a full page leaves out: the limit is applied to each probe's
    events oldest first, before [query_all] sorts them most recent first. *)
Theorem query_all_misses_newest :
  (fun s => map occ_timestamp (query_all w_before 0 EventFilter_default s)) <$>
    store_pushes (map (fun n => ("p", w_occ n)) (seq 0 101)) (EventStore_new 10000)
  = Some (rev (map Z.of_nat (seq 0 100))).
Proof. vm_compute. reflexivity. Qed.

Lemma store_holds_newest_witness :
  exists s, store_pushes [("p", w_occ 1); ("q", w_occ 2); ("p", w_occ 3); ("p", w_occ 4)] (EventStore_new 2) = Some s /\
  query w_before 0 "p" EventFilter_default s = [w_occ 3; w_occ 4].
Proof.
  destruct (store_holds_newest 2 [("p", w_occ 1); ("q", w_occ 2); ("p", w_occ 3); ("p", w_occ 4)] ltac:(lia) ltac:(by vm_compute))
    as (s & Hs & Hq).
  exists s. split; [exact Hs|]. rewrite Hq. vm_compute. reflexivity.
Defined.
