(* ===== verification/Reader.v ===== *)
(** The ring-buffer readers ([jalki/src/reader.rs]): sampling, decoding, the userspace half of the
    sensitive-path gate, runtime binding, the local store and the per-probe counters; and the
    periodic self-observability that turns counted loss into gap evidence
    ([emit_self_observability] in [jalki/src/runtime.rs]).

    A drained item is its bytes with what the environment has for it. The ring buffer, the clock and
    the Prometheus counters are left out. *)
From Stdlib Require Import Strings.Byte.
From S2P Require Import Prelude Float Protocol Evidence Samples Gap Event SensitivePaths Normalize Store.

(* ------------------------------------------------------------------ *)
(** ** Counters *)

(** [DropObservation] *)
Record DropObservation := mkDropObservation {
  do_total : Z;
  do_tracking_started_at_ns : Z;
  do_counter_polled_at_ns : Z
}.

Record ProbeStats := mkProbeStats {
  ps_events_emitted : Z;
  ps_events_dropped : Z;
  ps_events_sampled_out : Z;
  ps_parse_errors : Z;
  ps_drop_observation : DropObservation
}.
#[export] Instance eta_ProbeStats : Eta ProbeStats :=
  fun s => mkProbeStats (ps_events_emitted s) (ps_events_dropped s) (ps_events_sampled_out s)
                        (ps_parse_errors s) (ps_drop_observation s).

Definition ProbeStats_new : ProbeStats := mkProbeStats 0 0 0 0 (mkDropObservation 0 0 0).

Definition start_drop_tracking (at_ns : Z) (s : ProbeStats) : ProbeStats :=
  s <| ps_drop_observation ::= fun o => mkDropObservation (do_total o) at_ns at_ns |>.

(** [record_drop_poll]: the new drops, and the stats. *)
Definition record_drop_poll (total at_ns : Z) (s : ProbeStats) : Z * ProbeStats :=
  let o := ps_drop_observation s in
  (sub64 total (do_total o),
   s <| ps_drop_observation := mkDropObservation total (do_tracking_started_at_ns o) at_ns |>
     <| ps_events_dropped := total |>).

Definition drop_observation (s : ProbeStats) : Z * Z * Z :=
  let o := ps_drop_observation s in
  (do_total o, do_tracking_started_at_ns o, do_counter_polled_at_ns o).

(* ------------------------------------------------------------------ *)
(** ** Intake *)

(** [record_matches_sensitive_paths] *)
Definition record_matches_sensitive_paths (patterns : list string) (r : EvidenceRecord) : bool :=
  let labels := occ_labels (er_occurrence r) in
  let path_is_sensitive key :=
    match labels !! key with
    | Some path => is_match patterns path
    | None => false
    end in
  if bool_decide (occ_type (er_occurrence r) = "kernel.file.open") then path_is_sensitive "resource_ref_id"
  else if bool_decide (occ_type (er_occurrence r) = "kernel.file.open_attempt") then
    if bool_decide (labels !! "path_truncated" = Some "true") then true
    else path_is_sensitive "requested_path"
  else true.

(** What a reader works on: its counters, the shared store, and the message it is building. *)
Record Reader := mkReader {
  rd_stats : ProbeStats;
  rd_store : EventStore;
  rd_counter : Z;
  rd_records : list EvidenceRecord
}.
#[export] Instance eta_Reader : Eta Reader :=
  fun r => mkReader (rd_stats r) (rd_store r) (rd_counter r) (rd_records r).

(** A drained item: its bytes, the id and time its occurrence gets, and what the enricher
    ([RuntimeEnricher::resolve]) answers of a cgroup and a process when it is bound. *)
Record Item := mkItem { it_raw : list byte; it_id : string; it_now : Z; it_resolve : Z -> Z -> RuntimeBinding }.

Definition MAX_DRAIN_ITEMS : nat := 1024.

(** [do_sampling] and [sample_every] *)
Definition sampling (sample_rate : f64) : bool * Z :=
  let do_sampling := f_lt sample_rate f_one in
  (do_sampling, if do_sampling then f_to_u64 (f_round (f_div f_one sample_rate)) else 1).

(** [u64::is_multiple_of] *)
Definition is_multiple_of (a b : Z) : bool := if b =? 0 then a =? 0 else a mod b =? 0.

Definition count_sampled_out (r : Reader) : Reader :=
  r <| rd_stats ::= fun s => s <| ps_events_sampled_out ::= fun n => add64 n 1 |> |>.

Definition count_parse_error (r : Reader) : Reader :=
  r <| rd_stats ::= fun s => s <| ps_parse_errors ::= fun n => add64 n 1 |> |>.

Definition count_emitted (emitted : Z) (r : Reader) : Reader :=
  r <| rd_stats ::= fun s => s <| ps_events_emitted ::= fun n => add64 n emitted |> |>.

Section intake.
Variable probe_name : string.
(** [RuntimeEnricher::resolve], at the time of an item. *)
Variable resolve : Z -> Z -> RuntimeBinding.
Variable patterns : list string.

Definition bind_record (r : EvidenceRecord) : EvidenceRecord :=
  with_runtime_binding (resolve (er_cgroup_id r) (er_pid r)) r.

(** The loop of [RecordIntake::admit], [emitted] so far; [None] is a panic of the store. *)
Fixpoint admit_loop (records : list EvidenceRecord) (emitted : Z) (r : Reader) : option (Z * Reader) :=
  match records with
  | [] => Some (emitted, r)
  | record :: rest =>
      if negb (record_matches_sensitive_paths patterns record) then admit_loop rest emitted (count_sampled_out r)
      else
        let record := bind_record record in
        store ← store_push probe_name (er_occurrence record) (rd_store r);
        admit_loop rest (emitted + 1) (r <| rd_store := store |> <| rd_records ::= fun out => out ++ [record] |>)
  end.

(** [RecordIntake::admit] *)
Definition intake_admit (evidence : list EvidenceRecord) (r : Reader) : option Reader :=
  '(emitted, r) ← admit_loop evidence 0 r;
  Some (if 0 <? emitted then count_emitted emitted r else r).

End intake.

Section reader.
Variable probe_name : string.
(** [Probe::to_evidence], with the id and time of the moment. *)
Variable evidence_of : string -> Z -> list byte -> result DecodeError (list EvidenceRecord).
Variable patterns : list string.
Variable sample_rate : f64.

(** One turn of the drain loop, for the item the ring buffer gave. *)
Definition drain_item (item : Item) (r : Reader) : option Reader :=
  let '(do_sampling, sample_every) := sampling sample_rate in
  let r := if do_sampling then r <| rd_counter ::= fun c => wrap 64 (c + 1) |> else r in
  if do_sampling && negb (is_multiple_of (rd_counter r) sample_every) then Some (count_sampled_out r)
  else match evidence_of (it_id item) (it_now item) (it_raw item) with
       | Ok evidence => intake_admit probe_name (it_resolve item) patterns evidence r
       | Err _ => Some (count_parse_error r)
       end.

(** The drain of one cycle, over what the ring buffer holds now: [Vec::new()], then at most
    [MAX_DRAIN_ITEMS] items. *)
Definition drain_cycle (ready : list Item) (r : Reader) : option Reader :=
  foldl (fun acc item => r ← acc; drain_item item r) (Some (r <| rd_records := [] |>))
    (take MAX_DRAIN_ITEMS ready).

(** The message the cycle offers to the sink queue. *)
Definition offered (r : Reader) : option (list EvidenceRecord) :=
  if bool_decide (rd_records r = []) then None else Some (rd_records r).

(** The cycle's poll of the kernel's per-CPU drop counters, with what the counter metric grows by. *)
Definition poll_drops (values : list Z) (at_ns : Z) (r : Reader) : Z * Reader :=
  let total := foldl add64 0 values in
  let '(new_drops, stats) := record_drop_poll total at_ns (rd_stats r) in
  (new_drops, r <| rd_stats := stats |>).
End reader.

(* ------------------------------------------------------------------ *)
(** ** Self-observability *)

Definition counter_delta (current previous : Z) : Z :=
  if previous <=? current then current - previous else current.

(** [update_probe_counters] *)
Definition update_probe_counters (previous : gmap string (Z * Z * Z)) (probe_id : string)
    (dropped errors tracking_started_at_ns counter_polled_at_ns : Z)
  : Z * Z * Z * gmap string (Z * Z * Z) :=
  let '(prev_dropped, prev_errors, previous_poll_at_ns) :=
    default (0, 0, tracking_started_at_ns) (previous !! probe_id) in
  (counter_delta dropped prev_dropped, counter_delta errors prev_errors, previous_poll_at_ns,
   <[probe_id := (dropped, errors, counter_polled_at_ns)]> previous).

(** The report [ring_buffer_gap_records] makes records of. *)
Definition ring_buffer_gap (occurrence_type : string) (dropped_records gap_start_ns gap_end_ns : Z) : GapReport :=
  let class := class_of occurrence_type in
  {| gap_cause := "ringbuffer_overflow";
     gap_affected_probes := [occurrence_type];
     gap_dropped_records := dropped_records;
     gap_start_ns := gap_start_ns;
     gap_end_ns := gap_end_ns;
     gap_dropped_reliability := if bool_decide (class = Reliability) then dropped_records else 0;
     gap_dropped_attribution := if bool_decide (class = Attribution) then dropped_records else 0 |}.

(** One attached probe as [observability_stats] shows it. *)
Record Snapshot := mkSnapshot {
  sn_probe_id : string;
  sn_occurrence_type : string;
  sn_dropped : Z;
  sn_errors : Z;
  sn_tracking_started_at_ns : Z;
  sn_counter_polled_at_ns : Z
}.

(** The messages a tick sends; a parse-error record carries neither the probe nor the count. *)
Inductive SelfReport :=
| SelfGap (gap : GapReport)
| SelfParseErrors.

(** What one tick sends for a probe. *)
Definition observe_probe (previous : gmap string (Z * Z * Z)) (s : Snapshot)
  : list SelfReport * gmap string (Z * Z * Z) :=
  let '(new_drops, new_errors, previous_poll_at_ns, previous) :=
    update_probe_counters previous (sn_probe_id s) (sn_dropped s) (sn_errors s)
      (sn_tracking_started_at_ns s) (sn_counter_polled_at_ns s) in
  ((if 0 <? new_drops
    then [SelfGap (ring_buffer_gap (sn_occurrence_type s) new_drops previous_poll_at_ns (sn_counter_polled_at_ns s))]
    else []) ++
   (if 0 <? new_errors then [SelfParseErrors] else []),
   previous).

(** One turn of the loop of [emit_self_observability], the queue open: [previous.retain(..)], then
    the probes in turn. *)
Definition observe_tick (previous : gmap string (Z * Z * Z)) (snapshots : list Snapshot)
  : list SelfReport * gmap string (Z * Z * Z) :=
  let previous := filter (fun kv => kv.1 ∈ map sn_probe_id snapshots) previous in
  foldl (fun acc s => let '(sent, previous) := observe_probe acc.2 s in (acc.1 ++ sent, previous))
    ([], previous) snapshots.

(** [self_observability_record] of the parse-error occurrence. *)
Definition self_observability_record (id : string) (now : Z) (cluster : string) : EvidenceRecord :=
  {| er_observed_at_ns := 0;
     er_pid := 0;
     er_cgroup_id := 0;
     er_probe := mkProbeMetadata "jalki_self" "1" "agent" Fentry "jalki_self_observability";
     er_occurrence := in_cluster cluster (severity SevWarning (Occurrence_new id now "jalki/self" "jalki.probe.parse_errors"));
     er_binding := None |}.

(* ------------------------------------------------------------------ *)
(** ** Every drained event is accounted for *)

Lemma zlen_nil {A} : zlen (@nil A) = 0.
Proof. done. Qed.

Section accounting.
Variable probe_name : string.
Variable evidence_of : string -> Z -> list byte -> result DecodeError (list EvidenceRecord).
Variable patterns : list string.
Variable sample_rate : f64.
(** As for every built-in probe, an event is one record. *)
Hypothesis evidence_single : forall id now raw l, evidence_of id now raw = Ok l -> exists r, l = [r].

(** What an item that is not sampled out puts in the message. *)
Definition verdict (item : Item) : option EvidenceRecord :=
  match evidence_of (it_id item) (it_now item) (it_raw item) with
  | Ok [record] => if record_matches_sensitive_paths patterns record then Some (bind_record (it_resolve item) record) else None
  | _ => None
  end.

(** The items that are not sampled out, from counter [c]. *)
Fixpoint kept (c : Z) (items : list Item) : list Item :=
  match items with
  | [] => []
  | item :: rest =>
      let '(do_sampling, sample_every) := sampling sample_rate in
      let c := if do_sampling then wrap 64 (c + 1) else c in
      if do_sampling && negb (is_multiple_of c sample_every) then kept c rest else item :: kept c rest
  end.

Definition counted (r : Reader) : Z :=
  ps_events_emitted (rd_stats r) + ps_events_sampled_out (rd_stats r) + ps_parse_errors (rd_stats r).

(** The counters and the store have room for [n] more. *)
Record reader_ok (cap : nat) (ps : list (string * Occurrence)) (n : Z) (r : Reader) : Prop := {
  ro_store : store_ok cap ps (rd_store r);
  ro_pushes : zlen ps + n <= u64_max;
  ro_emitted : 0 <= ps_events_emitted (rd_stats r);
  ro_sampled : 0 <= ps_events_sampled_out (rd_stats r);
  ro_errors : 0 <= ps_parse_errors (rd_stats r);
  ro_counted : counted r + n <= u64_max
}.

(** The evidence of one item, counted once wherever it goes. *)
Record effect (cap : nat) (ps : list (string * Occurrence)) (n : Z) (out : list EvidenceRecord) (r r' : Reader)
  : Prop := {
  ef_ok : reader_ok cap (ps ++ map (fun record => (probe_name, er_occurrence record)) out) n r';
  ef_counted : counted r' = counted r + 1;
  ef_records : rd_records r' = rd_records r ++ out;
  ef_emitted : ps_events_emitted (rd_stats r') = ps_events_emitted (rd_stats r) + zlen out;
  ef_counter : rd_counter r' = rd_counter r
}.

Lemma sampled_out_effect cap ps n r :
  0 <= n -> reader_ok cap ps (n + 1) r -> effect cap ps n [] r (count_sampled_out r).
Proof.
  intros Hn [Hs Hp He Hsa Hpe Hct]. unfold counted in *.
  split; unfold count_sampled_out, counted; cbn; rewrite ?app_nil_r, ?zlen_nil, ?add64_small; try done; try lia.
  split; unfold counted; cbn; rewrite ?add64_small; try done; lia.
Qed.

Lemma parse_error_effect cap ps n r :
  0 <= n -> reader_ok cap ps (n + 1) r -> effect cap ps n [] r (count_parse_error r).
Proof.
  intros Hn [Hs Hp He Hsa Hpe Hct]. unfold counted in *.
  split; unfold count_parse_error, counted; cbn; rewrite ?app_nil_r, ?zlen_nil, ?add64_small; try done; try lia.
  split; unfold counted; cbn; rewrite ?add64_small; try done; lia.
Qed.

Lemma admit_effect cap ps n r resolve record :
  (0 < cap)%nat -> 0 <= n -> reader_ok cap ps (n + 1) r ->
  exists r', intake_admit probe_name resolve patterns [record] r = Some r' /\
    effect cap ps n (if record_matches_sensitive_paths patterns record then [bind_record resolve record] else []) r r'.
Proof.
  intros Hc Hn Hok. unfold intake_admit. cbn [admit_loop].
  destruct (record_matches_sensitive_paths patterns record); cbn [negb].
  2:{ cbn. eexists. split; [done|]. by apply sampled_out_effect. }
  set (record' := bind_record resolve record). pose proof Hok as [Hs Hp He Hsa Hpe Hct].
  destruct (store_push_ok cap ps (rd_store r) (probe_name, er_occurrence record') Hc ltac:(lia) Hs) as (store & Hst & Hs').
  cbn [fst snd] in Hst. rewrite Hst. cbn [mbind option_bind]. change (0 <? 0 + 1) with true.
  change (0 + 1) with 1. eexists. split; [done|]. unfold counted in *.
  split; unfold count_emitted, counted; cbn; rewrite ?add64_small; try done; try lia.
  split; unfold counted; cbn; rewrite ?add64_small, ?zlen_app, ?zlen_cons, ?zlen_nil; try done; lia.
Qed.

(** Whether an item is sampled out, and the counter after it. *)
Definition next_counter (c : Z) : Z := if (sampling sample_rate).1 then wrap 64 (c + 1) else c.
Definition skips (c : Z) : bool :=
  (sampling sample_rate).1 && negb (is_multiple_of (next_counter c) (sampling sample_rate).2).

Lemma drain_item_effect cap ps n r item :
  (0 < cap)%nat -> 0 <= n -> reader_ok cap ps (n + 1) r ->
  exists r',
    drain_item probe_name evidence_of patterns sample_rate item r = Some r' /\
    rd_counter r' = next_counter (rd_counter r) /\
    effect cap ps n (if skips (rd_counter r) then [] else option_list (verdict item))
      (r <| rd_counter := next_counter (rd_counter r) |>) r'.
Proof.
  intros Hc Hn Hok. set (r1 := r <| rd_counter := next_counter (rd_counter r) |>).
  assert (reader_ok cap ps (n + 1) r1) as Hok1 by (destruct Hok; by split).
  assert (drain_item probe_name evidence_of patterns sample_rate item r =
    if skips (rd_counter r) then Some (count_sampled_out r1)
    else match evidence_of (it_id item) (it_now item) (it_raw item) with
         | Ok evidence => intake_admit probe_name (it_resolve item) patterns evidence r1
         | Err _ => Some (count_parse_error r1)
         end) as ->.
  { unfold drain_item, skips, r1, next_counter. destruct (sampling sample_rate) as [[] every]; [done|].
    cbn. by destruct r. }
  destruct (skips (rd_counter r)).
  { eexists. split; [done|]. split; [done|]. by apply sampled_out_effect. }
  unfold verdict. destruct (evidence_of _ _ _) as [evidence|e] eqn:Ee.
  - destruct (evidence_single _ _ _ _ Ee) as [record ->].
    destruct (admit_effect cap ps n r1 (it_resolve item) record Hc Hn Hok1) as (r' & -> & Heff). exists r'. split; [done|].
    split; [by rewrite (ef_counter _ _ _ _ _ _ Heff)|]. by destruct (record_matches_sensitive_paths patterns record).
  - eexists. split; [done|]. split; [done|]. by apply parse_error_effect.
Qed.

Lemma kept_cons c item rest :
  kept c (item :: rest) = (if skips c then [] else [item]) ++ kept (next_counter c) rest.
Proof.
  cbn [kept]. unfold skips, next_counter. destruct (sampling sample_rate) as [[] every]; cbn; [|done].
  by destruct (negb (is_multiple_of (wrap 64 (c + 1)) every)).
Qed.

(** The sampling counter after some items. *)
Definition counter_after (c : Z) (items : list Item) : Z := foldl (fun c _ => next_counter c) c items.

Lemma kept_app c l1 l2 : kept c (l1 ++ l2) = kept c l1 ++ kept (counter_after c l1) l2.
Proof. revert c. induction l1 as [|item l1 IH]; intros c; [done|]. cbn [app]. by rewrite !kept_cons, IH, app_assoc. Qed.

Lemma drain_items_spec cap ps n items r :
  (0 < cap)%nat -> 0 <= n -> reader_ok cap ps (zlen items + n) r ->
  exists r', foldl (fun acc item => r ← acc; drain_item probe_name evidence_of patterns sample_rate item r)
               (Some r) items = Some r' /\
    let out := omap verdict (kept (rd_counter r) items) in
    rd_records r' = rd_records r ++ out /\
    ps_events_emitted (rd_stats r') = ps_events_emitted (rd_stats r) + zlen out /\
    counted r' = counted r + zlen items /\
    rd_counter r' = counter_after (rd_counter r) items /\
    reader_ok cap (ps ++ map (fun record => (probe_name, er_occurrence record)) out) n r'.
Proof.
  intros Hc Hn. revert ps r. induction items as [|item items IH]; intros ps r Hok.
  { exists r. split; [done|]. cbn. by rewrite !app_nil_r, zlen_nil, !Z.add_0_r. }
  rewrite zlen_cons in Hok. replace (1 + zlen items + n) with (zlen items + n + 1) in Hok by lia.
  pose proof (zlen_nonneg items).
  destruct (drain_item_effect cap ps (zlen items + n) r item Hc ltac:(lia) Hok) as (r1 & Hr1 & Hc1 & [Hok1 Hct1 Hrec1 Hem1 _]).
  destruct (IH _ r1 Hok1) as (r' & Hr' & Hrec & Hem & Hct & Hcn & Hst). exists r'.
  cbn [foldl mbind option_bind]. rewrite Hr1. split; [exact Hr'|]. cbv zeta in *.
  rewrite kept_cons, omap_app, <- Hc1.
  assert (omap verdict (if skips (rd_counter r) then [] else [item]) =
          if skips (rd_counter r) then [] else option_list (verdict item)) as ->
    by (destruct (skips (rd_counter r)); [done|cbn; by destruct (verdict item)]).
  set (out1 := if skips (rd_counter r) then [] else option_list (verdict item)) in *. cbn in Hrec1, Hem1, Hct1.
  rewrite zlen_app, zlen_cons, Hrec, Hrec1, <- app_assoc.
  assert (counted r1 = counted r + 1) by exact Hct1.
  split_and!; [done|lia|lia| |by rewrite map_app, app_assoc]. unfold counter_after. cbn [foldl]. by rewrite <- Hc1, Hcn.
Qed.

(** A drain cycle loses no event silently. It takes at most [MAX_DRAIN_ITEMS] items and each is counted
    exactly once, as emitted, sampled out (by the rate or by the sensitive-path gate) or failed to
    parse; the message offered to the sink queue holds, in ring-buffer order, exactly the decoded,
    gated and bound records of the items the sampling keeps; and the local store gets the same
    occurrences. *)
Theorem drain_cycle_accounts cap ps n ready r :
  let items := take MAX_DRAIN_ITEMS ready in
  (0 < cap)%nat -> 0 <= n -> reader_ok cap ps (zlen items + n) r ->
  exists r',
    drain_cycle probe_name evidence_of patterns sample_rate ready r = Some r' /\
    rd_records r' = omap verdict (kept (rd_counter r) items) /\
    ps_events_emitted (rd_stats r') = ps_events_emitted (rd_stats r) + zlen (rd_records r') /\
    counted r' = counted r + zlen items /\
    rd_counter r' = counter_after (rd_counter r) items /\
    reader_ok cap (ps ++ map (fun record => (probe_name, er_occurrence record)) (rd_records r')) n r'.
Proof.
  intros items Hc Hn Hok. unfold drain_cycle. fold items.
  assert (reader_ok cap ps (zlen items + n) (r <| rd_records := [] |>)) as Hok' by (destruct Hok; by split).
  destruct (drain_items_spec cap ps n _ _ Hc Hn Hok') as (r' & Hr' & Hrec & Hem & Hct & Hcn & Hst).
  exists r'. split; [exact Hr'|]. cbn in Hrec. rewrite Hrec. by split_and!.
Qed.
End accounting.

(* ------------------------------------------------------------------ *)
(** ** Kernel drops *)

(** The reports of one probe among a tick's messages. *)
Definition gap_of_report (s : SelfReport) : option GapReport :=
  match s with SelfGap g => Some g | SelfParseErrors => None end.

(** A probe observed again and again: the totals it has dropped, with the times they were read. *)
Fixpoint observe_probe_history (previous : gmap string (Z * Z * Z)) (mk : Z * Z -> Snapshot) (polls : list (Z * Z))
  : list GapReport :=
  match polls with
  | [] => []
  | poll :: rest =>
      let '(sent, previous) := observe_probe previous (mk poll) in
      omap gap_of_report sent ++ observe_probe_history previous mk rest
  end.

(** Each report's window starts where the one before it ended. *)
Fixpoint windows_chained (from : Z) (gaps : list GapReport) : Prop :=
  match gaps with
  | [] => True
  | g :: rest => from <= gap_start_ns g /\ gap_start_ns g <= gap_end_ns g /\ windows_chained (gap_end_ns g) rest
  end.

Definition observed (id type : string) (errors started : Z) (poll : Z * Z) : Snapshot :=
  mkSnapshot id type poll.1 errors started poll.2.

Lemma windows_chained_mono a b gaps : a <= b -> windows_chained b gaps -> windows_chained a gaps.
Proof. intros H. destruct gaps; [done|]. cbn. intros (? & ? & ?). split_and!; [lia|done|done]. Qed.

Lemma observe_probe_gaps previous id type errors started poll :
  let '(prev_dropped, _, prev_polled) := default (0, 0, started) (previous !! id) in
  prev_dropped <= poll.1 ->
  let '(sent, previous') := observe_probe previous (observed id type errors started poll) in
  omap gap_of_report sent =
    (if prev_dropped <? poll.1 then [ring_buffer_gap type (poll.1 - prev_dropped) prev_polled poll.2] else []) /\
  previous' = <[id := (poll.1, errors, poll.2)]> previous.
Proof.
  destruct (default (0, 0, started) (previous !! id)) as [[prev_dropped prev_errors] prev_polled] eqn:E.
  intros Hle. unfold observe_probe, update_probe_counters. cbn. rewrite E. unfold counter_delta.
  destruct (Z.leb_spec prev_dropped poll.1); [|lia].
  destruct (Z.ltb_spec prev_dropped poll.1), (Z.ltb_spec 0 (poll.1 - prev_dropped)); try lia;
    (split; [|done]); destruct (0 <? _); done.
Qed.

Lemma ring_buffer_gap_counts type n lo hi :
  gap_dropped_records (ring_buffer_gap type n lo hi) = n /\
  gap_dropped_reliability (ring_buffer_gap type n lo hi) + gap_dropped_attribution (ring_buffer_gap type n lo hi) = n.
Proof.
  unfold ring_buffer_gap. cbn [gap_dropped_records gap_dropped_reliability gap_dropped_attribution].
  split; [done|]. destruct (class_of type).
  - rewrite bool_decide_true, bool_decide_false by done. lia.
  - rewrite bool_decide_false, bool_decide_true by done. lia.
Qed.

Lemma observe_history_spec id type errors started previous polls :
  let '(prev_dropped, _, prev_polled) := default (0, 0, started) (previous !! id) in
  StronglySorted (fun a b => a.1 <= b.1 /\ a.2 <= b.2) ((prev_dropped, prev_polled) :: polls) ->
  let gaps := observe_probe_history previous (observed id type errors started) polls in
  zsum gap_dropped_records gaps = (List.last polls (prev_dropped, prev_polled)).1 - prev_dropped /\
  windows_chained prev_polled gaps /\
  Forall (fun g => gap_affected_probes g = [type] /\ gap_cause g = "ringbuffer_overflow") gaps.
Proof.
  revert previous. induction polls as [|poll polls IH]; intros previous;
    destruct (default (0, 0, started) (previous !! id)) as [[prev_dropped prev_errors] prev_polled] eqn:E;
    intros Hsorted; cbn [observe_probe_history].
  { cbn. split_and!; [rewrite zsum_nil; lia|done|constructor]. }
  apply StronglySorted_inv in Hsorted as [Hsorted Hle]. inversion Hle as [|? ? [Hd Ht] _]; subst. cbn in Hd, Ht.
  pose proof (observe_probe_gaps previous id type errors started poll) as Hstep. rewrite E in Hstep. specialize (Hstep Hd).
  destruct (observe_probe previous (observed id type errors started poll)) as [sent previous']. destruct Hstep as [-> ->].
  specialize (IH (<[id := (poll.1, errors, poll.2)]> previous)). rewrite lookup_insert_eq in IH. cbn [default from_option Datatypes.id] in IH.
  destruct poll as [d t]. cbn [fst snd] in *. destruct (IH Hsorted) as (Hsum & Hwin & Hall).
  set (gaps := observe_probe_history _ _ polls) in *. clearbody gaps.
  assert (forall x, (List.last ((d, t) :: polls) x).1 = (List.last polls (d, t)).1) as Hlast.
  { intros x. destruct polls as [|y polls]; [done|]. cbn [List.last]. f_equal. clear. revert y. induction polls as [|z polls IH]; intros y; [done|]. apply IH. }
  rewrite Hlast, zsum_app, Hsum. destruct (Z.ltb_spec prev_dropped d) as [Hlt|Hge].
  - rewrite zsum_cons, zsum_nil. destruct (ring_buffer_gap_counts type (d - prev_dropped) prev_polled t) as [-> _].
    split_and!; [lia| |by constructor]. cbn. split_and!; [lia|done|done].
  - rewrite zsum_nil. split_and!; [lia| |done]. by apply (windows_chained_mono _ t).
Qed.

(** Kernel ring-buffer loss is reported in full and only once. Over any series of polls of an
    attached probe's drop counter, which only grows, the gap reports add up to the counter's last
    value, each names the probe's occurrence type, and their windows run forward from the start of
    tracking, each beginning no earlier than the one before it ended. *)
Theorem ring_drops_reported id type errors started previous polls :
  previous !! id = None ->
  StronglySorted (fun a b => a.1 <= b.1 /\ a.2 <= b.2) ((0, started) :: polls) ->
  let gaps := observe_probe_history previous (observed id type errors started) polls in
  zsum gap_dropped_records gaps = (List.last polls (0, started)).1 /\
  windows_chained started gaps /\
  Forall (fun g => gap_affected_probes g = [type] /\ gap_cause g = "ringbuffer_overflow") gaps.
Proof.
  intros Hnone Hs. pose proof (observe_history_spec id type errors started previous polls) as H.
  rewrite Hnone in H. cbn [default from_option Datatypes.id] in H. rewrite Z.sub_0_r in H. exact (H Hs).
Qed.

Lemma ring_drops_reported_witness :
  let gaps := observe_probe_history ∅ (observed "probe_001" "kernel.tcp.connect" 0 10) [(0, 20); (7, 30); (7, 40); (9, 50)] in
  zsum gap_dropped_records gaps = 9 /\ map gap_start_ns gaps = [20; 40].
Proof.
  cbv zeta. split; [|by vm_compute].
  apply (ring_drops_reported "probe_001" "kernel.tcp.connect" 0 10 ∅ [(0, 20); (7, 30); (7, 40); (9, 50)]).
  - apply lookup_empty.
  - repeat constructor; cbn; lia.
Defined.

(* ------------------------------------------------------------------ *)
(** ** Concrete runs *)

Definition builtin_evidence (p : BuiltinProbe) (cluster : string) (id : string) (now : Z) (raw : list byte) :=
  to_evidence p id now raw cluster.

Lemma builtin_evidence_single p cluster id now raw l :
  builtin_evidence p cluster id now raw = Ok l -> exists r, l = [r].
Proof. intros (k & _ & [= <-])%result_bind_ok. by eexists. Qed.

Definition w_resolve (cgroup_id pid : Z) : RuntimeBinding := Unbound CacheMiss.

Definition w_reader : Reader := mkReader ProbeStats_new (EventStore_new 16) 0 [].

Definition w_drain (path : list byte) : option Reader :=
  drain_cycle "file_open" (builtin_evidence PFileOpen "prod") DEFAULT_SENSITIVE_PATHS f_one
    [mkItem (raw_bytes (fun _ => x00) (w_raw_open path)) "01J" 5 w_resolve] w_reader.

(** A path that is not UTF-8 evades the userspace gate: a file under [/root/.ssh/] whose name holds
    a byte [xff] passes the kernel's half, decodes with an empty path, and is counted as sampled
    out. *)
Definition w_bad_path : list byte := bytes_of "/root/.ssh/" ++ [xff] ++ repeat x00 244.

Theorem non_utf8_path_evades :
  matches_sensitive_prefix (populate_sensitive_prefixes DEFAULT_SENSITIVE_PATHS) w_bad_path = true /\
  (fun r => (rd_records r, ps_events_sampled_out (rd_stats r))) <$> w_drain w_bad_path = Some ([], 1) /\
  (fun r => (length (rd_records r), ps_events_sampled_out (rd_stats r))) <$> w_drain (w_path "/root/.ssh/id_rsa")
    = Some (1%nat, 0).
Proof. split_and!; vm_compute; reflexivity. Qed.

(** A rate between two thirds and one keeps every event. *)
Theorem sample_rate_rounds_up : sampling (f_lit 7 10) = (true, 1) /\ sampling (f_lit 1 10) = (true, 10).
Proof. split; vm_compute; reflexivity. Qed.
