(* ===== verification/ReaderRun.v ===== *)
(** A reader's whole run ([drain_loop] of [jalki/src/reader.rs]): bounded drains, polls of the kernel's drop
    counter, messages for the sink queue, until it is asked to stop, the queue is gone or the clock
    fails.

    A turn of the loop meets what the environment has for it: the stop flag, the ring buffer, the
    clocks, the drop counters and whether the sink queue is still there. Sleeps and log lines are left
    out. *)
From Stdlib Require Import Strings.Byte.
From S2P Require Import Prelude Float Protocol Evidence Samples Gap Event SensitivePaths Normalize Store Reader.

(* ------------------------------------------------------------------ *)
(** ** The monotonic clock *)

(** What [clock_gettime] answers: an OS error, or seconds and nanoseconds. *)
Definition ClockReading : Type := result string (Z * Z).

Definition checked_u64 (z : Z) : option Z := if z <=? u64_max then Some z else None.

Definition monotonic_now_ns (reading : ClockReading) : result string Z :=
  time <-? reading ;;
  let '(tv_sec, tv_nsec) := time in
  if tv_sec <? 0 then Err "monotonic clock returned negative seconds"
  else if tv_nsec <? 0 then Err "monotonic clock returned negative nanos"
  else match (value ← checked_u64 (tv_sec * 1000000000); checked_u64 (value + tv_nsec)) with
       | Some ns => Ok ns
       | None => Err "monotonic clock overflow"
       end.

(** The reading is refused, or the time to the nanosecond. *)
Lemma monotonic_now_ns_exact tv_sec tv_nsec :
  let ns := tv_sec * 1000000000 + tv_nsec in
  if (0 <=? tv_sec) && (0 <=? tv_nsec) && (ns <=? u64_max)
  then monotonic_now_ns (Ok (tv_sec, tv_nsec)) = Ok ns
  else exists e, monotonic_now_ns (Ok (tv_sec, tv_nsec)) = Err e.
Proof.
  cbv zeta. unfold monotonic_now_ns, checked_u64. cbn [result_bind].
  destruct (Z.leb_spec 0 tv_sec), (Z.ltb_spec tv_sec 0); try lia; cbn [andb]; [|by eexists].
  destruct (Z.leb_spec 0 tv_nsec), (Z.ltb_spec tv_nsec 0); try lia; cbn [andb]; [|by eexists].
  destruct (Z.leb_spec (tv_sec * 1000000000) u64_max); cbn [mbind option_bind];
    destruct (Z.leb_spec (tv_sec * 1000000000 + tv_nsec) u64_max); try lia; try done; by eexists.
Qed.

(* ------------------------------------------------------------------ *)
(** ** The loop *)

Record Turn := mkTurn {
  tu_stopped : bool;                  (* [stop.stopped()] *)
  tu_ready : list Item;               (* what [ring_buf.next()] gives, one after the other *)
  tu_elapsed_ns : Z;                  (* [last_drop_poll.elapsed()] *)
  tu_drops : result string (list Z);  (* [drop_counts.get(&0, 0)] *)
  tu_clock : ClockReading;
  tu_open : bool                      (* the sink loop still holds the queue *)
}.

(** [rn_drained] and [rn_sent] are history: the items taken from the ring buffer, and the messages the
    queue answered for; [rn_drop_metric] is what [ring_buffer_drops] was increased by. *)
Record Run := mkRun {
  rn_reader : Reader;
  rn_drop_metric : Z;
  rn_drained : list Item;
  rn_sent : list (list EvidenceRecord)
}.
#[export] Instance eta_Run : Eta Run := fun u => mkRun (rn_reader u) (rn_drop_metric u) (rn_drained u) (rn_sent u).

(** Why the loop returns. *)
Inductive Exit := OnRequest | ClockFailed | QueueClosed.

Definition run_new (r : Reader) : Run := mkRun r 0 [] [].

(** [last_drop_poll.elapsed() >= Duration::from_secs(1)] *)
Definition poll_due (t : Turn) : bool := 1000000000 <=? tu_elapsed_ns t.

(** The poll of a turn, at most one a second; an error is a failing clock. *)
Definition poll_turn (t : Turn) (u : Run) : result string Run :=
  if negb (poll_due t) then Ok u
  else match tu_drops t with
       | Ok values =>
           polled_at_ns <-? monotonic_now_ns (tu_clock t) ;;
           let '(new_drops, r) := poll_drops values polled_at_ns (rn_reader u) in
           Ok (u <| rn_reader := r |> <| rn_drop_metric ::= fun n => if 0 <? new_drops then add64 n new_drops else n |>)
       | Err _ => Ok u
       end.

Section run.
Variable probe_name : string.
Variable evidence_of : string -> Z -> list byte -> result DecodeError (list EvidenceRecord).
Variable patterns : list string.
Variable sample_rate : f64.

Definition drain_turn (t : Turn) (u : Run) : option (Run * option Exit) :=
  if tu_stopped t then Some (u, Some OnRequest)
  else
    r ← drain_cycle probe_name evidence_of patterns sample_rate (tu_ready t) (rn_reader u);
    let u := u <| rn_reader := r |> <| rn_drained ::= fun l => l ++ take MAX_DRAIN_ITEMS (tu_ready t) |> in
    match poll_turn t u with
    | Err _ => Some (u, Some ClockFailed)
    | Ok u =>
        match offered (rn_reader u) with
        | None => Some (u, None)
        | Some records =>
            if tu_open t then Some (u <| rn_sent ::= fun l => l ++ [records] |>, None) else Some (u, Some QueueClosed)
        end
    end.

(** The loop over the turns it gets; [None] for its exit means it runs on. *)
Fixpoint drain_loop (turns : list Turn) (u : Run) : option (Run * option Exit) :=
  match turns with
  | [] => Some (u, None)
  | t :: rest =>
      '(u, exit) ← drain_turn t u;
      match exit with Some e => Some (u, Some e) | None => drain_loop rest u end
  end.

(* ------------------------------------------------------------------ *)
(** ** A run accounts for what it drained *)

Hypothesis evidence_single : forall id now raw l, evidence_of id now raw = Ok l -> exists r, l = [r].

(** What a reader makes of the items it drained, from its counter at the start. *)
Definition evidence_from (r : Reader) (items : list Item) : list EvidenceRecord :=
  omap (verdict evidence_of patterns) (kept sample_rate (rd_counter r) items).

(** What a run that ended leaves unsent. *)
Definition unsent (exit : option Exit) (u : Run) : list EvidenceRecord :=
  match exit with Some ClockFailed | Some QueueClosed => rd_records (rn_reader u) | _ => [] end.

Definition in_store (records : list EvidenceRecord) : list (string * Occurrence) :=
  map (fun record => (probe_name, er_occurrence record)) records.

(** From [u] to [u'] over [items], with room for [n] more. *)
Record ran (cap : nat) (ps : list (string * Occurrence)) (n : Z) (items : list Item) (exit : option Exit) (u u' : Run) : Prop := {
  ran_drained : rn_drained u' = rn_drained u ++ items;
  ran_counter : rd_counter (rn_reader u') = counter_after sample_rate (rd_counter (rn_reader u)) items;
  ran_counted : counted (rn_reader u') = counted (rn_reader u) + zlen items;
  ran_emitted : ps_events_emitted (rd_stats (rn_reader u')) =
                  ps_events_emitted (rd_stats (rn_reader u)) + zlen (evidence_from (rn_reader u) items);
  ran_sent : concat (rn_sent u') ++ unsent exit u' = concat (rn_sent u) ++ evidence_from (rn_reader u) items;
  ran_ok : reader_ok cap (ps ++ in_store (evidence_from (rn_reader u) items)) n (rn_reader u')
}.

Lemma evidence_from_app r r' l1 l2 :
  rd_counter r' = counter_after sample_rate (rd_counter r) l1 ->
  evidence_from r (l1 ++ l2) = evidence_from r l1 ++ evidence_from r' l2.
Proof. intros Hc. unfold evidence_from. by rewrite kept_app, omap_app, Hc. Qed.

Lemma ran_nothing cap ps n exit u : unsent exit u = [] -> reader_ok cap ps n (rn_reader u) -> ran cap ps n [] exit u u.
Proof.
  intros Hu Hok. split; unfold evidence_from, in_store; cbn; rewrite ?app_nil_r, ?zlen_nil, ?Z.add_0_r, ?Hu, ?app_nil_r; done.
Qed.

Lemma ran_trans cap ps n items1 items2 exit u1 u2 u3 :
  ran cap ps (zlen items2 + n) items1 None u1 u2 ->
  ran cap (ps ++ in_store (evidence_from (rn_reader u1) items1)) n items2 exit u2 u3 ->
  ran cap ps n (items1 ++ items2) exit u1 u3.
Proof.
  intros [Hd1 Hc1 Hn1 He1 Hs1 Ho1] [Hd2 Hc2 Hn2 He2 Hs2 Ho2]. cbn [unsent] in Hs1. rewrite app_nil_r in Hs1.
  split; rewrite ?(evidence_from_app _ (rn_reader u2)) by done.
  - by rewrite Hd2, Hd1, app_assoc.
  - rewrite Hc2, Hc1. unfold counter_after. by rewrite foldl_app.
  - rewrite Hn2, Hn1, zlen_app. lia.
  - rewrite He2, He1, zlen_app. lia.
  - by rewrite Hs2, Hs1, app_assoc.
  - unfold in_store in *. by rewrite map_app, app_assoc.
Qed.

(** A poll touches nothing but the drops. *)
Lemma poll_turn_frame t u u' :
  poll_turn t u = Ok u' ->
  rn_drained u' = rn_drained u /\ rn_sent u' = rn_sent u /\ rd_counter (rn_reader u') = rd_counter (rn_reader u) /\
  rd_records (rn_reader u') = rd_records (rn_reader u) /\ counted (rn_reader u') = counted (rn_reader u) /\
  ps_events_emitted (rd_stats (rn_reader u')) = ps_events_emitted (rd_stats (rn_reader u)) /\
  forall cap ps n, reader_ok cap ps n (rn_reader u) -> reader_ok cap ps n (rn_reader u').
Proof.
  unfold poll_turn. destruct (negb _); [by intros [= <-]|]. destruct (tu_drops t) as [values|]; [|by intros [= <-]].
  destruct (monotonic_now_ns _) as [at_ns|]; [|done]. cbn [result_bind poll_drops record_drop_poll]. intros [= <-].
  split_and!; try done. intros cap ps n [? ? ? ? ? ?]. by split.
Qed.

Lemma drain_turn_ran cap ps n t u :
  let items := take MAX_DRAIN_ITEMS (tu_ready t) in
  (0 < cap)%nat -> 0 <= n -> reader_ok cap ps (zlen items + n) (rn_reader u) ->
  exists u' exit, drain_turn t u = Some (u', exit) /\
    if tu_stopped t then u' = u /\ exit = Some OnRequest else exit <> Some OnRequest /\ ran cap ps n items exit u u'.
Proof.
  intros items Hcap Hn Hok. unfold drain_turn. destruct (tu_stopped t); [by eexists _, _|].
  destruct (drain_cycle_accounts probe_name evidence_of patterns sample_rate evidence_single cap ps n (tu_ready t) (rn_reader u)
              Hcap Hn Hok) as (r & -> & Hrec & Hem & Hct & Hcn & Hr). fold items in Hrec, Hct, Hcn, Hr |- *.
  change (omap _ _) with (evidence_from (rn_reader u) items) in Hrec. cbn [mbind option_bind].
  set (u1 := u <| rn_reader := r |> <| rn_drained ::= _ |>).
  assert (forall u2 exit, rn_drained u2 = rn_drained u1 -> rd_counter (rn_reader u2) = rd_counter r -> counted (rn_reader u2) = counted r ->
            ps_events_emitted (rd_stats (rn_reader u2)) = ps_events_emitted (rd_stats r) ->
            concat (rn_sent u2) ++ unsent exit u2 = concat (rn_sent u) ++ rd_records r ->
            (reader_ok cap (ps ++ in_store (rd_records r)) n r -> reader_ok cap (ps ++ in_store (rd_records r)) n (rn_reader u2)) ->
            ran cap ps n items exit u u2) as Hran.
  { intros u2 exit Hd2 Hc2 Hn2 He2 Hs2 Ho2. rewrite Hrec in Hs2, Ho2, Hem, Hr. split; [done|congruence|congruence|congruence|done|auto]. }
  destruct (poll_turn t u1) as [u2|e] eqn:Hp.
  2:{ eexists _, _. split; [done|]. split; [done|]. by apply Hran. }
  destruct (poll_turn_frame t u1 u2 Hp) as (Hd2 & Hs2 & Hc2 & Hr2 & Hn2 & He2 & Ho2). cbn in Hs2, Hc2, Hr2, Hn2, He2, Ho2.
  unfold offered. rewrite Hr2. case_bool_decide as Hnil; [|destruct (tu_open t)]; eexists _, _; (split; [done|]); (split; [done|]);
    apply Hran; try done; cbn; rewrite ?Hs2, ?Hr2; auto.
  - by rewrite Hnil.
  - by rewrite concat_app, app_nil_r; cbn; rewrite app_nil_r.
Qed.

Definition items_of (turns : list Turn) : list Item := concat (map (fun t => take MAX_DRAIN_ITEMS (tu_ready t)) turns).

(** The turns a run drained in, by how it ended. *)
Definition turns_run (turns : list Turn) (exit : option Exit) (n : nat) : Prop :=
  Forall (fun t => tu_stopped t = false) (take n turns) /\
  match exit with
  | None => n = length turns
  | Some OnRequest => exists t, turns !! n = Some t /\ tu_stopped t = true
  | Some _ => (0 < n)%nat
  end.

Lemma drain_loop_ran cap turns ps u :
  (0 < cap)%nat -> reader_ok cap ps (zlen (items_of turns)) (rn_reader u) ->
  exists u' exit n, drain_loop turns u = Some (u', exit) /\ turns_run turns exit n /\
    ran cap ps 0 (items_of (take n turns)) exit u u'.
Proof.
  intros Hcap. revert ps u. induction turns as [|t turns IH]; intros ps u Hok.
  { exists u, None, O. split; [done|]. split; [split; [constructor|done]|]. by apply ran_nothing. }
  set (items := take MAX_DRAIN_ITEMS (tu_ready t)). change (items_of (t :: turns)) with (items ++ items_of turns) in *.
  rewrite zlen_app in Hok. pose proof (zlen_nonneg (items_of turns)).
  destruct (drain_turn_ran cap ps (zlen (items_of turns)) t u Hcap ltac:(done) Hok) as (u1 & exit & Ht & Hran). fold items in Hran.
  cbn [drain_loop]. rewrite Ht. cbn [mbind option_bind]. destruct (tu_stopped t) eqn:Hstop.
  { destruct Hran as [-> ->]. exists u, (Some OnRequest), O. split; [done|]. split; [split; [constructor|by exists t]|].
    apply ran_nothing; [done|]. destruct Hok. split; try done; pose proof (zlen_nonneg items); lia. }
  destruct Hran as [Hexit Hran]. assert (items_of (take 1 (t :: turns)) = items) as E by (apply app_nil_r).
  destruct exit as [e|].
  { exists u1, (Some e), 1%nat. split; [done|]. split; [split; [by repeat constructor|by destruct e; [|lia..]]|]. rewrite E.
    destruct Hran as [? ? ? ? ? []]. split; try done. split; try done; lia. }
  destruct (IH _ u1 (ran_ok _ _ _ _ _ _ _ Hran)) as (u2 & exit & n & Hl & [Hf He] & Hran2). exists u2, exit, (S n).
  split; [exact Hl|]. split.
  { split; [by constructor|]. destruct exit as [[]|]; [done|lia..|cbn; by f_equal]. }
  change (items_of (take (S n) (t :: turns))) with (items ++ items_of (take n turns)).
  eapply ran_trans; [|exact Hran2]. destruct Hran as [? ? ? ? ? Hok1]. split; try done.
  destruct Hok1. assert (zlen (items_of (take n turns)) <= zlen (items_of turns)).
  { rewrite <- (take_drop n turns) at 2. unfold items_of. rewrite map_app, concat_app, zlen_app.
    pose proof (zlen_nonneg (concat (map (fun t => take MAX_DRAIN_ITEMS (tu_ready t)) (drop n turns)))). lia. }
  split; try done; lia.
Qed.

(** The drops a reader has noted; draining leaves them alone. *)
Definition drops (r : Reader) : DropObservation * Z := (ps_drop_observation (rd_stats r), ps_events_dropped (rd_stats r)).

Lemma admit_loop_drops resolve records emitted r emitted' r' :
  admit_loop probe_name resolve patterns records emitted r = Some (emitted', r') ->
  drops r' = drops r.
Proof.
  revert emitted r. induction records as [|record records IH]; intros emitted r; cbn [admit_loop]; [by intros [= _ <-]|].
  destruct (negb _); [by intros ->%IH|]. destruct (store_push _ _ _) as [store|]; [|done]. by intros ->%IH.
Qed.

Lemma drain_item_drops item r r' :
  drain_item probe_name evidence_of patterns sample_rate item r = Some r' ->
  drops r' = drops r.
Proof.
  unfold drain_item. destruct (sampling sample_rate) as [[] every]; cbn [andb].
  1: destruct (negb _); [by intros [= <-]|].
  all: destruct (evidence_of _ _ _) as [evidence|]; [|by intros [= <-]]; unfold intake_admit;
    destruct (admit_loop _ _ _ _ _ _) as [[emitted r1]|] eqn:Ha; [|done]; apply admit_loop_drops in Ha;
    cbn [mbind option_bind]; destruct (0 <? emitted); intros [= <-]; exact Ha.
Qed.

Lemma drain_cycle_drops ready r r' :
  drain_cycle probe_name evidence_of patterns sample_rate ready r = Some r' ->
  drops r' = drops r.
Proof.
  unfold drain_cycle. assert (forall items r1, foldl (fun acc item => r ← acc; drain_item probe_name evidence_of patterns sample_rate item r)
    (Some r1) items = Some r' -> drops r' = drops r1) as H; [|by intros ->%H].
  induction items as [|item items IH]; intros r1; cbn [foldl]; [by intros [= <-]|]. cbn [mbind option_bind].
  destruct (drain_item _ _ _ _ item r1) as [r2|] eqn:Hi; [|].
  - intros ->%IH. by apply drain_item_drops in Hi.
  - intros Hf. exfalso. clear -Hf. induction items as [|item items IH]; [done|]. by apply IH.
Qed.

(** What the metric was increased by is the total last read, which is what the statistics show. *)
Definition drops_told (u : Run) : Prop :=
  let o := ps_drop_observation (rd_stats (rn_reader u)) in
  rn_drop_metric u = do_total o /\ ps_events_dropped (rd_stats (rn_reader u)) = do_total o /\ 0 <= do_total o <= u64_max.

Lemma poll_turn_drops t u u' : drops_told u -> poll_turn t u = Ok u' -> drops_told u'.
Proof.
  intros (Hm & Hd & Ho). unfold poll_turn. destruct (negb _); [by intros [= <-]|]. destruct (tu_drops t) as [values|]; [|by intros [= <-]].
  destruct (monotonic_now_ns _) as [at_ns|]; [|done]. cbn [result_bind poll_drops record_drop_poll]. intros [= <-].
  unfold drops_told. cbn. set (total := foldl add64 0 values).
  assert (0 <= total <= u64_max) as Ht.
  { subst total. assert (forall acc, 0 <= acc <= u64_max -> 0 <= foldl add64 acc values <= u64_max) as H; [|apply H; done].
    induction values as [|v values IH]; intros acc Hacc; [done|]. cbn [foldl]. apply IH. unfold add64, wrap, u64_max. pose proof (Z.mod_pos_bound (acc + v) (2 ^ 64) ltac:(lia)). lia. }
  split_and!; [|done|lia|lia]. rewrite Hm. set (old := do_total _) in *. unfold sub64, add64, u64_max in *.
  destruct (Z.ltb_spec 0 (wrap 64 (total - old))) as [Hlt|Hge]; unfold wrap in *.
  - rewrite Zplus_mod_idemp_r, Z.add_sub_assoc, Z.add_comm, <- Z.add_sub_assoc, Z.sub_diag, Z.add_0_r. apply Z.mod_small. lia.
  - pose proof (Z.mod_pos_bound (total - old) (2 ^ 64) ltac:(lia)). pose proof (Z.div_mod (total - old) (2 ^ 64) ltac:(lia)). lia.
Qed.

Lemma drain_loop_drops turns u u' exit : drops_told u -> drain_loop turns u = Some (u', exit) -> drops_told u'.
Proof.
  revert u. induction turns as [|t turns IH]; intros u Hu; cbn [drain_loop]; [by intros [= <- _]|].
  destruct (drain_turn t u) as [[u1 e]|] eqn:Ht; [|done]. cbn [mbind option_bind].
  assert (drops_told u1) as Hu1; [|destruct e; [by intros [= <- _]|by apply IH]].
  unfold drain_turn in Ht. destruct (tu_stopped t); [by injection Ht as <- _|].
  destruct (drain_cycle _ _ _ _ _ _) as [r|] eqn:Hc; [|done]. cbn [mbind option_bind] in Ht. apply drain_cycle_drops in Hc.
  assert (drops_told (u <| rn_reader := r |> <| rn_drained ::= fun l => l ++ take MAX_DRAIN_ITEMS (tu_ready t) |>)) as H1.
  { unfold drops_told, drops in *. cbn. by injection Hc as -> ->. }
  destruct (poll_turn _ _) as [u2|] eqn:Hp; [|by injection Ht as <- _]. apply (poll_turn_drops _ _ _ H1) in Hp.
  destruct (offered _); [destruct (tu_open t)|]; by injection Ht as <- _.
Qed.

(** C10: a reader accounts for its whole life. However its turns go, until it is told to stop, the queue is
    gone or its clock fails, it never panics, and of the items it took from the ring buffer, at most
    [MAX_DRAIN_ITEMS] a turn, each is counted once; the messages it sent hold, in ring-buffer order, the
    decoded, gated and bound records of those the sampling keeps, sampling running on across turns;
    the local store holds the same occurrences; and the drop metric has grown by just the total the
    statistics show. Told to stop, or still running, it has nothing unsent. *)
Theorem reader_run_accounts cap turns r :
  (0 < cap)%nat -> reader_ok cap [] (zlen (items_of turns)) r ->
  do_total (ps_drop_observation (rd_stats r)) = 0 -> ps_events_dropped (rd_stats r) = 0 ->
  exists u exit n,
    drain_loop turns (run_new r) = Some (u, exit) /\ turns_run turns exit n /\
    rn_drained u = items_of (take n turns) /\
    counted (rn_reader u) = counted r + zlen (rn_drained u) /\
    concat (rn_sent u) ++ unsent exit u = evidence_from r (rn_drained u) /\
    ps_events_emitted (rd_stats (rn_reader u)) = ps_events_emitted (rd_stats r) + zlen (evidence_from r (rn_drained u)) /\
    store_ok cap (in_store (evidence_from r (rn_drained u))) (rd_store (rn_reader u)) /\
    rn_drop_metric u = ps_events_dropped (rd_stats (rn_reader u)).
Proof.
  intros Hcap Hok Ht0 Hd0. destruct (drain_loop_ran cap turns [] (run_new r) Hcap Hok) as (u & exit & n & Hl & Hn & [Hd _ Hc He Hs [Hst _ _ _ _ _]]).
  exists u, exit, n. cbn [run_new rn_reader rn_drained rn_sent app concat] in *. rewrite Hd. split_and!; try done.
  assert (drops_told (run_new r)) as H0 by (unfold drops_told; cbn [run_new rn_reader rn_drop_metric]; by rewrite Ht0, Hd0).
  destruct (drain_loop_drops turns (run_new r) u exit H0 Hl) as (Hm & Hdr & _). by rewrite Hm, Hdr.
Qed.
End run.

(* ------------------------------------------------------------------ *)
(** ** Concrete runs *)

Definition w_turn (paths : list (list byte)) (clock : ClockReading) (stopped open : bool) : Turn :=
  mkTurn stopped (map (fun path => mkItem (raw_bytes (fun _ => x00) (w_raw_open path)) "01J" 5 w_resolve) paths) 1000000000 (Ok [2; 3]) clock open.

#[local] Notation w_run turns :=
  (drain_loop "file_open" (builtin_evidence PFileOpen "prod") DEFAULT_SENSITIVE_PATHS f_one turns (run_new w_reader)).

(** Two keys are opened, one after the other; then the reader is told to stop. *)
Definition w_turns : list Turn :=
  [w_turn [w_path "/root/.ssh/id_rsa"; w_path "/etc/hosts"] (Ok (1, 5)) false true;
   w_turn [w_path "/root/.ssh/id_dsa"] (Ok (2, 0)) false true; w_turn [w_path "/root/.ssh/id_rsa"] (Ok (3, 0)) true true].

Lemma reader_run_accounts_witness :
  exists u exit, w_run w_turns = Some (u, exit) /\ exit = Some OnRequest /\ length (rn_drained u) = 3%nat /\
    map length (rn_sent u) = [1; 1]%nat /\ rn_drop_metric u = 5 /\
    concat (rn_sent u) ++ unsent exit u =
      evidence_from (builtin_evidence PFileOpen "prod") DEFAULT_SENSITIVE_PATHS f_one w_reader (rn_drained u).
Proof.
  assert (reader_ok 16 [] (zlen (items_of w_turns)) w_reader) as Hok.
  { split; [apply (store_new_ok 16)|..]; by vm_compute. }
  destruct (reader_run_accounts "file_open" (builtin_evidence PFileOpen "prod") DEFAULT_SENSITIVE_PATHS f_one
    (builtin_evidence_single PFileOpen "prod") 16 w_turns w_reader ltac:(lia) Hok eq_refl eq_refl)
    as (u & exit & n & Hr & Hn & Hd & _ & Hs & _).
  exists u, exit. split; [exact Hr|]. assert (option_map (fun p => (p.2, length (rn_drained p.1), map length (rn_sent p.1), rn_drop_metric p.1)) (w_run w_turns)
    = Some (Some OnRequest, 3%nat, [1; 1]%nat, 5)) as H by (by vm_compute).
  rewrite Hr in H. injection H as -> -> -> ->. by split_and!.
Defined.

(** A reader whose clock fails has counted, and stored, evidence it never sends and no report mentions. *)
Theorem failing_clock_loses_message :
  (fun p => (p.2, ps_events_emitted (rd_stats (rn_reader p.1)), rn_sent p.1)) <$>
    w_run [w_turn [w_path "/root/.ssh/id_rsa"] (Err "os error") false true] = Some (Some ClockFailed, 1, []).
Proof. by vm_compute. Qed.
