(* ===== verification/Ebpf.v ===== *)
(** The eBPF programs ([jalki-ebpf/src]): their maps, the helpers they share ([main.rs]), the TCP
    handlers and the exec handler. What the kernel answers to a program is a record of functions; a
    handler takes it and the maps to the maps. *)
From Stdlib Require Import Strings.Byte.
From S2P Require Import Prelude Event SensitivePaths.

(* ------------------------------------------------------------------ *)
(** ** The kernel, to one run of a program

    A helper that fails answers an error code. Addresses are 64-bit. *)

Record Kernel := mkKernel {
  kn_cpu : nat;
  kn_pid_tgid : Z;
  kn_uid_gid : Z;
  kn_ktime_ns : Z;
  kn_cgroup_id : Z;
  kn_comm : result Z (list byte);
  kn_task : Z;
  (** [ctx.arg]: the argument registers *)
  kn_arg : nat -> Z;
  (** [ctx.read_at] and [ctx.as_ptr] of a tracepoint *)
  kn_payload : nat -> nat -> result Z (list byte);
  kn_ctx : Z;
  (** [bpf_probe_read_kernel], of so many bytes *)
  kn_read : Z -> nat -> result Z (list byte);
  (** [bpf_probe_read_kernel_str_bytes] and [bpf_probe_read_user_str_bytes]: what they write at the
      front of a buffer of so many bytes *)
  kn_read_str : Z -> nat -> result Z (list byte);
  kn_read_user_str : Z -> nat -> result Z (list byte);
  (** [bpf_d_path]: its result and the buffer of so many bytes after it *)
  kn_d_path : Z -> nat -> Z * list byte;
  (** whether the ring buffer takes another record, whether the per-CPU scratch is there *)
  kn_room : bool;
  kn_scratch : bool;
  (** insertion in an LRU map: the keys it evicts, and whether it succeeds *)
  kn_evicted : list Z;
  kn_inserts : bool
}.

(** [bpf_probe_read_kernel] of an integer at an offset from a pointer. *)
Definition probe_read_uint (k : Kernel) (base off : Z) (n : nat) : result Z Z :=
  bs <-? kn_read k (add64 base off) n;; Ok (le_get bs).
Definition unwrap_or {A} (d : A) (r : result Z A) : A := match r with Ok a => a | Err _ => d end.

(* ------------------------------------------------------------------ *)
(** ** Maps *)

(** A ring buffer, by the events it was given, with its drop counters, one per CPU. *)
Record Ring := mkRing { ri_events : list RawEvent; ri_drops : list Z }.
#[export] Instance eta_Ring : Eta Ring := fun r => mkRing (ri_events r) (ri_drops r).

#[export] Instance BuiltinProbe_eq_dec : EqDecision BuiltinProbe.
Proof. solve_decision. Defined.

(** The statics of [main.rs]; the ring of a probe is [PROCESS_EXEC_EVENTS], [FILE_OPEN_EVENTS],
    [OPEN_ATTEMPT_EVENTS], [TCP_CONNECT_EVENTS], [TCP_CLOSE_EVENTS] or [TCP_RETRANSMIT_EVENTS]. *)
Record Maps := mkMaps {
  mp_pid_filter : gmap Z Z;
  mp_task_offsets : list Z;
  mp_prefixes : list SensitivePrefix;
  mp_in_flight : gmap Z (list byte);
  mp_ring : BuiltinProbe -> Ring
}.
#[export] Instance eta_Maps : Eta Maps := fun m =>
  mkMaps (mp_pid_filter m) (mp_task_offsets m) (mp_prefixes m) (mp_in_flight m) (mp_ring m).

Definition set_ring (p : BuiltinProbe) (f : Ring -> Ring) (m : Maps) : Maps :=
  m <| mp_ring := fun q => if decide (q = p) then f (mp_ring m q) else mp_ring m q |>.

(* ------------------------------------------------------------------ *)
(** ** Shared helpers *)

Definition pid_of (k : Kernel) : Z := Z.shiftr (kn_pid_tgid k) 32.
Definition tid_of (k : Kernel) : Z := wrap 32 (kn_pid_tgid k).

Definition is_self_filtered (k : Kernel) (m : Maps) : bool := bool_decide (is_Some (mp_pid_filter m !! pid_of k)).

Definition count_ring_buffer_drop (k : Kernel) (p : BuiltinProbe) : Maps -> Maps :=
  set_ring p (fun r => r <| ri_drops ::= alter (fun value => add64 value 1) (kn_cpu k) |>).

(** [output], and the count when it fails. *)
Definition output (k : Kernel) (e : RawEvent) (m : Maps) : Maps :=
  if kn_room k then set_ring (raw_probe e) (fun r => r <| ri_events ::= fun es => es ++ [e] |>) m
  else count_ring_buffer_drop k (raw_probe e) m.

Definition current_comm (k : Kernel) : list byte := unwrap_or (repeat x00 16) (kn_comm k).

(** [dst\[..4\].copy_from_slice(&v)] *)
Definition copy4 (v dst : list byte) : list byte := take 4 v ++ drop 4 dst.

Definition read_addrs (k : Kernel) (sk : Z) : Z * list byte * list byte :=
  let family := unwrap_or 2 (probe_read_uint k sk 16 2) in
  let zero := repeat x00 16 in
  if family =? 10 then
    (family, unwrap_or zero (kn_read k (add64 sk 72) 16), unwrap_or zero (kn_read k (add64 sk 56) 16))
  else
    let dst := match kn_read k (add64 sk 0) 4 with Ok v => copy4 v zero | Err _ => zero end in
    let src := match kn_read k (add64 sk 4) 4 with Ok v => copy4 v zero | Err _ => zero end in
    (family, src, dst).

Definition read_netns (k : Kernel) (sk : Z) : Z :=
  match probe_read_uint k sk 48 8 with
  | Err _ => 0
  | Ok net_ptr => if net_ptr =? 0 then 0 else unwrap_or 0 (probe_read_uint k net_ptr 176 4)
  end.

(** [handle]: 0 whatever [try_handle] returns; what it did to the maps stays. *)
Definition handled (r : result Z Maps) (m : Maps) : Maps := match r with Ok m => m | Err _ => m end.

(* ------------------------------------------------------------------ *)
(** ** TCP *)

Definition tcp_connect_try_handle (k : Kernel) (m : Maps) : result Z Maps :=
  if is_self_filtered k m then Ok m else
  let sk := kn_arg k 0 in
  let ret := wrap_signed 32 (kn_arg k 1) in
  let '(addr_family, src_addr, dst_addr) := read_addrs k sk in
  dst_port <-? probe_read_uint k sk 12 2;;
  src_port <-? probe_read_uint k sk 14 2;;
  let netns := read_netns k sk in
  Ok (output k (RawConnect
    {| rtc_timestamp_ns := kn_ktime_ns k; rtc_pid := pid_of k; rtc_tid := tid_of k;
       rtc_src_addr := src_addr; rtc_dst_addr := dst_addr; rtc_src_port := src_port; rtc_dst_port := dst_port;
       rtc_addr_family := addr_family; rtc_pad1 := 0; rtc_ret := ret; rtc_cgroup_id := kn_cgroup_id k;
       rtc_comm := current_comm k; rtc_netns := netns; rtc_pad2 := 0 |}) m).

Definition tcp_close_try_handle (k : Kernel) (m : Maps) : result Z Maps :=
  if is_self_filtered k m then Ok m else
  let sk := kn_arg k 0 in
  let '(addr_family, src_addr, dst_addr) := read_addrs k sk in
  dst_port <-? probe_read_uint k sk 12 2;;
  src_port <-? probe_read_uint k sk 14 2;;
  let bytes_sent := unwrap_or 0 (probe_read_uint k sk 1608 8) in
  let bytes_received := unwrap_or 0 (probe_read_uint k sk 1808 8) in
  let netns := read_netns k sk in
  Ok (output k (RawClose
    {| rcl_timestamp_ns := kn_ktime_ns k; rcl_pid := pid_of k; rcl_tid := tid_of k;
       rcl_src_addr := src_addr; rcl_dst_addr := dst_addr; rcl_src_port := src_port; rcl_dst_port := dst_port;
       rcl_addr_family := addr_family; rcl_pad1 := 0; rcl_bytes_sent := bytes_sent;
       rcl_bytes_received := bytes_received; rcl_duration_ns := 0; rcl_cgroup_id := kn_cgroup_id k;
       rcl_comm := current_comm k; rcl_netns := netns; rcl_pad2 := 0 |}) m).

Definition tcp_retransmit_try_handle (k : Kernel) (m : Maps) : result Z Maps :=
  if is_self_filtered k m then Ok m else
  let sk := kn_arg k 0 in
  let '(addr_family, src_addr, dst_addr) := read_addrs k sk in
  dst_port <-? probe_read_uint k sk 12 2;;
  src_port <-? probe_read_uint k sk 14 2;;
  let state := unwrap_or 0 (probe_read_uint k sk 18 1) in
  let netns := read_netns k sk in
  Ok (output k (RawRetransmit
    {| rre_timestamp_ns := kn_ktime_ns k; rre_pid := pid_of k; rre_tid := tid_of k;
       rre_src_addr := src_addr; rre_dst_addr := dst_addr; rre_src_port := src_port; rre_dst_port := dst_port;
       rre_addr_family := addr_family; rre_state := state; rre_pad1 := 0; rre_pad2 := 0;
       rre_cgroup_id := kn_cgroup_id k; rre_comm := current_comm k; rre_netns := netns; rre_pad3 := 0 |}) m).

(* ------------------------------------------------------------------ *)
(** ** Exec *)

Definition task_offset (m : Maps) (i : nat) : Z := default 0 (mp_task_offsets m !! i).

(** Follow the pointer at one offset of the current task and read at another; 0 when anything on
    the way is missing. *)
Definition through_task (k : Kernel) (pointer_off value_off : Z) (n : nat) : Z :=
  if (pointer_off =? 0) || (value_off =? 0) then 0
  else if kn_task k =? 0 then 0
  else match probe_read_uint k (kn_task k) pointer_off 8 with
       | Ok p => if p =? 0 then 0 else unwrap_or 0 (probe_read_uint k p value_off n)
       | Err _ => 0
       end.

Definition read_leader_start_boottime_ns (k : Kernel) (m : Maps) : Z := through_task k (task_offset m 2) (task_offset m 3) 8.
Definition read_ppid (k : Kernel) (m : Maps) : Z := through_task k (task_offset m 0) (task_offset m 1) 4.

Definition SCHED_EXEC_FILENAME_LOC_OFFSET : nat := 8.

(** A buffer of [n] zeros after bytes are written at its front. *)
Definition written (n : nat) (bs : list byte) : list byte := take n bs ++ repeat x00 (n - length bs).

Definition exec_filename (k : Kernel) : list byte :=
  let filename_loc := unwrap_or 0 (bs <-? kn_payload k SCHED_EXEC_FILENAME_LOC_OFFSET 4;; Ok (le_get bs)) in
  let filename_offset := Z.land filename_loc 0xffff in
  if filename_offset =? 0 then repeat x00 PROCESS_EXEC_FILENAME_LEN
  else written PROCESS_EXEC_FILENAME_LEN
         (unwrap_or [] (kn_read_str k (add64 (kn_ctx k) filename_offset) PROCESS_EXEC_FILENAME_LEN)).

Definition process_exec_try_handle (k : Kernel) (m : Maps) : result Z Maps :=
  if is_self_filtered k m then Ok m else
  Ok (output k (RawExec
    {| rpe_timestamp_ns := kn_ktime_ns k; rpe_pid := pid_of k; rpe_ppid := read_ppid k m;
       rpe_uid := wrap 32 (kn_uid_gid k); rpe_gid := Z.shiftr (kn_uid_gid k) 32; rpe_cgroup_id := kn_cgroup_id k;
       rpe_ret := 0; rpe_tid := tid_of k; rpe_comm := current_comm k; rpe_filename := exec_filename k;
       rpe_argv_hash := repeat x00 32; rpe_leader_start_boottime_ns := read_leader_start_boottime_ns k m |}) m).

(* ------------------------------------------------------------------ *)
(** ** What the kernel holds

    Helpers answer in their widths, and a [comm] has sixteen bytes. *)

Record kernel_ok (k : Kernel) : Prop := {
  ko_pid_tgid : in_width 64 (kn_pid_tgid k);
  ko_uid_gid : in_width 64 (kn_uid_gid k);
  ko_ktime_ns : in_width 64 (kn_ktime_ns k);
  ko_cgroup_id : in_width 64 (kn_cgroup_id k);
  ko_comm comm : kn_comm k = Ok comm -> length comm = 16%nat;
  ko_read a n bs : kn_read k a n = Ok bs -> length bs = n
}.

(** A socket, as the offsets of [main.rs] lay it out: the port of the peer is in network order. *)
Record Sock := mkSock {
  so_family : Z;
  so_daddr : list byte;
  so_saddr : list byte;
  so_dport : Z;
  so_num : Z;
  so_netns : Z
}.

Record sock_at (k : Kernel) (sk : Z) (s : Sock) : Prop := {
  sa_family : kn_read k (add64 sk 16) 2 = Ok (le_put 2 (so_family s));
  sa_daddr : kn_read k (add64 sk (if so_family s =? AF_INET6 then 56 else 0)) (if so_family s =? AF_INET6 then 16 else 4) = Ok (so_daddr s);
  sa_saddr : kn_read k (add64 sk (if so_family s =? AF_INET6 then 72 else 4)) (if so_family s =? AF_INET6 then 16 else 4) = Ok (so_saddr s);
  sa_dport : kn_read k (add64 sk 12) 2 = Ok (be_put 2 (so_dport s));
  sa_num : kn_read k (add64 sk 14) 2 = Ok (le_put 2 (so_num s));
  sa_net : exists net, in_width 64 net /\ net <> 0 /\ kn_read k (add64 sk 48) 8 = Ok (le_put 8 net) /\
             kn_read k (add64 net 176) 4 = Ok (le_put 4 (so_netns s));
  sa_family_ok : in_width 16 (so_family s);
  sa_dport_ok : in_width 16 (so_dport s);
  sa_num_ok : in_width 16 (so_num s);
  sa_netns_ok : in_width 32 (so_netns s)
}.

Definition so_ip (s : Sock) (octets : list byte) : IpAddr := if so_family s =? AF_INET6 then V6 octets else V4 octets.

(** The event each program is to report of a socket. *)
Definition connect_event (k : Kernel) (s : Sock) : TcpConnectEvent :=
  {| tc_observed_at_ns := kn_ktime_ns k; tc_pid := pid_of k; tc_tid := tid_of k;
     tc_src_ip := so_ip s (so_saddr s); tc_dst_ip := so_ip s (so_daddr s);
     tc_src_port := so_num s; tc_dst_port := so_dport s; tc_addr_family := so_family s;
     tc_ret := wrap_signed 32 (kn_arg k 1); tc_cgroup_id := kn_cgroup_id k;
     tc_comm := nul_terminated_str (current_comm k); tc_netns := so_netns s |}.

Definition close_event (k : Kernel) (s : Sock) : TcpCloseEvent :=
  {| cl_observed_at_ns := kn_ktime_ns k; cl_pid := pid_of k; cl_tid := tid_of k;
     cl_src_ip := so_ip s (so_saddr s); cl_dst_ip := so_ip s (so_daddr s);
     cl_src_port := so_num s; cl_dst_port := so_dport s; cl_addr_family := so_family s;
     cl_bytes_sent := unwrap_or 0 (probe_read_uint k (kn_arg k 0) 1608 8);
     cl_bytes_received := unwrap_or 0 (probe_read_uint k (kn_arg k 0) 1808 8);
     cl_duration_ns := 0; cl_cgroup_id := kn_cgroup_id k;
     cl_comm := nul_terminated_str (current_comm k); cl_netns := so_netns s |}.

Definition retransmit_event (k : Kernel) (s : Sock) : TcpRetransmitEvent :=
  {| re_observed_at_ns := kn_ktime_ns k; re_pid := pid_of k; re_tid := tid_of k;
     re_src_ip := so_ip s (so_saddr s); re_dst_ip := so_ip s (so_daddr s);
     re_src_port := so_num s; re_dst_port := so_dport s; re_addr_family := so_family s;
     re_state := tcp_state_from_u8 (unwrap_or 0 (probe_read_uint k (kn_arg k 0) 18 1)); re_cgroup_id := kn_cgroup_id k;
     re_comm := nul_terminated_str (current_comm k); re_netns := so_netns s |}.

Inductive TcpProgram := JalkiTcpConnect | JalkiTcpClose | JalkiTcpRetransmit.

(** The entry points of [main.rs]. *)
Definition tcp_program (p : TcpProgram) (k : Kernel) (m : Maps) : Maps :=
  handled (match p with
           | JalkiTcpConnect => tcp_connect_try_handle k m
           | JalkiTcpClose => tcp_close_try_handle k m
           | JalkiTcpRetransmit => tcp_retransmit_try_handle k m
           end) m.
Definition jalki_process_exec (k : Kernel) (m : Maps) : Maps := handled (process_exec_try_handle k m) m.

Definition tcp_probe (p : TcpProgram) : BuiltinProbe :=
  match p with JalkiTcpConnect => PTcpConnect | JalkiTcpClose => PTcpClose | JalkiTcpRetransmit => PTcpRetransmit end.
Definition tcp_event (p : TcpProgram) (k : Kernel) (s : Sock) : KernelEvent :=
  match p with
  | JalkiTcpConnect => TcpConnect (connect_event k s)
  | JalkiTcpClose => TcpClose (close_event k s)
  | JalkiTcpRetransmit => TcpRetransmit (retransmit_event k s)
  end.

(** One record, offered to the ring of its probe, that decodes to an event whatever the struct's
    holes hold and whatever follows it. *)
Definition reports (k : Kernel) (m : Maps) (e : KernelEvent) (m' : Maps) : Prop :=
  exists r, m' = output k r m /\ event_of_raw r = e /\
    forall hole rest, decode_event (raw_probe r) (raw_bytes hole r ++ rest) = Ok e.

(* ------------------------------------------------------------------ *)
(** ** Lemmas *)

Lemma probe_read_uint_width k base off n z : kernel_ok k -> probe_read_uint k base off n = Ok z -> 0 <= z < 256 ^ Z.of_nat n.
Proof.
  intros Hk. unfold probe_read_uint. intros (bs & Hr & [= <-])%result_bind_ok. apply (ko_read k Hk) in Hr.
  pose proof (le_get_range bs) as Hb. unfold zlen in Hb. by rewrite Hr in Hb.
Qed.

Lemma unwrap_read_width k base off n w : kernel_ok k -> w = 8 * Z.of_nat n -> in_width w (unwrap_or 0 (probe_read_uint k base off n)).
Proof.
  intros Hk ->. unfold in_width. replace (2 ^ (8 * Z.of_nat n)) with (256 ^ Z.of_nat n) by (change 256 with (2 ^ 8); rewrite <- Z.pow_mul_r; lia).
  destruct (probe_read_uint k base off n) as [z|] eqn:E; [by eapply probe_read_uint_width|cbn; pose proof (Z.pow_pos_nonneg 256 (Z.of_nat n)); lia].
Qed.

(** An integer read where one is laid out. *)
Lemma probe_read_uint_at k base off n w z : w = 8 * Z.of_nat n -> in_width w z -> kn_read k (add64 base off) n = Ok (le_put n z) -> probe_read_uint k base off n = Ok z.
Proof. intros Hw Hz E. unfold probe_read_uint. rewrite E. cbn [result_bind]. by rewrite (le_get_u n w z). Qed.

Lemma high_half z : in_width 64 z -> in_width 32 (Z.shiftr z 32).
Proof.
  intros H. unfold in_width in *. rewrite Z.shiftr_div_pow2 by lia. split.
  - apply Z.div_pos; lia.
  - apply Z.div_lt_upper_bound; [lia|]. change (2 ^ 32 * 2 ^ 32) with (2 ^ 64). lia.
Qed.

Lemma wrap_width w z : 0 <= w -> in_width w (wrap w z).
Proof. intros Hw. apply Z.mod_pos_bound. apply Z.pow_pos_nonneg; lia. Qed.

Lemma comm_length k : kernel_ok k -> length (current_comm k) = 16%nat.
Proof. intros Hk. unfold current_comm. destruct (kn_comm k) as [c|] eqn:E; [by apply (ko_comm k Hk)|done]. Qed.

(** The addresses of a socket, in sixteen bytes each. *)
Lemma read_addrs_ok k sk s : kernel_ok k -> sock_at k sk s ->
  exists src dst, read_addrs k sk = (so_family s, src, dst) /\ length src = 16%nat /\ length dst = 16%nat /\
    ip_from src (so_family s) = so_ip s (so_saddr s) /\ ip_from dst (so_family s) = so_ip s (so_daddr s).
Proof.
  intros Hk Hs. pose proof (ko_read k Hk _ _ _ (sa_saddr k sk s Hs)) as Ls. pose proof (ko_read k Hk _ _ _ (sa_daddr k sk s Hs)) as Ld.
  unfold read_addrs. rewrite (probe_read_uint_at k sk 16 2 16 _ eq_refl (sa_family_ok k sk s Hs) (sa_family k sk s Hs)). cbn [unwrap_or].
  pose proof (sa_saddr k sk s Hs) as Es. pose proof (sa_daddr k sk s Hs) as Ed. change AF_INET6 with 10 in *. unfold ip_from, so_ip. change AF_INET6 with 10.
  destruct (so_family s =? 10); rewrite Es, Ed; cbn [unwrap_or].
  - eexists _, _. by split_and!.
  - eexists _, _. split; [reflexivity|]. unfold copy4. rewrite !length_app, !length_take, Ls, Ld. split_and!; [done|done|..];
      f_equal; by rewrite take_app_le, take_take by (rewrite length_take; lia); cbn [Nat.min]; rewrite take_ge by lia.
Qed.

Lemma read_netns_ok k sk s : sock_at k sk s -> read_netns k sk = so_netns s.
Proof.
  intros Hs. destruct (sa_net k sk s Hs) as (net & Hw & Hne & Hp & Hn). unfold read_netns.
  rewrite (probe_read_uint_at k sk 48 8 64 net eq_refl Hw Hp), (proj2 (Z.eqb_neq net 0)) by done.
  by rewrite (probe_read_uint_at k net 176 4 32 _ eq_refl (sa_netns_ok k sk s Hs) Hn).
Qed.

(** The port of the peer is read as it lies, in network order, and put right by the decoder. *)
Lemma read_dport_ok k sk s : sock_at k sk s -> exists z, probe_read_uint k sk 12 2 = Ok z /\ in_width 16 z /\ u16_from_be z = so_dport s.
Proof.
  intros Hs. eexists. unfold probe_read_uint. rewrite (sa_dport k sk s Hs). cbn [result_bind]. split; [reflexivity|].
  pose proof (le_get_range (be_put 2 (so_dport s))) as Hb. unfold zlen in Hb. rewrite be_put_length in Hb. split; [exact Hb|].
  unfold u16_from_be. pose proof (le_put_get (be_put 2 (so_dport s))) as E. rewrite be_put_length in E. rewrite E, be_get_put.
  apply Z.mod_small, (sa_dport_ok k sk s Hs).
Qed.

(** A field of an event fits. *)
Ltac field_fits :=
  lazymatch goal with
  | |- in_width ?w 0 => split; [done|by vm_compute]
  | |- in_width _ (pid_of _) => by apply high_half, ko_pid_tgid
  | |- in_width _ (Z.shiftr (kn_uid_gid _) 32) => by apply high_half, ko_uid_gid
  | |- in_width _ (tid_of _) => by apply wrap_width
  | |- in_width _ (wrap _ _) => by apply wrap_width
  | |- in_width _ (unwrap_or 0 (probe_read_uint _ _ _ ?n)) => by apply unwrap_read_width
  | |- - 2 ^ 31 <= wrap_signed 32 ?z => exact (proj1 (wrap_signed_range 32 z ltac:(lia)))
  | |- wrap_signed 32 ?z < 2 ^ 31 => exact (proj2 (wrap_signed_range 32 z ltac:(lia)))
  | |- length (current_comm _) = _ => by apply comm_length
  | _ => eauto using ko_ktime_ns, ko_cgroup_id, sa_family_ok, sa_num_ok, sa_netns_ok
  end.

Lemma output_reports k r m e : event_of_raw r = e -> raw_ok r -> reports k m e (output k r m).
Proof. intros <- H. exists r. split; [done|]. split; [done|]. intros hole rest. by apply decode_raw. Qed.

(** What a ring takes and what it counts: one of the two, and nothing else changes. *)
Lemma output_effect k r m :
  let p := raw_probe r in
  mp_ring (output k r m) p =
    (if kn_room k then mkRing (ri_events (mp_ring m p) ++ [r]) (ri_drops (mp_ring m p))
     else mkRing (ri_events (mp_ring m p)) (alter (fun n => add64 n 1) (kn_cpu k) (ri_drops (mp_ring m p)))) /\
  (forall q, q <> p -> mp_ring (output k r m) q = mp_ring m q) /\
  mp_in_flight (output k r m) = mp_in_flight m /\ mp_prefixes (output k r m) = mp_prefixes m /\
  mp_pid_filter (output k r m) = mp_pid_filter m /\ mp_task_offsets (output k r m) = mp_task_offsets m.
Proof.
  cbv zeta. unfold output, count_ring_buffer_drop. destruct (kn_room k); cbn -[decide]; (split; [by rewrite decide_True by done|]);
    (split; [|done]); intros q Hq; by rewrite decide_False.
Qed.

(** C9: what a program writes of a socket is what the agent reads. A TCP program stopped by the
    self-filter does nothing. Otherwise, on a live socket, it offers its ring exactly one record,
    and whatever the holes of the struct hold and whatever lies behind it, the record decodes to the
    event of the socket: addresses of its family, ports in the machine's order, the identity of the
    current task. The record is in the ring or, when the ring is full, the counter of the CPU is one
    higher. When a port cannot be read nothing is offered and nothing counted. *)
Theorem socket_events_observed p k m s :
  kernel_ok k ->
  let sk := kn_arg k 0 in
  let m' := tcp_program p k m in
  (is_self_filtered k m = true -> m' = m) /\
  (is_self_filtered k m = false -> sock_at k sk s ->
     reports k m (tcp_event p k s) m' /\
     (if kn_room k
      then length (ri_events (mp_ring m' (tcp_probe p))) = S (length (ri_events (mp_ring m (tcp_probe p)))) /\
           ri_drops (mp_ring m' (tcp_probe p)) = ri_drops (mp_ring m (tcp_probe p))
      else ri_events (mp_ring m' (tcp_probe p)) = ri_events (mp_ring m (tcp_probe p)) /\
           ri_drops (mp_ring m' (tcp_probe p)) = alter (fun n => add64 n 1) (kn_cpu k) (ri_drops (mp_ring m (tcp_probe p))))) /\
  (forall e, probe_read_uint k sk 12 2 = Err e \/ probe_read_uint k sk 14 2 = Err e -> m' = m).
Proof.
  intros Hk sk m'. split; [|split].
  - intros Hf. subst m'. unfold tcp_program, tcp_connect_try_handle, tcp_close_try_handle, tcp_retransmit_try_handle. rewrite Hf. by destruct p.
  - intros Hf Hs.
    assert (exists r, m' = output k r m /\ raw_probe r = tcp_probe p /\ event_of_raw r = tcp_event p k s /\ raw_ok r) as (r & E & Hp & He & Hr).
    { destruct (read_addrs_ok k sk s Hk Hs) as (src & dst & Ha & Ls & Ld & Es & Ed). destruct (read_dport_ok k sk s Hs) as (dport & Hdp & Hdw & Hde).
      pose proof (probe_read_uint_at k sk 14 2 16 _ eq_refl (sa_num_ok k sk s Hs) (sa_num k sk s Hs)) as Hnum. pose proof (read_netns_ok k sk s Hs) as Hns.
      subst m' sk. unfold tcp_program, tcp_connect_try_handle, tcp_close_try_handle, tcp_retransmit_try_handle.
      rewrite Hf. destruct p; cbn zeta; rewrite Ha, Hdp; cbn [result_bind]; rewrite Hnum; cbn [result_bind handled];
        (eexists; split; [reflexivity|]; split; [reflexivity|]; split;
         [cbn -[u16_from_be ip_from]; unfold tcp_connect_of_raw, tcp_close_of_raw, tcp_retransmit_of_raw, connect_event, close_event, retransmit_event; cbn -[u16_from_be ip_from]; by rewrite Es, Ed, Hde, Hns|]);
        cbn [raw_ok rtc_timestamp_ns]; cbn; rewrite Hns; split_and!; field_fits. }
    rewrite E. split; [by apply output_reports|]. destruct (output_effect k r m) as [Heff _]. rewrite Hp in Heff. rewrite Heff.
    destruct (kn_room k); cbn; [|done]. rewrite length_app. cbn. split; [lia|done].
  - intros e He. subst m' sk. unfold tcp_program, tcp_connect_try_handle, tcp_close_try_handle, tcp_retransmit_try_handle.
    destruct (is_self_filtered k m); [by destruct p|]. destruct (read_addrs k (kn_arg k 0)) as [[fam src] dst].
    destruct He as [He|He]; [|destruct (probe_read_uint k (kn_arg k 0) 12 2)]; destruct p; cbn; rewrite ?He; done.
Qed.

(* ------------------------------------------------------------------ *)
(** ** Exec *)

(** What the string helpers write of the bytes of a string into a buffer of [n]. *)
Definition cstr (n : nat) (s : list byte) : list byte := take (n - 1) s ++ [x00].

Lemma position_nul s rest : x00 ∉ s -> position (fun b => bool_decide (b = x00)) (s ++ x00 :: rest) = Some (length s).
Proof.
  induction s as [|b s IH]; intros Hs; [done|]. apply not_elem_of_cons in Hs as [Hb Hs]. cbn.
  rewrite bool_decide_false by done. by rewrite IH.
Qed.

(** A string in a buffer reads back up to its length. *)
Lemma read_back n s : (0 < n)%nat -> x00 ∉ s -> nul_terminated_str (written n (cstr n s)) = str_or_empty (take (n - 1) s).
Proof.
  intros Hn Hs. unfold nul_terminated_str, written, cstr. rewrite (take_ge (_ ++ [x00])) by (rewrite length_app, length_take; cbn; lia).
  rewrite <- (assoc_L (++)). cbn [app]. assert (x00 ∉ take (n - 1) s) as Ht by (intros H; by apply elem_of_take in H as (i & H%list_elem_of_lookup_2 & _)).
  rewrite position_nul by done. cbn. by rewrite take_app_length.
Qed.

Lemma written_length n bs : length (written n bs) = n.
Proof. unfold written. rewrite length_app, length_take, repeat_length. lia. Qed.

(** A value behind a pointer of the current task. *)
Record task_holds (k : Kernel) (pointer_off value_off : Z) (n : nat) (z : Z) : Prop := {
  th_offsets : pointer_off <> 0 /\ value_off <> 0;
  th_task : kn_task k <> 0;
  th_pointer : exists p, in_width 64 p /\ p <> 0 /\ kn_read k (add64 (kn_task k) pointer_off) 8 = Ok (le_put 8 p) /\
                 kn_read k (add64 p value_off) n = Ok (le_put n z);
  th_value : in_width (8 * Z.of_nat n) z
}.

Lemma through_task_ok k po vo n z : task_holds k po vo n z -> through_task k po vo n = z.
Proof.
  intros [[Hp Hv] Ht (p & Hw & Hne & E1 & E2) Hz]. unfold through_task.
  rewrite !(proj2 (Z.eqb_neq _ _)) by done. cbn [orb]. rewrite (probe_read_uint_at k _ po 8 64 p eq_refl Hw E1), (proj2 (Z.eqb_neq p 0)) by done.
  by rewrite (probe_read_uint_at k p vo n _ z eq_refl Hz E2).
Qed.

Lemma through_task_width k po vo n w : kernel_ok k -> w = 8 * Z.of_nat n -> in_width w (through_task k po vo n).
Proof.
  intros Hk Hw. assert (in_width w 0) as H0 by (subst w; split; [done|apply Z.pow_pos_nonneg; lia]).
  unfold through_task. destruct (_ || _); [done|]. destruct (kn_task k =? 0); [done|].
  destruct (probe_read_uint k (kn_task k) po 8) as [p|]; [|done]. destruct (p =? 0); [done|]. by apply unwrap_read_width.
Qed.

(** The event of an exec of [name]. *)
Definition exec_event (k : Kernel) (name : list byte) (ppid start : Z) : ProcessExecEvent :=
  {| pe_observed_at_ns := kn_ktime_ns k; pe_pid := pid_of k; pe_tid := tid_of k; pe_ppid := ppid;
     pe_uid := wrap 32 (kn_uid_gid k); pe_gid := Z.shiftr (kn_uid_gid k) 32; pe_cgroup_id := kn_cgroup_id k; pe_ret := 0;
     pe_comm := nul_terminated_str (current_comm k); pe_filename := str_or_empty (take 255 name); pe_argv_hash := repeat x00 32;
     pe_leader_start_boottime_ns := start |}.

(** C30: an exec is reported with what identifies the process. Outside the self-filter, one record is
    offered whose bytes decode to the event of the current task: its ids, the file name up to 255
    bytes, and no arguments. With the offsets of the kernel's types at hand the parent's pid and the
    start time of the thread group's leader are the ones the task structures hold; without an offset
    they are 0, whatever memory holds. *)
Theorem exec_observed k m loc name :
  kernel_ok k -> is_self_filtered k m = false -> in_width 32 loc -> Z.land loc 0xffff <> 0 ->
  kn_payload k SCHED_EXEC_FILENAME_LOC_OFFSET 4 = Ok (le_put 4 loc) -> x00 ∉ name ->
  kn_read_str k (add64 (kn_ctx k) (Z.land loc 0xffff)) 256 = Ok (cstr 256 name) ->
  reports k m (ProcessExec (exec_event k name (read_ppid k m) (read_leader_start_boottime_ns k m))) (jalki_process_exec k m) /\
  (forall ppid, task_holds k (task_offset m 0) (task_offset m 1) 4 ppid -> read_ppid k m = ppid) /\
  (forall start, task_holds k (task_offset m 2) (task_offset m 3) 8 start -> read_leader_start_boottime_ns k m = start) /\
  (task_offset m 0 = 0 \/ task_offset m 1 = 0 -> read_ppid k m = 0) /\
  (task_offset m 2 = 0 \/ task_offset m 3 = 0 -> read_leader_start_boottime_ns k m = 0).
Proof.
  intros Hk Hf Hw Hloc Hp Hname Hs.
  assert (exec_filename k = written 256 (cstr 256 name)) as Efile.
  { unfold exec_filename. rewrite Hp. cbn [result_bind unwrap_or]. rewrite (le_get_u 4 32) by done.
    rewrite (proj2 (Z.eqb_neq _ 0)) by done. change PROCESS_EXEC_FILENAME_LEN with 256%nat. by rewrite Hs. }
  split.
  - unfold jalki_process_exec, process_exec_try_handle. rewrite Hf. cbn [handled]. apply output_reports.
    + unfold event_of_raw, process_exec_of_raw, exec_event. cbn [rpe_filename]. rewrite Efile, (read_back 256) by (done || lia). done.
    + cbn -[repeat wrap]. rewrite Efile, written_length. split_and!; try field_fits; try done.
      all: by apply through_task_width.
  - split_and!; [intros z; apply through_task_ok..| |]; intros [E|E]; unfold read_ppid, read_leader_start_boottime_ns, through_task;
      rewrite E, ?orb_true_r; done.
Qed.

(* ------------------------------------------------------------------ *)
(** ** A kernel to run on *)

(** Memory as what lies at each address. *)
Definition w_read (mem : list (Z * list byte)) (a : Z) (n : nat) : result Z (list byte) :=
  match find_first (fun cell => (cell.1 =? a) && (length cell.2 =? n)%nat) mem with Some cell => Ok cell.2 | None => Err (-14) end.

(** A task [4242] whose parent is [7], a socket at [4096] to port 443 of 10.0.0.9, an exec of
    [/bin/sh]. *)
Definition w_mem : list (Z * list byte) :=
  [(4112, le_put 2 2); (4096, [x0a; x00; x00; x09]); (4100, [x0a; x00; x00; x01]); (4108, be_put 2 443); (4110, le_put 2 50000);
   (4144, le_put 8 8192); (8368, le_put 4 4026531840);
   (65536 + 100, le_put 8 131072); (131072 + 50, le_put 4 7)].
Definition w_kernel (room : bool) : Kernel := {|
  kn_cpu := 1; kn_pid_tgid := 4242 * 2 ^ 32 + 4243; kn_uid_gid := 1000; kn_ktime_ns := 5; kn_cgroup_id := 77;
  kn_comm := Ok (bytes_of "curl" ++ repeat x00 12); kn_task := 65536; kn_arg := fun i => if decide (i = 0%nat) then 4096 else 2 ^ 32 - 111;
  kn_payload := fun off n => if decide (off = 8%nat /\ n = 4%nat) then Ok (le_put 4 (7 * 2 ^ 16 + 32)) else Err (-14);
  kn_ctx := 1000; kn_read := w_read w_mem;
  kn_read_str := fun a n => if a =? 1032 then Ok (cstr n (bytes_of "/bin/sh")) else Err (-14);
  kn_read_user_str := fun _ _ => Err (-14); kn_d_path := fun _ n => (-1, repeat x00 n);
  kn_room := room; kn_scratch := true; kn_evicted := []; kn_inserts := true |}.
Definition w_maps : Maps := mkMaps {[1 := 1]} [100; 50; 0; 0] [] ∅ (fun _ => mkRing [] [0; 0]).
Definition w_sock : Sock := mkSock 2 [x0a; x00; x00; x09] [x0a; x00; x00; x01] 443 50000 4026531840.

Lemma w_sock_kernel_ok room : kernel_ok (w_kernel room).
Proof.
  split; cbn [w_kernel kn_pid_tgid kn_uid_gid kn_ktime_ns kn_cgroup_id kn_comm kn_read]; [by split..| |].
  - by intros comm [= <-].
  - unfold w_read. intros a n bs. destruct (find_first _ _) as [cell|] eqn:E; [|done]. intros [= <-].
    apply find_first_Some in E as [_ E]. by apply andb_prop in E as [_ E%Nat.eqb_eq].
Qed.

Lemma w_sock_at room : sock_at (w_kernel room) 4096 w_sock.
Proof. split; try reflexivity; try (by split). exists 8192. by split_and!. Qed.

(** A connection refused, with room in the ring and without. *)
Lemma socket_events_observed_witness :
  reports (w_kernel true) w_maps (TcpConnect (connect_event (w_kernel true) w_sock)) (tcp_program JalkiTcpConnect (w_kernel true) w_maps) /\
  tc_ret (connect_event (w_kernel true) w_sock) = -111 /\ tc_dst_port (connect_event (w_kernel true) w_sock) = 443 /\
  ri_drops (mp_ring (tcp_program JalkiTcpConnect (w_kernel false) w_maps) PTcpConnect) = [0; 1].
Proof.
  destruct (socket_events_observed JalkiTcpConnect (w_kernel true) w_maps w_sock (w_sock_kernel_ok true)) as (_ & H & _).
  destruct (H eq_refl (w_sock_at true)) as [H1 _].
  destruct (socket_events_observed JalkiTcpConnect (w_kernel false) w_maps w_sock (w_sock_kernel_ok false)) as (_ & H' & _).
  destruct (H' eq_refl (w_sock_at false)) as [_ [_ H2]].
  split; [exact H1|]. split; [reflexivity|]. split; [reflexivity|]. exact H2.
Defined.

Lemma exec_observed_witness :
  reports (w_kernel true) w_maps (ProcessExec (exec_event (w_kernel true) (bytes_of "/bin/sh") 7 0)) (jalki_process_exec (w_kernel true) w_maps).
Proof.
  destruct (exec_observed (w_kernel true) w_maps (7 * 2 ^ 16 + 32) (bytes_of "/bin/sh") (w_sock_kernel_ok true))
    as (H & Hp & _ & _ & Hs); [reflexivity|by split|by vm_compute|reflexivity| |reflexivity|].
  - cbn. rewrite !elem_of_cons, elem_of_nil. naive_solver.
  - rewrite (Hp 7), Hs in H; [exact H|by left|]. split; [done|done| |by split]. exists 131072. by split_and!.
Defined.
