(* ===== verification/EbpfOpen.v ===== *)
(** The file programs: [jalki-ebpf/src/file_open.rs] and [file_open_attempt.rs], down to the record
    the agent keeps. *)
From Stdlib Require Import Strings.Byte.
From S2P Require Import Prelude Text Float Protocol Evidence Event SensitivePaths Normalize Store Reader Ebpf.

(* ------------------------------------------------------------------ *)
(** ** Opens *)

Definition FILE_F_PATH_OFFSET : Z := 64.
Definition FILE_F_FLAGS_OFFSET : Z := 40.

Definition read_file_flags (k : Kernel) (file : Z) : Z := unwrap_or 0 (probe_read_uint k file FILE_F_FLAGS_OFFSET 4).

Definition open_event (k : Kernel) (ret flags : Z) (path : list byte) : RawFileOpen :=
  {| rfo_timestamp_ns := kn_ktime_ns k; rfo_pid := pid_of k; rfo_uid := wrap 32 (kn_uid_gid k); rfo_cgroup_id := kn_cgroup_id k;
     rfo_ret := ret; rfo_flags := flags; rfo_comm := current_comm k; rfo_path := path |}.

Definition file_open_try_handle (k : Kernel) (m : Maps) : result Z Maps :=
  if is_self_filtered k m then Ok m else
  let file := kn_arg k 0 in
  if file =? 0 then Ok m else
  let ret := wrap_signed 32 (kn_arg k 1) in
  if negb (kn_scratch k) then Err 1 else
  let '(path_len, path) := kn_d_path k (add64 file FILE_F_PATH_OFFSET) FILE_OPEN_PATH_LEN in
  let event := open_event k ret (read_file_flags k file) path in
  if path_len <=? 0 then Ok m else
  if negb (matches_sensitive_prefix (mp_prefixes m) (rfo_path event)) then Ok m else
  Ok (output k (RawOpen event) m).

(* ------------------------------------------------------------------ *)
(** ** Attempts *)

Definition SYS_ENTER_FILENAME_OFFSET : nat := 24.
Definition SYS_EXIT_RET_OFFSET : nat := 16.

(** [LruHashMap::insert] *)
Definition lru_insert (k : Kernel) (key : Z) (value : list byte) (m : gmap Z (list byte)) : gmap Z (list byte) :=
  let m := foldr delete m (kn_evicted k) in
  if kn_inserts k then <[key := value]> m else m.

Definition payload_uint (k : Kernel) (off n : nat) : Z := unwrap_or 0 (bs <-? kn_payload k off n;; Ok (le_get bs)).

(** What a call asks to open, as [try_enter] reads it. *)
Definition requested (k : Kernel) : option (list byte) :=
  let filename_ptr := payload_uint k SYS_ENTER_FILENAME_OFFSET 8 in
  if filename_ptr =? 0 then None
  else match kn_read_user_str k filename_ptr FILE_OPEN_PATH_LEN with
       | Ok bs => Some (written FILE_OPEN_PATH_LEN bs)
       | Err _ => None
       end.

(** The tests on it. *)
Definition watched (prefixes : list SensitivePrefix) (buf : list byte) : bool :=
  bool_decide (head buf = Some "/"%byte) && matches_sensitive_prefix prefixes buf.

Definition try_enter (k : Kernel) (m : Maps) : result Z Maps :=
  if is_self_filtered k m then Ok m else
  if payload_uint k SYS_ENTER_FILENAME_OFFSET 8 =? 0 then Ok m else
  if negb (kn_scratch k) then Err 1 else
  match requested k with
  | None => Ok m
  | Some buf => if watched (mp_prefixes m) buf then Ok (m <| mp_in_flight ::= lru_insert k (kn_pid_tgid k) buf |>) else Ok m
  end.

Definition exit_ret (k : Kernel) : Z := wrap_signed 64 (payload_uint k SYS_EXIT_RET_OFFSET 8).
Definition attempt (k : Kernel) (path : list byte) : RawEvent := RawOpenAttempt (open_event k (wrap_signed 32 (exit_ret k)) 0 path).

Definition try_exit (k : Kernel) (m : Maps) : result Z Maps :=
  match mp_in_flight m !! kn_pid_tgid k with
  | None => Ok m
  | Some path =>
      if exit_ret k <? 0 then
        if negb (kn_scratch k) then Err 1
        else Ok ((output k (attempt k path) m) <| mp_in_flight ::= delete (kn_pid_tgid k) |>)
      else Ok (m <| mp_in_flight ::= delete (kn_pid_tgid k) |>)
  end.

(** The entry points of [main.rs]. *)
Definition jalki_file_open (k : Kernel) (m : Maps) : Maps := handled (file_open_try_handle k m) m.
Definition handle_enter (k : Kernel) (m : Maps) : Maps := handled (try_enter k m) m.
Definition handle_exit (k : Kernel) (m : Maps) : Maps := handled (try_exit k m) m.

(* ------------------------------------------------------------------ *)
(** ** An open is reported *)

Lemma open_ok k ret flags path :
  kernel_ok k -> - 2 ^ 31 <= ret < 2 ^ 31 -> in_width 32 flags -> length path = FILE_OPEN_PATH_LEN -> raw_ok (RawOpen (open_event k ret flags path)).
Proof. intros Hk Hr Hf Hp. cbn -[wrap]. split_and!; try done; try lia; field_fits. Qed.

Lemma nul_terminated_front path rest : x00 ∉ bytes_of path -> utf8_valid (bytes_of path) = true -> nul_terminated_str (bytes_of path ++ x00 :: rest) = path.
Proof.
  intros Hnul Hu. unfold nul_terminated_str. rewrite position_nul by done. cbn [from_option id]. rewrite take_app_length.
  unfold str_or_empty. by rewrite Hu, string_of_bytes_of.
Qed.

Lemma file_open_path_label id now e cluster :
  occ_labels (file_open_to_occurrence id now e cluster) !! "resource_ref_id" = Some (fo_path e).
Proof. unfold file_open_to_occurrence, label_if. destruct (fo_ret e =? 0), (fo_path_truncated e); cbn; by simplify_map_eq. Qed.
Lemma file_open_outcome id now e cluster :
  occ_outcome (file_open_to_occurrence id now e cluster) = Some OutSuccess <-> fo_ret e = 0.
Proof. unfold file_open_to_occurrence, label_if. destruct (Z.eqb_spec (fo_ret e) 0), (fo_path_truncated e); cbn; split; done. Qed.

(** The label a file record is gated by. *)
Lemma open_record_gated patterns r e id now cluster :
  er_occurrence r = file_open_to_occurrence id now e cluster -> record_matches_sensitive_paths patterns r = is_match patterns (fo_path e).
Proof.
  intros E. unfold record_matches_sensitive_paths. rewrite E. unfold file_open_to_occurrence, label_if.
  destruct (fo_ret e =? 0), (fo_path_truncated e); cbn; by simplify_map_eq.
Qed.
Lemma attempt_record_gated patterns r e id now cluster :
  er_occurrence r = open_attempt_to_occurrence id now e cluster -> fo_path_truncated e = false ->
  record_matches_sensitive_paths patterns r = is_match patterns (fo_path e).
Proof.
  intros E Ht. unfold record_matches_sensitive_paths. rewrite E. unfold open_attempt_to_occurrence, label_if. rewrite Ht. cbn. by simplify_map_eq.
Qed.

(** C7: an open of a sensitive file is not lost between the kernel and the agent's queue, as long as
    its path can be rendered. Load up to sixteen patterns. A process outside the self-filter opens a
    file (the pointer is not null, the scratch buffer is there) whose path is absolute, in UTF-8, and
    such that [bpf_d_path] renders it with its NUL within the 256 bytes of the event. If the patterns
    accept the path, the program offers one record, which is in the ring or counted as dropped. If
    they do not, it offers that record or nothing. Whatever the struct's holes hold, the agent makes of
    the record's bytes one record with the path, the result of the open and the process, which its
    patterns keep exactly if they accept the path. A longer path is outside the theorem, and the
    program drops it unseen: see [long_path_unreported]. *)
Theorem sensitive_open_kept k m patterns path n garbage :
  kernel_ok k -> is_self_filtered k m = false -> kn_arg k 0 <> 0 -> kn_scratch k = true ->
  mp_prefixes m = populate_sensitive_prefixes patterns -> (length patterns <= MAX_SENSITIVE_PREFIXES)%nat ->
  kn_d_path k (add64 (kn_arg k 0) FILE_F_PATH_OFFSET) FILE_OPEN_PATH_LEN = (n, bytes_of path ++ x00 :: garbage) -> 0 < n ->
  length (bytes_of path ++ x00 :: garbage) = FILE_OPEN_PATH_LEN -> x00 ∉ bytes_of path -> utf8_valid (bytes_of path) = true ->
  starts_with path "/" = true ->
  let m' := jalki_file_open k m in
  let r := RawOpen (open_event k (wrap_signed 32 (kn_arg k 1)) (read_file_flags k (kn_arg k 0)) (bytes_of path ++ x00 :: garbage)) in
  (if is_match patterns path then m' = output k r m else m' = output k r m \/ m' = m) /\
  forall hole rest id now cluster, exists record,
    to_evidence PFileOpen id now (raw_bytes hole r ++ rest) cluster = Ok [record] /\
    occ_labels (er_occurrence record) !! "resource_ref_id" = Some path /\
    er_pid record = pid_of k /\ er_cgroup_id record = kn_cgroup_id k /\
    (occ_outcome (er_occurrence record) = Some OutSuccess <-> wrap_signed 32 (kn_arg k 1) = 0) /\
    record_matches_sensitive_paths patterns record = is_match patterns path.
Proof.
  intros Hk Hf Hfile Hscr Hpre Hlen Hd Hn Hl Hnul Hu Habs m' r.
  assert (m' = if matches_sensitive_prefix (mp_prefixes m) (bytes_of path ++ x00 :: garbage) then output k r m else m) as Em.
  { subst m' r. unfold jalki_file_open, file_open_try_handle. rewrite Hf, (proj2 (Z.eqb_neq _ 0)), Hscr by done. cbn [negb].
    rewrite Hd, (proj2 (Z.leb_gt n 0)) by done. cbn [rfo_path open_event]. by destruct (matches_sensitive_prefix _ _). }
  split.
  - rewrite Em, Hpre. destruct (is_match patterns path) eqn:Hm.
    + by rewrite (kernel_gate_covers patterns path (x00 :: garbage) Hlen Habs Hm).
    + destruct (matches_sensitive_prefix (populate_sensitive_prefixes patterns) (bytes_of path ++ x00 :: garbage)); auto.
  - intros hole rest id now cluster.
    assert (raw_ok r) as Hr.
    { apply open_ok; [done|exact (wrap_signed_range 32 _ ltac:(lia))| |done]. by apply unwrap_read_width. }
    pose proof (decode_raw hole r rest Hr) as Hdec. unfold to_evidence. change (raw_probe r) with PFileOpen in Hdec. rewrite Hdec. cbn [result_bind].
    eexists. split; [reflexivity|]. 
    assert (fo_path (file_open_of_raw (open_event k (wrap_signed 32 (kn_arg k 1)) (read_file_flags k (kn_arg k 0)) (bytes_of path ++ x00 :: garbage))) = path) as Ep
      by (by apply nul_terminated_front).
    split_and!; [|done|done| |].
    + etrans; [apply (file_open_path_label id now _ cluster)|by rewrite Ep].
    + apply (file_open_outcome id now (file_open_of_raw (open_event k (wrap_signed 32 (kn_arg k 1)) (read_file_flags k (kn_arg k 0))
        (bytes_of path ++ x00 :: garbage))) cluster).
    + erewrite open_record_gated by reflexivity. by rewrite Ep.
Qed.

(* ------------------------------------------------------------------ *)
(** ** Attempts across calls *)

Inductive Tracepoint := SysEnter (k : Kernel) | SysExit (k : Kernel).

Definition tp_kernel (t : Tracepoint) : Kernel := match t with SysEnter k | SysExit k => k end.
Definition trace_step (m : Maps) (t : Tracepoint) : Maps := match t with SysEnter k => handle_enter k m | SysExit k => handle_exit k m end.

(** The threads inside a call after a trace; [None] when a thread enters twice or leaves a call it
    did not enter. *)
Fixpoint inside_after (inside : gset Z) (ts : list Tracepoint) : option (gset Z) :=
  match ts with
  | [] => Some inside
  | SysEnter k :: ts => if decide (kn_pid_tgid k ∈ inside) then None else inside_after ({[kn_pid_tgid k]} ∪ inside) ts
  | SysExit k :: ts => if decide (kn_pid_tgid k ∈ inside) then inside_after (inside ∖ {[kn_pid_tgid k]}) ts else None
  end.

(** The call a thread is in, by what came before, the latest first. *)
Fixpoint last_enter (key : Z) (past : list Tracepoint) : option Kernel :=
  match past with
  | [] => None
  | SysEnter k :: past => if kn_pid_tgid k =? key then Some k else last_enter key past
  | SysExit _ :: past => last_enter key past
  end.

(** The watched path a call asks for. *)
Definition asked (m : Maps) (k : Kernel) : option (list byte) :=
  if is_self_filtered k m then None
  else buf ← requested k; if watched (mp_prefixes m) buf then Some buf else None.

(** What a trace should report: the failing exits of calls that asked for a watched path, with the
    path of that very call. *)
Fixpoint attempts (m : Maps) (past ts : list Tracepoint) : list (Kernel * RawEvent) :=
  match ts with
  | [] => []
  | SysEnter k :: ts => attempts m (SysEnter k :: past) ts
  | SysExit k :: ts =>
      match last_enter (kn_pid_tgid k) past ≫= asked m with
      | Some path => if exit_ret k <? 0 then [(k, attempt k path)] else []
      | None => []
      end ++ attempts m (SysExit k :: past) ts
  end.

(** What a ring does with a record it is offered. *)
Definition offer (r : Ring) (ke : Kernel * RawEvent) : Ring :=
  if kn_room ke.1 then mkRing (ri_events r ++ [ke.2]) (ri_drops r)
  else mkRing (ri_events r) (alter (fun n => add64 n 1) (kn_cpu ke.1) (ri_drops r)).

(** The LRU map keeps what it is given, and the scratch is there. *)
Definition clean (t : Tracepoint) : Prop :=
  kn_scratch (tp_kernel t) = true /\ kn_inserts (tp_kernel t) = true /\ kn_evicted (tp_kernel t) = [].

(** The statics a trace leaves alone. *)
Definition same_config (m m' : Maps) : Prop := mp_pid_filter m' = mp_pid_filter m /\ mp_prefixes m' = mp_prefixes m.

Lemma asked_config m m' k : same_config m m' -> asked m' k = asked m k.
Proof. intros [E1 E2]. unfold asked, is_self_filtered. by rewrite E1, E2. Qed.

Lemma enter_spec k m : clean (SysEnter k) ->
  handle_enter k m = match asked m k with Some buf => m <| mp_in_flight ::= <[kn_pid_tgid k := buf]> |> | None => m end.
Proof.
  intros (Hs & Hi & He). cbn [tp_kernel] in *. unfold handle_enter, try_enter, asked, requested. rewrite Hs. cbn [negb].
  destruct (is_self_filtered k m); [done|]. destruct (payload_uint k SYS_ENTER_FILENAME_OFFSET 8 =? 0); [done|].
  destruct (kn_read_user_str k _ FILE_OPEN_PATH_LEN) as [bs|]; [|done]. cbn [mbind option_bind].
  destruct (watched _ _); [|done]. cbn [handled]. unfold lru_insert. by rewrite Hi, He.
Qed.

Lemma exit_spec k m : clean (SysExit k) ->
  handle_exit k m =
    match mp_in_flight m !! kn_pid_tgid k with
    | Some path => (if exit_ret k <? 0 then output k (attempt k path) m else m) <| mp_in_flight ::= delete (kn_pid_tgid k) |>
    | None => m
    end.
Proof.
  intros (Hs & _). cbn [tp_kernel] in *. unfold handle_exit, try_exit. destruct (mp_in_flight m !! _) as [path|]; [|done].
  rewrite Hs. by destruct (exit_ret k <? 0).
Qed.

(** What is in flight: for each thread inside a call, the watched path of that call. *)
Definition in_flight_ok (m0 : Maps) (inside : gset Z) (past : list Tracepoint) (m : Maps) : Prop :=
  forall key, mp_in_flight m !! key = if decide (key ∈ inside) then last_enter key past ≫= asked m0 else None.

Lemma enter_in_flight m0 inside past m k :
  clean (SysEnter k) -> kn_pid_tgid k ∉ inside -> same_config m0 m -> in_flight_ok m0 inside past m ->
  let m' := handle_enter k m in
  mp_ring m' = mp_ring m /\ same_config m0 m' /\ in_flight_ok m0 ({[kn_pid_tgid k]} ∪ inside) (SysEnter k :: past) m'.
Proof.
  intros Hc Hout Hcfg Hok m'. pose proof (Hok (kn_pid_tgid k)) as Hk. rewrite decide_False in Hk by done.
  assert (m' = match asked m0 k with Some buf => m <| mp_in_flight ::= <[kn_pid_tgid k := buf]> |> | None => m end) as E
    by (subst m'; rewrite enter_spec by done; by rewrite (asked_config m0 m)).
  split_and!; [rewrite E; by destruct (asked m0 k)| |].
  { destruct Hcfg. rewrite E. by destruct (asked m0 k). }
  intros key. cbn [last_enter]. destruct (Z.eqb_spec (kn_pid_tgid k) key) as [<-|Hne].
  - rewrite decide_True by set_solver. rewrite E. cbn [mbind option_bind]. destruct (asked m0 k); cbn; [by rewrite lookup_insert_eq|done].
  - transitivity (mp_in_flight m !! key); [rewrite E; destruct (asked m0 k); cbn; [by rewrite lookup_insert_ne|done]|].
    rewrite (Hok key). destruct (decide (key ∈ inside)); [rewrite decide_True by set_solver|rewrite decide_False by set_solver]; done.
Qed.

Lemma exit_in_flight m0 inside past m k :
  clean (SysExit k) -> kn_pid_tgid k ∈ inside -> same_config m0 m -> in_flight_ok m0 inside past m ->
  let m' := handle_exit k m in
  mp_ring m' PFileOpenAttempt = foldl offer (mp_ring m PFileOpenAttempt)
    (match last_enter (kn_pid_tgid k) past ≫= asked m0 with
     | Some path => if exit_ret k <? 0 then [(k, attempt k path)] else []
     | None => []
     end) /\
  (forall p, p <> PFileOpenAttempt -> mp_ring m' p = mp_ring m p) /\
  same_config m0 m' /\ in_flight_ok m0 (inside ∖ {[kn_pid_tgid k]}) (SysExit k :: past) m'.
Proof.
  intros Hc Hin [Hcfg1 Hcfg2] Hok m'. pose proof (Hok (kn_pid_tgid k)) as Hk. rewrite decide_True in Hk by done.
  pose proof (exit_spec k m Hc) as E. fold m' in E. rewrite Hk in E.
  assert (forall key, mp_in_flight m' !! key = if decide (key = kn_pid_tgid k) then None else mp_in_flight m !! key) as Hfl.
  { intros key. rewrite E. destruct (last_enter _ past ≫= asked m0) as [path|] eqn:Ep.
    - destruct (output_effect k (attempt k path) m) as (_ & _ & Hf & _).
      destruct (exit_ret k <? 0); cbn -[decide]; rewrite ?Hf; (destruct (decide (key = kn_pid_tgid k)) as [->|Hne]; [by rewrite lookup_delete_eq|by rewrite lookup_delete_ne]).
    - case_decide as He; [by rewrite He, Hk|done]. }
  split_and!.
  - rewrite E. destruct (last_enter _ past ≫= asked m0) as [path|]; [|done]. destruct (exit_ret k <? 0); [|done].
    destruct (output_effect k (attempt k path) m) as (Hring & _). cbn [foldl]. exact Hring.
  - intros p Hp. rewrite E. destruct (last_enter _ past ≫= asked m0) as [path|]; [|done]. destruct (exit_ret k <? 0); [|done].
    destruct (output_effect k (attempt k path) m) as (_ & Hq & _). exact (Hq p Hp).
  - rewrite E. destruct (last_enter _ past ≫= asked m0) as [path|]; [|done]. destruct (exit_ret k <? 0); [|done].
    destruct (output_effect k (attempt k path) m) as (_ & _ & _ & H1 & H2 & _). split; cbn; congruence.
  - intros key. rewrite Hfl, (Hok key). cbn [last_enter]. case_decide as He; [subst key; by rewrite decide_False by set_solver|].
    destruct (decide (key ∈ inside)); [rewrite decide_True by set_solver|rewrite decide_False by set_solver]; done.
Qed.

Lemma run_trace m0 ts inside inside' past m :
  Forall clean ts -> inside_after inside ts = Some inside' -> same_config m0 m -> in_flight_ok m0 inside past m ->
  let m' := foldl trace_step m ts in
  mp_ring m' PFileOpenAttempt = foldl offer (mp_ring m PFileOpenAttempt) (attempts m0 past ts) /\
  (forall p, p <> PFileOpenAttempt -> mp_ring m' p = mp_ring m p) /\
  exists past', in_flight_ok m0 inside' past' m'.
Proof.
  intros Hc. revert inside past m. induction Hc as [|t ts Ht Hts IH]; intros inside past m Hin Hcfg Hok; cbn [foldl attempts inside_after] in *.
  - simplify_eq. eauto.
  - destruct t as [k|k]; cbn [trace_step]; case_decide as Hk; [done| | |done].
    + destruct (enter_in_flight m0 inside past m k Ht Hk Hcfg Hok) as (E1 & E2 & E3).
      destruct (IH _ _ _ Hin E2 E3) as (F1 & F2 & F3). rewrite <- E1. eauto.
    + destruct (exit_in_flight m0 inside past m k Ht Hk Hcfg Hok) as (E1 & E2 & E3 & E4).
      destruct (IH _ _ _ Hin E3 E4) as (F1 & F2 & F3). rewrite foldl_app, <- E1. split_and!; [done| |done].
      intros p Hp. by rewrite F2, E2.
Qed.

Lemma attempts_read m past ts k e :
  Forall (fun t => kernel_ok (tp_kernel t)) ts -> (k, e) ∈ attempts m past ts ->
  exists path, e = attempt k path /\ raw_ok e.
Proof.
  intros Hk. revert past. induction Hk as [|t ts Ht Hts IH]; intros past Hin; [by apply elem_of_nil in Hin|]. destruct t as [k0|k0]; cbn in Hin; [by eapply IH|].
  apply elem_of_app in Hin as [Hin|Hin]; [|by eapply IH].
  destruct (last_enter _ past) as [k1|]; [|by apply elem_of_nil in Hin]. cbn [mbind option_bind] in Hin. unfold asked in Hin.
  destruct (is_self_filtered k1 m); [by apply elem_of_nil in Hin|]. destruct (requested k1) as [buf|] eqn:Er; [|by apply elem_of_nil in Hin].
  cbn [mbind option_bind] in Hin. destruct (watched _ buf); [|by apply elem_of_nil in Hin]. destruct (exit_ret k0 <? 0); [|by apply elem_of_nil in Hin].
  apply list_elem_of_singleton in Hin as [= -> ->]. exists buf. split; [done|].
  apply (open_ok k0 _ 0 buf); [exact Ht|exact (wrap_signed_range 32 _ ltac:(lia))|by split|].
  unfold requested in Er. destruct (_ =? 0); [done|]. destruct (kn_read_user_str _ _ _); [|done]. injection Er as <-. apply written_length.
Qed.

(** C8: a failed open of a watched path is offered to the ring once, with the path of that very call,
    as long as no event is missed and nothing evicted. Start with no path in flight. Let threads enter
    and leave their calls in any order in which a thread leaves the call it entered before it enters
    another, every exit seen ([inside_after]), the map takes each insert and evicts nothing, and the
    scratch buffer is there ([clean]). Then the ring is offered, in order, one record for each exit
    with an error of a call whose requested path is absolute and watched and whose process is not
    filtered, and nothing else; an offer the ring refuses is counted on its CPU. The records decode.
    No other ring is touched, and a path is in flight only for a thread inside a call, so nothing is
    left behind. After a missed exit a record can have another call's path: see
    [missed_exit_misattributes]. *)
Theorem attempts_exact m ts inside :
  mp_in_flight m = ∅ -> inside_after ∅ ts = Some inside -> Forall clean ts ->
  let m' := foldl trace_step m ts in
  mp_ring m' PFileOpenAttempt = foldl offer (mp_ring m PFileOpenAttempt) (attempts m [] ts) /\
  (forall p, p <> PFileOpenAttempt -> mp_ring m' p = mp_ring m p) /\
  (forall key, is_Some (mp_in_flight m' !! key) -> key ∈ inside) /\
  (Forall (fun t => kernel_ok (tp_kernel t)) ts -> forall k e hole rest, (k, e) ∈ attempts m [] ts ->
     decode_event PFileOpenAttempt (raw_bytes hole e ++ rest) = Ok (event_of_raw e)).
Proof.
  intros He Hin Hc m'. destruct (run_trace m ts ∅ inside [] m Hc Hin) as (H1 & H2 & past & H3).
  { by split. }
  { intros key. by rewrite He, lookup_empty, decide_False by set_solver. }
  split_and!; [done|done| |].
  - intros key. change (mp_in_flight m' !! key) with (mp_in_flight (foldl trace_step m ts) !! key). rewrite (H3 key). case_decide; [done|]. by intros [].
  - intros Hk k e hole rest Hi. destruct (attempts_read m [] ts k e Hk Hi) as (path & -> & Hr). exact (decode_raw hole _ rest Hr).
Qed.

(* ------------------------------------------------------------------ *)
(** ** Runs *)

(** Thread [tid] of process 4242 asks for [path]; its call returns [ret]. *)
Definition w_call (tid : Z) (path : string) (ret : Z) : Kernel := {|
  kn_cpu := 0; kn_pid_tgid := 4242 * 2 ^ 32 + tid; kn_uid_gid := 1000; kn_ktime_ns := 5; kn_cgroup_id := 77;
  kn_comm := Ok (bytes_of "cat" ++ repeat x00 13); kn_task := 0; kn_arg := fun i => if decide (i = 0%nat) then 4096 else ret;
  kn_payload := fun off n => if decide (off = 24%nat) then Ok (le_put 8 12288) else Ok (le_put 8 ret);
  kn_ctx := 1000; kn_read := fun _ _ => Err (-14); kn_read_str := fun _ _ => Err (-14);
  kn_read_user_str := fun _ n => Ok (cstr n (bytes_of path));
  kn_d_path := fun _ n => (slen path + 1, written n (cstr n (bytes_of path)));
  kn_room := true; kn_scratch := true; kn_evicted := []; kn_inserts := true |}.
Definition w_gate : Maps := mkMaps ∅ [] (populate_sensitive_prefixes DEFAULT_SENSITIVE_PATHS) ∅ (fun _ => mkRing [] [0]).

Lemma w_call_ok tid path ret : in_width 32 tid -> kernel_ok (w_call tid path ret).
Proof.
  intros [H1 H2]. split; cbn [w_call kn_pid_tgid kn_uid_gid kn_ktime_ns kn_cgroup_id kn_comm kn_read]; [|by split..| |done].
  - unfold in_width. change (2 ^ 64) with (4294967296 * 4294967296). change (2 ^ 32) with 4294967296 in *. lia.
  - by intros comm [= <-].
Qed.

(** The file behind [/root/.ssh/id_rsa] is opened and denied. *)
Lemma sensitive_open_kept_witness :
  exists record,
    to_evidence PFileOpen "01J" 5 (raw_bytes (fun _ => xff)
      (RawOpen (open_event (w_call 1 "/root/.ssh/id_rsa" (-13)) (-13) 0 (bytes_of "/root/.ssh/id_rsa" ++ x00 :: repeat x00 238)))) "prod" = Ok [record] /\
    occ_labels (er_occurrence record) !! "resource_ref_id" = Some "/root/.ssh/id_rsa" /\
    record_matches_sensitive_paths DEFAULT_SENSITIVE_PATHS record = true /\
    length (ri_events (mp_ring (jalki_file_open (w_call 1 "/root/.ssh/id_rsa" (-13)) w_gate) PFileOpen)) = 1%nat.
Proof.
  destruct (sensitive_open_kept (w_call 1 "/root/.ssh/id_rsa" (-13)) w_gate DEFAULT_SENSITIVE_PATHS "/root/.ssh/id_rsa" 18 (repeat x00 238))
    as [H1 H2].
  - by apply w_call_ok.
  - reflexivity.
  - done.
  - reflexivity.
  - reflexivity.
  - vm_compute. lia.
  - by vm_compute.
  - done.
  - reflexivity.
  - cbn. rewrite !elem_of_cons, elem_of_nil. naive_solver.
  - by vm_compute.
  - by vm_compute.
  - destruct (H2 (fun _ => xff) [] "01J" 5 "prod") as (record & R1 & R2 & _ & _ & _ & R3). exists record.
    rewrite app_nil_r in R1. split; [exact R1|]. split; [exact R2|]. split; [rewrite R3; by vm_compute|].
    change (is_match DEFAULT_SENSITIVE_PATHS "/root/.ssh/id_rsa") with true in H1. rewrite H1. by vm_compute.
Defined.

(** Two threads, their calls interleaved: one asks for a watched file that is not there, the other
    for another file. *)
Definition w_trace : list Tracepoint :=
  [SysEnter (w_call 1 "/root/.ssh/id_ed25519" (-2)); SysEnter (w_call 2 "/tmp/x" (-2)); SysExit (w_call 2 "/tmp/x" (-2));
   SysExit (w_call 1 "/root/.ssh/id_ed25519" (-2)); SysEnter (w_call 1 "/root/.ssh/config" 3); SysExit (w_call 1 "/root/.ssh/config" 3)].

Lemma attempts_exact_witness :
  let m' := foldl trace_step w_gate w_trace in
  (fun e => match event_of_raw e with FileOpenAttempt o => (fo_path o, fo_ret o) | _ => ("", 0) end) <$> ri_events (mp_ring m' PFileOpenAttempt)
    = [("/root/.ssh/id_ed25519", -2)] /\
  forall key, ~ is_Some (mp_in_flight m' !! key).
Proof.
  destruct (attempts_exact w_gate w_trace ∅) as (H1 & _ & H2 & _).
  - reflexivity.
  - by vm_compute.
  - repeat constructor.
  - cbv zeta in *. split; [rewrite H1; by vm_compute|]. intros key Hkey%H2. by apply elem_of_empty in Hkey.
Defined.

(* ------------------------------------------------------------------ *)
(** ** What slips through *)

(** A path longer than [bpf_d_path] can render is not reported and not counted. *)
Lemma long_path_unreported k m n buf :
  kn_d_path k (add64 (kn_arg k 0) FILE_F_PATH_OFFSET) FILE_OPEN_PATH_LEN = (n, buf) -> n <= 0 -> jalki_file_open k m = m.
Proof.
  intros Hd Hn. unfold jalki_file_open, file_open_try_handle. destruct (is_self_filtered k m); [done|]. destruct (_ =? 0); [done|].
  destruct (kn_scratch k); [|done]. cbn [negb]. by rewrite Hd, (proj2 (Z.leb_le n 0)).
Qed.

(** The string helper ends what it writes with a NUL, so the path of an attempt never looks
    truncated, though 255 bytes are all it can hold. *)
Lemma attempt_never_truncated k name buf ret :
  kn_read_user_str k (payload_uint k SYS_ENTER_FILENAME_OFFSET 8) FILE_OPEN_PATH_LEN = Ok (cstr FILE_OPEN_PATH_LEN name) ->
  requested k = Some buf -> fo_path_truncated (file_open_of_raw (open_event k ret 0 buf)) = false.
Proof.
  intros Hr. unfold requested. destruct (_ =? 0); [done|]. rewrite Hr. intros [= <-].
  cbn [file_open_of_raw fo_path_truncated rfo_path open_event]. unfold path_truncated. rewrite bool_decide_true; [done|].
  unfold written, cstr. rewrite take_ge by (rewrite length_app, length_take; cbn [length]; change FILE_OPEN_PATH_LEN with 256%nat; lia).
  rewrite !elem_of_app. left. right. by left.
Qed.

(** A watched file requested by a path of more than 255 bytes passes the kernel's gate and is dropped
    by the agent: what is left of its path no longer matches. *)
Definition w_long : string := String.concat "" ("/home/u" :: repeat "/deep/x" 36) +:+ "/.ssh/id_rsa".
Example long_attempt_evades :
  is_match DEFAULT_SENSITIVE_PATHS w_long = true /\
  let m := foldl trace_step w_gate [SysEnter (w_call 1 w_long (-13)); SysExit (w_call 1 w_long (-13))] in
  (fun e => match to_evidence PFileOpenAttempt "01J" 5 (raw_bytes (fun _ => x00) e) "prod" with
            | Ok records => map (record_matches_sensitive_paths DEFAULT_SENSITIVE_PATHS) records
            | Err _ => []
            end) <$> ri_events (mp_ring m PFileOpenAttempt) = [[false]].
Proof. by vm_compute. Qed.

(** When the exit of a watched call is missed, its path stays for the thread: the next call, for a
    file nobody watches, does not replace it, and its failure is reported with the old path. *)
Example missed_exit_misattributes :
  let m := foldl trace_step w_gate
    [SysEnter (w_call 1 "/root/.ssh/id_rsa" 3); SysEnter (w_call 1 "/tmp/x" (-2)); SysExit (w_call 1 "/tmp/x" (-2))] in
  (fun e => match event_of_raw e with FileOpenAttempt o => (fo_path o, fo_ret o) | _ => ("", 0) end) <$> ri_events (mp_ring m PFileOpenAttempt)
    = [("/root/.ssh/id_rsa", -2)].
Proof. by vm_compute. Qed.
