(* ===== verification/VartioItem.v ===== *)
(** What an occurrence looks like on Vartio's wire: [native_runtime_item] of
    [jalki-vartio-sink/src/native.rs]. *)
From Stdlib Require Import Strings.Byte Strings.Ascii.
From S2P Require Import Prelude Text Float Protocol RuntimeSubject Evidence Samples Gap.

(** [serde_json::Value], as far as items use it; a [Map] is sorted by key. *)
Inductive Json :=
| JNull
| JBool (b : bool)
| JUint (z : Z)
| JInt (z : Z)
| JFloat (f : f64)
| JString (s : string)
| JStrings (l : list string).

(** Numbers as [json!] takes them: an [i64] that is not negative is stored as a [u64], a float that
    is not finite as null. *)
Definition json_i64 (z : Z) : Json := if 0 <=? z then JUint z else JInt z.
Definition json_f64 (f : f64) : Json := match f_dyadic f with Some _ => JFloat f | None => JNull end.

(** [str::parse::<i64>]: an optional sign, digits, in range. *)
Definition parse_i64 (s : string) : option Z :=
  match s with
  | String c rest =>
      if decide (c = "-"%char)
      then match rest with
           | EmptyString => None
           | _ => v ← parse_digits rest 0; if v <=? 2 ^ 63 then Some (- v) else None
           end
      else parse_uint 63 s
  | EmptyString => None
  end.

Definition LABEL_KEYS : list (string * string) :=
  [("node_id", "node_id"); ("k8s_pod_uid", "pod_uid"); ("k8s_pod_name", "pod_name"); ("k8s_container_id", "container_id");
   ("k8s_namespace", "k8s_namespace"); ("k8s_service_account", "service_account"); ("k8s_owner_kind", "owner_kind");
   ("k8s_owner_name", "owner_name"); ("k8s_owner_uid", "owner_uid"); ("cgroup_id", "cgroup_id"); ("argv_hash", "argv_hash");
   ("tcp_state", "tcp_state"); ("cluster_id", "cluster_id"); ("kernel_release", "kernel_release");
   ("runtime_subject_id", "runtime_subject_id"); ("node_identity", "node_identity"); ("boot_id", "boot_id");
   ("runtime_identity_method", "runtime_identity_method"); ("evidence_level", "evidence_level"); ("cause", "cause")].
Definition RUNTIME_U64_KEYS : list string :=
  ["host_tgid"; "host_tid"; "leader_start_boottime_ns"; "runtime_canonicalization_version"].
Definition GAP_U64_KEYS : list string :=
  ["dropped_records"; "dropped_reliability"; "dropped_attribution"; "gap_start_ns"; "gap_end_ns"].

(** The snake-case name serde gives an [Outcome]. *)
Definition outcome_name (o : Outcome) : string :=
  match o with
  | OutSuccess => "success" | OutFailure => "failure" | OutTimeout => "timeout"
  | OutInProgress => "in_progress" | OutUnknown => "unknown"
  end.

Definition NativeItem : Type := gmap string Json.

(** [if let Some(value) = .. { item.insert(key, value) }] *)
Definition put (key : string) (v : option Json) (item : NativeItem) : NativeItem :=
  match v with Some j => <[key := j]> item | None => item end.
Definition put_all (l : list (string * option Json)) (item : NativeItem) : NativeItem := foldl (fun item kv => put kv.1 kv.2 item) item l.

(** A pair of a closed list is in it. *)
Ltac in_table := first [apply list_elem_of_here | apply list_elem_of_further; in_table].

Section item.
(** [DateTime::to_rfc3339], and [serde_json::from_str::<Vec<String>>]. *)
Variable to_rfc3339 : Z -> string.
Variable parse_strings : string -> option (list string).

Section of_labels.
Variable labels : gmap string string.
Definition label_u64 (key : string) : option Json := JUint <$> (labels !! key ≫= parse_uint 64).
Definition label_is (key value : string) : bool := bool_decide (labels !! key = Some value).

Definition put_labels (item : NativeItem) : NativeItem :=
  let item := put "kernel_time_ns" (label_u64 "observed_at_ns") item in
  let item := put_all (map (fun lk => (lk.2, JString <$> labels !! lk.1)) LABEL_KEYS) item in
  let item := put_all (map (fun key => (key, label_u64 key)) GAP_U64_KEYS) item in
  let item := put_all (map (fun key => (key, label_u64 key)) RUNTIME_U64_KEYS) item in
  let item := put "affected_probes" (JStrings <$> (labels !! "affected_probes" ≫= parse_strings)) item in
  let item := put "gid" (label_u64 "gid") item in
  let item := if label_is "resource_ref_kind" "executable" then put "exe" (JString <$> labels !! "resource_ref_id") item else item in
  let item := if label_is "resource_ref_kind" "file" then put "path" (JString <$> labels !! "resource_ref_id") item else item in
  let item := put_all (map (fun key => (key, JString <$> labels !! key)) ["requested_path"; "path_resolution"; "coverage"; "flags"]) item in
  let item := if label_is "path_truncated" "true" then <["path_truncated" := JBool true]> item else item in
  match labels !! "errno_num" ≫= parse_i64 with
  | Some ret => if ret <? 0 then <["errno" := json_i64 (wrap_signed 64 (- ret))]> item else item
  | None => item
  end.
End of_labels.

Definition put_process (p : ProcessEventData) (item : NativeItem) : NativeItem :=
  let item := <["pid" := JUint (proc_pid p)]> item in
  let item := put "ppid" (JUint <$> proc_ppid p) item in
  let item := <["comm" := JString (proc_command p)]> item in
  put "uid" (JUint <$> proc_uid p) item.

Definition put_network (n : NetworkEventData) (item : NativeItem) : NativeItem :=
  let item := <["protocol" := JString (net_protocol n)]> item in
  let item := <["source_ip" := JString (net_src_ip n)]> item in
  let item := <["source_port" := JUint (net_src_port n)]> item in
  let item := <["destination_ip" := JString (net_dst_ip n)]> item in
  let item := <["destination_port" := JUint (net_dst_port n)]> item in
  let item := put "count" (JUint <$> net_retransmit_count n) item in
  put "rtt_ms" (json_f64 <$> net_rtt_current_ms n) item.

Definition native_runtime_item (occ : Occurrence) : NativeItem :=
  let item := <["occurrence_type" := JString (occ_type occ)]> ∅ in
  let item := <["event_id" := JString (occ_id occ)]> item in
  let ts := to_rfc3339 (occ_timestamp occ) in
  let item := <["observed_at" := JString ts]> item in
  let item := <["agent_recv_time" := JString ts]> item in
  let item := put_labels (occ_labels occ) item in
  let item := match occ_process_data occ with Some p => put_process p item | None => item end in
  let item := match occ_network_data occ with Some n => put_network n item | None => item end in
  match occ_outcome occ with
  | Some o => <["state" := JString (outcome_name o)]> item
  | None => item
  end.

(* ------------------------------------------------------------------ *)
(** ** What an item says *)

(** Every key an item can have, with what it is made of. *)
Definition native_fields (occ : Occurrence) : list (string * option Json) :=
  let labels := occ_labels occ in
  let process {A} (f : ProcessEventData -> option A) (mk : A -> Json) := mk <$> (occ_process_data occ ≫= f) in
  let network {A} (f : NetworkEventData -> option A) (mk : A -> Json) := mk <$> (occ_network_data occ ≫= f) in
  let when (c : bool) (v : option Json) := if c then v else None in
  [("occurrence_type", Some (JString (occ_type occ))); ("event_id", Some (JString (occ_id occ)));
   ("observed_at", Some (JString (to_rfc3339 (occ_timestamp occ)))); ("agent_recv_time", Some (JString (to_rfc3339 (occ_timestamp occ))));
   ("kernel_time_ns", label_u64 labels "observed_at_ns")] ++
  map (fun lk => (lk.2, JString <$> labels !! lk.1)) LABEL_KEYS ++
  map (fun key => (key, label_u64 labels key)) (GAP_U64_KEYS ++ RUNTIME_U64_KEYS) ++
  [("affected_probes", JStrings <$> (labels !! "affected_probes" ≫= parse_strings)); ("gid", label_u64 labels "gid");
   ("exe", when (label_is labels "resource_ref_kind" "executable") (JString <$> labels !! "resource_ref_id"));
   ("path", when (label_is labels "resource_ref_kind" "file") (JString <$> labels !! "resource_ref_id"));
   ("requested_path", JString <$> labels !! "requested_path"); ("path_resolution", JString <$> labels !! "path_resolution");
   ("coverage", JString <$> labels !! "coverage"); ("flags", JString <$> labels !! "flags");
   ("path_truncated", when (label_is labels "path_truncated" "true") (Some (JBool true)));
   ("errno", ret ← labels !! "errno_num" ≫= parse_i64; if ret <? 0 then Some (json_i64 (wrap_signed 64 (- ret))) else None);
   ("pid", process (fun p => Some (proc_pid p)) JUint); ("ppid", process proc_ppid JUint);
   ("comm", process (fun p => Some (proc_command p)) JString); ("uid", process proc_uid JUint);
   ("protocol", network (fun n => Some (net_protocol n)) JString); ("source_ip", network (fun n => Some (net_src_ip n)) JString);
   ("source_port", network (fun n => Some (net_src_port n)) JUint); ("destination_ip", network (fun n => Some (net_dst_ip n)) JString);
   ("destination_port", network (fun n => Some (net_dst_port n)) JUint); ("count", network net_retransmit_count JUint);
   ("rtt_ms", network net_rtt_current_ms json_f64); ("state", JString ∘ outcome_name <$> occ_outcome occ)].

(** An item made of a list of fields says what the first field of that key says. *)
Definition says (l : list (string * option Json)) (key : string) : option Json :=
  find_first (fun kv => bool_decide (kv.1 = key)) l ≫= snd.

Lemma put_all_app l1 l2 item : put_all (l1 ++ l2) item = put_all l2 (put_all l1 item).
Proof. apply foldl_app. Qed.

Lemma says_cons k v l key : says ((k, v) :: l) key = if decide (k = key) then v else says l key.
Proof. unfold says. cbn [find_first fst]. by case_bool_decide; case_decide. Qed.

Lemma says_fresh l key : key ∉ map fst l -> says l key = None.
Proof.
  induction l as [|[k v] l IH]; [done|]. cbn [map fst]. rewrite not_elem_of_cons, says_cons. intros [Hk Hl].
  rewrite decide_False by done. auto.
Qed.

Lemma put_lookup k v item key : put k v item !! key = if decide (k = key) then match v with Some j => Some j | None => item !! key end else item !! key.
Proof. destruct v as [j|]; cbn; case_decide as H; [subst; apply lookup_insert_eq|by apply lookup_insert_ne|done..]. Qed.

Lemma put_all_lookup l item key :
  NoDup (map fst l) -> put_all l item !! key = match says l key with Some j => Some j | None => item !! key end.
Proof.
  revert item. induction l as [|[k v] l IH]; intros item Hnd; [done|]. cbn [map fst] in Hnd. apply NoDup_cons in Hnd as [Hk Hnd].
  change (put_all ((k, v) :: l) item) with (put_all l (put k v item)). rewrite IH by done. rewrite says_cons, put_lookup.
  case_decide as E; [subst k; by rewrite says_fresh|done].
Qed.

Lemma put_when (c : bool) key v item : (if c then put key v item else item) = put key (if c then v else None) item.
Proof. by destruct c. Qed.

Lemma insert_when (c : bool) key (j : Json) (item : NativeItem) : (if c then <[key := j]> item else item) = put key (if c then Some j else None) item.
Proof. by destruct c. Qed.

Lemma native_fields_NoDup occ : NoDup (map fst (native_fields occ)).
Proof.
  unfold native_fields. cbv zeta. rewrite !map_app, !map_map. cbn [map fst snd app LABEL_KEYS GAP_U64_KEYS RUNTIME_U64_KEYS].
  match goal with |- NoDup ?l => apply (bool_decide_eq_true (NoDup l)) end. by vm_compute.
Qed.

Lemma put_errno (m : option Z) (f : Z -> Json) item :
  match m with Some ret => if ret <? 0 then <["errno" := f ret]> item else item | None => item end =
    put "errno" (ret ← m; if ret <? 0 then Some (f ret) else None) item.
Proof. destruct m as [ret|]; cbn; [by destruct (ret <? 0)|done]. Qed.

Lemma native_runtime_item_fields occ : native_runtime_item occ = put_all (native_fields occ) ∅.
Proof.
  unfold native_runtime_item, native_fields, put_labels. rewrite put_errno, map_app, !put_all_app. cbv zeta. rewrite !put_when, insert_when.
  destruct (occ_process_data occ) as [p|], (occ_network_data occ) as [n|], (occ_outcome occ) as [o|]; reflexivity.
Qed.
Lemma native_item_says occ key : native_runtime_item occ !! key = says (native_fields occ) key.
Proof.
  rewrite native_runtime_item_fields, put_all_lookup by apply native_fields_NoDup.
  by destruct (says _ key).
Qed.

Lemma label_u64_dec labels key n : is_u64 n -> labels !! key = Some (dec n) -> label_u64 labels key = Some (JUint n).
Proof. intros Hn Hl. unfold label_u64. rewrite Hl. cbn. rewrite parse_uint_dec; [done|]. unfold is_u64, u64_max in Hn. lia. Qed.

(* ------------------------------------------------------------------ *)
(** ** From a record to the wire *)

(** The labels the stages of the projection set. *)
Definition SUBJECT_KEYS : list string := ["runtime_canonicalization_version"; "boot_id"; "node_identity"; "runtime_subject_id"].
Definition METADATA_KEYS : list string :=
  ["producer"; "producer_version"; "cluster_id"; "node_id"; "kernel_release"; "probe_id"; "probe_version"; "probe_family";
   "hook_kind"; "kernel_function"; "observed_at_ns"; "schema_version"].
Definition RESOURCE_KEYS : list string := ["resource_ref_kind"; "resource_ref_id"].
Definition BINDING_KEYS : list string :=
  ["k8s_container_id"; "k8s_pod_uid"; "k8s_pod_name"; "k8s_namespace"; "k8s_service_account"; "k8s_owner_kind"; "k8s_owner_name";
   "k8s_owner_uid"; "evidence_level"; "runtime_binding"; "unbound_reason"].

Lemma neutralize_label o key :
  key ∉ RESOURCE_KEYS -> occ_labels (neutralize_for_plane_b o) !! key = occ_labels o !! key.
Proof.
  unfold RESOURCE_KEYS. rewrite !not_elem_of_cons. intros (H1 & H2 & _). unfold neutralize_for_plane_b. cbv zeta. case_match; [|done]. by rewrite !label_lookup_ne by done.
Qed.

Lemma subject_label sha o p key :
  key ∉ SUBJECT_KEYS ->
  occ_labels (apply_runtime_subject sha o p) !! key = occ_labels o !! key.
Proof.
  unfold SUBJECT_KEYS. rewrite !not_elem_of_cons. intros (H1 & H2 & H3 & H4 & _). unfold apply_runtime_subject.
  repeat (case_match; try reflexivity). by rewrite !label_lookup_ne by done.
Qed.

Lemma correlate_labels k o : occ_labels (correlate k o) = occ_labels o.
Proof. done. Qed.
Lemma namespace_labels ns o : occ_labels (o <| occ_namespace := ns |>) = occ_labels o.
Proof. done. Qed.

Lemma when_nonempty_miss v g o key :
  (forall s, occ_labels (g s o) !! key = occ_labels o !! key) -> occ_labels (when_nonempty v g o) !! key = occ_labels o !! key.
Proof. intros Hg. unfold when_nonempty. by destruct (nonempty_opt v). Qed.

Lemma when_nonempty_hit v g o key :
  (forall s, occ_labels (g s o) !! key = Some s) ->
  occ_labels (when_nonempty v g o) !! key = match nonempty_opt v with Some s => Some s | None => occ_labels o !! key end.
Proof. intros Hg. unfold when_nonempty. by destruct (nonempty_opt v). Qed.

(** Read one label off a chain of labelling steps. *)
Ltac read_label :=
  repeat first
    [ rewrite label_lookup_ne by discriminate
    | rewrite correlate_labels
    | rewrite namespace_labels
    | rewrite when_nonempty_miss by (intros; cbv beta; rewrite ?correlate_labels, label_lookup_ne, ?namespace_labels by discriminate; reflexivity)
    | rewrite when_nonempty_hit by (intros; cbv beta; rewrite ?correlate_labels; apply label_lookup)
    | rewrite label_lookup ].

(** What the projection for the wire keeps of a record. *)
Lemma projected_record sha r p o :
  into_plane_b_occurrence sha r p = Some o ->
  occ_id o = occ_id (er_occurrence r) /\ occ_type o = occ_type (er_occurrence r) /\
  occ_timestamp o = occ_timestamp (er_occurrence r) /\ occ_outcome o = occ_outcome (er_occurrence r) /\
  occ_process_data o = occ_process_data (er_occurrence r) /\ occ_network_data o = occ_network_data (er_occurrence r).
Proof.
  unfold into_plane_b_occurrence. destruct (plane_b_drop_reason r); [done|]. intros [= <-].
  pose proof (into_occurrence_with_metadata_same sha r p) as Hs. revert Hs. unfold same_but_labels.
  generalize (into_occurrence_with_metadata sha r p) (er_occurrence r). intros o' e <-. destruct o'.
  unfold neutralize_for_plane_b. cbv zeta. by case_match.
Qed.

Lemma metadata_label sha r p key :
  key ∉ METADATA_KEYS ->
  occ_labels (into_occurrence_with_metadata sha r p) !! key =
    occ_labels (apply_runtime_subject sha (apply_runtime_binding (er_binding r) (er_occurrence r)) p) !! key.
Proof.
  unfold METADATA_KEYS. rewrite !not_elem_of_cons. intros H. destruct_and! H. unfold into_occurrence_with_metadata. cbv zeta.
  by rewrite !label_lookup_ne by congruence.
Qed.

Lemma projected_label sha r p o key :
  into_plane_b_occurrence sha r p = Some o -> bool_decide (key ∈ RESOURCE_KEYS) = false ->
  occ_labels o !! key = occ_labels (into_occurrence_with_metadata sha r p) !! key.
Proof.
  unfold into_plane_b_occurrence. destruct (plane_b_drop_reason r); [done|]. intros [= <-] H%bool_decide_eq_false. by apply neutralize_label.
Qed.

Lemma unclaimed_label sha r p o key :
  into_plane_b_occurrence sha r p = Some o -> bool_decide (key ∈ RESOURCE_KEYS ++ METADATA_KEYS ++ SUBJECT_KEYS) = false ->
  occ_labels o !! key = occ_labels (apply_runtime_binding (er_binding r) (er_occurrence r)) !! key.
Proof.
  rewrite bool_decide_eq_false, !not_elem_of_app. intros Ho (H1 & H2 & H3).
  by rewrite (projected_label _ _ _ _ _ Ho (bool_decide_eq_false_2 _ H1)), metadata_label, subject_label.
Qed.

Lemma unneutralized_label sha r p o key :
  into_plane_b_occurrence sha r p = Some o -> occ_network_data o = None ->
  occ_labels o !! key = occ_labels (into_occurrence_with_metadata sha r p) !! key.
Proof.
  unfold into_plane_b_occurrence. destruct (plane_b_drop_reason r); [done|]. intros [= <-].
  generalize (into_occurrence_with_metadata sha r p) as o'. intros o'. unfold neutralize_for_plane_b. cbv zeta.
  case_match eqn:E; [|reflexivity]. intros H. exfalso. destruct o'. cbn in H, E. congruence.
Qed.

Lemma network_resource sha r p o :
  into_plane_b_occurrence sha r p = Some o -> is_Some (occ_network_data o) ->
  occ_labels o !! "resource_ref_kind" = Some "network_endpoint".
Proof.
  unfold into_plane_b_occurrence. destruct (plane_b_drop_reason r); [done|]. intros [= <-]. unfold neutralize_for_plane_b. cbv zeta.
  case_match; [|intros [? ?]; congruence]. intros _. rewrite label_lookup_ne by discriminate. apply label_lookup.
Qed.

(** Read one key of an item: [e] is what the item has there. *)
Ltac read_item e :=
  rewrite native_item_says; lazymatch goal with |- says ?l ?k = _ => change (says l k) with e end.

(** The identity, the time and the place of a record on the wire. *)
Lemma metadata_on_wire sha r p o :
  is_u64 (er_observed_at_ns r) -> into_plane_b_occurrence sha r p = Some o ->
  Forall (fun kv => native_runtime_item o !! kv.1 = Some kv.2)
    [("occurrence_type", JString (occ_type (er_occurrence r))); ("event_id", JString (occ_id (er_occurrence r)));
     ("observed_at", JString (to_rfc3339 (occ_timestamp (er_occurrence r)))); ("kernel_time_ns", JUint (er_observed_at_ns r));
     ("cluster_id", JString (pm_cluster p)); ("node_id", JString (pm_node_id p)); ("kernel_release", JString (pm_kernel_release p))].
Proof.
  intros Ht Ho. destruct (projected_record _ _ _ _ Ho) as (Hid & Hty & Hts & _). rewrite <- Hid, <- Hty, <- Hts.
  destruct (into_occurrence_with_metadata_authoritative sha r p) as [Hmeta _].
  rewrite !Forall_cons in Hmeta. destruct Hmeta as (_ & _ & Hc & Hn & Hk & _ & _ & _ & _ & _ & Hat & _). cbn [fst snd] in *.
  assert (forall key v, bool_decide (key ∈ RESOURCE_KEYS) = false -> occ_labels (into_occurrence_with_metadata sha r p) !! key = Some v ->
    occ_labels o !! key = Some v) as Hl by (intros key v Hkey; by rewrite (projected_label _ _ _ _ _ Ho Hkey)).
  apply Hl in Hc, Hn, Hk, Hat; [|vm_compute; reflexivity..].
  repeat apply Forall_cons_2; [..|apply Forall_nil_2]; cbn [fst snd].
  - by rewrite native_item_says.
  - by rewrite native_item_says.
  - by rewrite native_item_says.
  - read_item (label_u64 (occ_labels o) "observed_at_ns"). by apply label_u64_dec.
  - read_item (JString <$> occ_labels o !! "cluster_id"). by rewrite Hc.
  - read_item (JString <$> occ_labels o !! "node_id"). by rewrite Hn.
  - read_item (JString <$> occ_labels o !! "kernel_release"). by rewrite Hk.
Qed.

(** *** The table of the wire

    What every key of an item says, in terms of the record [r] and of the producer [p] alone. *)
Section table.
Variable sha : list byte -> string.
Variable r : EvidenceRecord.
Variable p : ProducerMetadata.

(** A label of the record's own occurrence. *)
Definition own (key : string) : option string := occ_labels (er_occurrence r) !! key.

(** A fact of the workload the record is bound to, when it is known; the record's label else. *)
Definition workload (f : BoundTo -> option string) (key : string) : option string :=
  match er_binding r with
  | Some (Bound b) => match nonempty_opt (f b) with Some s => Some s | None => own key end
  | _ => own key
  end.

(** The runtime subject: of a record that identifies its process by start time, on a node that knows
    its identity and its boot. *)
Definition subject : option RuntimeSubjectV1 :=
  if bool_decide (own "runtime_identity_method" = Some RUNTIME_SUBJECT_IDENTITY_METHOD) then
    node ← pm_node_identity p; boot ← pm_boot_id p;
    tgid ← own "host_tgid" ≫= parse_uint 32; start ← own "leader_start_boottime_ns" ≫= parse_uint 64;
    match RuntimeSubjectV1_new sha node boot tgid start with Ok s => Some s | Err _ => None end
  else None.
Definition of_subject (f : RuntimeSubjectV1 -> string) (key : string) : option string :=
  match subject with Some s => Some (f s) | None => own key end.

(** The file or executable the record names, unless it names a network endpoint. *)
Definition resource (kind : string) : option string :=
  if bool_decide (is_Some (occ_network_data (er_occurrence r))) then None
  else if bool_decide (own "resource_ref_kind" = Some kind) then own "resource_ref_id" else None.

Definition text (s : option string) : option Json := JString <$> s.
Definition number (s : option string) : option Json := JUint <$> (s ≫= parse_uint 64).
Definition of_process {A} (mk : A -> Json) (f : ProcessEventData -> option A) : option Json :=
  mk <$> (occ_process_data (er_occurrence r) ≫= f).
Definition of_network {A} (mk : A -> Json) (f : NetworkEventData -> option A) : option Json :=
  mk <$> (occ_network_data (er_occurrence r) ≫= f).

Definition wire_table : list (string * option Json) :=
  [ (* the record *)
    ("occurrence_type", Some (JString (occ_type (er_occurrence r)))); ("event_id", Some (JString (occ_id (er_occurrence r))));
    ("observed_at", Some (JString (to_rfc3339 (occ_timestamp (er_occurrence r)))));
    ("agent_recv_time", Some (JString (to_rfc3339 (occ_timestamp (er_occurrence r)))));
    ("kernel_time_ns", Some (JUint (er_observed_at_ns r)));
    (* where it was seen, and the workload *)
    ("node_id", Some (JString (pm_node_id p)));
    ("pod_uid", text (workload pod_uid "k8s_pod_uid")); ("pod_name", text (workload pod_name "k8s_pod_name"));
    ("container_id", text (workload (fun b => Some (container_id b)) "k8s_container_id"));
    ("k8s_namespace", text (workload namespace "k8s_namespace"));
    ("service_account", text (workload service_account "k8s_service_account"));
    ("owner_kind", text (workload owner_kind "k8s_owner_kind")); ("owner_name", text (workload owner_name "k8s_owner_name"));
    ("owner_uid", text (workload owner_uid "k8s_owner_uid"));
    ("cgroup_id", text (own "cgroup_id")); ("argv_hash", text (own "argv_hash")); ("tcp_state", text (own "tcp_state"));
    ("cluster_id", Some (JString (pm_cluster p))); ("kernel_release", Some (JString (pm_kernel_release p)));
    ("runtime_subject_id", text (of_subject rs_runtime_subject_id "runtime_subject_id"));
    ("node_identity", text (of_subject rs_node_identity "node_identity")); ("boot_id", text (of_subject rs_boot_id "boot_id"));
    ("runtime_identity_method", text (own "runtime_identity_method"));
    ("evidence_level", text (workload (fun b => Some (provenance_as_str (provenance b))) "evidence_level"));
    ("cause", text (own "cause"));
    (* a report of lost evidence *)
    ("dropped_records", number (own "dropped_records")); ("dropped_reliability", number (own "dropped_reliability"));
    ("dropped_attribution", number (own "dropped_attribution")); ("gap_start_ns", number (own "gap_start_ns"));
    ("gap_end_ns", number (own "gap_end_ns"));
    (* the process, its identity, what it ran or opened and how that ended *)
    ("host_tgid", number (own "host_tgid")); ("host_tid", number (own "host_tid"));
    ("leader_start_boottime_ns", number (own "leader_start_boottime_ns"));
    ("runtime_canonicalization_version",
       number (of_subject (fun s => dec (rs_canonicalization_version s)) "runtime_canonicalization_version"));
    ("affected_probes", JStrings <$> (own "affected_probes" ≫= parse_strings)); ("gid", number (own "gid"));
    ("exe", text (resource "executable")); ("path", text (resource "file"));
    ("requested_path", text (own "requested_path")); ("path_resolution", text (own "path_resolution"));
    ("coverage", text (own "coverage")); ("flags", text (own "flags"));
    ("path_truncated", if bool_decide (own "path_truncated" = Some "true") then Some (JBool true) else None);
    ("errno", ret ← own "errno_num" ≫= parse_i64; if ret <? 0 then Some (json_i64 (wrap_signed 64 (- ret))) else None);
    ("pid", of_process JUint (fun d => Some (proc_pid d))); ("ppid", of_process JUint proc_ppid);
    ("comm", of_process JString (fun d => Some (proc_command d))); ("uid", of_process JUint proc_uid);
    (* the endpoint *)
    ("protocol", of_network JString (fun n => Some (net_protocol n))); ("source_ip", of_network JString (fun n => Some (net_src_ip n)));
    ("source_port", of_network JUint (fun n => Some (net_src_port n)));
    ("destination_ip", of_network JString (fun n => Some (net_dst_ip n)));
    ("destination_port", of_network JUint (fun n => Some (net_dst_port n)));
    ("count", of_network JUint net_retransmit_count); ("rtt_ms", of_network json_f64 net_rtt_current_ms);
    ("state", JString ∘ outcome_name <$> occ_outcome (er_occurrence r)) ].

(** *** The labels of the projected occurrence are those of the table *)

Variable o : Occurrence.
Hypothesis projected : into_plane_b_occurrence sha r p = Some o.

Lemma binding_own key :
  bool_decide (key ∈ BINDING_KEYS) = false -> occ_labels (apply_runtime_binding (er_binding r) (er_occurrence r)) !! key = own key.
Proof.
  rewrite bool_decide_eq_false. unfold BINDING_KEYS. rewrite !not_elem_of_cons. intros H. destruct_and! H.
  destruct (er_binding r) as [[b|reason]|]; cbn [apply_runtime_binding]; [|by rewrite !label_lookup_ne by congruence|done].
  repeat first [rewrite label_lookup_ne by congruence
               |rewrite when_nonempty_miss by (intros; cbv beta; rewrite ?correlate_labels, label_lookup_ne, ?namespace_labels by congruence; reflexivity)].
  done.
Qed.

Lemma own_label key :
  bool_decide (key ∈ RESOURCE_KEYS ++ METADATA_KEYS ++ SUBJECT_KEYS) = false -> bool_decide (key ∈ BINDING_KEYS) = false ->
  occ_labels o !! key = own key.
Proof. intros H1 H2. by rewrite (unclaimed_label _ _ _ _ _ projected H1), binding_own. Qed.

Lemma workload_label :
  Forall (fun fk => occ_labels o !! fk.2 = workload fk.1 fk.2)
    [(fun b => Some (container_id b), "k8s_container_id"); (pod_uid, "k8s_pod_uid"); (pod_name, "k8s_pod_name");
     (namespace, "k8s_namespace"); (service_account, "k8s_service_account"); (owner_kind, "k8s_owner_kind");
     (owner_name, "k8s_owner_name"); (owner_uid, "k8s_owner_uid");
     (fun b => Some (provenance_as_str (provenance b)), "evidence_level")].
Proof.
  assert (forall key, bool_decide (key ∈ RESOURCE_KEYS ++ METADATA_KEYS ++ SUBJECT_KEYS) = false ->
    occ_labels o !! key = occ_labels (apply_runtime_binding (er_binding r) (er_occurrence r)) !! key) as Hl
    by (intros key; exact (unclaimed_label _ _ _ _ key projected)).
  repeat apply Forall_cons_2; [..|apply Forall_nil_2]; cbn [fst snd]; rewrite Hl by (vm_compute; reflexivity); unfold workload;
    (destruct (er_binding r) as [[b|reason]|]; cbn [apply_runtime_binding]; [|by rewrite !label_lookup_ne by discriminate|done]);
    read_label; try done.
  by destruct (provenance b).
Qed.

Lemma subject_label_of :
  Forall (fun fk => occ_labels o !! fk.2 = of_subject fk.1 fk.2)
    [(rs_runtime_subject_id, "runtime_subject_id"); (rs_node_identity, "node_identity"); (rs_boot_id, "boot_id");
     (fun s => dec (rs_canonicalization_version s), "runtime_canonicalization_version")].
Proof.
  assert (forall key, bool_decide (key ∈ RESOURCE_KEYS ++ METADATA_KEYS) = false -> occ_labels o !! key =
    occ_labels (apply_runtime_subject sha (apply_runtime_binding (er_binding r) (er_occurrence r)) p) !! key) as Hl.
  { intros key H. rewrite bool_decide_eq_false, not_elem_of_app in H. destruct H as [H1 H2].
    by rewrite (projected_label _ _ _ _ _ projected (bool_decide_eq_false_2 _ H1)), metadata_label. }
  pose proof (fun key => binding_own key) as Hb.
  assert (forall f key, bool_decide (key ∈ RESOURCE_KEYS ++ METADATA_KEYS) = false -> bool_decide (key ∈ BINDING_KEYS) = false ->
    (forall s o', occ_labels (label "runtime_canonicalization_version" (dec (rs_canonicalization_version s))
        (label "boot_id" (rs_boot_id s) (label "node_identity" (rs_node_identity s)
          (label "runtime_subject_id" (rs_runtime_subject_id s) o')))) !! key = Some (f s)) ->
    occ_labels o !! key = of_subject f key) as Hall.
  { intros f key H1 H2 Hf. rewrite (Hl _ H1). unfold of_subject, subject, apply_runtime_subject.
    rewrite !Hb by (vm_compute; reflexivity). destruct (bool_decide (own "runtime_identity_method" = _)); cbn [negb]; [|by apply Hb].
    destruct (pm_node_identity p) as [node|]; cbn; [|by apply Hb]. destruct (pm_boot_id p) as [boot|]; cbn; [|by apply Hb].
    destruct (own "host_tgid" ≫= parse_uint 32) as [tgid|]; cbn; [|by apply Hb].
    destruct (own "leader_start_boottime_ns" ≫= parse_uint 64) as [start|]; cbn; [|by apply Hb].
    destruct (RuntimeSubjectV1_new sha node boot tgid start); [apply Hf|by apply Hb]. }
  repeat apply Forall_cons_2; [..|apply Forall_nil_2]; cbn [fst snd];
    (apply Hall; [vm_compute; reflexivity|vm_compute; reflexivity|intros s o'; by read_label]).
Qed.

Lemma resource_of kind :
  kind ∈ ["executable"; "file"] ->
  (if label_is (occ_labels o) "resource_ref_kind" kind then JString <$> occ_labels o !! "resource_ref_id" else None) = text (resource kind).
Proof.
  intros Hkind. unfold label_is, resource, text. destruct (projected_record _ _ _ _ projected) as (_ & _ & _ & _ & _ & Hnet). rewrite <- Hnet.
  destruct (occ_network_data o) as [n|] eqn:En.
  - rewrite (network_resource _ _ _ _ projected) by (rewrite En; eauto).
    rewrite !elem_of_cons, elem_of_nil in Hkind. by destruct Hkind as [-> | [-> | []]].
  - assert (forall key, bool_decide (key ∈ METADATA_KEYS ++ SUBJECT_KEYS ++ BINDING_KEYS) = false -> occ_labels o !! key = own key) as Hl.
    { intros key H. rewrite bool_decide_eq_false, !not_elem_of_app in H. destruct H as (H1 & H2 & H3).
      rewrite (unneutralized_label _ _ _ _ _ projected En), metadata_label, subject_label, binding_own by (done || by apply bool_decide_eq_false_2).
      done. }
    rewrite !Hl by (vm_compute; reflexivity). cbn. by case_bool_decide.
Qed.
End table.

(** An item has the fields of the table. *)
Lemma native_fields_table sha r p o :
  is_u64 (er_observed_at_ns r) -> into_plane_b_occurrence sha r p = Some o -> native_fields o = wire_table sha r p.
Proof.
  intros Ht Ho. destruct (projected_record _ _ _ _ Ho) as (Hid & Hty & Hts & Hout & Hproc & Hnet).
  pose proof (metadata_on_wire _ _ _ _ Ht Ho) as Hm. rewrite !Forall_cons in Hm. destruct Hm as (_ & _ & _ & M1 & M2 & M3 & M4 & _).
  pose proof (workload_label _ _ _ _ Ho) as Hw. rewrite !Forall_cons in Hw. destruct Hw as (W1 & W2 & W3 & W4 & W5 & W6 & W7 & W8 & W9 & _).
  pose proof (subject_label_of _ _ _ _ Ho) as Hs. rewrite !Forall_cons in Hs. destruct Hs as (S1 & S2 & S3 & S4 & _).
  cbn [fst snd] in *. rewrite !native_item_says in M1, M2, M3, M4.
  change (says _ "kernel_time_ns") with (label_u64 (occ_labels o) "observed_at_ns") in M1.
  change (says _ "cluster_id") with (JString <$> occ_labels o !! "cluster_id") in M2.
  change (says _ "node_id") with (JString <$> occ_labels o !! "node_id") in M3.
  change (says _ "kernel_release") with (JString <$> occ_labels o !! "kernel_release") in M4.
  unfold native_fields, wire_table, LABEL_KEYS, GAP_U64_KEYS, RUNTIME_U64_KEYS. cbn [map app fst snd]. cbv zeta.
  rewrite (resource_of _ _ _ _ Ho "executable"), (resource_of _ _ _ _ Ho "file") by (apply (bool_decide_unpack _); by vm_compute).
  rewrite M1, M2, M3, M4, W1, W2, W3, W4, W5, W6, W7, W8, W9, S1, S2, S3. unfold label_u64, label_is. rewrite S4.
  rewrite !(own_label _ _ _ _ Ho) by (vm_compute; reflexivity). rewrite Hid, Hty, Hts, Hout. unfold of_process, of_network.
  by rewrite <- Hproc, <- Hnet.
Qed.

Lemma says_listed l key v : NoDup (map fst l) -> (key, v) ∈ l -> says l key = v.
Proof.
  induction l as [|[k w] l IH]; [by intros _ H%elem_of_nil|]. cbn [map fst]. rewrite says_cons, NoDup_cons. intros [Hk Hnd].
  intros [[= -> ->]|Hin]%elem_of_cons; [by rewrite decide_True|]. rewrite decide_False; [by apply IH|].
  intros ->. apply Hk, list_elem_of_fmap. by exists (key, v).
Qed.

(** C21: what leaves the node about a record is what the record says, and all of it is. Of a record the
    projection lets through, every key of the wire item is accounted for by [wire_table], which is
    in terms of the record and of the producer alone: its type, identifier and times; the node, the
    cluster and the kernel; the workload it is bound to; its runtime subject; the labels of its
    occurrence; the process and the network endpoint it names, and nothing for one it does not name;
    the state, and the errno, which is the negation of the kernel's negative return value. A key the
    table gives nothing for, and any key not in it, is not on the wire. A record of a network
    endpoint claims no file or executable, and neither does one whose label names no resource of
    that kind. *)
Theorem record_reaches_the_wire sha r p o :
  is_u64 (er_observed_at_ns r) -> into_plane_b_occurrence sha r p = Some o ->
  let item := native_runtime_item o in
  (forall key v, (key, v) ∈ wire_table sha r p -> item !! key = v) /\
  (forall key, key ∉ map fst (wire_table sha r p) -> item !! key = None) /\
  (is_Some (occ_network_data (er_occurrence r)) -> item !! "path" = None /\ item !! "exe" = None) /\
  (occ_labels (er_occurrence r) !! "resource_ref_kind" <> Some "file" -> item !! "path" = None).
Proof.
  intros Ht Ho. cbv zeta. pose proof (native_fields_NoDup o) as Hnd. rewrite (native_fields_table _ _ _ _ Ht Ho) in Hnd.
  assert (forall key v, (key, v) ∈ wire_table sha r p -> native_runtime_item o !! key = v) as Hin
    by (intros key v Hkv; rewrite native_item_says, (native_fields_table _ _ _ _ Ht Ho); by apply says_listed).
  assert (native_runtime_item o !! "path" = text (resource r "file")) as Hpath by (apply Hin; unfold wire_table; in_table).
  assert (native_runtime_item o !! "exe" = text (resource r "executable")) as Hexe by (apply Hin; unfold wire_table; in_table).
  split_and!; [exact Hin| | |].
  - intros key Hkey. rewrite native_item_says, (native_fields_table _ _ _ _ Ht Ho). by apply says_fresh.
  - intros Hn. rewrite Hpath, Hexe. unfold resource. by rewrite !bool_decide_true by done.
  - intros Hk. rewrite Hpath. unfold resource, own. rewrite (bool_decide_false (_ = Some "file")) by done. by case_bool_decide.
Qed.

(** The occurrence of a gap report. *)
Definition gap_occurrence (json_array : list string -> string) (occ_id : string) (now : Z) (g : GapReport) (p : ProducerMetadata) : Occurrence :=
  label "gap_end_ns" (dec (gap_end_ns g)) (label "gap_start_ns" (dec (gap_start_ns g))
    (label "dropped_attribution" (dec (gap_dropped_attribution g)) (label "dropped_reliability" (dec (gap_dropped_reliability g))
      (label "dropped_records" (dec (gap_dropped_records g)) (label "affected_probes" (json_array (gap_affected_probes g))
        (label "cause" (gap_cause g) (in_cluster (pm_cluster p)
          (severity SevWarning (Occurrence_new occ_id now "jalki/agent" "jalki.agent.gap"))))))))).

(** A report of lost evidence reaches Vartio with the numbers it was made with: the projection
    never refuses it, and on the wire its counts, its window and its cause are the report's, as
    numbers, with the list of the affected probes and the kernel time of the window's end. *)
Theorem gap_reaches_the_wire sha json_array occ_id now batch_id g p :
  (forall l, parse_strings (json_array l) = Some l) ->
  Forall is_u64 [gap_dropped_records g; gap_dropped_reliability g; gap_dropped_attribution g; gap_start_ns g; gap_end_ns g] ->
  exists o, into_plane_b_occurrences sha (gap_into_batch json_array occ_id now batch_id g p) = [o] /\
    Forall (fun kv => native_runtime_item o !! kv.1 = Some kv.2)
      [("occurrence_type", JString "jalki.agent.gap"); ("event_id", JString occ_id); ("observed_at", JString (to_rfc3339 now));
       ("cause", JString (gap_cause g)); ("affected_probes", JStrings (gap_affected_probes g));
       ("dropped_records", JUint (gap_dropped_records g)); ("dropped_reliability", JUint (gap_dropped_reliability g));
       ("dropped_attribution", JUint (gap_dropped_attribution g)); ("gap_start_ns", JUint (gap_start_ns g));
       ("gap_end_ns", JUint (gap_end_ns g)); ("kernel_time_ns", JUint (gap_end_ns g));
       ("cluster_id", JString (pm_cluster p)); ("node_id", JString (pm_node_id p))].
Proof.
  intros Hjson Hu. rewrite !Forall_cons in Hu. destruct Hu as (U1 & U2 & U3 & U4 & U5 & _).
  set (r := {| er_observed_at_ns := gap_end_ns g; er_pid := 0; er_cgroup_id := 0;
               er_probe := mkProbeMetadata "jalki_agent" "1" "agent" Fentry "jalki_agent_gap";
               er_occurrence := gap_occurrence json_array occ_id now g p; er_binding := None |}).
  destruct (into_plane_b_occurrence sha r p) as [o|] eqn:Ho; [|done]. exists o. split.
  { unfold into_plane_b_occurrences, into_plane_b_projection. destruct (plane_b_fold sha p [r] (mkPlaneBProjection [] ∅)) as [Hf _].
    etransitivity; [exact Hf|]. cbn [omap list_omap]. by rewrite Ho. }
  pose proof (metadata_on_wire _ _ _ _ (U5 : is_u64 (er_observed_at_ns r)) Ho) as Hm. rewrite !Forall_cons in Hm.
  destruct Hm as (M1 & M2 & M3 & M4 & M5 & M6 & _).
  assert (forall key, bool_decide (key ∈ RESOURCE_KEYS ++ METADATA_KEYS ++ SUBJECT_KEYS) = false ->
    occ_labels o !! key = occ_labels (gap_occurrence json_array occ_id now g p) !! key) as Hl.
  { intros key Hkey. by rewrite (unclaimed_label _ _ _ _ _ Ho Hkey). }
  repeat apply Forall_cons_2; [..|apply Forall_nil_2]; cbn [fst snd]; try assumption.
  { read_item (JString <$> occ_labels o !! "cause"). rewrite Hl by (vm_compute; reflexivity). unfold gap_occurrence. by read_label. }
  { read_item (JStrings <$> (occ_labels o !! "affected_probes" ≫= parse_strings)). rewrite Hl by (vm_compute; reflexivity).
    unfold gap_occurrence. read_label. cbn. by rewrite Hjson. }
  all: rewrite native_item_says; apply label_u64_dec; [assumption|]; rewrite Hl by (vm_compute; reflexivity); unfold gap_occurrence; by read_label.
Qed.
End item.

(* ------------------------------------------------------------------ *)
(** ** Concrete instances *)

(** A text of a list of strings that reads back: the number the list is encoded as. *)
Definition w_json_array (l : list string) : string := dec (Z.pos (encode l)).
Definition w_parse_strings (s : string) : option (list string) :=
  match parse_digits s 0 with Some (Z.pos q) => decode q | _ => None end.

Lemma w_parse_json l : w_parse_strings (w_json_array l) = Some l.
Proof.
  unfold w_parse_strings, w_json_array. rewrite dec_of_N by done.
  destruct (pretty_N_go_spec (Z.to_N (Z.pos (encode l))) "" ltac:(lia)) as [-> _].
  cbn [parse_digits]. rewrite Z2N.id by done. cbn. apply decode_encode.
Qed.

Definition w_gap : GapReport := mkGapReport "ringbuffer_overflow" ["kernel.tcp.connect"] 7 10 20 0 7.

Lemma gap_reaches_the_wire_witness :
  exists o, into_plane_b_occurrences (fun _ => "") (gap_into_batch w_json_array "01J" 5 "b" w_gap sample_producer) = [o] /\
    native_runtime_item dec w_parse_strings o !! "dropped_attribution" = Some (JUint 7).
Proof.
  destruct (gap_reaches_the_wire dec w_parse_strings (fun _ => "") w_json_array "01J" 5 "b" w_gap sample_producer w_parse_json)
    as (o & Ho & Hf); [repeat constructor; done|]. exists o. split; [exact Ho|].
  rewrite Forall_forall in Hf. apply (Hf ("dropped_attribution", JUint 7)). by do 7 right; left.
Defined.

(** A connection by a container, which failed. *)
Definition w_record : EvidenceRecord :=
  mkEvidenceRecord 657653680687218 4242 913 sample_probe
    (label "errno_num" "-111" (outcome OutFailure
      (set occ_network_data (fun _ => Some (mkNetworkEventData "tcp" "10.244.3.21" "10.42.7.19" 41822 443 "egress" None None None None None None None None None None))
        (Occurrence_new "01J" 5 "jalki/bpf" "kernel.tcp.connect"))))
    (Some (Bound (mkBoundTo "containerd://abc" (Some "pod-uid-1") (Some "runner-1") (Some "workloads") None None None (Some "") Observed))).

Lemma record_reaches_the_wire_witness :
  exists o, into_plane_b_occurrence (fun _ => "") w_record sample_producer = Some o /\
    native_runtime_item dec w_parse_strings o !! "kernel_time_ns" = Some (JUint 657653680687218) /\
    native_runtime_item dec w_parse_strings o !! "errno" = Some (JUint 111) /\
    native_runtime_item dec w_parse_strings o !! "pod_uid" = Some (JString "pod-uid-1") /\
    native_runtime_item dec w_parse_strings o !! "rtt_ms" = None /\
    native_runtime_item dec w_parse_strings o !! "exe" = None.
Proof.
  destruct (into_plane_b_occurrence (fun _ => "") w_record sample_producer) as [o|] eqn:Ho; [|done]. exists o. split; [done|].
  destruct (record_reaches_the_wire dec w_parse_strings (fun _ => "") w_record sample_producer o ltac:(done) Ho) as (Hf & _ & Hn & _).
  split_and!; [apply Hf; vm_compute; in_table..|]. apply Hn. by eexists.
Defined.
