(* ===== verification/Vartio.v ===== *)
(** The sink that delivers evidence to Vartio over gRPC ([jalki-vartio-sink/src/lib.rs]).

    The channel, the receiver behind it and the clock are a world [N] that a call changes;
    [serde_json], the header syntax, endpoint parsing and TLS set-up are parameters. *)
From Stdlib Require Import Strings.Byte Strings.Ascii.
From S2P Require Import Prelude Protocol Evidence Samples Sink Retry VartioItem.

Definition SINK_NAME : string := "vartio".
Definition VARTIO_SUPPORTED_TYPES : list string :=
  ["jalki.agent.gap"; "kernel.process.exec"; "kernel.tcp.connect"; "kernel.tcp.close"; "kernel.tcp.retransmit";
   "kernel.file.open"; "kernel.file.open_attempt"].
Definition VARTIO_FILE_TYPES : list string := ["kernel.file.open"; "kernel.file.open_attempt"].

Record VartioSinkConfig := mkVartioSinkConfig {
  vc_endpoint : string;
  vc_source_key : string;
  vc_provider : string;
  vc_namespace : string;
  vc_adapter_id : string;
  vc_ingress_token : option string;
  vc_send_file_types : bool;
  vc_timeout : Z
}.
#[export] Instance eta_VartioSinkConfig : Eta VartioSinkConfig :=
  fun r => mkVartioSinkConfig (vc_endpoint r) (vc_source_key r) (vc_provider r) (vc_namespace r) (vc_adapter_id r)
    (vc_ingress_token r) (vc_send_file_types r) (vc_timeout r).

(** [VartioSinkConfig::new]; the timeout is in milliseconds. *)
Definition VartioSinkConfig_new (endpoint adapter_id : string) : VartioSinkConfig :=
  mkVartioSinkConfig endpoint "jalki" "jalki" "vartio-jalki" adapter_id None false 10000.

Definition with_ingress_token (token : string) (c : VartioSinkConfig) : VartioSinkConfig :=
  c <| vc_ingress_token := if nonempty token then Some token else None |>.
Definition with_file_types (enabled : bool) (c : VartioSinkConfig) : VartioSinkConfig :=
  c <| vc_send_file_types := enabled |>.

Definition misconfigured (message : string) : SinkError := Misconfigured SINK_NAME message.

Definition VartioSinkConfig_validate (c : VartioSinkConfig) : result SinkError unit :=
  if negb (nonempty (vc_endpoint c)) then Err (misconfigured "endpoint must not be empty")
  else if negb (nonempty (vc_adapter_id c)) then Err (misconfigured "adapter_id must not be empty")
  else Ok tt.

(* ------------------------------------------------------------------ *)
(** ** The wire *)

Record Timestamp := mkTimestamp { ts_seconds : Z; ts_nanos : Z }.

Record ProviderEvidenceItem := mkProviderEvidenceItem {
  pi_idempotency_key : string;
  pi_occurrence_type : string;
  pi_observed_at : option Timestamp;
  pi_payload : list byte;
  pi_metadata : list byte;
  pi_trust_context : list byte
}.

Record ProviderEvidenceBatch := mkProviderEvidenceBatch {
  wb_source_key : string;
  wb_provider : string;
  wb_namespace : string;
  wb_batch_id : string;
  wb_adapter_id : string;
  wb_cluster_id : string;
  wb_node_id : string;
  wb_ingested_at : option Timestamp;
  wb_items : list ProviderEvidenceItem
}.

Record ReasonSummary := mkReasonSummary { rs_reason : Z; rs_count : Z }.

(** [ReceiveBatchResponse], less the per-item results, which the sink does not read. *)
Record ReceiveBatchResponse := mkReceiveBatchResponse {
  rp_batch_id : string;
  rp_accepted_count : Z;
  rp_duplicate_count : Z;
  rp_rejected_count : Z;
  rp_error_summaries : list ReasonSummary;
  rp_retryable : bool
}.

(** The codes of [tonic::Code]. *)
Inductive Code :=
| CodeOk | Cancelled | Unknown | InvalidArgument | DeadlineExceeded | NotFound | AlreadyExists | PermissionDenied
| ResourceExhausted | FailedPrecondition | Aborted | OutOfRange | Unimplemented | Internal | CodeUnavailable | DataLoss
| Unauthenticated.
Record Status := mkStatus { st_code : Code; st_message : string }.

Definition classify_status (status : Status) : SinkError :=
  match st_code status with
  | Unauthenticated | PermissionDenied => Unauthorized SINK_NAME (st_message status)
  | InvalidArgument | FailedPrecondition => Rejected SINK_NAME (st_message status)
  | ResourceExhausted => Backpressure SINK_NAME (st_message status)
  | DeadlineExceeded => Timeout SINK_NAME (st_message status)
  | _ => Unavailable SINK_NAME (st_message status)
  end.

(* ------------------------------------------------------------------ *)
(** ** Choosing what to send *)

(** A [BTreeMap<String, usize>] of counts; its entries come in key order. *)
Abbreviation Counts := (gmap string Z).
Definition count_up (key : string) (counts : Counts) : Counts := <[key := default 0 (counts !! key) + 1]> counts.
Definition key_le (a b : string * Z) : Prop := String.leb a.1 b.1 = true.
#[export] Instance key_le_dec a b : Decision (key_le a b).
Proof. unfold key_le. apply _. Defined.
Definition entries (counts : Counts) : list (string * Z) := merge_sort key_le (map_to_list counts).

(** The occurrences to send, and the counts of the unsupported and of the gated ones. *)
Record Selection := mkSelection { sel_send : list Occurrence; sel_unsupported : Counts; sel_gated : Counts }.

(** The closure of the filter. *)
Definition select (cfg : VartioSinkConfig) (s : Selection) (occ : Occurrence) : Selection :=
  let t := occ_type occ in
  if negb (bool_decide (t ∈ VARTIO_SUPPORTED_TYPES)) then mkSelection (sel_send s) (count_up t (sel_unsupported s)) (sel_gated s)
  else if bool_decide (t ∈ VARTIO_FILE_TYPES) && negb (vc_send_file_types cfg)
  then mkSelection (sel_send s) (sel_unsupported s) (count_up t (sel_gated s))
  else mkSelection (sel_send s ++ [occ]) (sel_unsupported s) (sel_gated s).

Definition selection (cfg : VartioSinkConfig) (occs : list Occurrence) : Selection :=
  foldl (select cfg) (mkSelection [] ∅ ∅) occs.

(** The [BTreeMap] of the drops, in the order of its keys. *)
Definition unbound_entries (dropped : gmap UnboundReason Z) : list (UnboundReason * Z) :=
  omap (fun reason => pair reason <$> dropped !! reason) [HostProcess; CacheMiss; NoCgroup; UnboundUnknown].

Definition unbound_warning (e : UnboundReason * Z) : string :=
  "dropped " +:+ dec e.2 +:+ " unbound record(s) at source: " +:+ reason_as_str e.1.
Definition unsupported_warning (e : string * Z) : string :=
  "dropped " +:+ dec e.2 +:+ " record(s) of unsupported-by-importer type " +:+ e.1.
Definition gated_warning (e : string * Z) : string :=
  "dropped " +:+ dec e.2 +:+ " record(s) of type " +:+ e.1 +:+ ": file family gated off — set JALKI_VARTIO_FILE_TYPES=1 once Vartio's Importer.Jalki accepts kernel.file.* (ADR-0005 §4)".

(* ------------------------------------------------------------------ *)
(** ** The sink *)

Definition idempotency_key (cfg : VartioSinkConfig) (cluster node occurrence_id : string) : string :=
  vc_source_key cfg +:+ ":" +:+ cluster +:+ ":" +:+ node +:+ ":" +:+ occurrence_id.

Definition NANOS_PER_SEC : Z := 1000000000.

(** [DateTime::timestamp] and [timestamp_subsec_nanos] of a time in nanoseconds. *)
Definition observed_timestamp (t : Z) : Timestamp :=
  mkTimestamp (t / NANOS_PER_SEC) (Z.min (t mod NANOS_PER_SEC) 999999999).

(** The sink's own state is what its mutex guards; [None] when the mutex is poisoned. *)
Definition Health : Type := option HealthStatus.

Definition set_health (status : HealthStatus) (h : Health) : Health := (fun _ => status) <$> h.
Definition vartio_health (h : Health) : HealthStatus := default (Degraded "health lock poisoned") h.

Section connect.
Variable parse_endpoint tls_config : string -> option string.

(** [VartioSink::connect]: the two parameters give the text of an error, if there is one. *)
Definition connect (cfg : VartioSinkConfig) : result SinkError (VartioSinkConfig * Health) :=
  _ <-? VartioSinkConfig_validate cfg;;
  match parse_endpoint (vc_endpoint cfg) with
  | Some e => Err (misconfigured ("invalid endpoint " +:+ vc_endpoint cfg +:+ ": " +:+ e))
  | None =>
      match (if starts_with (vc_endpoint cfg) "https://" then tls_config (vc_endpoint cfg) else None) with
      | Some e => Err (misconfigured ("TLS config for " +:+ vc_endpoint cfg +:+ ": " +:+ e))
      | None => Ok (cfg, Some (Degraded "sink not yet exercised: no batch delivered"))
      end
  end.
End connect.

Section sink.
Context {N : Type}.
Variable to_rfc3339 : Z -> string.
Variable parse_strings : string -> option (list string).
Variable sha256_hex : list byte -> string.
Variable to_vec : NativeItem -> result string (list byte).
Variable header_value : string -> bool.
Variable receive_batch : ProviderEvidenceBatch -> option string -> N -> result Status ReceiveBatchResponse * N.
Variable system_time : N -> Timestamp.
Definition wire_item (cfg : VartioSinkConfig) (producer : ProducerMetadata) (occ : Occurrence) : result SinkError ProviderEvidenceItem :=
  match to_vec (native_runtime_item to_rfc3339 parse_strings occ) with
  | Err e => Err (InvalidRecord SINK_NAME e)
  | Ok payload =>
      Ok (mkProviderEvidenceItem (idempotency_key cfg (pm_cluster producer) (pm_node_id producer) (occ_id occ)) (occ_type occ)
            (Some (observed_timestamp (occ_timestamp occ))) payload [] [])
  end.

Fixpoint wire_items (cfg : VartioSinkConfig) (producer : ProducerMetadata) (occs : list Occurrence)
  : result SinkError (list ProviderEvidenceItem) :=
  match occs with
  | [] => Ok []
  | occ :: rest =>
      item <-? wire_item cfg producer occ;;
      items <-? wire_items cfg producer rest;;
      Ok (item :: items)
  end.

(** The request's token: absent, or a header value, or an error. *)
Definition bearer (cfg : VartioSinkConfig) : result SinkError (option string) :=
  match vc_ingress_token cfg with
  | None => Ok None
  | Some token =>
      if header_value ("Bearer " +:+ token) then Ok (Some ("Bearer " +:+ token))
      else Err (misconfigured "ingress token contains characters invalid in an http header")
  end.

(** What the sink makes of a response, and the health it records. *)
Definition settle (batch_id : string) (warnings : list string) (response : ReceiveBatchResponse)
  : result SinkError AppendResult * HealthStatus :=
  if rp_retryable response then
    (Err (Unavailable SINK_NAME
       ("batch " +:+ rp_batch_id response +:+ " has retryable item failures (accepted=" +:+ dec (rp_accepted_count response)
        +:+ " duplicate=" +:+ dec (rp_duplicate_count response) +:+ " rejected=" +:+ dec (rp_rejected_count response) +:+ ")")),
     Degraded ("batch " +:+ rp_batch_id response +:+ " retryable item failures"))
  else if 0 <? rp_rejected_count response then
    let message := "batch " +:+ rp_batch_id response +:+ " permanently rejected " +:+ dec (rp_rejected_count response)
      +:+ " item(s) (accepted=" +:+ dec (rp_accepted_count response) +:+ " duplicate=" +:+ dec (rp_duplicate_count response) +:+ ")" in
    let message := foldl (fun m s => m +:+ "; reason=" +:+ dec (rs_reason s) +:+ " count=" +:+ dec (rs_count s)) message
      (rp_error_summaries response) in
    (Err (PartialFailure SINK_NAME (wrap 32 (rp_accepted_count response + rp_duplicate_count response)) (rp_rejected_count response) message),
     Degraded ("batch " +:+ rp_batch_id response +:+ " permanent item rejects"))
  else
    let warnings := if 0 <? rp_duplicate_count response
                    then warnings ++ [dec (rp_duplicate_count response) +:+ " duplicate item(s) (idempotent no-op)"] else warnings in
    (Ok (mkAppendResult (wrap 32 (rp_accepted_count response + rp_duplicate_count response)) (rp_rejected_count response)
           SINK_NAME (Some batch_id) warnings), Healthy).

Definition vartio_append_batch (cfg : VartioSinkConfig) (b : EvidenceBatch) (w : Health * N)
  : result SinkError AppendResult * (Health * N) :=
  let '(h, n) := w in
  let producer := eb_producer b in
  if negb (nonempty (pm_cluster producer)) || negb (nonempty (pm_node_id producer))
  then (Err (misconfigured "producer cluster/node identity is empty; refusing to emit unscoped idempotency keys"), w) else
  let projection := into_plane_b_projection sha256_hex b in
  let s := selection cfg (pb_occurrences projection) in
  let warnings := map unbound_warning (unbound_entries (pb_dropped_unbound projection))
    ++ map unsupported_warning (entries (sel_unsupported s)) ++ map gated_warning (entries (sel_gated s)) in
  if bool_decide (sel_send s = []) then (Ok ((AppendResult_accepted SINK_NAME 0) <| ar_warnings := warnings |>), w) else
  match wire_items cfg producer (sel_send s) with
  | Err e => (Err e, w)
  | Ok items =>
      let wire_batch := mkProviderEvidenceBatch (vc_source_key cfg) (vc_provider cfg) (vc_namespace cfg) (eb_batch_id b)
        (vc_adapter_id cfg) (pm_cluster producer) (pm_node_id producer) (Some (system_time n)) items in
      match bearer cfg with
      | Err e => (Err e, w)
      | Ok token =>
          match receive_batch wire_batch token n with
          | (Err status, n') => (Err (classify_status status), (set_health (Degraded ("receive_batch: " +:+ st_message status)) h, n'))
          | (Ok response, n') =>
              let '(result, health) := settle (eb_batch_id b) warnings response in
              (result, (set_health health h, n'))
          end
      end
  end.

(** [impl EvidenceSink for VartioSink] *)
Definition VartioSink (cfg : VartioSinkConfig) : EvidenceSink (Health * N) := {|
  sink_name_of := SINK_NAME;
  append_batch := vartio_append_batch cfg;
  sink_health w := (vartio_health w.1, w)
|}.

(* ------------------------------------------------------------------ *)
(** ** What a batch comes to *)

(** The types a configuration lets through. *)
Definition deliverable (cfg : VartioSinkConfig) (occ : Occurrence) : Prop :=
  occ_type occ ∈ VARTIO_SUPPORTED_TYPES /\ (occ_type occ ∈ VARTIO_FILE_TYPES -> vc_send_file_types cfg = true).
#[export] Instance deliverable_dec cfg occ : Decision (deliverable cfg occ).
Proof. unfold deliverable. apply _. Defined.

(** How many occurrences of a list have a type. *)
Definition of_type (t : string) (occs : list Occurrence) : Z := zlen (filter (fun occ => occ_type occ = t) occs).

Lemma entries_elem counts t n : (t, n) ∈ entries counts <-> counts !! t = Some n.
Proof. unfold entries. rewrite merge_sort_Permutation. apply elem_of_map_to_list. Qed.

Lemma entries_total counts : zsum snd (entries counts) = zsum snd (map_to_list counts).
Proof. apply zsum_permutation, merge_sort_Permutation. Qed.

Lemma unbound_entries_elem d reason n : (reason, n) ∈ unbound_entries d <-> d !! reason = Some n.
Proof.
  unfold unbound_entries. rewrite list_elem_of_omap. setoid_rewrite fmap_Some. split.
  - by intros (r & _ & m & Hm & [= -> ->]).
  - intros Hd. exists reason. split; [destruct reason; set_solver|eauto].
Qed.

Lemma unbound_entries_total d : zsum snd (unbound_entries d) = dropped_total d.
Proof.
  apply zsum_permutation, NoDup_Permutation.
  - unfold unbound_entries. cbn. repeat (destruct (d !! _); cbn); repeat constructor; set_solver.
  - apply NoDup_map_to_list.
  - intros [reason n]. by rewrite unbound_entries_elem, elem_of_map_to_list.
Qed.

(** The two reasons for not sending an occurrence. *)
Definition unsupported (occ : Occurrence) : Prop := occ_type occ ∉ VARTIO_SUPPORTED_TYPES.
Definition gated (cfg : VartioSinkConfig) (occ : Occurrence) : Prop :=
  occ_type occ ∈ VARTIO_SUPPORTED_TYPES /\ occ_type occ ∈ VARTIO_FILE_TYPES /\ vc_send_file_types cfg = false.
#[export] Instance unsupported_dec occ : Decision (unsupported occ).
Proof. unfold unsupported. apply _. Defined.
#[export] Instance gated_dec cfg occ : Decision (gated cfg occ).
Proof. unfold gated. apply _. Defined.

(** The counts of the occurrences of [occs]: by type, none of them zero, and in all. *)
Record counts_of (occs : list Occurrence) (counts : Counts) : Prop := {
  co_at t : default 0 (counts !! t) = of_type t occs;
  co_pos t n : counts !! t = Some n -> 0 < n;
  co_total : zsum snd (entries counts) = zlen occs
}.

Lemma count_up_total key counts : zsum snd (entries (count_up key counts)) = zsum snd (entries counts) + 1.
Proof. rewrite !entries_total. apply map_total_step. Qed.

Lemma counts_of_snoc occs counts occ :
  counts_of occs counts -> counts_of (occs ++ [occ]) (count_up (occ_type occ) counts).
Proof.
  intros [Hat Hpos Htot]. unfold count_up. split.
  - intros t. unfold of_type in *. rewrite filter_app, filter_cons, filter_nil, zlen_app, <- Hat.
    destruct (decide (occ_type occ = t)) as [->|Hne].
    + by rewrite lookup_insert_eq.
    + rewrite lookup_insert_ne by done. change (zlen []) with 0. lia.
  - intros t n. destruct (decide (occ_type occ = t)) as [->|Hne]; [|rewrite lookup_insert_ne by done; apply Hpos].
    rewrite lookup_insert_eq. intros [= <-]. destruct (counts !! t) as [m|] eqn:E; cbn; [pose proof (Hpos _ _ E)|]; lia.
  - change (zsum snd (entries (count_up (occ_type occ) counts)) = zlen (occs ++ [occ])). by rewrite count_up_total, Htot, zlen_app.
Qed.

Lemma counts_of_entry occs counts t n : counts_of occs counts -> (t, n) ∈ entries counts -> 0 < n /\ n = of_type t occs.
Proof. intros [Hat Hpos _]. rewrite entries_elem. intros E. rewrite <- Hat, E. eauto. Qed.

(** An occurrence is sent, gated or unsupported, and [select] tells which. *)
Lemma select_cases cfg occ :
  (unsupported occ /\ ~ gated cfg occ /\ ~ deliverable cfg occ /\
     forall s, select cfg s occ = mkSelection (sel_send s) (count_up (occ_type occ) (sel_unsupported s)) (sel_gated s)) \/
  (~ unsupported occ /\ gated cfg occ /\ ~ deliverable cfg occ /\
     forall s, select cfg s occ = mkSelection (sel_send s) (sel_unsupported s) (count_up (occ_type occ) (sel_gated s))) \/
  (~ unsupported occ /\ ~ gated cfg occ /\ deliverable cfg occ /\
     forall s, select cfg s occ = mkSelection (sel_send s ++ [occ]) (sel_unsupported s) (sel_gated s)).
Proof.
  unfold unsupported, gated, deliverable, select. cbv zeta.
  destruct (bool_decide_reflect (occ_type occ ∈ VARTIO_SUPPORTED_TYPES)) as [Hs|Hs];
    destruct (bool_decide_reflect (occ_type occ ∈ VARTIO_FILE_TYPES)) as [Hf|Hf];
    destruct (vc_send_file_types cfg); cbn [negb andb]; intuition congruence.
Qed.

Lemma selection_spec cfg occs :
  let s := selection cfg occs in
  sel_send s = filter (deliverable cfg) occs /\ counts_of (filter unsupported occs) (sel_unsupported s) /\
  counts_of (filter (gated cfg) occs) (sel_gated s) /\
  zlen (sel_send s) + zsum snd (entries (sel_unsupported s)) + zsum snd (entries (sel_gated s)) = zlen occs.
Proof.
  induction occs as [|occ occs IH] using rev_ind; [done|]. cbv zeta in *. unfold selection in *. rewrite foldl_app.
  cbn [foldl]. revert IH. generalize (foldl (select cfg) (mkSelection [] ∅ ∅) occs). intros s (Hs & Hu & Hg & Ht).
  rewrite !filter_app, !filter_cons, !filter_nil, zlen_app. change (zlen [occ]) with 1. rewrite <- Ht.
  destruct (select_cases cfg occ) as [(Hun & Hga & Hde & ->)|[(Hun & Hga & Hde & ->)|(Hun & Hga & Hde & ->)]];
    cbn [sel_send sel_unsupported sel_gated]; repeat case_decide; try contradiction; rewrite ?app_nil_r;
    (split_and!; [by rewrite ?Hs|auto using counts_of_snoc..|rewrite ?count_up_total, ?zlen_app; try change (zlen [occ]) with 1; lia]).
Qed.
Lemma of_type_pos t occs : 0 < of_type t occs -> exists occ, occ ∈ occs /\ occ_type occ = t.
Proof.
  unfold of_type. destruct (filter _ occs) as [|occ rest] eqn:E; [done|]. intros _. exists occ.
  apply and_comm, (list_elem_of_filter (fun occ => occ_type occ = t)). rewrite E. by left.
Qed.

Lemma of_type_filter (P : Occurrence -> Prop) `{forall occ, Decision (P occ)} t occs :
  (forall occ, occ_type occ = t -> P occ) -> of_type t (filter P occs) = of_type t occs.
Proof.
  intros HP. unfold of_type. rewrite list_filter_filter. f_equal. apply list_filter_iff. intros occ. naive_solver.
Qed.

(** The occurrences of a batch that may be sent, and the warnings about the others. *)
Definition to_send (cfg : VartioSinkConfig) (b : EvidenceBatch) : list Occurrence :=
  filter (deliverable cfg) (into_plane_b_occurrences sha256_hex b).
Definition warnings_of (cfg : VartioSinkConfig) (b : EvidenceBatch) : list string :=
  let projection := into_plane_b_projection sha256_hex b in
  let s := selection cfg (pb_occurrences projection) in
  map unbound_warning (unbound_entries (pb_dropped_unbound projection))
    ++ map unsupported_warning (entries (sel_unsupported s)) ++ map gated_warning (entries (sel_gated s)).
Definition wire_batch (cfg : VartioSinkConfig) (b : EvidenceBatch) (now : Timestamp) (items : list ProviderEvidenceItem) : ProviderEvidenceBatch :=
  mkProviderEvidenceBatch (vc_source_key cfg) (vc_provider cfg) (vc_namespace cfg) (eb_batch_id b) (vc_adapter_id cfg)
    (pm_cluster (eb_producer b)) (pm_node_id (eb_producer b)) (Some now) items.

Lemma wire_items_spec cfg p occs :
  match wire_items cfg p occs with
  | Ok items => Forall2 (fun occ item => wire_item cfg p occ = Ok item) occs items
  | Err e => should_retry e = false
  end.
Proof.
  induction occs as [|occ occs IH]; cbn [wire_items]; [constructor|].
  destruct (wire_item cfg p occ) as [item|e] eqn:E; cbn [result_bind].
  - destruct (wire_items cfg p occs); cbn; [by constructor|done].
  - unfold wire_item in E. destruct (to_vec _); by simplify_eq.
Qed.

(** The three ways an append goes: refused on the spot for good, nothing to send, or one call. *)
Lemma append_cases cfg b h n :
  (exists e, vartio_append_batch cfg b (h, n) = (Err e, (h, n)) /\ should_retry e = false) \/
  (to_send cfg b = [] /\
     vartio_append_batch cfg b (h, n) = (Ok (mkAppendResult 0 0 SINK_NAME None (warnings_of cfg b)), (h, n))) \/
  (exists items token, bearer cfg = Ok token /\
     Forall2 (fun occ item => wire_item cfg (eb_producer b) occ = Ok item) (to_send cfg b) items /\
     vartio_append_batch cfg b (h, n) =
       match receive_batch (wire_batch cfg b (system_time n) items) token n with
       | (Err status, n') => (Err (classify_status status), (set_health (Degraded ("receive_batch: " +:+ st_message status)) h, n'))
       | (Ok response, n') =>
           let '(result, health) := settle (eb_batch_id b) (warnings_of cfg b) response in (result, (set_health health h, n'))
       end).
Proof.
  unfold vartio_append_batch. destruct (negb _ || negb _); [left; by eexists|]. cbv zeta.
  destruct (selection_spec cfg (pb_occurrences (into_plane_b_projection sha256_hex b))) as (Hs & _).
  change (sel_send (selection cfg (pb_occurrences (into_plane_b_projection sha256_hex b))) = to_send cfg b) in Hs. case_bool_decide as He.
  - right; left. split; [by rewrite <- Hs|]. done.
  - pose proof (wire_items_spec cfg (eb_producer b) (to_send cfg b)) as Hw. rewrite Hs.
    destruct (wire_items _ _ _) as [items|e]; [|left; by eexists].
    destruct (bearer cfg) as [token|e] eqn:Hb.
    + right; right. exists items, token. split_and!; done.
    + left. exists e. split; [done|]. unfold bearer in Hb. destruct (vc_ingress_token cfg); [destruct (header_value _)|]; by simplify_eq.
Qed.
(** The warnings are about every record that is not sent, and about no other. *)
Lemma warnings_account cfg b :
  let occs := into_plane_b_occurrences sha256_hex b in
  exists (unbound : list (UnboundReason * Z)) (refused held : list (string * Z)),
    warnings_of cfg b = map unbound_warning unbound ++ map unsupported_warning refused ++ map gated_warning held /\
    zlen (to_send cfg b) + zsum snd unbound + zsum snd refused + zsum snd held = batch_len b /\
    (forall reason k, (reason, k) ∈ unbound -> k = dropped_for reason (eb_records b)) /\
    (forall t k, (t, k) ∈ refused -> 0 < k /\ t ∉ VARTIO_SUPPORTED_TYPES /\ k = of_type t occs) /\
    (forall t k, (t, k) ∈ held -> 0 < k /\ t ∈ VARTIO_FILE_TYPES /\ vc_send_file_types cfg = false /\ k = of_type t occs).
Proof.
  cbv zeta. unfold warnings_of, to_send, into_plane_b_occurrences.
  pose proof (plane_b_total sha256_hex (eb_producer b) (eb_records b) (mkPlaneBProjection [] ∅)) as [Htot _].
  destruct (into_plane_b_projection_accounts sha256_hex b) as (_ & Hd & _). cbv zeta in *.
  fold (into_plane_b_projection sha256_hex b) (batch_len b) in Htot.
  set (pb := into_plane_b_projection sha256_hex b) in *. cbn [pb_occurrences pb_dropped_unbound] in Htot.
  change (dropped_total ∅) with 0 in Htot. change (zlen []) with 0 in Htot.
  destruct (selection_spec cfg (pb_occurrences pb)) as (Hs & Hu & Hg & Ht). cbv zeta in *.
  eexists _, _, _. split; [reflexivity|]. split_and!.
  - rewrite unbound_entries_total, <- Hs. lia.
  - intros reason k Hk%unbound_entries_elem. by rewrite <- Hd, Hk.
  - intros t k Hk. destruct (counts_of_entry _ _ _ _ Hu Hk) as [Hpos ->].
    destruct (of_type_pos _ _ Hpos) as (occ & [Hun _]%list_elem_of_filter & <-). split_and!; [done|done|].
    apply of_type_filter. intros occ' E. unfold unsupported. by rewrite E.
  - intros t k Hk. destruct (counts_of_entry _ _ _ _ Hg Hk) as [Hpos ->].
    destruct (of_type_pos _ _ Hpos) as (occ & [(H1 & H2 & H3) _]%list_elem_of_filter & <-). split_and!; [done|done|done|].
    apply of_type_filter. intros occ' E. unfold gated. by rewrite E.
Qed.

(** C15: A batch Vartio's sink reports as delivered is accounted for record by record: each record was
    either sent, in an item made of it, in a call whose response says that nothing was rejected and
    nothing is to be retried, or is counted in exactly one warning, by the reason it is unbound or by
    its type; a type is held back only when the importer does not take it, or it is of the file
    family and the configuration does not send that; and when nothing is to be sent nothing is
    called. *)
Theorem delivered_batch_accounted cfg b h n r h' n' :
  vartio_append_batch cfg b (h, n) = (Ok r, (h', n')) ->
  let occs := into_plane_b_occurrences sha256_hex b in
  exists (unbound : list (UnboundReason * Z)) (refused held : list (string * Z)) (duplicates : list string),
    ar_warnings r = map unbound_warning unbound ++ map unsupported_warning refused ++ map gated_warning held ++ duplicates /\
    zlen (to_send cfg b) + zsum snd unbound + zsum snd refused + zsum snd held = batch_len b /\
    (forall reason k, (reason, k) ∈ unbound -> k = dropped_for reason (eb_records b)) /\
    (forall t k, (t, k) ∈ refused -> 0 < k /\ t ∉ VARTIO_SUPPORTED_TYPES /\ k = of_type t occs) /\
    (forall t k, (t, k) ∈ held -> 0 < k /\ t ∈ VARTIO_FILE_TYPES /\ vc_send_file_types cfg = false /\ k = of_type t occs) /\
    ((to_send cfg b = [] /\ duplicates = [] /\ h' = h /\ n' = n) \/
     exists items token response,
       Forall2 (fun occ item => wire_item cfg (eb_producer b) occ = Ok item) (to_send cfg b) items /\
       receive_batch (wire_batch cfg b (system_time n) items) token n = (Ok response, n') /\
       rp_retryable response = false /\ rp_rejected_count response <= 0 /\ h' = set_health Healthy h).
Proof.
  intros Happ. cbv zeta. destruct (warnings_account cfg b) as (unbound & refused & held & Hw & Htot & H1 & H2 & H3).
  destruct (append_cases cfg b h n) as [(e & E & _)|[(Hnil & E)|(items & token & _ & Hitems & E)]]; rewrite E in Happ; simplify_eq.
  - exists unbound, refused, held, []. rewrite app_nil_r. cbn. split_and!; [done..|]. by left.
  - destruct (receive_batch _ token n) as [[response|status] n''] eqn:Hr; [|by simplify_eq].
    unfold settle in Happ. destruct (rp_retryable response) eqn:Hretry; [by simplify_eq|].
    destruct (0 <? rp_rejected_count response) eqn:Hrej; [by simplify_eq|]. bool_hyps. cbv zeta in Happ. injection Happ as <- <- <-.
    exists unbound, refused, held, (if 0 <? rp_duplicate_count response
      then [dec (rp_duplicate_count response) +:+ " duplicate item(s) (idempotent no-op)"] else []). cbn [ar_warnings]. split.
    { rewrite Hw. destruct (0 <? rp_duplicate_count response); [by rewrite <- !app_assoc|by rewrite app_nil_r]. }
    split_and!; [done..|]. right. exists items, token, response. by split_and!.
Qed.

(** The codes no repetition of the call can help with. *)
Definition final_code (c : Code) : bool :=
  match c with Unauthenticated | PermissionDenied | InvalidArgument | FailedPrecondition => true | _ => false end.

(** What Vartio's sink refuses is kept or given up as it should be: an error before any call is
    final and leaves the sink's health alone; a call that failed is to be repeated unless it was
    refused for its credentials or its form; a response is an error only when it asks for the batch
    again, which is then repeated, or rejects some items for good, which is not; and no call that
    ends in an error leaves the sink healthy. *)
Theorem vartio_errors_classified cfg b h n e h' n' :
  vartio_append_batch cfg b (h, n) = (Err e, (h', n')) ->
  (should_retry e = false /\ h' = h /\ n' = n) \/
  exists items token reply,
    receive_batch (wire_batch cfg b (system_time n) items) token n = (reply, n') /\
    is_healthy (vartio_health h') = false /\
    match reply with
    | Err status => should_retry e = negb (final_code (st_code status))
    | Ok response => should_retry e = rp_retryable response /\ (rp_retryable response = true \/ 0 < rp_rejected_count response)
    end.
Proof.
  intros Happ.
  destruct (append_cases cfg b h n) as [(e' & E & Hf)|[(Hnil & E)|(items & token & _ & Hitems & E)]]; rewrite E in Happ; simplify_eq.
  { by left. }
  right. destruct (receive_batch _ token n) as [[response|status] n''] eqn:Hr.
  - destruct (settle _ _ response) as [result health] eqn:Hst. injection Happ as -> <- <-.
    exists items, token, (Ok response). split; [done|]. unfold settle in Hst. revert Hst.
    destruct (rp_retryable response); [intros [= <- <-]; split_and!; [by destruct h|done|by left]|].
    destruct (0 <? rp_rejected_count response) eqn:Hrej; intros; simplify_eq. bool_hyps. split_and!; [by destruct h|done|by right].
  - injection Happ as <- <- <-. exists items, token, (Err status). split_and!; [done|by destruct h|].
    unfold classify_status. by destruct (st_code status).
Qed.
(* ------------------------------------------------------------------ *)
(** ** Retrying against a receiver that knows what it has *)

(** A batch is appended again and again, with whatever else happens to the world in between, until
    it is accepted or refused for good. *)
Fixpoint deliver (cfg : VartioSinkConfig) (b : EvidenceBatch) (attempts : list (N -> N)) (w : Health * N)
  : option AppendResult * (Health * N) :=
  match attempts with
  | [] => (None, w)
  | step :: rest =>
      match append_batch (VartioSink cfg) b (w.1, step w.2) with
      | (Ok r, w') => (Some r, w')
      | (Err e, w') => if should_retry e then deliver cfg b rest w' else (None, w')
      end
  end.

Definition key_of (cfg : VartioSinkConfig) (b : EvidenceBatch) (occ : Occurrence) : string :=
  idempotency_key cfg (pm_cluster (eb_producer b)) (pm_node_id (eb_producer b)) (occ_id occ).
Definition payload_of (occ : Occurrence) : option (list byte) :=
  match to_vec (native_runtime_item to_rfc3339 parse_strings occ) with Ok payload => Some payload | Err _ => None end.

(** What a batch is to leave at the receiver. *)
Definition delivery (cfg : VartioSinkConfig) (b : EvidenceBatch) : gmap string (list byte) :=
  list_to_map (omap (fun occ => pair (key_of cfg b occ) <$> payload_of occ) (to_send cfg b)).

Section receiver.
(** What the receiver has, by idempotency key. *)
Variable stored : N -> gmap string (list byte).

(** What ingress promises: it forgets nothing and overwrites nothing, stores only what it is sent,
    and has every item of a batch it says is settled. A call that fails may have stored any part. *)
Record idempotent_receiver : Prop := {
  ir_keeps wb token n : stored n ⊆ stored (receive_batch wb token n).2;
  ir_only wb token n k v : stored (receive_batch wb token n).2 !! k = Some v ->
    stored n !! k = Some v \/ exists item, item ∈ wb_items wb /\ pi_idempotency_key item = k /\ pi_payload item = v;
  ir_settled wb token n response n' : receive_batch wb token n = (Ok response, n') ->
    rp_retryable response = false -> rp_rejected_count response <= 0 ->
    forall item, item ∈ wb_items wb -> is_Some (stored n' !! pi_idempotency_key item)
}.

Lemma keys_NoDup cfg b : NoDup (map occ_id (to_send cfg b)) ->
  NoDup (map fst (omap (fun occ => pair (key_of cfg b occ) <$> payload_of occ) (to_send cfg b))).
Proof.
  induction (to_send cfg b) as [|occ occs IH]; cbn [map omap list_omap]; [constructor|]. rewrite NoDup_cons. intros [Hn Hd].
  destruct (payload_of occ) as [p|]; cbn; [|auto]. apply NoDup_cons. split; [|auto].
  intros ([k v] & Hk & Hin)%list_elem_of_fmap. apply list_elem_of_omap in Hin as (occ' & Hin & E).
  destruct (payload_of occ') as [p'|]; [|done]. cbn in E, Hk. injection E as <- _. apply Hn, list_elem_of_fmap. exists occ'.
  split; [|done]. unfold key_of, idempotency_key in Hk. by repeat apply (inj (String.append _)) in Hk.
Qed.

Lemma delivery_lookup cfg b k v : NoDup (map occ_id (to_send cfg b)) ->
  delivery cfg b !! k = Some v <-> exists occ, occ ∈ to_send cfg b /\ key_of cfg b occ = k /\ payload_of occ = Some v.
Proof.
  intros Hd. unfold delivery. rewrite <- elem_of_list_to_map by by apply keys_NoDup. rewrite list_elem_of_omap. split.
  - intros (occ & Hin & E). exists occ. destruct (payload_of occ) as [p|]; [|done]. cbn in E. injection E as <- <-. done.
  - intros (occ & Hin & <- & Hp). exists occ. by rewrite Hp.
Qed.

Lemma append_stored cfg b h n res h' n' :
  idempotent_receiver -> NoDup (map occ_id (to_send cfg b)) ->
  vartio_append_batch cfg b (h, n) = (res, (h', n')) ->
  stored n ⊆ stored n' /\
  (forall k v, stored n' !! k = Some v -> stored n !! k = Some v \/ delivery cfg b !! k = Some v) /\
  (is_ok res = true -> forall k v, delivery cfg b !! k = Some v -> is_Some (stored n' !! k)).
Proof.
  intros Hr Hd Happ.
  destruct (append_cases cfg b h n) as [(e' & E & Hf)|[(Hnil & E)|(items & token & _ & Hitems & E)]]; rewrite E in Happ; simplify_eq.
  { split_and!; [done|by left|done]. }
  { split_and!; [done|by left|]. intros _ k v. rewrite delivery_lookup, Hnil by done. by intros (occ & Hin%elem_of_nil & _). }
  pose proof (ir_keeps Hr (wire_batch cfg b (system_time n) items) token n) as Hk.
  pose proof (ir_only Hr (wire_batch cfg b (system_time n) items) token n) as Ho.
  pose proof (ir_settled Hr (wire_batch cfg b (system_time n) items) token n) as Hset.
  assert (forall item, item ∈ items -> exists occ, occ ∈ to_send cfg b /\ wire_item cfg (eb_producer b) occ = Ok item) as Hof.
  { intros item (i & Hi)%list_elem_of_lookup. destruct (Forall2_lookup_r _ _ _ _ _ Hitems Hi) as (occ & Hocc & Hw).
    exists occ. split; [by eapply list_elem_of_lookup_2|done]. }
  assert (forall occ item, wire_item cfg (eb_producer b) occ = Ok item -> pi_idempotency_key item = key_of cfg b occ /\ payload_of occ = Some (pi_payload item)) as Hwire.
  { intros occ item. unfold wire_item, payload_of. destruct (to_vec _); [|done]. by intros [= <-]. }
  destruct (receive_batch _ token n) as [reply n''] eqn:Hrecv. cbn [snd] in *.
  assert (n'' = n') as -> by (destruct reply; [destruct (settle _ _ _)|]; by simplify_eq).
  split_and!; [done|..].
  - intros k v [H|(item & Hin & <- & <-)]%Ho; [by left|]. right. destruct (Hof _ Hin) as (occ & Hocc & Hw).
    destruct (Hwire _ _ Hw) as [-> Hp]. apply delivery_lookup; [done|]. by exists occ.
  - intros Hok k v (occ & Hocc & <- & Hp)%delivery_lookup; [|done].
    destruct reply as [response|status]; [|by injection Happ as <- _].
    unfold settle in Happ. destruct (rp_retryable response) eqn:Hretry; [by injection Happ as <- _|].
    destruct (0 <? rp_rejected_count response) eqn:Hrej; [by injection Happ as <- _|]. bool_hyps.
    apply list_elem_of_lookup in Hocc as (i & Hi). destruct (Forall2_lookup_l _ _ _ _ _ Hitems Hi) as (item & Hitem & Hw).
    destruct (Hwire _ _ Hw) as [<- _]. eapply Hset; [done..|by eapply list_elem_of_lookup_2].
Qed.

(** C6: Delivery to Vartio is exactly once although it is tried any number of times. Whatever calls
    fail, before or after the receiver stored what it was sent, and however often the batch is
    repeated, the receiver never has anything but what it had and the batch's items, each under one
    key with the payload of its occurrence; and once the sink reports the batch delivered it has all
    of them. *)
Theorem delivered_exactly_once cfg b attempts h n res h' n' :
  idempotent_receiver ->
  Forall (fun step => forall n, stored (step n) = stored n) attempts ->
  NoDup (map occ_id (to_send cfg b)) -> stored n ##ₘ delivery cfg b ->
  deliver cfg b attempts (h, n) = (res, (h', n')) ->
  stored n ⊆ stored n' /\ stored n' ⊆ stored n ∪ delivery cfg b /\
  (is_Some res -> stored n' = stored n ∪ delivery cfg b).
Proof.
  intros Hr Hsteps Hd Hfresh. set (s0 := stored n) in *.
  assert (s0 ⊆ stored n /\ stored n ⊆ s0 ∪ delivery cfg b) as Hinv by (split; [done|apply map_union_subseteq_l]).
  clearbody s0. revert h n Hinv. induction Hsteps as [|step attempts Hstep Hsteps IH]; intros h n Hinv; cbn [deliver].
  { intros [= <- <- <-]. destruct Hinv. split_and!; [done|done|by intros [? ?]]. }
  cbn [append_batch VartioSink fst snd].
  destruct (vartio_append_batch cfg b (h, step n)) as [res1 [h1 n1]] eqn:Happ.
  destruct (append_stored _ _ _ _ _ _ _ Hr Hd Happ) as (Hk & Ho & Hset). rewrite Hstep in Hk, Ho. destruct Hinv as [Hlo Hhi].
  assert (s0 ⊆ stored n1) as Hlo1 by by etrans.
  assert (stored n1 ⊆ s0 ∪ delivery cfg b) as Hhi1.
  { apply map_subseteq_spec. intros k v [H|H]%Ho; [by eapply lookup_weaken|]. rewrite map_union_comm by done. by apply lookup_union_Some_l. }
  destruct res1 as [r|e]; [|destruct (should_retry e); [by apply IH|]].
  - intros [= <- <- <-]. split_and!; [done|done|]. intros _. apply map_eq. intros k. apply option_eq. intros v. split.
    + intros Hv. by eapply lookup_weaken.
    + intros [Hv|Hv]%lookup_union_Some; [by eapply lookup_weaken| |done].
      destruct (Hset eq_refl _ _ Hv) as [v' Hv']. rewrite Hv'. f_equal.
      eapply lookup_weaken in Hhi1; [|exact Hv']. rewrite map_union_comm in Hhi1 by done.
      rewrite (lookup_union_Some_l _ _ _ _ Hv) in Hhi1. congruence.
  - intros [= <- <- <-]. split_and!; [done|done|by intros [? ?]].
Qed.
End receiver.
End sink.

(** A new sink is never healthy before it has delivered something, and a configuration is refused
    for an empty field, an endpoint that does not parse or TLS that cannot be set up, and for
    nothing else. *)
Theorem connect_spec parse_endpoint tls_config cfg :
  match connect parse_endpoint tls_config cfg with
  | Ok (cfg', h) =>
      cfg' = cfg /\ is_healthy (vartio_health h) = false /\ vc_endpoint cfg <> "" /\ vc_adapter_id cfg <> "" /\
      parse_endpoint (vc_endpoint cfg) = None /\ (starts_with (vc_endpoint cfg) "https://" = true -> tls_config (vc_endpoint cfg) = None)
  | Err e => should_retry e = false /\
      (vc_endpoint cfg = "" \/ vc_adapter_id cfg = "" \/ is_Some (parse_endpoint (vc_endpoint cfg)) \/
       (starts_with (vc_endpoint cfg) "https://" = true /\ is_Some (tls_config (vc_endpoint cfg))))
  end.
Proof.
  unfold connect, VartioSinkConfig_validate, nonempty. rewrite !negb_involutive. repeat case_bool_decide; cbn [result_bind]; [by auto..|].
  destruct (parse_endpoint _); [by eauto 6|]. destruct (starts_with _ _); [|by split_and!].
  destruct (tls_config _); [by eauto 8|]. by split_and!.
Qed.

(** Keys tell clusters, nodes and occurrences apart, as long as no cluster or node has a colon. *)
Theorem idempotency_key_inj cfg cl nd id cl' nd' id' :
  Forall (fun s => ":"%char ∉ chars s) [cl; nd; cl'; nd'] ->
  idempotency_key cfg cl nd id = idempotency_key cfg cl' nd' id' -> (cl, nd, id) = (cl', nd', id').
Proof.
  rewrite !Forall_cons. intros (H1 & H2 & H3 & H4 & _). unfold idempotency_key.
  intros E%(inj (String.append _))%(inj (String.append ":")). apply sep_inj in E as [-> E]; [|done..]. by apply sep_inj in E as [-> ->].
Qed.
Example idempotency_key_colon :
  idempotency_key (VartioSinkConfig_new "e" "a") "a:b" "c" "1" = idempotency_key (VartioSinkConfig_new "e" "a") "a" "b:c" "1".
Proof. reflexivity. Qed.

(* ------------------------------------------------------------------ *)
(** ** Concrete instances *)

(** A receiver that stores what it does not have yet, and whose first answer is lost. *)
Definition store_item (m : gmap string (list byte)) (item : ProviderEvidenceItem) : gmap string (list byte) :=
  match m !! pi_idempotency_key item with Some _ => m | None => <[pi_idempotency_key item := pi_payload item]> m end.
Definition w_receive (wb : ProviderEvidenceBatch) (token : option string) (n : nat * gmap string (list byte))
  : result Status ReceiveBatchResponse * (nat * gmap string (list byte)) :=
  let n' := (S n.1, foldl store_item n.2 (wb_items wb)) in
  match n.1 with
  | O => (Err (mkStatus DeadlineExceeded "timed out"), n')
  | S _ => (Ok (mkReceiveBatchResponse (wb_batch_id wb) 0 (zlen (wb_items wb)) 0 [] false), n')
  end.

Lemma store_items_spec items m :
  m ⊆ foldl store_item m items /\
  (forall k v, foldl store_item m items !! k = Some v ->
     m !! k = Some v \/ exists item, item ∈ items /\ pi_idempotency_key item = k /\ pi_payload item = v) /\
  (forall item, item ∈ items -> is_Some (foldl store_item m items !! pi_idempotency_key item)).
Proof.
  revert m. induction items as [|item items IH]; intros m; cbn [foldl].
  { split_and!; [done|by left|]. by intros item Hin%elem_of_nil. }
  destruct (IH (store_item m item)) as (Hk & Ho & Hs).
  assert (m ⊆ store_item m item) as Hm.
  { unfold store_item. destruct (m !! _) eqn:E; [done|]. by apply insert_subseteq. }
  assert (is_Some (store_item m item !! pi_idempotency_key item)) as Hi.
  { unfold store_item. destruct (m !! _) eqn:E; [by rewrite E|]. by rewrite lookup_insert_eq. }
  split_and!; [by etrans|..].
  - intros k v [H|(i & Hin & Hik & Hiv)]%Ho; [|right; exists i; split; [by right|done]].
    unfold store_item in H. destruct (m !! pi_idempotency_key item) eqn:E; [by left|].
    apply lookup_insert_Some in H as [[<- <-]|[_ H]]; [|by left]. right. exists item. split; [by left|done].
  - intros i [->|Hin]%elem_of_cons; [|by apply Hs]. destruct Hi as [v Hv]. exists v. by eapply lookup_weaken.
Qed.

Lemma w_receive_idempotent : idempotent_receiver w_receive snd.
Proof.
  split.
  - intros wb token [[|k] m]; apply store_items_spec.
  - intros wb token [[|k] m]; apply store_items_spec.
  - intros wb token [[|k] m] response n'; cbn; [done|]. intros [= <- <-] _ _. apply store_items_spec.
Qed.

Definition w_cfg : VartioSinkConfig := with_ingress_token "t0ken" (VartioSinkConfig_new "http://vartio:50061" "jalki-adapter-1").
Definition w_to_vec (item : NativeItem) : result string (list byte) := Ok (le_put 1 (zlen (map_to_list item))).
Definition w_batch : EvidenceBatch := sample_batch "b" [w_record; sample_attribution].

(** Two attempts: the first stores and times out, the second finds a duplicate. *)
Abbreviation w_deliver :=
  (deliver dec w_parse_strings (fun _ => "") w_to_vec (fun _ => true) w_receive (fun _ => mkTimestamp 0 0) w_cfg w_batch
    [id; id] (Some Healthy, (0%nat, ∅))).

Lemma delivered_exactly_once_witness :
  is_Some w_deliver.1 /\ w_deliver.2.2.1 = 2%nat /\ size w_deliver.2.2.2 = 1%nat /\
  w_deliver.2.2.2 = ∅ ∪ delivery dec w_parse_strings (fun _ => "") w_to_vec w_cfg w_batch.
Proof.
  assert (is_Some w_deliver.1) as Hok by (vm_compute; by eexists).
  split; [done|]. split; [by vm_compute|]. split; [by vm_compute|].
  destruct w_deliver as [res [h' n']] eqn:E.
  refine (proj2 (proj2 (delivered_exactly_once dec w_parse_strings (fun _ => "") w_to_vec (fun _ => true) w_receive (fun _ => mkTimestamp 0 0)
    snd w_cfg w_batch [id; id] (Some Healthy) (0%nat, ∅) res h' n' w_receive_idempotent _ _ _ E)) Hok).
  - by repeat constructor.
  - apply (bool_decide_eq_true_1 _). by vm_compute.
  - cbn [snd]. apply map_disjoint_empty_l.
Defined.

(** The batch sent by the second attempt alone: one item, and one warning about the unbound record. *)
Abbreviation w_append n :=
  (vartio_append_batch dec w_parse_strings (fun _ => "") w_to_vec (fun _ => true) w_receive (fun _ => mkTimestamp 0 0) w_cfg w_batch
    (Some Healthy, (n%nat, ∅))).

Lemma delivered_batch_accounted_witness :
  exists r h n, w_append 1 = (Ok r, (h, n)) /\ n.1 = 2%nat /\ exists items token response,
    w_receive (wire_batch w_cfg w_batch (mkTimestamp 0 0) items) token (1%nat, ∅) = (Ok response, n) /\ rp_rejected_count response <= 0.
Proof.
  destruct (w_append 1) as [[r|e] [h n]] eqn:E; [|by vm_compute in E]. exists r, h, n. split; [done|].
  assert ((w_append 1).2.2.1 = 2%nat) as Hn by by vm_compute. rewrite E in Hn. cbn [fst snd] in Hn.
  split; [done|].
  apply delivered_batch_accounted in E as (_ & _ & _ & _ & _ & _ & _ & _ & _ & [(_ & _ & _ & ->)|(items & token & response & _ & Hr & _ & Hrej & _)]); [done|].
  by exists items, token, response.
Defined.

Lemma vartio_errors_classified_witness :
  exists e h n, w_append 0 = (Err e, (h, n)) /\ should_retry e = true /\ n <> (0%nat, ∅).
Proof.
  destruct (w_append 0) as [[r|e] [h n]] eqn:E; [by vm_compute in E|]. exists e, h, n. split; [done|].
  assert ((w_append 0).2.2.1 = 1%nat) as Hn by by vm_compute. rewrite E in Hn. cbn [fst snd] in Hn.
  apply vartio_errors_classified in E as [(_ & _ & ->)|(items & token & reply & Hr & _ & He)]; [done|].
  revert Hr He. unfold w_receive. cbn. intros [= <- En] He. split; [exact He|]. by intros ->.
Defined.
