(* ===== verification/Bpf.v ===== *)
(** BPF instructions ([jalki-codegen/src/insn.rs]) and what they do.

    The first half is the encoder: the 8-byte instruction, its constructors and [encode]. The
    second half is the instruction set they are written in (RFC 9669), as far as the generator
    uses it: [decode] reads an instruction back, [exec] runs one, [run] runs a program. Registers
    hold tagged values, so that a machine that would read an uninitialised register or stack byte,
    leave its stack frame or confuse a pointer with a number has no next state.

    Helpers are the kernel's: what they answer is the [Kernel], what they do to memory is their
    documented contract (bpf-helpers(7)). *)
From Stdlib Require Import Strings.Byte.
From S2P Require Import Prelude.

(* ------------------------------------------------------------------ *)
(** ** Instructions *)

(** [BpfInsn] *)
Record BpfInsn := mkBpfInsn { i_code : Z; i_regs : Z; i_off : Z; i_imm : Z }.
#[export] Instance BpfInsn_eq_dec : EqDecision BpfInsn.
Proof. solve_decision. Defined.

(** [BpfInsn::new]; the shift is on a [u8]. *)
Definition BpfInsn_new (code dst src off imm : Z) : BpfInsn :=
  mkBpfInsn code (Z.lor (wrap 8 (Z.shiftl src 4)) (Z.land dst 15)) off imm.

Definition to_bytes (i : BpfInsn) : list byte :=
  le_put 1 (i_code i) ++ le_put 1 (i_regs i) ++ le_put 2 (i_off i) ++ le_put 4 (i_imm i).

Definition BPF_LD : Z := 0x00.
Definition BPF_LDX : Z := 0x01.
Definition BPF_ST : Z := 0x02.
Definition BPF_STX : Z := 0x03.
Definition BPF_ALU : Z := 0x04.
Definition BPF_JMP : Z := 0x05.
Definition BPF_ALU64 : Z := 0x07.
Definition BPF_W : Z := 0x00.
Definition BPF_H : Z := 0x08.
Definition BPF_B : Z := 0x10.
Definition BPF_DW : Z := 0x18.
Definition BPF_IMM : Z := 0x00.
Definition BPF_MEM : Z := 0x60.
Definition BPF_MOV : Z := 0xb0.
Definition BPF_ADD : Z := 0x00.
Definition BPF_RSH : Z := 0x70.
Definition BPF_AND : Z := 0x50.
Definition BPF_K : Z := 0x00.
Definition BPF_X : Z := 0x08.
Definition BPF_JA : Z := 0x00.
Definition BPF_JEQ : Z := 0x10.
Definition BPF_JNE : Z := 0x50.
Definition BPF_EXIT : Z := 0x90.
Definition BPF_CALL : Z := 0x80.
Definition BPF_PSEUDO_MAP_FD : Z := 1.

Definition R0 : Z := 0.
Definition R1 : Z := 1.
Definition R2 : Z := 2.
Definition R3 : Z := 3.
Definition R4 : Z := 4.
Definition R5 : Z := 5.
Definition R6 : Z := 6.
Definition R7 : Z := 7.
Definition R8 : Z := 8.
Definition R9 : Z := 9.
Definition R10 : Z := 10.

Definition BPF_FUNC_MAP_LOOKUP_ELEM : Z := 1.
Definition BPF_FUNC_KTIME_GET_NS : Z := 5.
Definition BPF_FUNC_GET_CURRENT_PID_TGID : Z := 14.
Definition BPF_FUNC_GET_CURRENT_COMM : Z := 16.
Definition BPF_FUNC_PROBE_READ_KERNEL : Z := 113.
Definition BPF_FUNC_RINGBUF_OUTPUT : Z := 130.

Definition bits (a b c : Z) : Z := Z.lor (Z.lor a b) c.

Definition mov64_imm (dst imm : Z) : BpfInsn := BpfInsn_new (bits BPF_ALU64 BPF_MOV BPF_K) dst 0 0 imm.
Definition mov64_reg (dst src : Z) : BpfInsn := BpfInsn_new (bits BPF_ALU64 BPF_MOV BPF_X) dst src 0 0.
Definition add64_imm (dst imm : Z) : BpfInsn := BpfInsn_new (bits BPF_ALU64 BPF_ADD BPF_K) dst 0 0 imm.
Definition rsh64_imm (dst imm : Z) : BpfInsn := BpfInsn_new (bits BPF_ALU64 BPF_RSH BPF_K) dst 0 0 imm.
Definition and32_imm (dst imm : Z) : BpfInsn := BpfInsn_new (bits BPF_ALU BPF_AND BPF_K) dst 0 0 imm.
Definition ldx_dw (dst src off : Z) : BpfInsn := BpfInsn_new (bits BPF_LDX BPF_MEM BPF_DW) dst src off 0.
Definition ldx_w (dst src off : Z) : BpfInsn := BpfInsn_new (bits BPF_LDX BPF_MEM BPF_W) dst src off 0.
Definition ldx_h (dst src off : Z) : BpfInsn := BpfInsn_new (bits BPF_LDX BPF_MEM BPF_H) dst src off 0.
Definition ldx_b (dst src off : Z) : BpfInsn := BpfInsn_new (bits BPF_LDX BPF_MEM BPF_B) dst src off 0.
Definition stx_dw (dst src off : Z) : BpfInsn := BpfInsn_new (bits BPF_STX BPF_MEM BPF_DW) dst src off 0.
Definition stx_w (dst src off : Z) : BpfInsn := BpfInsn_new (bits BPF_STX BPF_MEM BPF_W) dst src off 0.
Definition stx_h (dst src off : Z) : BpfInsn := BpfInsn_new (bits BPF_STX BPF_MEM BPF_H) dst src off 0.
Definition stx_b (dst src off : Z) : BpfInsn := BpfInsn_new (bits BPF_STX BPF_MEM BPF_B) dst src off 0.
Definition st_w (dst off imm : Z) : BpfInsn := BpfInsn_new (bits BPF_ST BPF_MEM BPF_W) dst 0 off imm.
Definition st_dw (dst off imm : Z) : BpfInsn := BpfInsn_new (bits BPF_ST BPF_MEM BPF_DW) dst 0 off imm.
Definition call (helper_id : Z) : BpfInsn := BpfInsn_new (Z.lor BPF_JMP BPF_CALL) 0 0 0 helper_id.
Definition ja (off : Z) : BpfInsn := BpfInsn_new (Z.lor BPF_JMP BPF_JA) 0 0 off 0.
Definition jeq_imm (dst imm off : Z) : BpfInsn := BpfInsn_new (bits BPF_JMP BPF_JEQ BPF_K) dst 0 off imm.
Definition jne_imm (dst imm off : Z) : BpfInsn := BpfInsn_new (bits BPF_JMP BPF_JNE BPF_K) dst 0 off imm.
Definition exit : BpfInsn := BpfInsn_new (Z.lor BPF_JMP BPF_EXIT) 0 0 0 0.

(** [ld_map_fd]: two instructions; the file descriptor is a placeholder until relocation. *)
Definition ld_map_fd (dst : Z) : list BpfInsn :=
  [BpfInsn_new (bits BPF_LD BPF_DW BPF_IMM) dst BPF_PSEUDO_MAP_FD 0 0; BpfInsn_new 0 0 0 0 0].

Definition encode (insns : list BpfInsn) : list byte := concat (map to_bytes insns).

(* ------------------------------------------------------------------ *)
(** ** The instruction set *)

Inductive Size := SzB | SzH | SzW | SzDW.
Definition size_bytes (sz : Size) : nat := match sz with SzB => 1 | SzH => 2 | SzW => 4 | SzDW => 8 end.

Inductive Op :=
| OMovImm (dst : nat) (imm : Z)
| OMovReg (dst src : nat)
| OAddImm (dst : nat) (imm : Z)
| ORshImm (dst : nat) (imm : Z)
| OAnd32Imm (dst : nat) (imm : Z)
| OLoad (sz : Size) (dst src : nat) (off : Z)
| OStore (sz : Size) (dst src : nat) (off : Z)
| OStoreImm (sz : Size) (dst : nat) (off imm : Z)
| OCall (helper : Z)
| OJa (off : Z)
| OJeqImm (dst : nat) (imm off : Z)
| OJneImm (dst : nat) (imm off : Z)
| OExit
| OMapFd (dst : nat).

Definition i_dst (i : BpfInsn) : nat := Z.to_nat (Z.land (i_regs i) 15).
Definition i_src (i : BpfInsn) : nat := Z.to_nat (Z.shiftr (i_regs i) 4).

Definition size_of_code (code : Z) : Size :=
  let sz := Z.land code 0x18 in
  if sz =? 0x00 then SzW else if sz =? 0x08 then SzH else if sz =? 0x10 then SzB else SzDW.

(** The operation an instruction stands for, by its class and operation bits. *)
Definition decode (i : BpfInsn) : option Op :=
  let code := i_code i in
  let class := Z.land code 7 in
  if (class =? 1) && (Z.land code 0xe0 =? 0x60) then Some (OLoad (size_of_code code) (i_dst i) (i_src i) (i_off i))
  else if (class =? 2) && (Z.land code 0xe0 =? 0x60) then Some (OStoreImm (size_of_code code) (i_dst i) (i_off i) (i_imm i))
  else if (class =? 3) && (Z.land code 0xe0 =? 0x60) then Some (OStore (size_of_code code) (i_dst i) (i_src i) (i_off i))
  else if code =? 0xb7 then Some (OMovImm (i_dst i) (i_imm i))
  else if code =? 0xbf then Some (OMovReg (i_dst i) (i_src i))
  else if code =? 0x07 then Some (OAddImm (i_dst i) (i_imm i))
  else if code =? 0x77 then Some (ORshImm (i_dst i) (i_imm i))
  else if code =? 0x54 then Some (OAnd32Imm (i_dst i) (i_imm i))
  else if code =? 0x85 then Some (OCall (i_imm i))
  else if code =? 0x05 then Some (OJa (i_off i))
  else if code =? 0x15 then Some (OJeqImm (i_dst i) (i_imm i) (i_off i))
  else if code =? 0x55 then Some (OJneImm (i_dst i) (i_imm i) (i_off i))
  else if code =? 0x95 then Some OExit
  else if (code =? 0x18) && (i_src i =? 1)%nat then Some (OMapFd (i_dst i))
  else None.

(** What a register holds: a number, a pointer into the stack frame or the tracing context, a map,
    or a pointer to the value of a map's element. *)
Inductive Value :=
| VNum (z : Z)
| VStack (off : Z)
| VCtx (off : Z)
| VMap (map : nat)
| VElem (map : nat).
#[export] Instance Value_eq_dec : EqDecision Value.
Proof. solve_decision. Defined.

(** The kernel a program runs in: what the helpers answer, the traced function's arguments, and
    the maps. A failed [probe_read_kernel] or [get_current_comm] fills the buffer as well, so both
    are a reply of the asked length. *)
Record Kernel := mkKernel {
  k_pid_tgid : Z;
  k_ktime : Z;
  k_comm : nat -> list byte;
  k_read : Z -> nat -> list byte;
  k_args : list Z;
  k_key_size : nat -> nat;
  k_has_key : nat -> list byte -> bool;
  k_ringbuf : nat -> list byte -> bool
}.

Record kernel_ok (k : Kernel) : Prop := {
  ko_pid_tgid : is_u64 (k_pid_tgid k);
  ko_ktime : is_u64 (k_ktime k);
  ko_comm n : length (k_comm k n) = n;
  ko_read a n : length (k_read k a n) = n;
  ko_args : Forall is_u64 (k_args k)
}.

(** The machine: eleven registers, the 512-byte frame, the value of each map element in reach, and
    the records the ring buffers accepted. [None] is a register or a byte never written. *)
Definition FRAME : Z := 512.

Record Machine := mkMachine {
  m_regs : list (option Value);
  m_stack : list (option byte);
  m_elem : nat -> Z;
  m_out : list (nat * list byte)
}.
#[export] Instance eta_Machine : Eta Machine := fun m => mkMachine (m_regs m) (m_stack m) (m_elem m) (m_out m).

Definition get_reg (r : nat) (m : Machine) : option Value := mjoin (m_regs m !! r).
Definition set_reg (r : nat) (v : Value) (m : Machine) : Machine := m <| m_regs ::= <[r := Some v]> |>.

(** The [n] bytes at frame offset [off], when they lie in the frame. *)
Definition in_frame (off : Z) (n : nat) : bool := (- FRAME <=? off) && (off + Z.of_nat n <=? 0).

Definition stack_store (off : Z) (bs : list byte) (stk : list (option byte)) : option (list (option byte)) :=
  if in_frame off (length bs) then
    let i := Z.to_nat (FRAME + off) in
    Some (take i stk ++ map Some bs ++ drop (i + length bs) stk)
  else None.

Definition stack_load (off : Z) (n : nat) (stk : list (option byte)) : option (list byte) :=
  if in_frame off n then mapM id (take n (drop (Z.to_nat (FRAME + off)) stk)) else None.

(** An immediate, sign-extended to 64 bits. *)
Definition ext64 (imm : Z) : Z := wrap 64 imm.

Definition store_at (dst : Value) (off : Z) (bs : list byte) (m : Machine) : option Machine :=
  match dst with
  | VStack o => stk ← stack_store (o + off) bs (m_stack m); Some (m <| m_stack := stk |>)
  | VElem map =>
      if (off =? 0) && (length bs =? 8)%nat
      then Some (m <| m_elem ::= fun f i => if (i =? map)%nat then le_get bs else f i |>)
      else None
  | _ => None
  end.

Definition load_at (k : Kernel) (src : Value) (off : Z) (n : nat) (m : Machine) : option Z :=
  match src with
  | VStack o => le_get <$> stack_load (o + off) n (m_stack m)
  | VCtx o => if ((o + off) mod 8 =? 0) && (0 <=? o + off) && (n =? 8)%nat
              then k_args k !! Z.to_nat ((o + off) / 8) else None
  | VElem map => if (off =? 0) && (n =? 8)%nat then Some (m_elem m map) else None
  | _ => None
  end.

Definition add_value (v : Value) (imm : Z) : option Value :=
  match v with
  | VNum z => Some (VNum (wrap 64 (z + imm)))
  | VStack o => Some (VStack (o + imm))
  | VCtx o => Some (VCtx (o + imm))
  | _ => None
  end.

Definition num (v : option Value) : option Z := match v with Some (VNum z) => Some z | _ => None end.

(** A call leaves its result in [r0] and [r1]-[r5] unreadable. *)
Definition ret_call (v : Value) (m : Machine) : Machine :=
  m <| m_regs ::= fun rs => <[0%nat := Some v]> (<[1%nat := None]> (<[2%nat := None]> (<[3%nat := None]>
                              (<[4%nat := None]> (<[5%nat := None]> rs))))) |>.

Definition call_helper (k : Kernel) (helper : Z) (m : Machine) : option Machine :=
  let r i := get_reg i m in
  if helper =? BPF_FUNC_GET_CURRENT_PID_TGID then Some (ret_call (VNum (k_pid_tgid k)) m)
  else if helper =? BPF_FUNC_KTIME_GET_NS then Some (ret_call (VNum (k_ktime k)) m)
  else if helper =? BPF_FUNC_MAP_LOOKUP_ELEM then
    match r 1%nat, r 2%nat with
    | Some (VMap map), Some (VStack off) =>
        key ← stack_load off (k_key_size k map) (m_stack m);
        Some (ret_call (if k_has_key k map key then VElem map else VNum 0) m)
    | _, _ => None
    end
  else if helper =? BPF_FUNC_GET_CURRENT_COMM then
    match r 1%nat, r 2%nat with
    | Some (VStack off), Some (VNum n) =>
        stk ← stack_store off (k_comm k (Z.to_nat n)) (m_stack m);
        Some (ret_call (VNum 0) (m <| m_stack := stk |>))
    | _, _ => None
    end
  else if helper =? BPF_FUNC_PROBE_READ_KERNEL then
    match r 1%nat, r 2%nat, r 3%nat with
    | Some (VStack off), Some (VNum n), Some (VNum addr) =>
        stk ← stack_store off (k_read k addr (Z.to_nat n)) (m_stack m);
        Some (ret_call (VNum 0) (m <| m_stack := stk |>))
    | _, _, _ => None
    end
  else if helper =? BPF_FUNC_RINGBUF_OUTPUT then
    match r 1%nat, r 2%nat, r 3%nat, r 4%nat with
    | Some (VMap map), Some (VStack off), Some (VNum n), Some (VNum _) =>
        data ← stack_load off (Z.to_nat n) (m_stack m);
        Some (if k_ringbuf k map data
              then ret_call (VNum 0) (m <| m_out ::= fun out => out ++ [(map, data)] |>)
              else ret_call (VNum (wrap 64 (-11))) m)
    | _, _, _, _ => None
    end
  else None.

(** Where an instruction leaves the machine. *)
Inductive Next :=
| NextPc (pc : Z) (m : Machine)
| NextExit (r0 : Z) (m : Machine).

Definition reloc_at (relocs : list (nat * nat)) (pc : nat) : option nat :=
  snd <$> find_first (fun r => (r.1 =? pc)%nat) relocs.

(** One instruction at [pc]. A map load without a relocation gives nothing readable. *)
Definition exec (k : Kernel) (relocs : list (nat * nat)) (pc : nat) (op : Op) (m : Machine) : option Next :=
  let next m := Some (NextPc (Z.of_nat pc + 1) m) in
  let jump off (m : Machine) := Some (NextPc (Z.of_nat pc + 1 + off) m) in
  let test dst imm := v ← get_reg dst m;
                      match v with
                      | VNum z => Some (bool_decide (z = ext64 imm))
                      | VElem _ => if imm =? 0 then Some false else None
                      | _ => None
                      end in
  match op with
  | OMovImm dst imm => next (set_reg dst (VNum (ext64 imm)) m)
  | OMovReg dst src => v ← get_reg src m; next (set_reg dst v m)
  | OAddImm dst imm => v ← get_reg dst m; v ← add_value v imm; next (set_reg dst v m)
  | ORshImm dst imm => z ← num (get_reg dst m); next (set_reg dst (VNum (Z.shiftr z imm)) m)
  | OAnd32Imm dst imm => z ← num (get_reg dst m); next (set_reg dst (VNum (wrap 32 (Z.land z imm))) m)
  | OLoad sz dst src off =>
      v ← get_reg src m; z ← load_at k v off (size_bytes sz) m; next (set_reg dst (VNum z) m)
  | OStore sz dst src off =>
      v ← get_reg dst m; z ← num (get_reg src m); m ← store_at v off (le_put (size_bytes sz) z) m; next m
  | OStoreImm sz dst off imm =>
      v ← get_reg dst m; m ← store_at v off (le_put (size_bytes sz) imm) m; next m
  | OCall helper => m ← call_helper k helper m; next m
  | OJa off => jump off m
  | OJeqImm dst imm off => b ← test dst imm; if b : bool then jump off m else next m
  | OJneImm dst imm off => b ← test dst imm; if b : bool then next m else jump off m
  | OExit => z ← num (get_reg 0 m); Some (NextExit z m)
  | OMapFd dst =>
      Some (NextPc (Z.of_nat pc + 2)
              (m <| m_regs ::= <[dst := VMap <$> reloc_at relocs pc]> |>))
  end.

(** Fetch and run; [None] is a machine with no next state. *)
Definition step (k : Kernel) (relocs : list (nat * nat)) (prog : list BpfInsn) (pc : Z) (m : Machine) : option Next :=
  if pc <? 0 then None else
  insn ← prog !! Z.to_nat pc; op ← decode insn; exec k relocs (Z.to_nat pc) op m.

(** The outer [None] is out of fuel, the inner one a stuck machine. *)
Fixpoint run (fuel : nat) (k : Kernel) (relocs : list (nat * nat)) (prog : list BpfInsn) (pc : Z) (m : Machine)
  : option (option (Z * Machine)) :=
  match fuel with
  | O => None
  | S fuel' =>
      match step k relocs prog pc m with
      | None => Some None
      | Some (NextExit z m) => Some (Some (z, m))
      | Some (NextPc pc m) => run fuel' k relocs prog pc m
      end
  end.

(** A tracing program starts with its context in [r1] and its frame in [r10]. *)
Definition boot (elem : nat -> Z) : Machine :=
  {| m_regs := [None; Some (VCtx 0); None; None; None; None; None; None; None; None; Some (VStack 0)];
     m_stack := repeat None (Z.to_nat FRAME);
     m_elem := elem;
     m_out := [] |}.

(* ------------------------------------------------------------------ *)
(** ** Encoding *)

Definition insn_ok (i : BpfInsn) : Prop :=
  in_width 8 (i_code i) /\ in_width 8 (i_regs i) /\ - 2 ^ 15 <= i_off i < 2 ^ 15 /\ - 2 ^ 31 <= i_imm i < 2 ^ 31.

(** The loader's reading of eight bytes. *)
Definition insn_of_bytes (bs : list byte) : BpfInsn :=
  mkBpfInsn (le_get (slice 0 1 bs)) (le_get (slice 1 1 bs)) (wrap_signed 16 (le_get (slice 2 2 bs)))
            (wrap_signed 32 (le_get (slice 4 4 bs))).

Fixpoint insns_of_bytes (n : nat) (bs : list byte) : list BpfInsn :=
  match n with
  | O => []
  | S n' => insn_of_bytes (take 8 bs) :: insns_of_bytes n' (drop 8 bs)
  end.

Lemma to_bytes_length i : length (to_bytes i) = 8%nat.
Proof. unfold to_bytes. by rewrite !length_app, !le_put_length. Qed.

Lemma encode_length insns : length (encode insns) = (8 * length insns)%nat.
Proof.
  induction insns as [|i insns IH]; [done|]. unfold encode in *. cbn [map concat].
  rewrite length_app, to_bytes_length, IH. cbn. lia.
Qed.

Lemma wrap_signed_mod w z : 0 < w -> - 2 ^ (w - 1) <= z < 2 ^ (w - 1) -> wrap_signed w (z mod 2 ^ w) = z.
Proof.
  intros Hw Hz. unfold wrap_signed. rewrite Zplus_mod_idemp_l.
  assert (2 ^ w = 2 * 2 ^ (w - 1)) as E by (rewrite <- Z.pow_succ_r by lia; f_equal; lia).
  rewrite Z.mod_small by lia. lia.
Qed.

Lemma insn_of_to_bytes i : insn_ok i -> insn_of_bytes (to_bytes i) = i.
Proof.
  intros (Hc & Hr & Ho & Hi). destruct i as [c r o m]; cbn in *.
  unfold insn_of_bytes, to_bytes, slice; cbn.
  change (le_get (le_put 1 c) = c) with (le_get (le_put 1 c) = c).
  f_equal.
  - change (le_get (le_put 1 c) = c). rewrite le_get_put. change (256 ^ Z.of_nat 1) with (2 ^ 8). by apply Z.mod_small.
  - change (le_get (le_put 1 r) = r). rewrite le_get_put. change (256 ^ Z.of_nat 1) with (2 ^ 8). by apply Z.mod_small.
  - change (wrap_signed 16 (le_get (le_put 2 o)) = o). rewrite le_get_put. change (256 ^ Z.of_nat 2) with (2 ^ 16).
    apply wrap_signed_mod; lia.
  - change (wrap_signed 32 (le_get (le_put 4 m)) = m). rewrite le_get_put. change (256 ^ Z.of_nat 4) with (2 ^ 32).
    apply wrap_signed_mod; lia.
Qed.

Lemma encode_decodes insns rest :
  Forall insn_ok insns -> insns_of_bytes (length insns) (encode insns ++ rest) = insns.
Proof.
  unfold encode. induction insns as [|i insns IH]; intros H; [done|].
  apply Forall_cons in H as [Hi H]. cbn [map concat length insns_of_bytes].
  rewrite <- app_assoc, take_app_length', drop_app_length' by (by rewrite to_bytes_length).
  by rewrite insn_of_to_bytes, IH.
Qed.

(* ------------------------------------------------------------------ *)
(** ** The frame *)

Lemma in_frame_spec off n : in_frame off n = true <-> - FRAME <= off /\ off + Z.of_nat n <= 0.
Proof. unfold in_frame. rewrite andb_true_iff, !Z.leb_le. done. Qed.

(** A store that stays inside a known part of the frame. *)
Lemma stack_store_mid off bs pre a old b post :
  length (pre ++ (a ++ old ++ b) ++ post) = Z.to_nat FRAME ->
  off = Z.of_nat (length pre + length a) - FRAME -> length old = length bs ->
  stack_store off bs (pre ++ (a ++ old ++ b) ++ post) = Some (pre ++ (a ++ map Some bs ++ b) ++ post).
Proof.
  intros Hlen -> Hold. unfold FRAME in *. rewrite !length_app in Hlen. unfold stack_store.
  rewrite (proj2 (in_frame_spec _ _)) by (unfold FRAME; lia). f_equal.
  replace (Z.to_nat (FRAME + (Z.of_nat (length pre + length a) - 512))) with (length (pre ++ a))
    by (rewrite length_app; unfold FRAME; lia).
  replace (pre ++ (a ++ old ++ b) ++ post) with ((pre ++ a) ++ old ++ b ++ post) by (by rewrite <- !app_assoc).
  rewrite take_app_length, <- drop_drop, drop_app_length, <- Hold, drop_app_length. by rewrite <- !app_assoc.
Qed.

Lemma mapM_id_Some {A} (l : list A) : mapM (M:=option) id (map Some l) = Some l.
Proof. induction l as [|x l IH]; [done|]. cbn. by rewrite IH. Qed.

Lemma stack_load_mid off n pre mid post :
  length (pre ++ map Some mid ++ post) = Z.to_nat FRAME ->
  off = Z.of_nat (length pre) - FRAME -> n = length mid ->
  stack_load off n (pre ++ map Some mid ++ post) = Some mid.
Proof.
  intros Hlen -> ->. unfold FRAME in *. rewrite !length_app, length_map in Hlen. unfold stack_load.
  rewrite (proj2 (in_frame_spec _ _)) by (unfold FRAME; lia).
  replace (Z.to_nat (FRAME + (Z.of_nat (length pre) - 512))) with (length pre) by (unfold FRAME; lia).
  rewrite drop_app_length, take_app_length' by (by rewrite length_map). apply mapM_id_Some.
Qed.

(* ------------------------------------------------------------------ *)
(** ** Runs

    [goes pc m pc' m']: the program gets from one state to the other, forward, in no more steps
    than the distance. *)

Section runs.
Variables (k : Kernel) (relocs : list (nat * nat)) (prog : list BpfInsn).

Definition goes (pc : Z) (m : Machine) (pc' : Z) (m' : Machine) : Prop :=
  exists n : nat, Z.of_nat n <= pc' - pc /\
    forall fuel, run (n + fuel) k relocs prog pc m = run fuel k relocs prog pc' m'.

Lemma goes_refl pc m : goes pc m pc m.
Proof. exists 0%nat. split; [lia|done]. Qed.

Lemma goes_trans pc m pc' m' pc'' m'' : goes pc m pc' m' -> goes pc' m' pc'' m'' -> goes pc m pc'' m''.
Proof.
  intros (n & Hn & Hr) (n' & Hn' & Hr'). exists (n + n')%nat. split; [lia|].
  intros fuel. by rewrite <- Nat.add_assoc, Hr, Hr'.
Qed.

Lemma goes_step pc m pc' m' :
  pc < pc' -> step k relocs prog pc m = Some (NextPc pc' m') -> goes pc m pc' m'.
Proof. intros Hpc Hs. exists 1%nat. split; [lia|]. intros fuel. cbn. by rewrite Hs. Qed.

(** Code without jumps, run where it stands. *)
Fixpoint exec_block (pc : nat) (block : list BpfInsn) (m : Machine) : option Machine :=
  match block with
  | [] => Some m
  | insn :: rest =>
      op ← decode insn;
      match op, rest with
      | OMapFd dst, _ :: rest => exec_block (S (S pc)) rest (m <| m_regs ::= <[dst := VMap <$> reloc_at relocs pc]> |>)
      | OMapFd _, [] | OJa _, _ | OJeqImm _ _ _, _ | OJneImm _ _ _, _ | OExit, _ => None
      | _, _ => nxt ← exec k relocs pc op m;
                match nxt with
                | NextPc _ m' => exec_block (S pc) rest m'
                | NextExit _ _ => None
                end
      end
  end.

Definition code_at (pc : nat) (block : list BpfInsn) : Prop := exists post, drop pc prog = block ++ post.

Lemma code_at_cons pc i block : code_at pc (i :: block) -> prog !! pc = Some i /\ code_at (S pc) block.
Proof.
  intros (post & E). split.
  - by rewrite <- (Nat.add_0_r pc), <- lookup_drop, E.
  - exists post. by rewrite <- (Nat.add_1_r pc), <- drop_drop, E.
Qed.

Lemma code_at_app pc block block' :
  code_at pc (block ++ block') <-> code_at pc block /\ code_at (pc + length block) block'.
Proof.
  split.
  - intros (post & E). split; [exists (block' ++ post); by rewrite E, app_assoc|].
    exists post. by rewrite <- drop_drop, E, <- app_assoc, drop_app_length.
  - intros [(post & E) (post' & E')]. exists post'.
    rewrite <- drop_drop, E, drop_app_length in E'. by rewrite E, E', app_assoc.
Qed.

Lemma step_at pc i op m :
  prog !! pc = Some i -> decode i = Some op -> step k relocs prog (Z.of_nat pc) m = exec k relocs pc op m.
Proof.
  intros Hi Hop. unfold step. rewrite (proj2 (Z.ltb_ge _ _)) by lia. rewrite Nat2Z.id, Hi. cbn. by rewrite Hop.
Qed.

Lemma block_goes pc block m m' :
  code_at pc block -> exec_block pc block m = Some m' ->
  goes (Z.of_nat pc) m (Z.of_nat (pc + length block)) m'.
Proof.
  revert pc block m. assert (forall n pc block m, (length block <= n)%nat -> code_at pc block ->
    exec_block pc block m = Some m' -> goes (Z.of_nat pc) m (Z.of_nat (pc + length block)) m') as Hn;
    [|intros pc block m; apply (Hn (length block)); lia].
  intros n; induction n as [|n IH]; intros pc block m Hle Hc He.
  { destruct block; [|cbn in Hle; lia]. injection He as <-. rewrite Nat.add_0_r. apply goes_refl. }
  destruct block as [|i block]; [injection He as <-; rewrite Nat.add_0_r; apply goes_refl|].
  destruct (code_at_cons _ _ _ Hc) as [Hi Hc']. cbn [exec_block] in He.
  destruct (decode i) as [op|] eqn:Hop; [|done]. cbn [mbind option_bind] in He.
  assert (forall nxt, exec k relocs pc op m = Some nxt ->
            (exists m1, nxt = NextPc (Z.of_nat pc + 1) m1) ->
            (match nxt with NextPc _ m1 => exec_block (S pc) block m1 | NextExit _ _ => None end) = Some m' ->
            goes (Z.of_nat pc) m (Z.of_nat (pc + length (i :: block))) m') as Hone.
  { intros nxt Hx (m1 & ->) Hb. eapply goes_trans.
    - apply goes_step with (pc' := Z.of_nat pc + 1) (m' := m1); [lia|]. by rewrite (step_at _ _ _ _ Hi Hop).
    - replace (Z.of_nat pc + 1) with (Z.of_nat (S pc)) by lia.
      replace (pc + length (i :: block))%nat with (S pc + length block)%nat by (cbn; lia).
      apply IH; [cbn in Hle; lia|done|done]. }
  destruct op; try done.
  all: try (destruct (exec k relocs pc _ m) as [nxt|] eqn:Hx; [cbn [mbind option_bind] in He|by destruct block];
    apply (Hone nxt eq_refl); [|exact He]; cbn [exec] in Hx;
    repeat match type of Hx with
    | Some _ = Some _ => injection Hx as <-; by eexists
    | (_ ≫= _) = Some _ => apply bind_Some in Hx as (? & _ & Hx); cbv beta in Hx
    end).
  destruct block as [|i2 block]; [done|]. destruct (code_at_cons _ _ _ Hc') as [_ Hc2].
  eapply goes_trans.
  - apply goes_step with (pc' := Z.of_nat pc + 2); [lia|]. by rewrite (step_at _ _ _ _ Hi Hop).
  - replace (Z.of_nat pc + 2) with (Z.of_nat (S (S pc))) by lia.
    replace (pc + length (i :: i2 :: block))%nat with (S (S pc) + length block)%nat by (cbn; lia).
    apply IH; [cbn in Hle; lia|done|done].
Qed.

(** A run that goes to an [exit] ends, with fuel for every instruction. *)
Lemma goes_exit m pc m' i z :
  goes 0 m (Z.of_nat pc) m' -> prog !! pc = Some i -> decode i = Some OExit -> get_reg 0 m' = Some (VNum z) ->
  run (length prog) k relocs prog 0 m = Some (Some (z, m')).
Proof.
  intros (n & Hn & Hr) Hi Hd Hz. pose proof (lookup_lt_Some _ _ _ Hi).
  replace (length prog) with (n + S (length prog - S n))%nat by lia. rewrite Hr. cbn.
  rewrite (step_at _ _ _ _ Hi Hd). cbn. by rewrite Hz.
Qed.
End runs.

(* ------------------------------------------------------------------ *)
(** ** Decoding what the constructors build *)

Ltac decode_insn :=
  match goal with
  | |- context [decode (?f ?a ?b ?c)] =>
      let nat_of x := eval vm_compute in (Z.to_nat x) in
      let become op := (change (decode (f a b c)) with (Some op)) in
      lazymatch f with
      | ldx_dw => let d := nat_of a in let s := nat_of b in become (OLoad SzDW d s c)
      | stx_dw => let d := nat_of a in let s := nat_of b in become (OStore SzDW d s c)
      | stx_w => let d := nat_of a in let s := nat_of b in become (OStore SzW d s c)
      | stx_h => let d := nat_of a in let s := nat_of b in become (OStore SzH d s c)
      | stx_b => let d := nat_of a in let s := nat_of b in become (OStore SzB d s c)
      | st_w => let d := nat_of a in become (OStoreImm SzW d b c)
      | st_dw => let d := nat_of a in become (OStoreImm SzDW d b c)
      | jeq_imm => let d := nat_of a in become (OJeqImm d b c)
      | jne_imm => let d := nat_of a in become (OJneImm d b c)
      end
  | |- context [decode (?f ?a ?b)] =>
      let nat_of x := eval vm_compute in (Z.to_nat x) in
      let become op := (change (decode (f a b)) with (Some op)) in
      let d := nat_of a in
      lazymatch f with
      | mov64_imm => become (OMovImm d b)
      | mov64_reg => let s := nat_of b in become (OMovReg d s)
      | add64_imm => become (OAddImm d b)
      | rsh64_imm => become (ORshImm d b)
      | and32_imm => become (OAnd32Imm d b)
      end
  | |- context [decode (call ?h)] => change (decode (call h)) with (Some (OCall h))
  | |- context [decode exit] => change (decode exit) with (Some OExit)
  end.

Definition is_straight (op : Op) : bool :=
  match op with OMapFd _ | OJa _ | OJeqImm _ _ _ | OJneImm _ _ _ | OExit => false | _ => true end.

(** One instruction of a block, and one map load. *)
Lemma block_step k relocs pc i op rest m pc' m' m'' :
  decode i = Some op -> is_straight op = true -> exec k relocs pc op m = Some (NextPc pc' m') ->
  exec_block k relocs (S pc) rest m' = Some m'' -> exec_block k relocs pc (i :: rest) m = Some m''.
Proof. intros Hd Hs Hx Hr. cbn [exec_block]. rewrite Hd. destruct op; try done; cbn [mbind option_bind]; by rewrite Hx. Qed.

Lemma block_map k relocs pc i i2 dst rest m m'' :
  decode i = Some (OMapFd dst) ->
  exec_block k relocs (S (S pc)) rest (m <| m_regs ::= <[dst := VMap <$> reloc_at relocs pc]> |>) = Some m'' ->
  exec_block k relocs pc (i :: i2 :: rest) m = Some m''.
Proof. intros Hd Hr. cbn [exec_block]. by rewrite Hd. Qed.

(** Run a block of code on a machine whose registers are spelled out. *)
Ltac norm_of m :=
  let m' := eval cbv [set_reg ret_call set m_regs m_stack m_elem m_out insert list_insert fmap option_fmap option_map] in m in
  change m with m'.
Ltac eval_exec :=
  repeat match goal with |- context [get_reg ?r ?m] => progress norm_of m end;
  cbn -[Z.add Z.sub Z.mul Z.div Z.opp Z.shiftr Z.land Z.to_nat Z.of_nat wrap ext64 le_put le_get stack_store stack_load load_at
        reloc_at in_frame length app map repeat Nat.eqb].
Ltac norm_machine := cbv [set_reg ret_call set m_regs m_stack m_elem m_out insert list_insert fmap option_fmap option_map].
Ltac norm_block := match goal with |- exec_block _ _ _ _ ?m = _ => norm_of m end.
(** One step after [tac] has settled what the memory answers. *)
Ltac exec_with tac :=
  eapply block_step; [decode_insn; reflexivity|reflexivity|eval_exec; tac; reflexivity|norm_block].
Ltac exec_insn := first [exec_with idtac | eapply block_map; [lazy; reflexivity|norm_block]].
