(* ===== verification/Btf.v ===== *)
(** BTF, the kernel's type information ([jalki-codegen/src/btf.rs]): the parser of the type
    section, and what the probe generator asks of it: signatures, member offsets, sizes.

    [parse] is given the bytes of [/sys/kernel/btf/vmlinux]. A slice out of range is a panic,
    [None]. Two of the lookups recurse along type references without a bound; here they take fuel,
    [None] when it runs out, and [Acyclic] type graphs never run out of it. *)
From Stdlib Require Import Strings.Byte Strings.Ascii.
From S2P Require Import Prelude Text.

(* ------------------------------------------------------------------ *)
(** ** Errors and entries *)

(** [CodegenError] ([jalki-codegen/src/error.rs]) *)
Inductive CodegenError :=
| FunctionNotFound (name : string)
| StructNotFound (name : string)
| FieldNotFound (struct_name field : string)
| BtfType (msg : string)
| UnsupportedType (msg : string)
| Elf (msg : string)
| ProgramTooLarge (size max : Z)
| StackOverflow (size : Z).
#[export] Instance CodegenError_eq_dec : EqDecision CodegenError.
Proof. solve_decision. Defined.

Definition BTF_MAGIC : Z := 0xEB9F.
Definition BTF_KIND_INT : Z := 1.
Definition BTF_KIND_PTR : Z := 2.
Definition BTF_KIND_STRUCT : Z := 4.
Definition BTF_KIND_UNION : Z := 5.
Definition BTF_KIND_ENUM : Z := 6.
Definition BTF_KIND_TYPEDEF : Z := 8.
Definition BTF_KIND_VOLATILE : Z := 9.
Definition BTF_KIND_CONST : Z := 10.
Definition BTF_KIND_RESTRICT : Z := 11.
Definition BTF_KIND_FUNC : Z := 12.
Definition BTF_KIND_FUNC_PROTO : Z := 13.
Definition BTF_KIND_ENUM64 : Z := 19.

Record BtfMember := mkBtfMember { bm_name_off : Z; bm_type_id : Z; bm_offset_bits : Z }.
Record BtfParam := mkBtfParam { bp_name_off : Z; bp_type_id : Z }.

Inductive TypeExtra :=
| ExNone
| ExMembers (members : list BtfMember)
| ExParams (params : list BtfParam)
| ExIntData (data : Z).

Record BtfTypeEntry := mkBtfTypeEntry {
  bt_name_off : Z;
  bt_kind : Z;
  bt_vlen : Z;
  bt_size_or_type : Z;
  bt_extra : TypeExtra
}.

Record BtfData := mkBtfData {
  btf_types : list BtfTypeEntry;
  btf_strings : list byte;
  btf_func_index : gmap string Z;
  btf_struct_index : gmap string Z
}.

Inductive FieldType := FtU8 | FtU16 | FtU32 | FtU64 | FtI32 | FtI64.
#[export] Instance FieldType_eq_dec : EqDecision FieldType.
Proof. solve_decision. Defined.

Definition field_type_size (f : FieldType) : Z :=
  match f with FtU8 => 1 | FtU16 => 2 | FtU32 | FtI32 => 4 | FtU64 | FtI64 => 8 end.

Definition size_to_field_type (size : Z) : result CodegenError FieldType :=
  if size =? 1 then Ok FtU8
  else if size =? 2 then Ok FtU16
  else if size =? 4 then Ok FtU32
  else if size =? 8 then Ok FtU64
  else Err (UnsupportedType (dec size +:+ "-byte field")).

(* ------------------------------------------------------------------ *)
(** ** Parsing *)

Definition u32_at (data : list byte) (off : nat) : Z := le_get (slice off 4 data).

(** The loop over the members of a struct or union. *)
Fixpoint read_members (n : nat) (data : list byte) (offset : nat) : result CodegenError (list BtfMember * nat) :=
  match n with
  | O => Ok ([], offset)
  | S n' =>
      if (length data <? offset + 12)%nat then Err (BtfType "truncated member") else
      let m := mkBtfMember (u32_at data offset) (u32_at data (offset + 4)) (u32_at data (offset + 8)) in
      rest <-? read_members n' data (offset + 12) ;;
      Ok (m :: rest.1, rest.2)
  end.

Fixpoint read_params (n : nat) (data : list byte) (offset : nat) : result CodegenError (list BtfParam * nat) :=
  match n with
  | O => Ok ([], offset)
  | S n' =>
      if (length data <? offset + 8)%nat then Err (BtfType "truncated param") else
      let p := mkBtfParam (u32_at data offset) (u32_at data (offset + 4)) in
      rest <-? read_params n' data (offset + 8) ;;
      Ok (p :: rest.1, rest.2)
  end.

(** What follows the twelve bytes of a type's header, by kind: the extra and where it ends. *)
Definition read_extra (kind vlen : Z) (data : list byte) (offset : nat) : result CodegenError (TypeExtra * nat) :=
  let n := Z.to_nat vlen in
  if kind =? 0 then Ok (ExNone, offset)
  else if kind =? BTF_KIND_INT then
    if (length data <? offset + 4)%nat then Err (BtfType "truncated INT")
    else Ok (ExIntData (u32_at data offset), (offset + 4)%nat)
  else if kind =? BTF_KIND_PTR then Ok (ExNone, offset)
  else if kind =? 3 then Ok (ExNone, (offset + 12)%nat)
  else if (kind =? BTF_KIND_STRUCT) || (kind =? BTF_KIND_UNION) then
    ms <-? read_members n data offset ;; Ok (ExMembers ms.1, ms.2)
  else if kind =? BTF_KIND_ENUM then Ok (ExNone, (offset + n * 8)%nat)
  else if kind =? 7 then Ok (ExNone, offset)
  else if (kind =? BTF_KIND_TYPEDEF) || (kind =? BTF_KIND_VOLATILE) || (kind =? BTF_KIND_CONST)
          || (kind =? BTF_KIND_RESTRICT) then Ok (ExNone, offset)
  else if kind =? BTF_KIND_FUNC then Ok (ExNone, offset)
  else if kind =? BTF_KIND_FUNC_PROTO then
    ps <-? read_params n data offset ;; Ok (ExParams ps.1, ps.2)
  else if kind =? 14 then Ok (ExNone, (offset + 4)%nat)
  else if kind =? 15 then Ok (ExNone, (offset + n * 12)%nat)
  else if kind =? 16 then Ok (ExNone, offset)
  else if kind =? 17 then Ok (ExNone, (offset + 4)%nat)
  else if kind =? 18 then Ok (ExNone, offset)
  else if kind =? BTF_KIND_ENUM64 then Ok (ExNone, (offset + n * 12)%nat)
  else Ok (ExNone, offset).

(** The [while] loop of [parse_types] from [offset] on; [None] is out of fuel. *)
Fixpoint parse_types_loop (fuel : nat) (data : list byte) (offset : nat) : option (result CodegenError (list BtfTypeEntry)) :=
  match fuel with
  | O => None
  | S fuel' =>
      if (length data <? offset + 12)%nat then Some (Ok []) else
      let name_off := u32_at data offset in
      let info := u32_at data (offset + 4) in
      let size_or_type := u32_at data (offset + 8) in
      let kind := Z.land (Z.shiftr info 24) 0x1f in
      let vlen := Z.land info 0xffff in
      match read_extra kind vlen data (offset + 12) with
      | Err e => Some (Err e)
      | Ok (extra, offset') =>
          rest ← parse_types_loop fuel' data offset';
          Some (types <-? rest ;; Ok (mkBtfTypeEntry name_off kind vlen size_or_type extra :: types))
      end
  end.

(** Every turn takes twelve bytes at least. *)
Definition parse_types (data : list byte) : option (result CodegenError (list BtfTypeEntry)) :=
  parse_types_loop (S (length data)) data 0.

(** The bytes up to the next NUL. *)
Definition string_at (strings : list byte) (offset : Z) : string :=
  if zlen strings <=? offset then "" else
  let rest := drop (Z.to_nat offset) strings in
  str_or_empty (take (default (length rest) (position (fun b => bool_decide (b = x00)) rest)) rest).

(** [&data[start..start + len]], [None] when it is out of range. *)
Definition checked_slice (data : list byte) (start len : Z) : option (list byte) :=
  if start + len <=? zlen data then Some (slice (Z.to_nat start) (Z.to_nat len) data) else None.

(** The type ids, one-based, of the named types of a kind; a later one replaces an earlier. *)
Definition index_kind (kind : Z) (strings : list byte) (types : list BtfTypeEntry) : gmap string Z :=
  foldl (fun index it => let '(i, ty) := it in
                         let name := string_at strings (bt_name_off ty) in
                         if negb (bool_decide (name = "")) && (bt_kind ty =? kind)
                         then <[name := wrap 32 (Z.of_nat i + 1)]> index else index)
        ∅ (imap pair types).

(** [BtfData::parse] *)
Definition parse (data : list byte) : option (result CodegenError BtfData) :=
  if zlen data <? 24 then Some (Err (BtfType "BTF too short")) else
  let magic := le_get (slice 0 2 data) in
  if negb (magic =? BTF_MAGIC) then Some (Err (BtfType ("bad BTF magic: 0x" +:+ hex16 magic))) else
  let hdr_len := u32_at data 4 in
  let type_off := u32_at data 8 in
  let type_len := u32_at data 12 in
  let str_off := u32_at data 16 in
  let str_len := u32_at data 20 in
  type_data ← checked_slice data (hdr_len + type_off) type_len;
  str_data ← checked_slice data (hdr_len + str_off) str_len;
  types ← parse_types type_data;
  Some (types <-? types ;;
        Ok (mkBtfData types str_data (index_kind BTF_KIND_FUNC str_data types)
                      (index_kind BTF_KIND_STRUCT str_data types))).

(* ------------------------------------------------------------------ *)
(** ** Lookups *)

Definition get_type (btf : BtfData) (type_id : Z) : option BtfTypeEntry :=
  if type_id =? 0 then None else btf_types btf !! Z.to_nat (type_id - 1).

Definition type_name (btf : BtfData) (type_id : Z) : string :=
  match get_type btf type_id with
  | Some ty => string_at (btf_strings btf) (bt_name_off ty)
  | None => ""
  end.

Record FunctionParam := mkFunctionParam { fp_name : string; fp_type_id : Z }.
Record FunctionSignature := mkFunctionSignature {
  fs_name : string;
  fs_params : list FunctionParam;
  fs_return_type_id : Z
}.

Definition ok_or {A} (o : option A) (e : CodegenError) : result CodegenError A :=
  match o with Some a => Ok a | None => Err e end.

Definition resolve_function (btf : BtfData) (function : string) : result CodegenError FunctionSignature :=
  func_id <-? ok_or (btf_func_index btf !! function) (FunctionNotFound function) ;;
  func_type <-? ok_or (get_type btf func_id) (BtfType "func type missing") ;;
  if negb (bt_kind func_type =? BTF_KIND_FUNC) then Err (BtfType (function +:+ " is not a function")) else
  proto <-? ok_or (get_type btf (bt_size_or_type func_type)) (BtfType "func proto missing") ;;
  if negb (bt_kind proto =? BTF_KIND_FUNC_PROTO) then Err (BtfType "expected FuncProto") else
  let params := match bt_extra proto with
                | ExParams params =>
                    map (fun p => mkFunctionParam (string_at (btf_strings btf) (bp_name_off p)) (bp_type_id p)) params
                | _ => []
                end in
  Ok (mkFunctionSignature function params (bt_size_or_type proto)).

(** The kinds that only wrap another type. *)
Definition is_modifier (kind : Z) : bool :=
  (kind =? BTF_KIND_TYPEDEF) || (kind =? BTF_KIND_VOLATILE) || (kind =? BTF_KIND_CONST)
  || (kind =? BTF_KIND_RESTRICT) || (kind =? 18).

(** [resolve_through_modifiers], with [n] turns left. *)
Fixpoint through_modifiers (n : nat) (btf : BtfData) (type_id : Z) : Z :=
  match n with
  | O => type_id
  | S n' =>
      match get_type btf type_id with
      | None => type_id
      | Some ty => if is_modifier (bt_kind ty) then through_modifiers n' btf (bt_size_or_type ty) else type_id
      end
  end.
Definition resolve_through_modifiers : BtfData -> Z -> Z := through_modifiers 32.

(** [type_size]: the recursion through typedefs and qualifiers. *)
Fixpoint type_size (fuel : nat) (btf : BtfData) (type_id : Z) : option Z :=
  match fuel with
  | O => None
  | S fuel' =>
      match get_type btf type_id with
      | None => Some 0
      | Some ty =>
          let kind := bt_kind ty in
          if kind =? BTF_KIND_INT then
            Some (match bt_extra ty with ExIntData data => Z.land data 0xff / 8 | _ => bt_size_or_type ty end)
          else if (kind =? BTF_KIND_STRUCT) || (kind =? BTF_KIND_UNION) || (kind =? BTF_KIND_ENUM)
                  || (kind =? BTF_KIND_ENUM64) then Some (bt_size_or_type ty)
          else if kind =? BTF_KIND_PTR then Some 8
          else if is_modifier kind then type_size fuel' btf (bt_size_or_type ty)
          else if kind =? 16 then Some (bt_size_or_type ty)
          else Some 0
      end
  end.

Inductive PointeeKind := PkStruct (name : string) (type_id : Z) | PkOther.

Definition pointer_pointee (btf : BtfData) (type_id : Z) : PointeeKind :=
  match get_type btf type_id with
  | None => PkOther
  | Some ty =>
      if negb (bt_kind ty =? BTF_KIND_PTR) then PkOther else
      let pointee_id := resolve_through_modifiers btf (bt_size_or_type ty) in
      match get_type btf pointee_id with
      | None => PkOther
      | Some pointee =>
          if bt_kind pointee =? BTF_KIND_STRUCT
          then PkStruct (string_at (btf_strings btf) (bt_name_off pointee)) pointee_id else PkOther
      end
  end.

Definition struct_by_name (btf : BtfData) (name : string) : option Z := btf_struct_index btf !! name.

Definition add32 (a b : Z) : Z := wrap 32 (a + b).

(** The second pass of [find_member_recursive]: the first anonymous member that has the field. *)
Fixpoint in_anonymous (find : Z -> option (result CodegenError (Z * Z))) (strings : list byte) (none : CodegenError)
    (members : list BtfMember) : option (result CodegenError (Z * Z)) :=
  match members with
  | [] => Some (Err none)
  | m :: rest =>
      if bool_decide (string_at strings (bm_name_off m) = "") then
        found ← find (bm_type_id m);
        match found with
        | Ok (found_type, inner_offset) => Some (Ok (found_type, add32 (bm_offset_bits m / 8) inner_offset))
        | Err _ => in_anonymous find strings none rest
        end
      else in_anonymous find strings none rest
  end.

(** [find_member_recursive]: the member's type and byte offset. *)
Fixpoint find_member (fuel : nat) (btf : BtfData) (type_id : Z) (field_name : string)
  : option (result CodegenError (Z * Z)) :=
  match fuel with
  | O => None
  | S fuel' =>
      let resolved_id := resolve_through_modifiers btf type_id in
      match get_type btf resolved_id with
      | None => Some (Err (BtfType ("type " +:+ dec resolved_id +:+ " missing")))
      | Some ty =>
          match bt_extra ty with
          | ExMembers members =>
              match find_first (fun m => bool_decide (string_at (btf_strings btf) (bm_name_off m) = field_name)) members with
              | Some m => Some (Ok (bm_type_id m, bm_offset_bits m / 8))
              | None => in_anonymous (fun t => find_member fuel' btf t field_name) (btf_strings btf)
                          (FieldNotFound (type_name btf resolved_id) field_name) members
              end
          | _ => Some (Err (BtfType ("type " +:+ type_name btf resolved_id +:+ " is not a struct/union")))
          end
      end
  end.

(** Fuel for every type there is. *)
Definition type_fuel (btf : BtfData) : nat := S (length (btf_types btf)).
#[global] Arguments type_fuel : simpl never.

Record ResolvedField := mkResolvedField {
  rf_name : string;
  rf_offset_bytes : Z;
  rf_size : Z;
  rf_field_type : FieldType
}.

(** The loop of [resolve_field_offset] over the parts of the path. *)
Fixpoint resolve_parts (btf : BtfData) (path : string) (parts : list string) (current_id total_offset : Z)
  : option (result CodegenError ResolvedField) :=
  match parts with
  | [] => Some (Err (BtfType "empty field path"))
  | part :: rest =>
      found ← find_member (type_fuel btf) btf current_id part;
      match found with
      | Err e => Some (Err e)
      | Ok (member_type_id, member_offset) =>
          let total_offset := add32 total_offset member_offset in
          match rest with
          | [] => size ← type_size (type_fuel btf) btf member_type_id;
                  Some (ft <-? size_to_field_type size ;; Ok (mkResolvedField path total_offset size ft))
          | _ => resolve_parts btf path rest member_type_id total_offset
          end
      end
  end.

Definition resolve_field_offset (btf : BtfData) (struct_type_id : Z) (field_path : string)
  : option (result CodegenError ResolvedField) :=
  resolve_parts btf field_path (split_char "." field_path) struct_type_id 0.

(** The loop of [field_offset]. *)
Fixpoint offset_parts (btf : BtfData) (parts : list string) (current_id total_offset : Z) : option (result CodegenError Z) :=
  match parts with
  | [] => Some (Ok total_offset)
  | part :: rest =>
      found ← find_member (type_fuel btf) btf current_id part;
      match found with
      | Err e => Some (Err e)
      | Ok (member_type_id, member_offset) => offset_parts btf rest member_type_id (add32 total_offset member_offset)
      end
  end.

Definition field_offset (btf : BtfData) (struct_type_id : Z) (field_path : string) : option (result CodegenError Z) :=
  offset_parts btf (split_char "." field_path) struct_type_id 0.

(* ------------------------------------------------------------------ *)
(** ** The format

    What the format (Documentation/bpf/btf.rst) makes of a list of types: a twelve-byte header
    each, with the kind, the count and the kind flag in one word, and what the kind adds to it.
    The parser keeps the entry, and neither the flag nor the payload of the kinds it skips. *)

Record RawType := mkRawType { rt_entry : BtfTypeEntry; rt_flag : bool; rt_payload : list byte }.

Definition type_info (t : RawType) : Z :=
  (if rt_flag t then 2 ^ 31 else 0) + bt_kind (rt_entry t) * 2 ^ 24 + bt_vlen (rt_entry t).

Definition member_bytes (m : BtfMember) : list byte :=
  le_put 4 (bm_name_off m) ++ le_put 4 (bm_type_id m) ++ le_put 4 (bm_offset_bits m).
Definition param_bytes (p : BtfParam) : list byte := le_put 4 (bp_name_off p) ++ le_put 4 (bp_type_id p).

Definition extra_bytes (t : RawType) : list byte :=
  match bt_extra (rt_entry t) with
  | ExNone => rt_payload t
  | ExMembers members => concat (map member_bytes members)
  | ExParams params => concat (map param_bytes params)
  | ExIntData data => le_put 4 data
  end.

Definition type_bytes (t : RawType) : list byte :=
  le_put 4 (bt_name_off (rt_entry t)) ++ le_put 4 (type_info t) ++ le_put 4 (bt_size_or_type (rt_entry t))
  ++ extra_bytes t.

(** Bytes after the header of the kinds that keep nothing: arrays, enums, variables, data
    sections, declaration tags. *)
Definition payload_size (kind vlen : Z) : Z :=
  if kind =? 3 then 12
  else if kind =? BTF_KIND_ENUM then 8 * vlen
  else if (kind =? 14) || (kind =? 17) then 4
  else if (kind =? 15) || (kind =? BTF_KIND_ENUM64) then 12 * vlen
  else 0.

Definition member_ok (m : BtfMember) : Prop :=
  in_width 32 (bm_name_off m) /\ in_width 32 (bm_type_id m) /\ in_width 32 (bm_offset_bits m).
Definition param_ok (p : BtfParam) : Prop := in_width 32 (bp_name_off p) /\ in_width 32 (bp_type_id p).

Record raw_type_ok (t : RawType) : Prop := {
  rto_name : in_width 32 (bt_name_off (rt_entry t));
  rto_kind : in_width 5 (bt_kind (rt_entry t));
  rto_vlen : in_width 16 (bt_vlen (rt_entry t));
  rto_size : in_width 32 (bt_size_or_type (rt_entry t));
  rto_extra :
    let kind := bt_kind (rt_entry t) in
    match bt_extra (rt_entry t) with
    | ExNone => kind ∉ [BTF_KIND_INT; BTF_KIND_STRUCT; BTF_KIND_UNION; BTF_KIND_FUNC_PROTO] /\
                zlen (rt_payload t) = payload_size kind (bt_vlen (rt_entry t))
    | ExIntData data => kind = BTF_KIND_INT /\ in_width 32 data
    | ExMembers ms => (kind = BTF_KIND_STRUCT \/ kind = BTF_KIND_UNION) /\
                      zlen ms = bt_vlen (rt_entry t) /\ Forall member_ok ms
    | ExParams ps => kind = BTF_KIND_FUNC_PROTO /\ zlen ps = bt_vlen (rt_entry t) /\ Forall param_ok ps
    end
}.

Section decide_ok.
#[local] Instance in_width_dec w z : Decision (in_width w z).
Proof. unfold in_width. apply _. Defined.
#[local] Instance member_ok_dec m : Decision (member_ok m).
Proof. unfold member_ok. apply _. Defined.
#[local] Instance param_ok_dec p : Decision (param_ok p).
Proof. unfold param_ok. apply _. Defined.

#[export] Instance raw_type_ok_dec t : Decision (raw_type_ok t).
Proof.
  destruct t as [[name kind vlen size extra] flag payload].
  destruct (decide (in_width 32 name)); [|right; by intros []].
  destruct (decide (in_width 5 kind)); [|right; by intros []].
  destruct (decide (in_width 16 vlen)); [|right; by intros []].
  destruct (decide (in_width 32 size)); [|right; by intros []].
  destruct extra as [|ms|ps|d].
  - destruct (decide (kind ∉ [BTF_KIND_INT; BTF_KIND_STRUCT; BTF_KIND_UNION; BTF_KIND_FUNC_PROTO] /\
                      zlen payload = payload_size kind vlen)); [left; by split|right; by intros []].
  - destruct (decide ((kind = BTF_KIND_STRUCT \/ kind = BTF_KIND_UNION) /\ zlen ms = vlen /\ Forall member_ok ms));
      [left; by split|right; by intros []].
  - destruct (decide (kind = BTF_KIND_FUNC_PROTO /\ zlen ps = vlen /\ Forall param_ok ps));
      [left; by split|right; by intros []].
  - destruct (decide (kind = BTF_KIND_INT /\ in_width 32 d)); [left; by split|right; by intros []].
Defined.
End decide_ok.

Lemma u32_at_app pre z rest : in_width 32 z -> u32_at (pre ++ le_put 4 z ++ rest) (length pre) = z.
Proof.
  intros Hz. unfold u32_at, slice. rewrite drop_app_length, take_app_length' by (by rewrite le_put_length).
  rewrite le_get_put. by apply Z.mod_small.
Qed.

(** The same, for the word after some bytes more. *)
Lemma u32_at_later pre mid z rest off :
  in_width 32 z -> off = (length pre + length mid)%nat -> u32_at (pre ++ mid ++ le_put 4 z ++ rest) off = z.
Proof.
  intros Hz ->. rewrite <- length_app, app_assoc. by apply u32_at_app.
Qed.

Lemma length_member_bytes m : length (member_bytes m) = 12%nat.
Proof. unfold member_bytes. by rewrite !length_app, !le_put_length. Qed.

Lemma length_param_bytes p : length (param_bytes p) = 8%nat.
Proof. unfold param_bytes. by rewrite !length_app, !le_put_length. Qed.

Lemma read_members_app pre ms rest :
  Forall member_ok ms ->
  read_members (length ms) (pre ++ concat (map member_bytes ms) ++ rest) (length pre)
    = Ok (ms, length (pre ++ concat (map member_bytes ms))).
Proof.
  revert pre. induction ms as [|m ms IH]; intros pre Hms; [by rewrite app_nil_r|].
  apply Forall_cons in Hms as [(Hn & Ht & Ho) Hms]. cbn [length map concat read_members].
  rewrite (proj2 (Nat.ltb_ge _ _)) by (rewrite !length_app, length_member_bytes; lia).
  replace (length pre + 12)%nat with (length (pre ++ member_bytes m)) by (rewrite length_app, length_member_bytes; lia).
  replace (pre ++ (member_bytes m ++ concat (map member_bytes ms)) ++ rest)
    with ((pre ++ member_bytes m) ++ concat (map member_bytes ms) ++ rest) by (by rewrite <- !app_assoc).
  rewrite IH by done. cbn [result_bind fst snd]. rewrite <- !app_assoc. do 3 f_equal.
  unfold member_bytes. rewrite <- !app_assoc, u32_at_app by done.
  rewrite (u32_at_later pre (le_put 4 _)) by (try done; by rewrite le_put_length).
  rewrite (app_assoc (le_put 4 (bm_name_off m))), (u32_at_later pre (_ ++ _)) by
    (try done; by rewrite length_app, !le_put_length).
  by destruct m.
Qed.

Lemma read_params_app pre ps rest :
  Forall param_ok ps ->
  read_params (length ps) (pre ++ concat (map param_bytes ps) ++ rest) (length pre)
    = Ok (ps, length (pre ++ concat (map param_bytes ps))).
Proof.
  revert pre. induction ps as [|p ps IH]; intros pre Hps; [by rewrite app_nil_r|].
  apply Forall_cons in Hps as [(Hn & Ht) Hps]. cbn [length map concat read_params].
  rewrite (proj2 (Nat.ltb_ge _ _)) by (rewrite !length_app, length_param_bytes; lia).
  replace (length pre + 8)%nat with (length (pre ++ param_bytes p)) by (rewrite length_app, length_param_bytes; lia).
  replace (pre ++ (param_bytes p ++ concat (map param_bytes ps)) ++ rest)
    with ((pre ++ param_bytes p) ++ concat (map param_bytes ps) ++ rest) by (by rewrite <- !app_assoc).
  rewrite IH by done. cbn [result_bind fst snd]. rewrite <- !app_assoc. do 3 f_equal.
  unfold param_bytes. rewrite <- !app_assoc, u32_at_app by done.
  rewrite (u32_at_later pre (le_put 4 _)) by (try done; by rewrite le_put_length).
  by destruct p.
Qed.

(** The kind and the count come out of the information word. *)
Lemma type_info_fields t :
  raw_type_ok t ->
  in_width 32 (type_info t) /\ Z.land (Z.shiftr (type_info t) 24) 0x1f = bt_kind (rt_entry t) /\
  Z.land (type_info t) 0xffff = bt_vlen (rt_entry t).
Proof.
  intros [_ Hk Hv _ _]. unfold in_width in *.
  change 0x1f with (Z.ones 5). change 0xffff with (Z.ones 16). rewrite !Z.land_ones, Z.shiftr_div_pow2 by lia.
  unfold type_info. destruct (rt_flag t); split_and!; try lia.
  - replace ((2 ^ 31 + bt_kind (rt_entry t) * 2 ^ 24 + bt_vlen (rt_entry t)) / 2 ^ 24)
      with (2 ^ 7 + bt_kind (rt_entry t)) by (apply Z.div_unique with (bt_vlen (rt_entry t)); lia).
    symmetry. apply Z.mod_unique with 4; lia.
  - symmetry. apply Z.mod_unique with (2 ^ 15 + bt_kind (rt_entry t) * 2 ^ 8); lia.
  - replace ((0 + bt_kind (rt_entry t) * 2 ^ 24 + bt_vlen (rt_entry t)) / 2 ^ 24)
      with (bt_kind (rt_entry t)) by (apply Z.div_unique with (bt_vlen (rt_entry t)); lia).
    apply Z.mod_small. lia.
  - symmetry. apply Z.mod_unique with (bt_kind (rt_entry t) * 2 ^ 8); lia.
Qed.

Lemma read_extra_app pre t rest :
  raw_type_ok t ->
  read_extra (bt_kind (rt_entry t)) (bt_vlen (rt_entry t)) (pre ++ extra_bytes t ++ rest) (length pre)
    = Ok (bt_extra (rt_entry t), length (pre ++ extra_bytes t)).
Proof.
  intros [_ Hk Hv _ He]. unfold extra_bytes in *. cbv zeta in He.
  destruct (rt_entry t) as [name kind vlen size extra];
    cbn [bt_name_off bt_kind bt_vlen bt_size_or_type bt_extra] in *. unfold in_width in *.
  destruct extra as [|ms|ps|data].
  - destruct He as [Hkind Hp]. rewrite length_app.
    assert (length (rt_payload t) = Z.to_nat (payload_size kind vlen)) as -> by (unfold zlen in Hp; lia).
    assert (kind ∈ [0;1;2;3;4;5;6;7;8;9;10;11;12;13;14;15;16;17;18;19;20;21;22;23;24;25;26;27;28;29;30;31]) as Hin.
    { rewrite !elem_of_cons. lia. }
    unfold payload_size.
    repeat (apply elem_of_cons in Hin as [-> | Hin]; [first
      [exfalso; apply Hkind; by apply (bool_decide_unpack _)|
       cbn -[Z.mul Z.to_nat Nat.add Nat.mul]; do 2 f_equal; lia]|]). by apply elem_of_nil in Hin.
  - destruct He as ([-> | ->] & Hlen & Hms); cbn; replace (Z.to_nat vlen) with (length ms) by (unfold zlen in Hlen; lia);
      by rewrite read_members_app.
  - destruct He as (-> & Hlen & Hps). cbn. replace (Z.to_nat vlen) with (length ps) by (unfold zlen in Hlen; lia).
    by rewrite read_params_app.
  - destruct He as (-> & Hd). unfold read_extra. cbn [Z.eqb BTF_KIND_INT Pos.eqb].
    rewrite (proj2 (Nat.ltb_ge _ _)) by (rewrite !length_app, le_put_length; lia).
    rewrite u32_at_app by done. by rewrite length_app, le_put_length.
Qed.

Lemma type_bytes_length t : (12 <= length (type_bytes t))%nat.
Proof. unfold type_bytes. rewrite !length_app, !le_put_length. lia. Qed.

Lemma parse_types_loop_app fuel pre ts :
  Forall raw_type_ok ts -> (length (concat (map type_bytes ts)) < fuel)%nat ->
  parse_types_loop fuel (pre ++ concat (map type_bytes ts)) (length pre) = Some (Ok (map rt_entry ts)).
Proof.
  revert pre fuel. induction ts as [|t ts IH]; intros pre fuel Hts Hf; (destruct fuel as [|fuel]; [lia|]);
    cbn [parse_types_loop map concat].
  { rewrite (proj2 (Nat.ltb_lt _ _)) by (rewrite app_nil_r; lia). done. }
  apply Forall_cons in Hts as [Ht Hts]. destruct (type_info_fields t Ht) as (Hi & Hk & Hv).
  pose proof (type_bytes_length t). cbn [map concat] in Hf. rewrite length_app in Hf.
  rewrite (proj2 (Nat.ltb_ge _ _)) by (rewrite !length_app; lia).
  pose proof Ht as [Hn _ _ Hs _]. set (rest := concat (map type_bytes ts)) in *.
  assert (forall a b c (tl : list byte), in_width 32 a -> in_width 32 b -> in_width 32 c ->
    let data := pre ++ (le_put 4 a ++ le_put 4 b ++ le_put 4 c ++ tl) ++ rest in
    u32_at data (length pre) = a /\ u32_at data (length pre + 4) = b /\ u32_at data (length pre + 8) = c) as Hw.
  { intros a b c tl Ha Hb Hc data. subst data. rewrite <- !app_assoc. split_and!.
    - by apply u32_at_app.
    - by apply (u32_at_later pre (le_put 4 a)); [|rewrite le_put_length].
    - rewrite (app_assoc (le_put 4 a)). by apply (u32_at_later pre); [|rewrite length_app, !le_put_length]. }
  destruct (Hw _ _ _ (extra_bytes t) Hn Hi Hs) as (E1 & E2 & E3). unfold type_bytes in *. rewrite E1, E2, E3, Hk, Hv.
  set (head := le_put 4 (bt_name_off (rt_entry t)) ++ le_put 4 (type_info t) ++ le_put 4 (bt_size_or_type (rt_entry t))) in *.
  assert (length head = 12%nat) as Hhead by (subst head; by rewrite !length_app, !le_put_length).
  replace (pre ++ (_ ++ _ ++ _ ++ extra_bytes t) ++ rest) with ((pre ++ head) ++ extra_bytes t ++ rest)
    by (subst head; by rewrite <- !app_assoc).
  replace (length pre + 12)%nat with (length (pre ++ head)) by (rewrite length_app; lia).
  rewrite read_extra_app by done. rewrite app_assoc. subst rest.
  rewrite IH; [|done|unfold type_bytes in *; lia]. by destruct t as [[] ? ?].
Qed.

(** C24: the parser reads the BTF format. For any list of types laid out as the format says, with
    any kind from 0 to 31, kind flag and payload, [parse_types] ends without an error and gives
    back exactly their entries, members and parameters, in order. *)
Theorem parse_types_roundtrip ts :
  Forall raw_type_ok ts -> parse_types (concat (map type_bytes ts)) = Some (Ok (map rt_entry ts)).
Proof. intros H. apply (parse_types_loop_app _ []); [done|lia]. Qed.

(* ------------------------------------------------------------------ *)
(** ** Members *)

(** [b] is looked at because of [a]: what a typedef or qualifier wraps, and the type of an
    anonymous member. *)
Definition refers (btf : BtfData) (a b : Z) : Prop :=
  exists ty, get_type btf a = Some ty /\
    ((is_modifier (bt_kind ty) = true /\ b = bt_size_or_type ty) \/
     exists ms m, bt_extra ty = ExMembers ms /\ m ∈ ms /\ string_at (btf_strings btf) (bm_name_off m) = "" /\
                  b = bm_type_id m).

(** No type contains itself: a rank below the number of types goes down along every reference. *)
Definition Acyclic (btf : BtfData) : Prop :=
  exists rank : Z -> nat, (forall a, (rank a <= length (btf_types btf))%nat) /\
                          (forall a b, refers btf a b -> (rank b < rank a)%nat).

(** Where the format (Documentation/bpf/btf.rst) puts a member. Under a clear kind flag the word of a
    member is its bit offset; under a set one the low twenty-four bits are, and the high eight are the
    width of a bitfield, zero for a member that is none. *)
Definition bit_offset (flag : bool) (m : BtfMember) : Z :=
  if flag then bm_offset_bits m mod 2 ^ 24 else bm_offset_bits m.
Definition bitfield_width (flag : bool) (m : BtfMember) : Z := if flag then bm_offset_bits m / 2 ^ 24 else 0.

(** A member that starts at a byte and is no bitfield. *)
Definition plain_member (flag : bool) (m : BtfMember) : bool :=
  (bitfield_width flag m =? 0) && (bit_offset flag m mod 8 =? 0).

(** The type behind an identifier, as the format lists it, with its kind flag. *)
Definition raw_at (ts : list RawType) (id : Z) : option RawType :=
  if id =? 0 then None else ts !! Z.to_nat (id - 1).

(** A field of a struct or union of the types [ts], directly or inside its anonymous members: its
    type, the bit it starts at, and whether every member on the way to it is plain. *)
Inductive member_at (btf : BtfData) (ts : list RawType) : Z -> string -> Z -> Z -> bool -> Prop :=
| ma_direct id field r ms m :
    raw_at ts (resolve_through_modifiers btf id) = Some r -> bt_extra (rt_entry r) = ExMembers ms -> m ∈ ms ->
    string_at (btf_strings btf) (bm_name_off m) = field ->
    member_at btf ts id field (bm_type_id m) (bit_offset (rt_flag r) m) (plain_member (rt_flag r) m)
| ma_anonymous id field r ms m t bits plain :
    raw_at ts (resolve_through_modifiers btf id) = Some r -> bt_extra (rt_entry r) = ExMembers ms -> m ∈ ms ->
    string_at (btf_strings btf) (bm_name_off m) = "" -> member_at btf ts (bm_type_id m) field t bits plain ->
    member_at btf ts id field t (bit_offset (rt_flag r) m + bits) (plain_member (rt_flag r) m && plain).
#[export] Hint Constructors member_at : jalki.

(** A dotted path of fields, from bit [base] on. *)
Inductive path_at (btf : BtfData) (ts : list RawType) : Z -> list string -> Z -> Z -> Z -> bool -> Prop :=
| pa_last id field t bits plain base :
    member_at btf ts id field t bits plain -> path_at btf ts id [field] base t (base + bits) plain
| pa_cons id field path t bits plain base t' bits' plain' :
    member_at btf ts id field t bits plain -> path_at btf ts t path (base + bits) t' bits' plain' ->
    path_at btf ts id (field :: path) base t' bits' (plain && plain').
#[export] Hint Constructors path_at : jalki.

(** The size the format gives a type, in bytes, and whether it can be told from its bits: an integer
    carries its size and its bits, which differ for the integers of old-style bitfields. A pointer
    has eight bytes; typedefs and qualifiers have the size of what they wrap. *)
Inductive leaf_size (ts : list RawType) : Z -> Z -> bool -> Prop :=
| ls_int id r data :
    raw_at ts id = Some r -> bt_kind (rt_entry r) = BTF_KIND_INT -> bt_extra (rt_entry r) = ExIntData data ->
    leaf_size ts id (bt_size_or_type (rt_entry r)) (Z.land data 0xff =? 8 * bt_size_or_type (rt_entry r))
| ls_sized id r :
    raw_at ts id = Some r ->
    bt_kind (rt_entry r) ∈ [BTF_KIND_STRUCT; BTF_KIND_UNION; BTF_KIND_ENUM; BTF_KIND_ENUM64; 16] ->
    leaf_size ts id (bt_size_or_type (rt_entry r)) true
| ls_pointer id r : raw_at ts id = Some r -> bt_kind (rt_entry r) = BTF_KIND_PTR -> leaf_size ts id 8 true
| ls_modifier id r size whole :
    raw_at ts id = Some r -> is_modifier (bt_kind (rt_entry r)) = true ->
    leaf_size ts (bt_size_or_type (rt_entry r)) size whole -> leaf_size ts id size whole.
#[export] Hint Constructors leaf_size : jalki.

(** The byte offset [o] of the code is the one of the bit offset, in 32 bits. *)
Definition offset_agrees (plain : bool) (bits o : Z) : Prop :=
  plain = true -> bits mod 8 = 0 /\ 0 <= bits /\ o = wrap 32 (bits / 8).

Lemma plain_offset flag m :
  in_width 32 (bm_offset_bits m) -> offset_agrees (plain_member flag m) (bit_offset flag m) (bm_offset_bits m / 8).
Proof.
  unfold offset_agrees, plain_member, bit_offset, bitfield_width, wrap, in_width.
  intros Hw [Hz%Z.eqb_eq H8%Z.eqb_eq]%andb_prop.
  assert (bm_offset_bits m / 8 = (bm_offset_bits m / 8) mod 2 ^ 32) as E.
  { symmetry. apply Z.mod_small. split; [apply Z.div_pos; lia|]. apply Z.div_lt_upper_bound; lia. }
  destruct flag; [|split_and!; [done|lia|done]].
  assert (bm_offset_bits m < 2 ^ 24) as Hs by (apply Z.div_small_iff in Hz; [|done]; lia).
  rewrite (Z.mod_small (bm_offset_bits m) (2 ^ 24)) in * by lia. split_and!; [done|lia|done].
Qed.

Lemma offsets_add p1 p2 b1 b2 o1 o2 :
  offset_agrees p1 b1 o1 -> offset_agrees p2 b2 o2 -> offset_agrees (p1 && p2) (b1 + b2) (add32 o1 o2).
Proof.
  intros H1 H2 [E1 E2]%andb_prop. destruct (H1 E1) as (M1 & P1 & ->), (H2 E2) as (M2 & P2 & ->).
  apply Z.mod_divide in M1 as [k1 ->], M2 as [k2 ->]; [|done..].
  rewrite <- Z.mul_add_distr_r, !Z.div_mul, Z.mod_mul by done. split_and!; [done|lia|].
  unfold add32, wrap. symmetry. apply Zplus_mod.
Qed.

Lemma find_first_member strings field ms m :
  find_first (fun m => bool_decide (string_at strings (bm_name_off m) = field)) ms = Some m ->
  m ∈ ms /\ string_at strings (bm_name_off m) = field.
Proof. intros [Hin Hb]%find_first_Some. by apply bool_decide_eq_true in Hb. Qed.

Section members.
Variable btf : BtfData.
Variable ts : list RawType.
Hypothesis types_are : btf_types btf = map rt_entry ts.
Hypothesis types_ok : Forall raw_type_ok ts.

Lemma get_type_raw id ty :
  get_type btf id = Some ty -> exists r, raw_at ts id = Some r /\ rt_entry r = ty /\ raw_type_ok r.
Proof.
  unfold get_type, raw_at. destruct (id =? 0); [done|]. rewrite types_are. intros H.
  apply list_lookup_fmap_Some in H as (r & -> & Hr). exists r. split_and!; [done..|]. by eapply Forall_lookup.
Qed.

Lemma raw_get_type id r : raw_at ts id = Some r -> get_type btf id = Some (rt_entry r).
Proof.
  unfold get_type, raw_at. destruct (id =? 0); [done|]. rewrite types_are. intros H.
  apply list_lookup_fmap_Some. by exists r.
Qed.

Lemma raw_int_data r : raw_type_ok r -> bt_kind (rt_entry r) = BTF_KIND_INT -> exists data, bt_extra (rt_entry r) = ExIntData data.
Proof.
  intros [_ _ _ _ H] Hk. rewrite Hk in H. destruct (bt_extra (rt_entry r)) as [|ms|ps|d]; [|by destruct H as [[]]|by destruct H|by eexists].
  destruct H as [H _]. by apply not_elem_of_cons in H as [H _].
Qed.

Lemma type_size_sound fuel id size :
  type_size fuel btf id = Some size -> size <> 0 ->
  exists size' whole, leaf_size ts id size' whole /\ (whole = true -> size = size').
Proof.
  revert id. induction fuel as [|fuel IH]; intros id; cbn [type_size]; [done|].
  destruct (get_type btf id) as [ty|] eqn:Hty; [|by intros [= <-]]. destruct (get_type_raw _ _ Hty) as (r & Hr & <- & Hok).
  destruct (Z.eqb_spec (bt_kind (rt_entry r)) BTF_KIND_INT) as [Hk|_].
  { destruct (raw_int_data r Hok Hk) as [data Hd]. rewrite Hd. intros [= <-] _. eexists _, _. split; [by eapply ls_int|].
    intros Hw%Z.eqb_eq. rewrite Hw, Z.mul_comm. by apply Z.div_mul. }
  destruct (_ || _) eqn:Hk.
  { intros [= <-] _. eexists _, true. split; [eapply ls_sized; [done|]|done]. rewrite !orb_true_iff, !Z.eqb_eq in Hk.
    rewrite !elem_of_cons. tauto. }
  destruct (Z.eqb_spec (bt_kind (rt_entry r)) BTF_KIND_PTR) as [Hp|_]; [intros [= <-] _; eexists _, true; split; [by eapply ls_pointer|done]|].
  destruct (is_modifier (bt_kind (rt_entry r))) eqn:Hm.
  { intros H Hne. destruct (IH _ H Hne) as (size' & whole & Hl & Hw). eexists _, _. split; [by eapply ls_modifier|done]. }
  destruct (Z.eqb_spec (bt_kind (rt_entry r)) 16) as [Hf|_]; [|by intros [= <-]].
  intros [= <-] _. eexists _, true. split; [eapply ls_sized; [done|]|done]. rewrite Hf. apply (bool_decide_unpack _). by vm_compute.
Qed.

Lemma raw_member_width r ms m : raw_type_ok r -> bt_extra (rt_entry r) = ExMembers ms -> m ∈ ms -> in_width 32 (bm_offset_bits m).
Proof.
  intros [_ _ _ _ H] Hex Hin. rewrite Hex in H. destruct H as (_ & _ & Hms). rewrite Forall_forall in Hms.
  by destruct (Hms m Hin) as (_ & _ & ?).
Qed.

Lemma in_anonymous_sound find strings none ms t o :
  in_anonymous find strings none ms = Some (Ok (t, o)) ->
  exists m o', m ∈ ms /\ string_at strings (bm_name_off m) = "" /\
               find (bm_type_id m) = Some (Ok (t, o')) /\ o = add32 (bm_offset_bits m / 8) o'.
Proof.
  induction ms as [|m ms IH]; cbn; [done|]. case_bool_decide as Hm.
  - destruct (find (bm_type_id m)) as [[[t' o']|e]|] eqn:Hf; cbn; [|intros H|done].
    + intros [= <- <-]. exists m, o'. split_and!; [by left|done..].
    + destruct (IH H) as (m' & o' & Hin & H'). exists m', o'. split; [by right|done].
  - intros H. destruct (IH H) as (m' & o' & Hin & H'). exists m', o'. split; [by right|done].
Qed.

Lemma in_anonymous_complete find strings none ms e :
  in_anonymous find strings none ms = Some (Err e) ->
  forall m, m ∈ ms -> string_at strings (bm_name_off m) = "" -> exists e', find (bm_type_id m) = Some (Err e').
Proof.
  induction ms as [|m ms IH]; cbn; [by intros _ m Hm%elem_of_nil|]. case_bool_decide as Hm.
  - destruct (find (bm_type_id m)) as [[[t' o']|e']|] eqn:Hf; cbn; [done| |done].
    intros H m' [->|Hin]%elem_of_cons Hn; [by eexists|by apply IH].
  - intros H m' [->|Hin]%elem_of_cons Hn; [done|by apply IH].
Qed.

Lemma find_member_sound fuel id field t o :
  find_member fuel btf id field = Some (Ok (t, o)) ->
  exists bits plain, member_at btf ts id field t bits plain /\ offset_agrees plain bits o.
Proof.
  revert id t o. induction fuel as [|fuel IH]; intros id t o; cbn [find_member]; [done|].
  destruct (get_type btf (resolve_through_modifiers btf id)) as [ty|] eqn:Hty; [|done].
  destruct (get_type_raw _ _ Hty) as (r & Hr & <- & Hok).
  destruct (bt_extra (rt_entry r)) as [|ms|ps|d] eqn:Hex; try done.
  destruct (find_first _ ms) as [m|] eqn:Hf.
  - intros [= <- <-]. destruct (find_first_member _ _ _ _ Hf) as [Hin Hn].
    eexists _, _. split; [by eapply ma_direct|]. by eapply plain_offset, raw_member_width.
  - intros H. destruct (in_anonymous_sound _ _ _ _ _ _ H) as (m & o' & Hin & Hn & Hm & ->).
    destruct (IH _ _ _ Hm) as (bits & plain & Hat & Hag). eexists _, _. split; [by eapply ma_anonymous|].
    apply offsets_add; [|done]. by eapply plain_offset, raw_member_width.
Qed.

Lemma find_member_complete fuel id field e t bits plain :
  find_member fuel btf id field = Some (Err e) -> ~ member_at btf ts id field t bits plain.
Proof.
  intros He Hm. revert fuel e He.
  induction Hm as [id field r ms m Hr Hex Hin Hn|id field r ms m t bits plain Hr Hex Hin Hn Hm IH];
    intros [|fuel] e; cbn [find_member]; try done; rewrite (raw_get_type _ _ Hr), Hex;
    (destruct (find_first _ ms) as [m'|] eqn:Hf; [done|]).
  - pose proof (find_first_None _ _ Hf m Hin) as Hb. cbn in Hb. by rewrite bool_decide_true in Hb.
  - intros H. destruct (in_anonymous_complete _ _ _ _ _ H m Hin Hn) as [e' He']. by eapply IH.
Qed.

(** Ranks: following modifiers does not go up. *)
Section ranked.
Variable rank : Z -> nat.
Hypothesis rank_refers : forall a b, refers btf a b -> (rank b < rank a)%nat.

Lemma through_modifiers_rank n id : (rank (through_modifiers n btf id) <= rank id)%nat.
Proof.
  revert id. induction n as [|n IH]; intros id; cbn; [done|].
  destruct (get_type btf id) as [ty|] eqn:Hty; [|done]. destruct (is_modifier (bt_kind ty)) eqn:Hm; [|done].
  assert (refers btf id (bt_size_or_type ty)) as Hr by (exists ty; auto).
  pose proof (rank_refers _ _ Hr). specialize (IH (bt_size_or_type ty)). lia.
Qed.

Lemma type_size_ends fuel id : (rank id < fuel)%nat -> is_Some (type_size fuel btf id).
Proof.
  revert id. induction fuel as [|fuel IH]; intros id Hf; [lia|]. cbn.
  destruct (get_type btf id) as [ty|] eqn:Hty; [|by eexists].
  repeat (match goal with |- is_Some (if ?b then _ else _) => destruct b eqn:? end; try by eexists).
  apply IH. assert (refers btf id (bt_size_or_type ty)) as Hr by (exists ty; auto). specialize (rank_refers _ _ Hr). lia.
Qed.

Lemma find_member_ends fuel id field : (rank id < fuel)%nat -> is_Some (find_member fuel btf id field).
Proof.
  revert id. induction fuel as [|fuel IH]; intros id Hf; [lia|]. cbn [find_member].
  destruct (get_type btf (resolve_through_modifiers btf id)) as [ty|] eqn:Hty; [|by eexists].
  destruct (bt_extra ty) as [|ms|ps|d] eqn:Hex; try by eexists.
  destruct (find_first _ ms); [by eexists|].
  assert (forall m, m ∈ ms -> string_at (btf_strings btf) (bm_name_off m) = "" ->
            is_Some (find_member fuel btf (bm_type_id m) field)) as Hms.
  { intros m Hin Hn. apply IH. pose proof (through_modifiers_rank 32 id).
    assert (refers btf (resolve_through_modifiers btf id) (bm_type_id m)) as Hr by (exists ty; split; [done|right; by exists ms, m]).
    specialize (rank_refers _ _ Hr). unfold resolve_through_modifiers in *. lia. }
  clear Hex. induction ms as [|m ms IHms]; cbn; [by eexists|]. case_bool_decide as Hn.
  - destruct (Hms m ltac:(by left) Hn) as [[[t o]|e] ->]; cbn; [by eexists|]. apply IHms. intros. by apply Hms; [right|].
  - apply IHms. intros. by apply Hms; [right|].
Qed.
End ranked.

Lemma find_member_total id field : Acyclic btf -> is_Some (find_member (type_fuel btf) btf id field).
Proof. intros (rank & Hb & Hr). apply (find_member_ends rank Hr). specialize (Hb id). unfold type_fuel. lia. Qed.

Lemma type_size_total id : Acyclic btf -> is_Some (type_size (type_fuel btf) btf id).
Proof. intros (rank & Hb & Hr). apply (type_size_ends rank Hr). specialize (Hb id). unfold type_fuel. lia. Qed.

Lemma resolve_parts_total path parts id base : Acyclic btf -> is_Some (resolve_parts btf path parts id base).
Proof.
  intros Ha. revert id base. induction parts as [|part parts IH]; intros id base; cbn; [by eexists|].
  destruct (find_member_total id part Ha) as [[[t o]|e] ->]; cbn; [|by eexists].
  destruct parts; [|apply IH]. destruct (type_size_total t Ha) as [size ->]. by eexists.
Qed.

Lemma resolve_parts_sound path parts id base bbits bplain r :
  resolve_parts btf path parts id base = Some (Ok r) -> offset_agrees bplain bbits base ->
  exists t bits plain, path_at btf ts id parts bbits t bits plain /\
    offset_agrees (bplain && plain) bits (rf_offset_bytes r) /\
    type_size (type_fuel btf) btf t = Some (rf_size r) /\
    size_to_field_type (rf_size r) = Ok (rf_field_type r) /\ rf_name r = path.
Proof.
  revert id base bbits bplain. induction parts as [|part parts IH]; intros id base bbits bplain; cbn; [done|].
  destruct (find_member (type_fuel btf) btf id part) as [[[t o]|e]|] eqn:Hf; cbn; try done.
  destruct (find_member_sound _ _ _ _ _ Hf) as (bits & plain & Hm & Hag). intros H Hb.
  pose proof (offsets_add _ _ _ _ _ _ Hb Hag) as Hsum. destruct parts as [|part' parts].
  - destruct (type_size (type_fuel btf) btf t) as [size|] eqn:Hs; cbn in H; [|done].
    destruct (size_to_field_type size) as [ft|e] eqn:Hft; cbn in H; [|done].
    injection H as <-. eexists t, _, _. split; [by constructor|done].
  - destruct (IH _ _ _ _ H Hsum) as (t' & bits' & plain' & Hp & Hag' & H'). eexists t', _, _.
    split; [by econstructor|]. by rewrite andb_assoc.
Qed.

Lemma resolve_parts_size path parts id base r :
  resolve_parts btf path parts id base = Some (Ok r) -> size_to_field_type (rf_size r) = Ok (rf_field_type r).
Proof.
  revert id base. induction parts as [|part parts IH]; intros id base; cbn; [done|].
  destruct (find_member (type_fuel btf) btf id part) as [[[t o]|e]|]; cbn; try done. destruct parts as [|part' parts]; [|apply IH].
  destruct (type_size (type_fuel btf) btf t) as [size|]; cbn; [|done].
  destruct (size_to_field_type size) as [ft|e] eqn:Hft; cbn; [|done]. by intros [= <-].
Qed.

(** Where the resolution stops: at a part the type reached so far does not have, or at a leaf
    that is not a scalar. *)
Lemma resolve_parts_complete path parts id base bbits e :
  resolve_parts btf path parts id base = Some (Err e) -> parts <> [] ->
  (exists before part after id',
     parts = before ++ part :: after /\
     (before = [] /\ id' = id \/ exists bits plain, path_at btf ts id before bbits id' bits plain) /\
     forall t bits plain, ~ member_at btf ts id' part t bits plain) \/
  exists t bits plain size, path_at btf ts id parts bbits t bits plain /\
    type_size (type_fuel btf) btf t = Some size /\ size ∉ [1; 2; 4; 8].
Proof.
  revert id base bbits. induction parts as [|part parts IH]; intros id base bbits; cbn [resolve_parts]; [done|]. intros H _.
  destruct (find_member (type_fuel btf) btf id part) as [[[t o]|e']|] eqn:Hf; cbn in H; try done.
  - destruct (find_member_sound _ _ _ _ _ Hf) as (bits & plain & Hm & _). destruct parts as [|part' parts].
    + destruct (type_size (type_fuel btf) btf t) as [size|] eqn:Hs; cbn in H; [|done].
      right. exists t, (bbits + bits), plain, size. split_and!; [by constructor|done|].
      unfold size_to_field_type in H. rewrite !elem_of_cons, elem_of_nil.
      destruct (Z.eqb_spec size 1), (Z.eqb_spec size 2), (Z.eqb_spec size 4), (Z.eqb_spec size 8); done || lia.
    + destruct (IH _ _ (bbits + bits) H ltac:(done))
        as [(before & part0 & after & id' & E & Hb & Hno)|(t' & bits' & plain' & size & Hp & Hs)].
      * left. exists (part :: before), part0, after, id'. split; [by rewrite E|]. split; [|done]. right.
        destruct Hb as [[-> ->] | (bits' & plain' & Hp)]; eexists _, _; [by constructor|by econstructor].
      * right. eexists t', _, _, size. split; [by econstructor|done].
  - left. exists [], part, parts, id. split; [done|]. split; [by left|]. intros t bits plain. by eapply find_member_complete.
Qed.
End members.

(** C25: field resolution follows the format. In BTF without cyclic types, whose entries are those
    of types the format allows, it always ends. A resolved field has the size the format gives the
    type its path ends in, an integer with fewer bits than bytes apart, and a field type of that
    size; and when no member on the path, through anonymous structs and unions, is a bitfield and
    all start at a byte, its offset is the bit offset the format gives the path, in bytes (the
    struct's kind flag decides what the format's word means; the sum is below [2 ^ 32] bytes). Of a
    path with a bitfield nothing is said of the offset: see [bitfields_resolve_elsewhere]. An error
    means that some part of the path names no field of the type reached, or that the size
    found for the leaf is not 1, 2, 4 or 8. *)
Theorem resolve_field_offset_correct btf ts id path :
  btf_types btf = map rt_entry ts -> Forall raw_type_ok ts -> Acyclic btf ->
  exists res, resolve_field_offset btf id path = Some res /\
    let parts := split_char "." path in
    match res with
    | Ok r => exists t bits plain, path_at btf ts id parts 0 t bits plain /\
                (plain = true -> bits < 8 * 2 ^ 32 -> 8 * rf_offset_bytes r = bits) /\
                (exists size whole, leaf_size ts t size whole /\ (whole = true -> rf_size r = size)) /\
                field_type_size (rf_field_type r) = rf_size r /\ rf_name r = path
    | Err _ =>
        (exists before part after id',
           parts = before ++ part :: after /\
           (before = [] /\ id' = id \/ exists bits plain, path_at btf ts id before 0 id' bits plain) /\
           forall t bits plain, ~ member_at btf ts id' part t bits plain) \/
        (exists t bits plain size, path_at btf ts id parts 0 t bits plain /\
           type_size (type_fuel btf) btf t = Some size /\ size ∉ [1; 2; 4; 8])
    end.
Proof.
  intros Hts Hok Ha. destruct (resolve_parts_total btf path (split_char "." path) id 0 Ha) as [res Hres].
  exists res. split; [done|]. destruct res as [r|e].
  - destruct (resolve_parts_sound btf ts Hts Hok path _ _ _ 0 true _ Hres ltac:(done)) as (t & bits & plain & Hp & Hag & H).
    destruct H as (Hsize & Hft & Hname).
    assert (field_type_size (rf_field_type r) = rf_size r /\ rf_size r <> 0) as [Efs Hne].
    { revert Hft. unfold size_to_field_type. generalize (rf_size r) (rf_field_type r). intros size ft.
      repeat case_match; intros [= <-]; cbn; lia. }
    exists t, bits, plain. split; [done|]. split; [|split; [by eapply type_size_sound|done]].
    intros Hpl Hlt. destruct (Hag Hpl) as (H8 & H0 & ->).
    apply Z.mod_divide in H8 as [k ->]; [|done]. unfold wrap. rewrite Z.div_mul, Z.mod_small; lia.
  - apply (resolve_parts_complete btf ts Hts Hok path _ _ _ 0 e Hres), split_char_nonempty.
Qed.

(* ------------------------------------------------------------------ *)
(** ** A small kernel

    [struct sock_common { u32 daddr; u16 dport; u16 num; }],
    [struct sock { struct { struct sock_common common; }; u64 flags : 1; u64 mark : 7; u8 tag; }] and
    [int tcp_connect(struct sock *sk, u64 cookie)]; the struct with bitfields has the kind flag. *)

Definition w_names : list string :=
  [""; "u32"; "u16"; "u8"; "u64"; "sock_common"; "daddr"; "dport"; "num"; "sock"; "common"; "flags"; "mark"; "tag";
   "tcp_connect"; "sk"; "cookie"; "sock_t"].
Definition w_strings : list byte := concat (map (fun s => bytes_of s ++ [x00]) w_names).
Definition w_name (s : string) : Z :=
  zlen (concat (map (fun s => bytes_of s ++ [x00]) (take (default 0%nat (position (fun n => bool_decide (n = s)) w_names)) w_names))).
Definition w_int (name : string) (bits : Z) : RawType :=
  mkRawType (mkBtfTypeEntry (w_name name) BTF_KIND_INT 0 (bits / 8) (ExIntData bits)) false [].
Definition w_struct (flag : bool) (name : string) (size : Z) (ms : list BtfMember) : RawType :=
  mkRawType (mkBtfTypeEntry (w_name name) BTF_KIND_STRUCT (zlen ms) size (ExMembers ms)) flag [].
Definition w_member (name : string) (type bits : Z) : BtfMember := mkBtfMember (w_name name) type bits.

Definition w_types : list RawType :=
  [ w_int "u32" 32; w_int "u16" 16; w_int "u8" 8; w_int "u64" 64;
    (* 5 *) w_struct false "sock_common" 8 [w_member "daddr" 1 0; w_member "dport" 2 32; w_member "num" 2 48];
    (* 6 *) w_struct false "" 8 [w_member "common" 5 0];
    (* 7 *) w_struct true "sock" 24
              [w_member "" 6 0; w_member "flags" 4 (1 * 2 ^ 24 + 64); w_member "mark" 4 (7 * 2 ^ 24 + 65); w_member "tag" 3 128];
    (* 8 *) mkRawType (mkBtfTypeEntry (w_name "sock_t") BTF_KIND_TYPEDEF 0 7 ExNone) false [];
    (* 9 *) mkRawType (mkBtfTypeEntry 0 BTF_KIND_PTR 0 8 ExNone) false [];
    (* 10 *) mkRawType (mkBtfTypeEntry 0 BTF_KIND_FUNC_PROTO 2 1
              (ExParams [mkBtfParam (w_name "sk") 9; mkBtfParam (w_name "cookie") 4])) false [];
    (* 11 *) mkRawType (mkBtfTypeEntry (w_name "tcp_connect") BTF_KIND_FUNC 1 10 ExNone) false [] ].

(** The image: the header, the types, the strings. *)
Definition w_image : list byte :=
  let types := concat (map type_bytes w_types) in
  le_put 2 BTF_MAGIC ++ [x01; x00] ++ le_put 4 24 ++ le_put 4 0 ++ le_put 4 (zlen types) ++
  le_put 4 (zlen types) ++ le_put 4 (zlen w_strings) ++ types ++ w_strings.

Definition w_btf : BtfData := Eval vm_compute in
  match parse w_image with Some (Ok btf) => btf | _ => mkBtfData [] [] ∅ ∅ end.

Lemma parse_types_roundtrip_witness :
  parse_types (concat (map type_bytes w_types)) = Some (Ok (map rt_entry w_types)).
Proof.
  apply parse_types_roundtrip. apply (bool_decide_unpack (Forall raw_type_ok w_types)). by vm_compute.
Defined.

(** The rank of the example: what a type contains comes before it. *)
Lemma w_btf_acyclic : Acyclic w_btf.
Proof.
  exists (fun a => if a =? 8 then 3%nat else if a =? 7 then 2%nat else if a =? 6 then 1%nat else 0%nat). split.
  - intros a. cbn [w_btf btf_types length]. repeat (destruct (Z.eqb _ _); [lia|]). lia.
  - intros a b (ty & Hty & H). unfold get_type in Hty. destruct (Z.eqb_spec a 0); [done|]. cbn [w_btf btf_types] in Hty.
    assert (Z.to_nat (a - 1) < 11)%nat as Hlt by (apply lookup_lt_Some in Hty; exact Hty).
    assert (a <= 0 \/ a ∈ [1;2;3;4;5;6;7;8;9;10;11]) as [Ha|Ha] by (rewrite !elem_of_cons; lia).
    { replace (Z.to_nat (a - 1)) with 0%nat in Hty by lia. injection Hty as <-.
      destruct H as [[Hk _]|(ms & m & Hms & _)]; done. }
    clear Hlt. repeat (apply elem_of_cons in Ha as [-> | Ha]; [injection Hty as <-;
      (destruct H as [[Hk ->]|(ms & m & Hms & Hin & Hn & ->)]; [try done; cbn; lia|]);
      try done; injection Hms as <-; rewrite !elem_of_cons in Hin; cbn;
      repeat (destruct Hin as [-> | Hin]; [try (by vm_compute in Hn); cbn; lia|]); by apply elem_of_nil in Hin|]).
    by apply elem_of_nil in Ha.
Qed.

Lemma resolve_field_offset_correct_witness :
  exists r, resolve_field_offset w_btf 8 "common.num" = Some (Ok r) /\ rf_offset_bytes r = 6 /\ rf_size r = 2.
Proof.
  destruct (resolve_field_offset_correct w_btf w_types 8 "common.num") as (res & Hres & _);
    [by vm_compute|apply (bool_decide_unpack (Forall raw_type_ok w_types)); by vm_compute|apply w_btf_acyclic|].
  exists (mkResolvedField "common.num" 6 2 FtU16). split_and!; [|done..].
  rewrite Hres. assert (resolve_field_offset w_btf 8 "common.num" = Some (Ok (mkResolvedField "common.num" 6 2 FtU16))) as E
    by (by vm_compute). by rewrite <- Hres, E.
Defined.

(** The format puts the example's path at bit forty-eight, all of it plain members. *)
Example w_path_plain : path_at w_btf w_types 8 ["common"; "num"] 0 2 48 true.
Proof.
  assert (member_at w_btf w_types 6 "common" 5 0 true) as Hc
    by (apply (ma_direct w_btf w_types 6 "common" (w_struct false "" 8 [w_member "common" 5 0]) [w_member "common" 5 0] (w_member "common" 5 0));
        [by vm_compute|done|by left|by vm_compute]).
  assert (member_at w_btf w_types 5 "num" 2 48 true) as Hn.
  { set (ms := [w_member "daddr" 1 0; w_member "dport" 2 32; w_member "num" 2 48]).
    apply (ma_direct w_btf w_types 5 "num" (w_struct false "sock_common" 8 ms) ms (w_member "num" 2 48));
      [by vm_compute|done|by right; right; left|by vm_compute]. }
  apply (pa_cons _ _ 8 "common" ["num"] 5 0 true 0 2 48 true); [|by apply (pa_last _ _ _ _ _ 48)].
  set (ms := [w_member "" 6 0; w_member "flags" 4 (1 * 2 ^ 24 + 64); w_member "mark" 4 (7 * 2 ^ 24 + 65); w_member "tag" 3 128]).
  apply (ma_anonymous w_btf w_types 8 "common" (w_struct true "sock" 24 ms) ms (w_member "" 6 0) 5 0 true);
    [by vm_compute|done|by left|by vm_compute|exact Hc].
Qed.

(** The parser drops the kind flag, under which the top eight bits of a member's offset are the
    width of a bitfield: [sock_t.mark], seven bits of the byte at offset 8, resolves to an offset
    of 14 MiB, and nothing reports it. *)
Theorem bitfields_resolve_elsewhere :
  resolve_field_offset w_btf 8 "tag" = Some (Ok (mkResolvedField "tag" 16 1 FtU8)) /\
  resolve_field_offset w_btf 8 "mark" = Some (Ok (mkResolvedField "mark" 14680072 8 FtU64)).
Proof. by vm_compute. Qed.
