(* ===== verification/Codegen.v ===== *)
(** The probe generator ([jalki-codegen/src/program.rs], [elf.rs], [lib.rs]): from a probe's
    specification and the kernel's BTF to a BPF program, the layout of the events it writes, and
    the object file the loader is given.

    Kernel function names are ASCII. The [object] crate's writer is a parameter, as is whether it
    takes a relocation; what the code hands it is an [ElfObject]. *)
From Stdlib Require Import Strings.Byte.
From S2P Require Import Prelude Text Bpf Btf.

(* ------------------------------------------------------------------ *)
(** ** Planning the event *)

Definition MAX_STACK : Z := 512.
Definition MAP_IDX_PID_FILTER : nat := 0.
Definition MAP_IDX_RINGBUF : nat := 1.
Definition MAP_IDX_RINGBUF_DROPS : nat := 2.

Record FieldLayout := mkFieldLayout { fl_name : string; fl_offset : Z; fl_size : Z; fl_field_type : FieldType }.

Inductive AttachType := AtFentry | AtFexit.
#[export] Instance AttachType_eq_dec : EqDecision AttachType.
Proof. solve_decision. Defined.

Record ProbeSpec := mkProbeSpec {
  sp_function : string;
  sp_attachment : AttachType;
  sp_fields : list string;
  sp_event_type : string
}.

Record GeneratedProgram := mkGeneratedProgram {
  gp_instructions : list BpfInsn;
  gp_relocations : list (nat * nat);
  gp_field_layout : list FieldLayout;
  gp_event_size : Z;
  gp_map_name : string
}.

(** [FieldRead] *)
Inductive FieldRead :=
| FrComm (event_offset : Z)
| FrReturnValue (event_offset arg_index : Z)
| FrDirectArg (event_offset arg_index size : Z)
| FrProbeReadKernel (event_offset arg_index struct_offset size : Z) (field_type : FieldType).

(** The variables of the planning loop. *)
Record Plan := mkPlan { pl_layout : list FieldLayout; pl_reads : list FieldRead; pl_offset : Z }.

Definition header_plan : Plan :=
  mkPlan [mkFieldLayout "timestamp_ns" 0 8 FtU64; mkFieldLayout "pid" 8 4 FtU32; mkFieldLayout "tid" 12 4 FtU32] [] 16.

(** One more field of [size] bytes. *)
Definition add_field (p : Plan) (name : string) (size : Z) (ft : FieldType) (read : FieldRead) : Plan :=
  mkPlan (pl_layout p ++ [mkFieldLayout name (pl_offset p) size ft]) (pl_reads p ++ [read]) (pl_offset p + size).

(** One turn of the loop over [spec.fields]; the outer [None] is a BTF recursion without end. *)
Definition plan_field (spec : ProbeSpec) (btf : BtfData) (sig : FunctionSignature) (p : Plan) (field_name : string)
  : option (result CodegenError Plan) :=
  let offset := pl_offset p in
  if bool_decide (field_name ∈ ["pid"; "tid"; "timestamp_ns"]) then Some (Ok p)
  else if bool_decide (field_name = "comm") then
    Some (Ok (add_field p "comm" 16 FtU8 (FrComm offset)))
  else if bool_decide (field_name = "ret") then
    if negb (bool_decide (sp_attachment spec = AtFexit))
    then Some (Err (BtfType "ret is only available for fexit probes"))
    else Some (Ok (add_field p "ret" 4 FtI32 (FrReturnValue offset (wrap 32 (zlen (fs_params sig))))))
  else
    let '(param_name, field_path) := match split_once "." field_name with
                                     | Some (p, f) => (p, Some f)
                                     | None => (field_name, None)
                                     end in
    match position (fun q => bool_decide (fp_name q = param_name)) (fs_params sig) with
    | None => Some (Err (FieldNotFound (sp_function spec) param_name))
    | Some i =>
        let param_idx := wrap 32 (Z.of_nat i) in
        match fs_params sig !! i with
        | None => None
        | Some param =>
            match field_path with
            | Some path =>
                match pointer_pointee btf (fp_type_id param) with
                | PkStruct _ struct_type_id =>
                    resolved ← resolve_field_offset btf struct_type_id path;
                    Some (r <-? resolved ;;
                          Ok (add_field p field_name (rf_size r) (rf_field_type r)
                                (FrProbeReadKernel offset param_idx (rf_offset_bytes r) (rf_size r) (rf_field_type r))))
                | PkOther => Some (Err (BtfType ("param '" +:+ param_name +:+ "' is not a pointer to struct")))
                end
            | None =>
                size ← type_size (type_fuel btf) btf (fp_type_id param);
                if bool_decide (size ∈ [1; 2; 4; 8]) then
                  let ft := if size =? 1 then FtU8 else if size =? 2 then FtU16 else if size =? 4 then FtU32 else FtU64 in
                  Some (Ok (add_field p field_name size ft (FrDirectArg offset param_idx size)))
                else Some (Err (UnsupportedType ("param " +:+ param_name +:+ " has unsupported size " +:+ dec size)))
            end
        end
    end.

Fixpoint plan_fields (spec : ProbeSpec) (btf : BtfData) (sig : FunctionSignature) (fields : list string) (p : Plan)
  : option (result CodegenError Plan) :=
  match fields with
  | [] => Some (Ok p)
  | f :: rest =>
      planned ← plan_field spec btf sig p f;
      match planned with
      | Ok p => plan_fields spec btf sig rest p
      | Err e => Some (Err e)
      end
  end.

(* ------------------------------------------------------------------ *)
(** ** Emitting instructions *)

(** [as i16] *)
Definition as_i16 (z : Z) : Z := wrap_signed 16 z.
Definition as_i32 (z : Z) : Z := wrap_signed 32 z.

Definition pid_key_off : Z := -4.

(** The self-filter, with its first attempt backed out of, and the relocation left. *)
Definition self_filter : list BpfInsn * list (nat * nat) :=
  let insns := [call BPF_FUNC_GET_CURRENT_PID_TGID; mov64_reg R6 R0; mov64_reg R1 R6; rsh64_imm R1 32;
                stx_w R10 R1 (as_i16 pid_key_off)] in
  let insns := insns ++ ld_map_fd R1 in
  let insns := insns ++ [mov64_reg R2 R10; add64_imm R2 pid_key_off; call BPF_FUNC_MAP_LOOKUP_ELEM;
                         jne_imm R0 0 2; ja 1; mov64_imm R0 0] in
  let self_filter_start := (length insns - 4)%nat in
  let insns := take self_filter_start insns in
  let map_fd_offset := length insns in
  let insns := insns ++ ld_map_fd R1 in
  let relocs := [(map_fd_offset, MAP_IDX_PID_FILTER)] in
  let insns := insns ++ [mov64_reg R2 R10; add64_imm R2 pid_key_off; call BPF_FUNC_MAP_LOOKUP_ELEM;
                         jeq_imm R0 0 2; mov64_imm R0 0; exit] in
  (insns, relocs).

(** The two loops that clear the event, by eight and by four bytes; each turn takes some bytes. *)
Fixpoint zero_loop8 (fuel : nat) (zero_off remaining : Z) : list BpfInsn * Z * Z :=
  match fuel with
  | O => ([], zero_off, remaining)
  | S fuel' =>
      if 8 <=? remaining then
        let '(insns, off, rem) := zero_loop8 fuel' (as_i16 (zero_off + 8)) (remaining - 8) in
        (st_dw R10 zero_off 0 :: insns, off, rem)
      else ([], zero_off, remaining)
  end.

Fixpoint zero_loop4 (fuel : nat) (zero_off remaining : Z) : list BpfInsn :=
  match fuel with
  | O => []
  | S fuel' =>
      if 4 <=? remaining then st_w R10 zero_off 0 :: zero_loop4 fuel' (as_i16 (zero_off + 4)) (remaining - 4) else []
  end.

Definition zero_init (event_base_off event_size : Z) : list BpfInsn :=
  let fuel := S (Z.to_nat event_size) in
  let '(insns, zero_off, remaining) := zero_loop8 fuel (as_i16 event_base_off) event_size in
  insns ++ zero_loop4 fuel zero_off remaining.

Definition fill_header (event_base_off : Z) : list BpfInsn :=
  [call BPF_FUNC_KTIME_GET_NS; stx_dw R10 R0 (as_i16 event_base_off);
   mov64_reg R1 R6; rsh64_imm R1 32; stx_w R10 R1 (as_i16 (event_base_off + 8));
   mov64_reg R1 R6; and32_imm R1 (-1); stx_w R10 R1 (as_i16 (event_base_off + 12))].

(** [ctx->args[n]] *)
Definition ctx_off (arg_index : Z) : Z := as_i16 (as_i16 arg_index * 8).

Definition emit_read (event_base_off : Z) (read : FieldRead) : result CodegenError (list BpfInsn) :=
  match read with
  | FrComm event_offset =>
      Ok [mov64_reg R1 R10; add64_imm R1 (as_i32 (event_base_off + event_offset)); mov64_imm R2 16;
          call BPF_FUNC_GET_CURRENT_COMM]
  | FrReturnValue event_offset arg_index =>
      Ok [ldx_dw R1 R7 (ctx_off arg_index); stx_w R10 R1 (as_i16 (event_base_off + event_offset))]
  | FrDirectArg event_offset arg_index size =>
      let load := ldx_dw R1 R7 (ctx_off arg_index) in
      let off := as_i16 (event_base_off + event_offset) in
      if size =? 8 then Ok [load; stx_dw R10 R1 off]
      else if size =? 4 then Ok [load; stx_w R10 R1 off]
      else if size =? 2 then Ok [load; stx_h R10 R1 off]
      else if size =? 1 then Ok [load; stx_b R10 R1 off]
      else Err (UnsupportedType (dec size +:+ "-byte direct"))
  | FrProbeReadKernel event_offset arg_index struct_offset size _ =>
      Ok [mov64_reg R1 R10; add64_imm R1 (as_i32 (event_base_off + event_offset)); mov64_imm R2 (as_i32 size);
          ldx_dw R3 R7 (ctx_off arg_index); add64_imm R3 (as_i32 struct_offset); call BPF_FUNC_PROBE_READ_KERNEL]
  end.

Fixpoint emit_reads (event_base_off : Z) (reads : list FieldRead) : result CodegenError (list BpfInsn) :=
  match reads with
  | [] => Ok []
  | r :: rest => insns <-? emit_read event_base_off r ;; more <-? emit_reads event_base_off rest ;; Ok (insns ++ more)
  end.

(** The output, the drop counter and the exit, after [at_] instructions, with their relocations. *)
Definition emit_output (at_ : nat) (event_base_off event_size : Z) : list BpfInsn * list (nat * nat) :=
  let insns := ld_map_fd R1 ++
    [mov64_reg R2 R10; add64_imm R2 event_base_off; mov64_imm R3 (as_i32 event_size); mov64_imm R4 0;
     call BPF_FUNC_RINGBUF_OUTPUT; jeq_imm R0 0 10; st_w R10 (as_i16 pid_key_off) 0] in
  let drops_reloc_off := (at_ + length insns)%nat in
  let insns := insns ++ ld_map_fd R1 ++
    [mov64_reg R2 R10; add64_imm R2 pid_key_off; call BPF_FUNC_MAP_LOOKUP_ELEM; jeq_imm R0 0 3;
     ldx_dw R1 R0 0; add64_imm R1 1; stx_dw R0 R1 0; mov64_imm R0 0; exit] in
  (insns, [(at_, MAP_IDX_RINGBUF); (drops_reloc_off, MAP_IDX_RINGBUF_DROPS)]).

(** [generate] *)
Definition generate (spec : ProbeSpec) (btf : BtfData) : option (result CodegenError GeneratedProgram) :=
  match resolve_function btf (sp_function spec) with
  | Err e => Some (Err e)
  | Ok sig =>
      planned ← plan_fields spec btf sig (sp_fields spec) header_plan;
      Some (
        plan <-? planned ;;
        let event_size := Z.land (pl_offset plan + 7) (Z.lnot 7) in
        let stack_needed := event_size + 4 in
        if MAX_STACK <? stack_needed then Err (StackOverflow stack_needed) else
        let event_base_off := - (4 + as_i32 event_size) in
        let '(insns, relocs) := self_filter in
        let insns := insns ++ zero_init event_base_off event_size ++ fill_header event_base_off in
        let insns := mov64_reg R7 R1 :: insns in
        let relocs := map (fun r : nat * nat => (S r.1, r.2)) relocs in
        reads <-? emit_reads event_base_off (pl_reads plan) ;;
        let insns := insns ++ reads in
        let '(output, more_relocs) := emit_output (length insns) event_base_off event_size in
        let insns := insns ++ output in
        if 4096 <? zlen insns then Err (ProgramTooLarge (zlen insns) 4096) else
        Ok {| gp_instructions := insns;
              gp_relocations := relocs ++ more_relocs;
              gp_field_layout := pl_layout plan;
              gp_event_size := event_size;
              gp_map_name := replace "_SKB" "" (to_ascii_uppercase (sp_function spec)) +:+ "_EVENTS" |})
  end.

(* ------------------------------------------------------------------ *)
(** ** The object file *)

(** [BpfMapDef] *)
Record BpfMapDef := mkBpfMapDef { md_map_type : Z; md_key_size : Z; md_value_size : Z; md_max_entries : Z; md_map_flags : Z }.

Definition map_def_bytes (d : BpfMapDef) : list byte :=
  le_put 4 (md_map_type d) ++ le_put 4 (md_key_size d) ++ le_put 4 (md_value_size d) ++ le_put 4 (md_max_entries d)
  ++ le_put 4 (md_map_flags d).

Definition BPF_MAP_TYPE_HASH : Z := 1.
Definition BPF_MAP_TYPE_PERCPU_ARRAY : Z := 6.
Definition BPF_MAP_TYPE_RINGBUF : Z := 27.
Definition R_BPF_64_64 : Z := 1.
Definition DEFAULT_RINGBUF_SIZE : Z := 4 * 1024 * 1024.

Inductive SectionKind := SkData | SkText.
Record ElfSection := mkElfSection { es_name : string; es_kind : SectionKind; es_data : list byte; es_align : Z }.
Record ElfSymbol := mkElfSymbol { ey_name : string; ey_size : Z; ey_text : bool; ey_section : nat }.
Record ElfReloc := mkElfReloc { er_section : nat; er_offset : Z; er_symbol : nat; er_type : Z }.

(** The calls made to the [object] crate, sections and symbols in the order they are added. *)
Record ElfObject := mkElfObject { eo_sections : list ElfSection; eo_symbols : list ElfSymbol; eo_relocs : list ElfReloc }.

Definition pid_filter_def : BpfMapDef := mkBpfMapDef BPF_MAP_TYPE_HASH 4 1 64 0.
Definition ringbuf_def (ringbuf_size : Z) : BpfMapDef := mkBpfMapDef BPF_MAP_TYPE_RINGBUF 0 0 ringbuf_size 0.
Definition ringbuf_drops_def : BpfMapDef := mkBpfMapDef BPF_MAP_TYPE_PERCPU_ARRAY 4 8 1 0.

(** Each relocation points a map load of the program section at its map's symbol; the three map
    symbols are added first, in the order of their indices. *)
Section elf.
(** [Object::add_relocation], with its error, and [Object::write]. *)
Variable add_relocation : ElfReloc -> option string.
Variable obj_write : ElfObject -> result string (list byte).

Fixpoint elf_relocs (relocations : list (nat * nat)) : result CodegenError (list ElfReloc) :=
  match relocations with
  | [] => Ok []
  | (insn_offset, map_index) :: rest =>
      if (map_index <=? MAP_IDX_RINGBUF_DROPS)%nat then
        let reloc := mkElfReloc 4 (Z.of_nat insn_offset * 8) map_index R_BPF_64_64 in
        match add_relocation reloc with
        | Some e => Err (Elf ("add relocation: " +:+ e))
        | None => more <-? elf_relocs rest ;; Ok (reloc :: more)
        end
      else Err (Elf ("unknown map index " +:+ dec (Z.of_nat map_index)))
  end.

Definition elf_object (function : string) (attach_type : AttachType) (instructions : list BpfInsn)
    (relocations : list (nat * nat)) (ringbuf_map_name : string) (ringbuf_size : Z) : result CodegenError ElfObject :=
  let map_section name d := mkElfSection ("maps/" +:+ name) SkData (map_def_bytes d) 4 in
  let map_symbol name section := mkElfSymbol name 20 false section in
  let drops_name := ringbuf_map_name +:+ "_DROPS" in
  let prog_data := encode instructions in
  let section_name := match attach_type with
                      | AtFentry => "fentry/" +:+ function
                      | AtFexit => "fexit/" +:+ function
                      end in
  relocs <-? elf_relocs relocations ;;
  Ok {| eo_sections := [map_section "PID_FILTER" pid_filter_def; map_section ringbuf_map_name (ringbuf_def ringbuf_size);
                        map_section drops_name ringbuf_drops_def;
                        mkElfSection "license" SkData (bytes_of "GPL" ++ [x00]) 1;
                        mkElfSection section_name SkText prog_data 8];
        eo_symbols := [map_symbol "PID_FILTER" 0%nat; map_symbol ringbuf_map_name 1%nat; map_symbol drops_name 2%nat;
                       mkElfSymbol ("jalki_codegen_" +:+ function) (zlen prog_data) true 4];
        eo_relocs := relocs |}.

Definition generate_elf (function : string) (attach_type : AttachType) (instructions : list BpfInsn)
    (relocations : list (nat * nat)) (ringbuf_map_name : string) (ringbuf_size : Z) : result CodegenError (list byte) :=
  obj <-? elf_object function attach_type instructions relocations ringbuf_map_name ringbuf_size ;;
  match obj_write obj with
  | Ok bytes => Ok bytes
  | Err e => Err (Elf ("write ELF: " +:+ e))
  end.

(** [GeneratedProbe] *)
Record GeneratedProbe := mkGeneratedProbe {
  gb_elf_bytes : list byte;
  gb_map_name : string;
  gb_event_size : Z;
  gb_field_layout : list FieldLayout;
  gb_spec : ProbeSpec
}.

(** [jalki_codegen::generate] *)
Definition generate_probe (spec : ProbeSpec) (btf : BtfData) : option (result CodegenError GeneratedProbe) :=
  program ← generate spec btf;
  Some (
    program <-? program ;;
    elf_bytes <-? generate_elf (sp_function spec) (sp_attachment spec) (gp_instructions program)
                    (gp_relocations program) (gp_map_name program) DEFAULT_RINGBUF_SIZE ;;
    Ok (mkGeneratedProbe elf_bytes (gp_map_name program) (gp_event_size program) (gp_field_layout program) spec)).

Definition generate_for_function (btf : BtfData) (function attachment : string) (fields : list string) (event_type : string)
  : option (result CodegenError GeneratedProbe) :=
  if bool_decide (attachment = "fentry") then generate_probe (mkProbeSpec function AtFentry fields event_type) btf
  else if bool_decide (attachment = "fexit") then generate_probe (mkProbeSpec function AtFexit fields event_type) btf
  else Some (Err (BtfType ("unknown attachment: " +:+ attachment))).
End elf.
