(* ===== verification/CodegenRun.v ===== *)
(** What the parts of a generated program do, each run on its own: the self-filter, the clearing
    of the event, the header, the field reads, the output with its drop counter.

    [at_event] is the machine between two parts; every part is executed symbolically with
    [exec_insn] and joined to the next with [goes]. *)
From Stdlib Require Import Strings.Byte.
From S2P Require Import Prelude Text Bpf Btf Codegen.

Lemma as_i16_small z : - 32768 <= z < 32768 -> as_i16 z = z.
Proof. intros H. apply wrap_signed_small; lia. Qed.
Lemma as_i32_small z : - 2147483648 <= z < 2147483648 -> as_i32 z = z.
Proof. intros H. apply wrap_signed_small; lia. Qed.

Section control.
Variables (k : Kernel) (relocs : list (nat * nat)) (prog : list BpfInsn).

(** A test of [r0] against zero. *)
Definition r0_is (m : Machine) (zero : bool) : Prop :=
  match get_reg 0 m with
  | Some (VNum z) => bool_decide (z = 0) = zero
  | Some (VElem _) => zero = false
  | _ => False
  end.

Lemma jeq_go pc off m zero :
  prog !! pc = Some (jeq_imm R0 0 (Z.of_nat off)) -> r0_is m zero ->
  goes k relocs prog (Z.of_nat pc) m (Z.of_nat (S pc + if zero then off else 0)) m.
Proof.
  intros Hi Hz. apply goes_step; [lia|]. rewrite (step_at _ _ _ pc _ (OJeqImm 0 0 (Z.of_nat off)) m Hi eq_refl).
  unfold r0_is in Hz. cbn [exec]. destruct (get_reg 0 m) as [[z| | | |]|]; cbn [mbind option_bind]; try done.
  - change (ext64 0) with 0. rewrite Hz. cbn [mbind option_bind]. by destruct zero; do 2 f_equal; lia.
  - subst zero. cbn. do 2 f_equal. lia.
Qed.

(** [mov64_imm(R0, 0); exit()] *)
Lemma ends pc m0 m :
  goes k relocs prog 0 m0 (Z.of_nat pc) m -> code_at prog pc [mov64_imm R0 0; exit] -> m_regs m <> [] ->
  exists m', run (length prog) k relocs prog 0 m0 = Some (Some (0, m')) /\ m_out m' = m_out m /\ m_elem m' = m_elem m.
Proof.
  intros Hg Hc Hm. exists (set_reg 0 (VNum 0) m). split; [|done].
  destruct (code_at_cons _ _ _ _ Hc) as [Hi Hc2]. destruct (code_at_cons _ _ _ _ Hc2) as [Hi2 _].
  apply (goes_exit _ _ _ _ (S pc) _ exit); [|done|done|].
  - eapply goes_trans; [done|]. apply goes_step; [lia|].
    rewrite (step_at _ _ _ pc _ (OMovImm 0 0) m Hi eq_refl). cbn [exec]. do 3 f_equal. lia.
  - unfold get_reg, set_reg. destruct m as [[|r regs] stk el out]; done.
Qed.
End control.

Section program.
Variable k : Kernel.
Hypothesis kernel : kernel_ok k.
Variable relocs : list (nat * nat).
Variables (pre key : list (option byte)) (elem : nat -> Z) (e : nat).
Hypothesis pre_length : (length pre + e + length key)%nat = 512%nat.
Hypothesis key_length : length key = 4%nat.
Let base : Z := - (4 + Z.of_nat e).

(** The machine between two blocks: the thread's ids and the context are kept in [r6] and [r7],
    and the frame is the event's bytes and the key above them. *)
Inductive at_point (out : list (nat * list byte)) (area : list (option byte)) : Machine -> Prop :=
| at_event_intro r0 r1 r2 r3 r4 r5 r8 r9 :
    at_point out area
      {| m_regs := [r0; r1; r2; r3; r4; r5; Some (VNum (k_pid_tgid k)); Some (VCtx 0); r8; r9; Some (VStack 0)];
         m_stack := pre ++ area ++ key; m_elem := elem; m_out := out |}.
Notation at_event := (at_point []).

(** The event when [d] is written and the rest is zero. *)
Definition filled (d : list byte) : list (option byte) := map Some (d ++ repeat x00 (e - length d)).

Lemma filled_length d : (length d <= e)%nat -> length (filled d) = e.
Proof. intros H. unfold filled. rewrite length_map, length_app, repeat_length. lia. Qed.

Lemma store_filled d bs off :
  (length d + length bs <= e)%nat -> off = base + zlen d ->
  stack_store off bs (pre ++ filled d ++ key) = Some (pre ++ filled (d ++ bs) ++ key).
Proof.
  intros Hle ->. unfold filled. rewrite !map_app, !length_app.
  replace (e - length d)%nat with (length bs + (e - (length d + length bs)))%nat by lia.
  rewrite repeat_app, map_app, <- (app_assoc (map Some d) (map Some bs)). apply stack_store_mid.
  - rewrite !length_app, !length_map, !repeat_length. unfold FRAME. lia.
  - unfold base, zlen, FRAME. rewrite !length_map. lia.
  - by rewrite length_map, repeat_length.
Qed.

Definition header_bytes : list byte :=
  le_put 8 (k_ktime k) ++ le_put 4 (k_pid_tgid k / 2 ^ 32) ++ le_put 4 (k_pid_tgid k mod 2 ^ 32).

Lemma header_bytes_length : length header_bytes = 16%nat.
Proof. unfold header_bytes. by rewrite !length_app, !le_put_length. Qed.

Ltac exec_store :=
  exec_with ltac:(rewrite store_filled by
    (unfold zlen; rewrite ?app_nil_l, ?length_app, ?le_put_length; unfold zlen in *; cbn [length] in *; lia)).

Lemma header_block pc m :
  (16 <= e)%nat -> at_event (filled []) m -> exists m',
  exec_block k relocs pc (fill_header base) m = Some m' /\ at_event (filled header_bytes) m'.
Proof.
  intros He []. unfold fill_header. rewrite !as_i16_small by (unfold base; lia).
  assert (header_bytes = (([] ++ le_put 8 (k_ktime k)) ++ le_put 4 (Z.shiftr (k_pid_tgid k) 32))
            ++ le_put 4 (wrap 32 (Z.land (k_pid_tgid k) (-1)))) as ->.
  { unfold header_bytes, wrap. by rewrite Z.shiftr_div_pow2, Z.land_m1_r, app_nil_l, <- app_assoc by lia. }
  eexists; split; [|apply at_event_intro].
  exec_insn. exec_store. exec_insn. exec_insn. exec_store. exec_insn. exec_insn. exec_store. reflexivity.
Qed.

(** ** The field reads *)

Definition arg (i : Z) : Z := default 0 (k_args k !! Z.to_nat i).
Definition read_offset (r : FieldRead) : Z :=
  match r with
  | FrComm o | FrReturnValue o _ | FrDirectArg o _ _ | FrProbeReadKernel o _ _ _ _ => o
  end.
Definition read_bytes (r : FieldRead) : list byte :=
  match r with
  | FrComm _ => k_comm k 16
  | FrReturnValue _ i => le_put 4 (arg i)
  | FrDirectArg _ i size => le_put (Z.to_nat size) (arg i)
  | FrProbeReadKernel _ i offset size _ => k_read k (wrap 64 (arg i + as_i32 offset)) (Z.to_nat size)
  end.
Definition arg_ok (i : Z) : Prop := 0 <= i < 4096 /\ is_Some (k_args k !! Z.to_nat i).
Definition read_ok (r : FieldRead) : Prop :=
  match r with
  | FrComm _ => True
  | FrReturnValue _ i => arg_ok i
  | FrDirectArg _ i size => arg_ok i /\ size ∈ [1; 2; 4; 8]
  | FrProbeReadKernel _ i _ size _ => arg_ok i /\ size ∈ [1; 2; 4; 8]
  end.

Lemma load_arg i m : arg_ok i -> load_at k (VCtx 0) (ctx_off i) 8 m = Some (arg i).
Proof.
  intros [Hi [a Ha]]. unfold ctx_off, arg. rewrite !as_i16_small by (rewrite ?as_i16_small; lia). rewrite Ha.
  unfold load_at. replace (0 + i * 8) with (i * 8) by lia. rewrite Z.mod_mul, Z.div_mul, Ha by lia.
  rewrite (proj2 (Z.leb_le _ _)) by lia. done.
Qed.

Lemma read_bytes_length r : read_ok r -> (length (read_bytes r) <= 16)%nat.
Proof.
  destruct kernel as [_ _ Hc Hr _]. destruct r as [|o i|o i size|o i so size ft]; cbn; rewrite ?le_put_length, ?Hc, ?Hr; try lia;
    intros [_ H]; rewrite !elem_of_cons, elem_of_nil in H; lia.
Qed.

Lemma read_block pc r insns m d :
  read_ok r -> read_offset r = zlen d -> (length d + length (read_bytes r) <= e)%nat ->
  emit_read base r = Ok insns -> at_event (filled d) m -> exists m',
  exec_block k relocs pc insns m = Some m' /\ at_event (filled (d ++ read_bytes r)) m'.
Proof.
  intros Hok Ho Hle Hi []. destruct kernel as [_ _ Hc Hr _].
  assert (as_i16 (base + zlen d) = base + zlen d) as E16 by (apply as_i16_small; unfold base, zlen; lia).
  assert (as_i32 (base + zlen d) = base + zlen d) as E32 by (apply as_i32_small; unfold base, zlen; lia).
  destruct r as [o|o i|o i size|o i so size ft]; cbn [read_offset emit_read read_bytes read_ok] in *; subst o;
    rewrite ?E16, ?E32 in Hi.
  - injection Hi as <-. eexists; split; [|apply at_event_intro].
    do 3 exec_insn. exec_with ltac:(rewrite store_filled by (try lia; by rewrite Hc in *)). reflexivity.
  - injection Hi as <-. rewrite le_put_length in Hle. eexists; split; [|apply at_event_intro].
    exec_with ltac:(rewrite load_arg by done). exec_store. reflexivity.
  - destruct Hok as [Hok Hs]. rewrite le_put_length in Hle. rewrite !elem_of_cons, elem_of_nil in Hs.
    destruct Hs as [-> | [-> | [-> | [-> | []]]]]; injection Hi as <-; (eexists; split; [|apply at_event_intro]);
      exec_with ltac:(rewrite load_arg by done); exec_store; reflexivity.
  - destruct Hok as [Hok Hs]. injection Hi as <-. rewrite Hr in Hle.
    assert (ext64 (as_i32 size) = size) as Es.
    { rewrite !elem_of_cons, elem_of_nil in Hs. by destruct Hs as [-> | [-> | [-> | [-> | []]]]]. }
    eexists; split; [|apply at_event_intro].
    do 3 exec_insn. exec_with ltac:(rewrite load_arg by done). exec_insn.
    exec_with ltac:(rewrite Es, store_filled by (try lia; by rewrite Hr)). reflexivity.
Qed.

Fixpoint packed (from : Z) (reads : list FieldRead) (to : Z) : Prop :=
  match reads with
  | [] => from = to
  | r :: rest => read_offset r = from /\ packed (from + zlen (read_bytes r)) rest to
  end.

Variable prog : list BpfInsn.

Lemma reads_go pc reads insns m d to :
  Forall read_ok reads -> packed (zlen d) reads to -> to <= Z.of_nat e ->
  emit_reads base reads = Ok insns -> code_at prog pc insns -> at_event (filled d) m -> exists m',
  goes k relocs prog (Z.of_nat pc) m (Z.of_nat (pc + length insns)) m' /\
  at_event (filled (d ++ concat (map read_bytes reads))) m' /\ zlen (d ++ concat (map read_bytes reads)) = to.
Proof.
  revert pc insns m d. induction reads as [|r reads IH]; intros pc insns m d Hok Hp Hto Hi Hc Hm; cbn in Hp, Hi.
  { injection Hi as <-. exists m. rewrite Nat.add_0_r. cbn [map concat]. rewrite app_nil_r.
    split_and!; [apply goes_refl|done..]. }
  apply Forall_cons in Hok as [Hr Hok]. destruct Hp as [Ho Hp].
  destruct (emit_read base r) as [one|] eqn:H1; [|done]. destruct (emit_reads base reads) as [more|] eqn:H2; [|done].
  injection Hi as <-. apply code_at_app in Hc as [Hc1 Hc2].
  assert (zlen d + zlen (read_bytes r) <= to) as Hle.
  { clear -Hp. revert Hp. generalize (zlen d + zlen (read_bytes r)). induction reads as [|r' reads IH]; intros z; cbn; [lia|].
    intros [_ H]. apply IH in H. pose proof (zlen_nonneg (read_bytes r')). lia. }
  destruct (read_block pc r one m d) as (m1 & He1 & Hm1); [done|done|unfold zlen in *; lia|done|done|].
  destruct (IH (pc + length one)%nat more m1 (d ++ read_bytes r)) as (m2 & He2 & Hm2 & Hl); [done| |done..|].
  { by rewrite zlen_app. }
  cbn [map concat]. rewrite app_assoc. exists m2. split_and!; [|done..].
  eapply goes_trans; [by eapply block_goes|]. by rewrite length_app, Nat.add_assoc.
Qed.

(** ** Clearing the event *)

Definition cleared (n : nat) : list (option byte) := repeat (Some x00) n ++ repeat None (e - n).

Lemma store_cleared n off :
  (n + 8 <= e)%nat -> off = base + Z.of_nat n ->
  stack_store off (le_put 8 0) (pre ++ cleared n ++ key) = Some (pre ++ cleared (n + 8) ++ key).
Proof.
  intros Hle ->. unfold cleared. rewrite (repeat_app _ n 8), <- (app_assoc (repeat _ n) (repeat _ 8)).
  change (repeat (Some x00) 8) with (map Some (le_put 8 0)).
  replace (e - n)%nat with (8 + (e - (n + 8)))%nat by lia. rewrite repeat_app. apply stack_store_mid.
  - rewrite !length_app, !repeat_length. unfold FRAME. lia.
  - unfold base, FRAME. rewrite repeat_length. lia.
  - done.
Qed.

Lemma zero_go fuel w n pc m insns off rem :
  e = (n + 8 * w)%nat -> (w < fuel)%nat ->
  zero_loop8 fuel (base + Z.of_nat n) (8 * Z.of_nat w) = (insns, off, rem) ->
  code_at prog pc insns -> at_event (cleared n) m ->
  rem = 0 /\ exists m', goes k relocs prog (Z.of_nat pc) m (Z.of_nat (pc + length insns)) m' /\ at_event (cleared e) m'.
Proof.
  revert w n pc m insns off rem. induction fuel as [|fuel IH]; intros w n pc m insns off rem He Hf Hz Hc Hm; [lia|].
  cbn [zero_loop8] in Hz. destruct w as [|w].
  { injection Hz as <- <- <-. split; [done|]. exists m. rewrite Nat.add_0_r. split; [apply goes_refl|].
    by replace e with n by lia. }
  rewrite (proj2 (Z.leb_le _ _)) in Hz by lia. rewrite as_i16_small in Hz by (unfold base; lia).
  replace (base + Z.of_nat n + 8) with (base + Z.of_nat (n + 8)) in Hz by lia.
  replace (8 * Z.of_nat (S w) - 8) with (8 * Z.of_nat w) in Hz by lia.
  destruct (zero_loop8 fuel _ _) as [[insns' off'] rem'] eqn:Hz'. injection Hz as <- <- <-.
  apply code_at_cons in Hc as Hc'. destruct Hc' as [Hi Hc'].
  assert (exists m1, exec_block k relocs pc [st_dw R10 (base + Z.of_nat n) 0] m = Some m1 /\ at_event (cleared (n + 8)) m1)
    as (m1 & He1 & Hm1).
  { destruct Hm. eexists; split; [|apply at_event_intro].
    exec_with ltac:(rewrite (store_cleared n) by lia). reflexivity. }
  destruct (IH w (n + 8)%nat (S pc) m1 insns' off' rem') as (-> & m2 & He2 & Hm2); [lia|lia|done..|].
  split; [done|]. exists m2. split; [|done].
  assert (code_at prog pc [st_dw R10 (base + Z.of_nat n) 0]) as Hc1.
  { destruct Hc as (post & E). exists (insns' ++ post). exact E. }
  eapply goes_trans; [by eapply block_goes|]. cbn [length].
  by replace (pc + 1)%nat with (S pc) by lia; replace (pc + S (length insns'))%nat with (S pc + length insns')%nat by lia.
Qed.

(** ** The output *)

(** The machine when the record is offered. *)
Lemma offer_block pc m d :
  (length d <= e)%nat -> reloc_at relocs pc = Some MAP_IDX_RINGBUF -> at_event (filled d) m ->
  let event := d ++ repeat x00 (e - length d) in
  let accepted := k_ringbuf k MAP_IDX_RINGBUF event in
  exists m',
  exec_block k relocs pc (take 7 (emit_output 0 base (Z.of_nat e)).1) m = Some m' /\
  r0_is m' accepted /\ at_point (if accepted then [(MAP_IDX_RINGBUF, event)] else []) (filled d) m'.
Proof.
  intros Hd Hr [] event accepted. unfold emit_output. cbn [fst app take ld_map_fd].
  rewrite as_i32_small by lia.
  assert (ext64 (Z.of_nat e) = Z.of_nat e) as Ee by (unfold ext64, wrap; apply Z.mod_small; lia).
  assert (stack_load (0 + base) (Z.to_nat (Z.of_nat e)) (pre ++ filled d ++ key) = Some event) as Hload.
  { assert (length event = e) as He by (unfold event; rewrite length_app, repeat_length; lia).
    unfold filled. rewrite Nat2Z.id. apply stack_load_mid; [|unfold base, FRAME; lia|done].
    rewrite !length_app, length_map, He. unfold FRAME. lia. }
  eexists; split.
  - do 5 exec_insn.
    exec_with ltac:(rewrite Ee, Hload, Hr; cbn [mbind option_bind]; fold accepted). reflexivity.
  - destruct accepted; norm_machine; (split; [done|apply at_event_intro]).
Qed.

(** The drop counter's slot, looked up. *)
Lemma drops_block pc m area out :
  length area = e -> k_key_size k MAP_IDX_RINGBUF_DROPS = 4%nat ->
  reloc_at relocs (pc + 1) = Some MAP_IDX_RINGBUF_DROPS -> at_point out area m ->
  let found := k_has_key k MAP_IDX_RINGBUF_DROPS (le_put 4 0) in
  exists m',
  exec_block k relocs pc (take 6 (drop 8 (emit_output 0 base (Z.of_nat e)).1)) m = Some m' /\
  exists rest stk, m' = {| m_regs := Some (if found then VElem MAP_IDX_RINGBUF_DROPS else VNum 0) :: None :: rest;
                           m_stack := stk; m_elem := elem; m_out := out |}.
Proof.
  intros Ha Hk Hr [] found. unfold emit_output. cbn [fst app take drop ld_map_fd].
  assert (length (pre ++ area) = 508%nat) as Hpre by (rewrite length_app; lia).
  assert (stack_store (0 + as_i16 pid_key_off) (le_put 4 0) (pre ++ area ++ key)
            = Some (pre ++ area ++ map Some (le_put 4 0))) as Hs.
  { pose proof (stack_store_mid (0 + as_i16 pid_key_off) (le_put 4 0) (pre ++ area) [] key [] []) as H.
    rewrite !app_nil_r, !app_nil_l, <- !app_assoc in H. apply H; [|cbn [length]; rewrite Hpre; done|done].
    rewrite app_assoc, length_app, Hpre, key_length. done. }
  assert (stack_load (0 + pid_key_off) 4 (pre ++ area ++ map Some (le_put 4 0)) = Some (le_put 4 0)) as Hl.
  { pose proof (stack_load_mid (0 + pid_key_off) 4 (pre ++ area) (le_put 4 0) []) as H.
    rewrite !app_nil_r, <- !app_assoc in H. apply H; [|rewrite Hpre; done|done].
    rewrite app_assoc, length_app, Hpre. done. }
  eexists; split.
  - exec_with ltac:(rewrite Hs). do 3 exec_insn.
    replace (S pc) with (pc + 1)%nat by lia.
    exec_with ltac:(rewrite Hr; eval_exec; rewrite Hk, Hl; cbn [mbind option_bind]; fold found). reflexivity.
  - norm_machine. by do 2 eexists.
Qed.

Lemma count_block pc rest stk out :
  exists m',
  exec_block k relocs pc [ldx_dw R1 R0 0; add64_imm R1 1; stx_dw R0 R1 0]
    {| m_regs := Some (VElem MAP_IDX_RINGBUF_DROPS) :: None :: rest; m_stack := stk; m_elem := elem; m_out := out |}
    = Some m' /\ m_regs m' <> [] /\ m_out m' = out /\
  forall i, m_elem m' i = if (i =? MAP_IDX_RINGBUF_DROPS)%nat then wrap 64 (elem i + 1) else elem i.
Proof.
  eexists; split.
  - exec_insn. exec_insn. exec_insn. reflexivity.
  - cbn [m_regs m_out m_elem]. split_and!; [done..|]. intros i.
    destruct (Nat.eqb_spec i MAP_IDX_RINGBUF_DROPS) as [->|]; [|done].
    rewrite le_get_put. unfold wrap. apply Z.mod_mod. lia.
Qed.

(** From the full event to the end. *)
Lemma output_ends pc m0 m d :
  k_key_size k MAP_IDX_RINGBUF_DROPS = 4%nat ->
  reloc_at relocs pc = Some MAP_IDX_RINGBUF -> reloc_at relocs (pc + 9) = Some MAP_IDX_RINGBUF_DROPS ->
  (length d <= e)%nat -> code_at prog pc (emit_output 0 base (Z.of_nat e)).1 ->
  goes k relocs prog 0 m0 (Z.of_nat pc) m -> at_event (filled d) m ->
  let event := d ++ repeat x00 (e - length d) in
  let accepted := k_ringbuf k MAP_IDX_RINGBUF event in
  let counted := negb accepted && k_has_key k MAP_IDX_RINGBUF_DROPS (le_put 4 0) in
  exists m', run (length prog) k relocs prog 0 m0 = Some (Some (0, m')) /\
  m_out m' = (if accepted then [(MAP_IDX_RINGBUF, event)] else []) /\
  forall i, m_elem m' i = if counted && (i =? MAP_IDX_RINGBUF_DROPS)%nat then wrap 64 (elem i + 1) else elem i.
Proof.
  intros Hk Hr1 Hr2 Hd Hc Hg Hm event accepted counted.
  change (emit_output 0 base (Z.of_nat e)).1 with
    (take 7 (emit_output 0 base (Z.of_nat e)).1 ++ jeq_imm R0 0 (Z.of_nat 10) ::
     take 6 (drop 8 (emit_output 0 base (Z.of_nat e)).1) ++ jeq_imm R0 0 (Z.of_nat 3) ::
     [ldx_dw R1 R0 0; add64_imm R1 1; stx_dw R0 R1 0] ++ [mov64_imm R0 0; exit]) in Hc.
  apply code_at_app in Hc as [Hc1 Hc]. apply code_at_cons in Hc as [Hj1 Hc].
  apply code_at_app in Hc as [Hc2 Hc]. apply code_at_cons in Hc as [Hj2 Hc].
  apply code_at_app in Hc as [Hc3 Hc4].
  destruct (offer_block pc m d Hd Hr1 Hm) as (m1 & He1 & Hz1 & Hm1). fold event accepted in Hz1, Hm1.
  assert (length (take 7 (emit_output 0 base (Z.of_nat e)).1) = 7%nat) as L1 by done.
  assert (length (take 6 (drop 8 (emit_output 0 base (Z.of_nat e)).1)) = 6%nat) as L2 by done.
  rewrite L1 in *. rewrite L2 in *. cbn [length] in *.
  assert (goes k relocs prog 0 m0 (Z.of_nat (S (pc + 7) + if accepted then 10 else 0)) m1) as Hg1.
  { eapply goes_trans; [exact Hg|]. eapply goes_trans; [by eapply block_goes|]. rewrite L1. by apply jeq_go. }
  unfold counted. destruct accepted; cbn [negb andb].
  { destruct Hm1. eapply ends in Hg1 as (m' & Hrun & Hout & Hel).
    - exists m'. split_and!; [done|done|]. intros i. by rewrite Hel.
    - by replace (S (pc + 7) + 10)%nat with (S (S (pc + 7) + 6) + 3)%nat by lia.
    - done. }
  rewrite Nat.add_0_r in Hg1.
  destruct (drops_block (S (pc + 7)) m1 (filled d) []) as (m2 & He2 & rest & stk & ->);
    [by rewrite filled_length|done|by replace (S (pc + 7) + 1)%nat with (pc + 9)%nat by lia|done|].
  set (found := k_has_key k MAP_IDX_RINGBUF_DROPS (le_put 4 0)) in *.
  assert (goes k relocs prog 0 m0 (Z.of_nat (S (S (pc + 7) + 6) + if negb found then 3 else 0))
            {| m_regs := Some (if found then VElem MAP_IDX_RINGBUF_DROPS else VNum 0) :: None :: rest;
               m_stack := stk; m_elem := elem; m_out := [] |}) as Hg2.
  { eapply goes_trans; [exact Hg1|]. eapply goes_trans; [by eapply block_goes|]. rewrite L2.
    apply jeq_go; [done|]. by destruct found. }
  destruct found; cbn [negb andb] in *.
  - rewrite Nat.add_0_r in Hg2. destruct (count_block (S (S (pc + 7) + 6)) rest stk []) as (m3 & He3 & Hr3 & Ho3 & Hel3).
    assert (goes k relocs prog 0 m0 (Z.of_nat (S (S (pc + 7) + 6) + 3)) m3) as Hg3
      by (eapply goes_trans; [exact Hg2|]; exact (block_goes _ _ _ _ _ _ _ Hc3 He3)).
    eapply ends in Hg3 as (m' & Hrun & Hout & Hel); [|done..].
    exists m'. split_and!; [done|by rewrite Hout|]. intros i. by rewrite Hel.
  - eapply ends in Hg2 as (m' & Hrun & Hout & Hel); [|done..].
    exists m'. split_and!; [done|done|]. intros i. by rewrite Hel.
Qed.
End program.

(** ** The self-filter *)

Section prologue.
Variables (k : Kernel) (relocs : list (nat * nat)) (prog : list BpfInsn) (elem : nat -> Z).

Definition filter_key : list byte := le_put 4 (Z.shiftr (k_pid_tgid k) 32).
Definition filtered : bool := k_has_key k MAP_IDX_PID_FILTER filter_key.

Lemma prologue_block :
  k_key_size k MAP_IDX_PID_FILTER = 4%nat -> reloc_at relocs 10 = Some MAP_IDX_PID_FILTER ->
  exists m,
  exec_block k relocs 0 (mov64_reg R7 R1 :: take 14 self_filter.1) (boot elem) = Some m /\
  r0_is m (negb filtered) /\ at_point k (repeat None 508) (map Some filter_key) elem [] [] m.
Proof.
  intros Hk Hr. unfold self_filter. cbn [fst length app take Nat.sub ld_map_fd]. unfold boot.
  assert (stack_store (0 + as_i16 pid_key_off) filter_key (repeat None (Z.to_nat FRAME))
            = Some (repeat None 508 ++ map Some filter_key)) as Hs by done.
  assert (stack_load (0 + pid_key_off) 4 (repeat None 508 ++ map Some filter_key) = Some filter_key) as Hl.
  { pose proof (stack_load_mid (0 + pid_key_off) 4 (repeat None 508) filter_key []) as H.
    rewrite !app_nil_r in H. apply H; done. }
  eexists; split.
  - do 5 exec_insn. exec_with ltac:(fold filter_key; rewrite Hs). do 6 exec_insn.
    exec_with ltac:(rewrite Hr; eval_exec; rewrite Hk, Hl; cbn [mbind option_bind]; fold filtered). reflexivity.
  - norm_machine. split; [by destruct filtered|]. change (repeat None 508 ++ map Some filter_key) with
      (repeat None 508 ++ [] ++ map Some filter_key). apply at_event_intro.
Qed.
End prologue.
