(* ===== verification/CodegenCorrect.v ===== *)
(** The probe generator is correct: the program it makes does, in any kernel, what the probe's
    specification asks for, and its object file carries that program.

    [field_bytes] is the meaning of a field of a specification, [plan_ok] the invariant of the
    planning loop, [generate_Ok] what a successful [generate] is put together from; the runs of the
    parts are [CodegenRun]'s. *)
From Stdlib Require Import Strings.Byte.
From S2P Require Import Prelude Text Bpf Btf Codegen CodegenRun.

Lemma resolved_size btf id path r :
  resolve_field_offset btf id path = Some (Ok r) -> rf_size r ∈ [1; 2; 4; 8] /\ size_to_field_type (rf_size r) = Ok (rf_field_type r).
Proof.
  intros Hsz%resolve_parts_size. split; [|done]. rewrite !elem_of_cons. unfold size_to_field_type in Hsz.
  destruct (Z.eqb_spec (rf_size r) 1), (Z.eqb_spec (rf_size r) 2), (Z.eqb_spec (rf_size r) 4), (Z.eqb_spec (rf_size r) 8);
    done || lia.
Qed.

(* ------------------------------------------------------------------ *)
(** ** What a probe asks for *)

Definition is_header (name : string) : Prop := name ∈ ["pid"; "tid"; "timestamp_ns"].
#[export] Instance is_header_dec name : Decision (is_header name).
Proof. unfold is_header. apply _. Defined.

(** The fields of the specification that are not in the header. *)
Definition wanted_fields (spec : ProbeSpec) : list string := filter (fun name => ~ is_header name) (sp_fields spec).

Section spec.
Variables (k : Kernel) (spec : ProbeSpec) (btf : BtfData) (sig : FunctionSignature).

(** The bytes of a field when the function was called with the kernel's arguments: the thread's
    name, the return value, an argument, or the memory a pointer argument leads to. *)
Definition field_bytes (name : string) : option (list byte) :=
  if bool_decide (name = "comm") then Some (k_comm k 16)
  else if bool_decide (name = "ret") then Some (le_put 4 (arg k (zlen (fs_params sig))))
  else
    let '(param_name, path) := match split_once "." name with Some (p, f) => (p, Some f) | None => (name, None) end in
    i ← position (fun q => bool_decide (fp_name q = param_name)) (fs_params sig);
    param ← fs_params sig !! i;
    let value := arg k (Z.of_nat i) in
    match path with
    | None => size ← type_size (type_fuel btf) btf (fp_type_id param); Some (le_put (Z.to_nat size) value)
    | Some path =>
        match pointer_pointee btf (fp_type_id param) with
        | PkStruct _ id =>
            match resolve_field_offset btf id path with
            | Some (Ok r) => Some (k_read k (wrap 64 (value + as_i32 (rf_offset_bytes r))) (Z.to_nat (rf_size r)))
            | _ => None
            end
        | PkOther => None
        end
    end.

Hypothesis kernel : kernel_ok k.
Hypothesis few_params : (length (fs_params sig) < 4096)%nat.
Hypothesis args_params : (length (fs_params sig) <= length (k_args k))%nat.
Hypothesis args_ret : sp_attachment spec = AtFexit -> (length (fs_params sig) < length (k_args k))%nat.

(** A layout entry describes [bs]: their number, sixteen for a name, four for a return value, and
    otherwise those of an unsigned integer of the entry's type. *)
Definition describes (fl : FieldLayout) (bs : list byte) : Prop :=
  fl_size fl = zlen bs /\
  if bool_decide (fl_name fl = "comm") then fl_size fl = 16
  else if bool_decide (fl_name fl = "ret") then fl_size fl = 4
  else size_to_field_type (fl_size fl) = Ok (fl_field_type fl).

(** The plan after the fields [names]. *)
Record plan_ok (names : list string) (p : Plan) : Prop := {
  po_layout : exists ls, pl_layout p = pl_layout header_plan ++ ls /\ map fl_name ls = names /\
                Forall2 (fun fl r => fl_offset fl = read_offset r /\ describes fl (read_bytes k r)) ls (pl_reads p);
  po_reads : Forall (read_ok k) (pl_reads p);
  po_packed : packed k 16 (pl_reads p) (pl_offset p);
  po_bytes : Forall2 (fun name r => field_bytes name = Some (read_bytes k r)) names (pl_reads p)
}.

Lemma header_plan_ok : plan_ok [] header_plan.
Proof. split; [exists []; by split_and!|done..]. Qed.

Lemma packed_app from reads mid r :
  packed k from reads mid -> read_offset r = mid -> packed k from (reads ++ [r]) (mid + zlen (read_bytes k r)).
Proof.
  revert from. induction reads as [|r' reads IH]; intros from; cbn; [by intros -> ->|].
  intros [Ho H] Hr. split; [done|]. by apply IH.
Qed.

Lemma add_field_ok names p name size ft r :
  plan_ok names p -> read_ok k r -> read_offset r = pl_offset p ->
  describes (mkFieldLayout name (pl_offset p) size ft) (read_bytes k r) ->
  field_bytes name = Some (read_bytes k r) -> plan_ok (names ++ [name]) (add_field p name size ft r).
Proof.
  intros [(ls & Hl & Hn & Hls) Hr Hp Hb] Hok Ho Hd Hf. destruct Hd as [Hs Hd]; cbn in Hs, Hd. subst size. split; cbn.
  - eexists (ls ++ [_]). rewrite Hl, <- app_assoc. split_and!; [done|by rewrite map_app, Hn|].
    apply Forall2_app; [done|]. by constructor.
  - apply Forall_app. by split; [|apply Forall_singleton].
  - by apply packed_app.
  - apply Forall2_app; [done|]. by constructor.
Qed.

Lemma arg_index i : (i < length (fs_params sig))%nat -> wrap 32 (Z.of_nat i) = Z.of_nat i /\ arg_ok k (Z.of_nat i).
Proof.
  intros Hi. split; [unfold wrap; apply Z.mod_small; lia|]. split; [lia|]. rewrite Nat2Z.id. apply lookup_lt_is_Some. lia.
Qed.

Lemma plan_field_ok names p name p' :
  plan_ok names p -> plan_field spec btf sig p name = Some (Ok p') ->
  plan_ok (names ++ filter (fun name => ~ is_header name) [name]) p'.
Proof.
  intros Hp. unfold plan_field. rewrite filter_cons, filter_nil. unfold is_header.
  case_bool_decide as Hh.
  { intros [= <-]. rewrite decide_False by (by intros []). by rewrite app_nil_r. }
  rewrite decide_True by done. destruct kernel as [_ _ Hcomm Hread _].
  unfold field_bytes in *.
  case_bool_decide as Hc; [|case_bool_decide as Hret].
  - intros [= <-]. subst name. apply add_field_ok; [done..| |done]. split; [|done]. unfold zlen. cbn. by rewrite Hcomm.
  - case_bool_decide as Ha; [|done]. intros [= <-]. subst name.
    assert (wrap 32 (zlen (fs_params sig)) = zlen (fs_params sig)) as E by (unfold wrap, zlen; apply Z.mod_small; lia).
    rewrite E. apply add_field_ok; [done| |done|done|].
    + specialize (args_ret Ha). split; [unfold zlen; lia|]. unfold zlen. rewrite Nat2Z.id. by apply lookup_lt_is_Some.
    + done.
  - destruct (match split_once "." name with Some (q, f) => (q, Some f) | None => (name, None) end) as [q path] eqn:Hsp.
    destruct (position _ (fs_params sig)) as [i|] eqn:Hpos; [|done].
    pose proof (position_Some _ _ _ Hpos) as (param & Hi & _ & _). rewrite Hi.
    destruct (arg_index i) as [Ew Harg]; [by eapply lookup_lt_Some|]. rewrite Ew.
    assert (forall bs, (match path with
        | None => size ← type_size (type_fuel btf) btf (fp_type_id param); Some (le_put (Z.to_nat size) (arg k (Z.of_nat i)))
        | Some path => match pointer_pointee btf (fp_type_id param) with
            | PkStruct _ id => match resolve_field_offset btf id path with
                | Some (Ok r) => Some (k_read k (wrap 64 (arg k (Z.of_nat i) + as_i32 (rf_offset_bytes r))) (Z.to_nat (rf_size r)))
                | _ => None end
            | PkOther => None end
        end) = Some bs -> field_bytes name = Some bs) as Hf.
    { intros bs Hb. unfold field_bytes. rewrite !bool_decide_false by done. rewrite Hsp, Hpos. cbn [mbind option_bind].
      rewrite Hi. exact Hb. }
    destruct path as [path|].
    + destruct (pointer_pointee btf (fp_type_id param)) as [sname id|]; [|done].
      destruct (resolve_field_offset btf id path) as [[r|err]|] eqn:Hres; try done. intros [= <-].
      destruct (resolved_size _ _ _ _ Hres) as [Hin Hft].
      apply add_field_ok; [done|by split|done| |by apply Hf].
      split; cbn [fl_name fl_size fl_field_type]; [|by rewrite !bool_decide_false].
      unfold zlen. cbn [read_bytes]. rewrite Hread. rewrite !elem_of_cons, elem_of_nil in Hin. lia.
    + destruct (type_size (type_fuel btf) btf (fp_type_id param)) as [size|] eqn:Hs; [|done]. cbn [mbind option_bind] in *.
      case_bool_decide as Hin; [|done]. intros [= <-].
      apply add_field_ok; [done|by split|done| |by apply Hf].
      rewrite !elem_of_cons, elem_of_nil in Hin.
      split; cbn [fl_name fl_size fl_field_type].
      * unfold zlen. cbn [read_bytes]. rewrite le_put_length. lia.
      * rewrite !bool_decide_false by done. by destruct Hin as [-> | [-> | [-> | [-> | []]]]].
Qed.

Lemma plan_fields_ok names fields p p' :
  plan_ok names p -> plan_fields spec btf sig fields p = Some (Ok p') ->
  plan_ok (names ++ filter (fun name => ~ is_header name) fields) p'.
Proof.
  revert names p. induction fields as [|f fields IH]; intros names p Hp; cbn.
  { intros [= <-]. by rewrite app_nil_r. }
  destruct (plan_field spec btf sig p f) as [[p1|err]|] eqn:H1; try done. cbn. intros H2.
  apply (plan_field_ok _ _ _ _ Hp) in H1. apply (IH _ _ H1) in H2.
  by rewrite <- app_assoc, <- filter_app in H2.
Qed.
End spec.

(* ------------------------------------------------------------------ *)
(** ** The generated program *)

Lemma align8 z : 0 <= z -> exists w, Z.land (z + 7) (Z.lnot 7) = 8 * w /\ z <= 8 * w < z + 8 /\ 0 <= w.
Proof.
  intros Hz. exists ((z + 7) / 8). change 7 with (Z.ones 3) at 2. rewrite <- Z.ldiff_land, Z.ldiff_ones_r by lia.
  rewrite Z.shiftl_mul_pow2, Z.shiftr_div_pow2 by lia. change (2 ^ 3) with 8.
  pose proof (Z.div_mod (z + 7) 8). pose proof (Z.mod_pos_bound (z + 7) 8). lia.
Qed.

Lemma packed_length k from reads to : packed k from reads to -> to = from + zlen (concat (map (read_bytes k) reads)).
Proof.
  revert from. induction reads as [|r reads IH]; intros from; cbn [packed map concat]; [intros ->; unfold zlen; cbn [length]; lia|]. intros [_ H]. apply IH in H.
  rewrite zlen_app. lia.
Qed.

(** The field [fl] of the event is [bs]. *)
Definition field_in (event : list byte) (fl : FieldLayout) (bs : list byte) : Prop :=
  describes fl bs /\ slice (Z.to_nat (fl_offset fl)) (Z.to_nat (fl_size fl)) event = bs.

(** Each field is where the layout says. *)
Lemma layout_slices k ls reads d to pad :
  Forall2 (fun fl r => fl_offset fl = read_offset r /\ describes fl (read_bytes k r)) ls reads ->
  packed k (zlen d) reads to ->
  Forall2 (field_in (d ++ concat (map (read_bytes k) reads) ++ pad)) ls (map (read_bytes k) reads).
Proof.
  intros Hls. revert d. induction Hls as [|fl r ls reads [Ho [Hs Ht]] Hls IH]; intros d Hp; cbn; constructor.
  - destruct Hp as [Hr _]. split; [done|]. rewrite Ho, Hs, Hr. unfold slice, zlen. rewrite !Nat2Z.id, drop_app_length, <- app_assoc.
    apply take_app_length.
  - destruct Hp as [_ Hp]. specialize (IH (d ++ read_bytes k r)). rewrite zlen_app in IH. specialize (IH Hp).
    by rewrite <- !app_assoc in IH; rewrite <- app_assoc.
Qed.

Definition header_layout (k : Kernel) : list (list byte) :=
  [le_put 8 (k_ktime k); le_put 4 (k_pid_tgid k / 2 ^ 32); le_put 4 (k_pid_tgid k mod 2 ^ 32)].

Lemma header_slices k rest :
  Forall2 (field_in (header_bytes k ++ rest)) (pl_layout header_plan) (header_layout k).
Proof. repeat constructor. Qed.

Section generated.
Variables (k : Kernel) (relocs : list (nat * nat)) (prog : list BpfInsn) (elem : nat -> Z) (e : nat).
Hypothesis kernel : kernel_ok k.
Hypothesis key_filter : k_key_size k MAP_IDX_PID_FILTER = 4%nat.
Hypothesis key_drops : k_key_size k MAP_IDX_RINGBUF_DROPS = 4%nat.
Hypothesis reloc_filter : reloc_at relocs 10 = Some MAP_IDX_PID_FILTER.
Let base : Z := - (4 + Z.of_nat e).

Lemma self_filter_split :
  self_filter.1 = take 14 self_filter.1 ++ [jeq_imm R0 0 (Z.of_nat 2)] ++ [mov64_imm R0 0; exit].
Proof. done. Qed.

(** A filtered thread's run ends without a record. *)
Lemma filtered_run :
  code_at prog 0 (mov64_reg R7 R1 :: self_filter.1) -> filtered k = true ->
  exists m, run (length prog) k relocs prog 0 (boot elem) = Some (Some (0, m)) /\ m_out m = [] /\ m_elem m = elem.
Proof.
  intros Hc Hf. destruct (prologue_block k relocs elem key_filter reloc_filter) as (m & He & Hz & Hm).
  rewrite self_filter_split, app_comm_cons in Hc. apply code_at_app in Hc as [Hc1 Hc].
  apply code_at_app in Hc as [Hj Hc2]. apply code_at_cons in Hj as [Hj _].
  rewrite Hf in Hz. pose proof (block_goes _ _ _ _ _ _ _ Hc1 He) as Hg.
  assert (goes k relocs prog 0 (boot elem) (Z.of_nat 16) m) as Hg16.
  { eapply goes_trans; [exact Hg|]. by apply (jeq_go k relocs prog 15 2 m false). }
  destruct (ends k relocs prog 16 _ m Hg16 Hc2) as (m' & Hrun & Ho & Hel); [by destruct Hm|].
  exists m'. destruct Hm. by split_and!.
Qed.

(** Otherwise it goes on, past the two instructions, to a cleared event with its header. *)
Lemma header_run w zeros :
  (16 <= e)%nat -> (e <= 508)%nat -> Z.of_nat e = 8 * w -> zeros = zero_init base (Z.of_nat e) ->
  code_at prog 0 (mov64_reg R7 R1 :: self_filter.1 ++ zeros ++ fill_header base) -> filtered k = false ->
  exists m, goes k relocs prog 0 (boot elem) (Z.of_nat (18 + length (zeros ++ fill_header base))) m /\
            at_point k (repeat None (508 - e)) (map Some (filter_key k)) elem [] (filled e (header_bytes k)) m.
Proof.
  intros He1 He2 Hw Hz Hc Hf.
  destruct (prologue_block k relocs elem key_filter reloc_filter) as (m & He & Hr0 & Hm).
  change (mov64_reg R7 R1 :: self_filter.1 ++ zeros ++ fill_header base) with
    ((mov64_reg R7 R1 :: take 14 self_filter.1) ++ [jeq_imm R0 0 (Z.of_nat 2)] ++ [mov64_imm R0 0; exit] ++
     zeros ++ fill_header base) in Hc.
  apply code_at_app in Hc as [Hc1 Hc]. apply code_at_app in Hc as [Hj Hc2]. apply code_at_cons in Hj as [Hj _].
  apply code_at_app in Hc2 as [_ Hc2]. apply code_at_app in Hc2 as [Hc2 Hc3].
  rewrite Hf in Hr0. pose proof (block_goes _ _ _ _ _ _ _ Hc1 He) as Hg.
  assert (goes k relocs prog 0 (boot elem) (Z.of_nat 18) m) as Hg18.
  { eapply goes_trans; [exact Hg|]. by apply (jeq_go k relocs prog 15 2 m true). }
  assert (at_point k (repeat None (508 - e)) (map Some (filter_key k)) elem [] (cleared e 0) m) as Hm0.
  { destruct Hm. unfold cleared. rewrite Nat.sub_0_r. change (repeat (Some x00) 0 ++ repeat None e) with (repeat (@None byte) e).
    replace (repeat None 508 ++ [] ++ map Some (filter_key k))
      with (repeat None (508 - e) ++ repeat None e ++ map Some (filter_key k)); [apply at_event_intro|].
    rewrite app_assoc, <- repeat_app. by replace (508 - e + e)%nat with 508%nat by lia. }
  assert (length (repeat (@None byte) (508 - e)) + e + length (map Some (filter_key k)) = 512)%nat as Hpre.
  { rewrite repeat_length, length_map. unfold filter_key. rewrite le_put_length. lia. }
  assert (exists m1, goes k relocs prog (Z.of_nat 18) m (Z.of_nat (18 + length zeros)) m1 /\
    at_point k (repeat None (508 - e)) (map Some (filter_key k)) elem [] (filled e []) m1) as (m1 & Hg1 & Hm1).
  { unfold zero_init in Hz. destruct (zero_loop8 _ _ _) as [[insns off] rem] eqn:Hl.
    rewrite as_i16_small in Hl by (unfold base; lia). rewrite Hw in Hl. replace w with (Z.of_nat (Z.to_nat w)) in Hl by lia.
    replace base with (base + Z.of_nat 0) in Hl by lia.
    assert (insns ++ zero_loop4 (S (Z.to_nat (Z.of_nat e))) off rem = zeros) as E by done.
    destruct (zero_go k relocs _ _ elem e Hpre eq_refl prog (S (Z.to_nat (8 * Z.of_nat (Z.to_nat w)))) (Z.to_nat w) 0 18 m insns off rem) as [-> (m1 & Hg1 & Hm1)];
      [lia|lia|exact Hl|by subst zeros; apply code_at_app in Hc2 as [Hc2 _]|exact Hm0|].
    change (zero_loop4 (S (Z.to_nat (Z.of_nat e))) off 0) with (@nil BpfInsn) in E. rewrite app_nil_r in E. subst insns.
    exists m1. split; [exact Hg1|]. unfold filled. cbn [length app]. rewrite Nat.sub_0_r.
    unfold cleared in Hm1. rewrite Nat.sub_diag, app_nil_r in Hm1. by rewrite map_repeat. }
  destruct (header_block k relocs _ _ elem e Hpre eq_refl (18 + length zeros) m1) as (m2 & He3 & Hm2); [lia|done|].
  exists m2. split; [|done]. eapply goes_trans; [exact Hg18|]. eapply goes_trans; [exact Hg1|].
  rewrite length_app, Nat.add_assoc. eapply block_goes; [exact Hc3|exact He3].
Qed.
End generated.

(** The event of one call: the header, the fields the probe wants, one after the other, and zeros. *)
Definition event_of (k : Kernel) (fields : list (list byte)) (size : Z) : list byte :=
  let written := header_bytes k ++ concat fields in
  written ++ repeat x00 (Z.to_nat size - length written).

(** The event only grows. *)
Lemma plan_field_offset spec btf sig p f p' :
  plan_field spec btf sig p f = Some (Ok p') -> pl_offset p <= pl_offset p'.
Proof.
  unfold plan_field. repeat (case_bool_decide; [try case_match; intros [= <-] || done; cbn; lia|]).
  destruct (match split_once "." f with Some (q, path) => (q, Some path) | None => (f, None) end) as [q path].
  destruct (position _ _) as [i|]; [|done]. destruct (fs_params sig !! i) as [param|]; [|done]. destruct path as [path|].
  - destruct (pointer_pointee _ _) as [sname id|]; [|done].
    destruct (resolve_field_offset btf id path) as [[r|err]|] eqn:Hr; try done. intros [= <-]. cbn.
    apply resolved_size in Hr as [Hr _]. rewrite !elem_of_cons, elem_of_nil in Hr. lia.
  - destruct (type_size _ _ _) as [size|]; [|done]. cbn [mbind option_bind]. case_bool_decide as Hin; [|done].
    intros [= <-]. cbn. rewrite !elem_of_cons, elem_of_nil in Hin. lia.
Qed.

Lemma plan_fields_offset spec btf sig fields p p' :
  plan_fields spec btf sig fields p = Some (Ok p') -> pl_offset p <= pl_offset p'.
Proof.
  revert p. induction fields as [|f fields IH]; intros p; cbn; [intros [= <-]; lia|].
  destruct (plan_field spec btf sig p f) as [[p1|err]|] eqn:H1; try done. intros H2.
  apply plan_field_offset in H1. apply IH in H2. lia.
Qed.

(** What [generate] does when it succeeds. *)
Lemma generate_Ok spec btf sig g :
  resolve_function btf (sp_function spec) = Ok sig -> generate spec btf = Some (Ok g) ->
  exists plan w reads,
    plan_fields spec btf sig (sp_fields spec) header_plan = Some (Ok plan) /\
    gp_field_layout g = pl_layout plan /\ gp_event_size g = Z.land (pl_offset plan + 7) (Z.lnot 7) /\
    gp_event_size g <= 508 /\ w = Z.to_nat (gp_event_size g) /\
    let base := - (4 + as_i32 (gp_event_size g)) in
    emit_reads base (pl_reads plan) = Ok reads /\
    let before := mov64_reg R7 R1 :: self_filter.1 ++ zero_init base (gp_event_size g) ++ fill_header base in
    let at_ := length (before ++ reads) in
    gp_instructions g = before ++ reads ++ (emit_output 0 base (gp_event_size g)).1 /\
    gp_relocations g = [(10%nat, MAP_IDX_PID_FILTER); (at_, MAP_IDX_RINGBUF); ((at_ + 9)%nat, MAP_IDX_RINGBUF_DROPS)] /\
    zlen (gp_instructions g) <= 4096.
Proof.
  intros Hs. unfold generate. rewrite Hs.
  destruct (plan_fields spec btf sig (sp_fields spec) header_plan) as [[plan|err]|]; try done. cbn [mbind option_bind result_bind].
  set (E := Z.land (pl_offset plan + 7) (Z.lnot 7)).
  destruct (MAX_STACK <? E + 4) eqn:Hmax; [done|]. apply Z.ltb_ge in Hmax. unfold MAX_STACK in Hmax.
  destruct self_filter as [sf rl] eqn:Hsf. assert (rl = [(9%nat, MAP_IDX_PID_FILTER)]) as -> by (by injection Hsf as <- <-).
  destruct (emit_reads _ _) as [reads|err] eqn:Hr; [|done]. cbn [result_bind].
  destruct (emit_output _ _ _) as [output more] eqn:Ho.
  destruct (4096 <? _) eqn:Hlen; [done|]. apply Z.ltb_ge in Hlen. intros [= <-]. cbn [gp_instructions gp_relocations gp_field_layout gp_event_size].
  exists plan, (Z.to_nat E), reads. cbn [fst].
  unfold emit_output in Ho. injection Ho as <- <-.
  split_and!; try done; try lia.
  symmetry. apply (app_assoc (_ :: _)).
Qed.

Lemma reloc_at_later n at_ :
  (n < at_)%nat -> forall f b d,
  let relocs := [(n, f); (at_, b); ((at_ + 9)%nat, d)] in
  reloc_at relocs n = Some f /\ reloc_at relocs at_ = Some b /\ reloc_at relocs (at_ + 9) = Some d.
Proof.
  intros Hlt f b d relocs. unfold reloc_at, relocs. cbn [find_first fst].
  rewrite !Nat.eqb_refl, (proj2 (Nat.eqb_neq n at_)), (proj2 (Nat.eqb_neq n (at_ + 9))),
    (proj2 (Nat.eqb_neq at_ (at_ + 9))) by lia. done.
Qed.

(** The run of a program put together from its parts. *)
Lemma program_runs k elem (e : nat) w to frs reads :
  let base := - (4 + Z.of_nat e) in
  let before := mov64_reg R7 R1 :: self_filter.1 ++ zero_init base (Z.of_nat e) ++ fill_header base in
  let at_ := length (before ++ reads) in
  let prog := before ++ reads ++ (emit_output 0 base (Z.of_nat e)).1 in
  let relocs := [(10%nat, MAP_IDX_PID_FILTER); (at_, MAP_IDX_RINGBUF); ((at_ + 9)%nat, MAP_IDX_RINGBUF_DROPS)] in
  let event := event_of k (map (read_bytes k) frs) (Z.of_nat e) in
  let offered := negb (filtered k) in
  let accepted := k_ringbuf k MAP_IDX_RINGBUF event in
  let counted := offered && negb accepted && k_has_key k MAP_IDX_RINGBUF_DROPS (le_put 4 0) in
  kernel_ok k -> k_key_size k MAP_IDX_PID_FILTER = 4%nat -> k_key_size k MAP_IDX_RINGBUF_DROPS = 4%nat ->
  Z.of_nat e = 8 * w -> 16 <= to <= Z.of_nat e -> Z.of_nat e <= 508 ->
  Forall (read_ok k) frs -> packed k 16 frs to -> emit_reads base frs = Ok reads ->
  zlen event = Z.of_nat e /\
  exists m, run (length prog) k relocs prog 0 (boot elem) = Some (Some (0, m)) /\
    m_out m = (if offered && accepted then [(MAP_IDX_RINGBUF, event)] else []) /\
    forall i, m_elem m i = if counted && (i =? MAP_IDX_RINGBUF_DROPS)%nat then wrap 64 (elem i + 1) else elem i.
Proof.
  intros base before at_ prog relocs event offered accepted counted Hk Hkf Hkd Hw Hto He Hok Hpk Hr.
  set (zeros := zero_init base (Z.of_nat e)) in *.
  assert (length before = 18 + length (zeros ++ fill_header base))%nat as Hlen.
  { unfold before. cbn [length]. rewrite length_app. by change (length self_filter.1) with 17%nat. }
  destruct (reloc_at_later 10 at_) with (f := MAP_IDX_PID_FILTER) (b := MAP_IDX_RINGBUF) (d := MAP_IDX_RINGBUF_DROPS)
    as (R1 & R2 & R3); [unfold at_; rewrite length_app; lia|]. fold relocs in R1, R2, R3.
  assert (code_at prog 0 (before ++ reads ++ (emit_output 0 base (Z.of_nat e)).1)) as Hc
    by (exists []; by rewrite app_nil_r).
  apply code_at_app in Hc as [Hc1 Hc]. apply code_at_app in Hc as [Hc2 Hc3].
  assert (length (repeat (@None byte) (508 - e)) + e + length (map Some (filter_key k)) = 512)%nat as Hpre.
  { rewrite repeat_length. change (length (map Some (filter_key k))) with 4%nat. lia. }
  set (written := header_bytes k ++ concat (map (read_bytes k) frs)).
  assert (zlen written = to) as Hwr.
  { unfold written. rewrite zlen_app, (packed_length _ _ _ _ Hpk). unfold zlen at 1. by rewrite header_bytes_length. }
  assert (event = written ++ repeat x00 (e - length written)) as Hev by (unfold event, event_of; by rewrite Nat2Z.id).
  assert (forall m, at_point k (repeat None (508 - e)) (map Some (filter_key k)) elem [] (filled e written) m ->
            goes k relocs prog 0 (boot elem) (Z.of_nat at_) m -> filtered k = false -> exists m, run (length prog) k relocs prog 0 (boot elem) = Some (Some (0, m)) /\
    m_out m = (if offered && accepted then [(MAP_IDX_RINGBUF, event)] else []) /\
    forall i, m_elem m i = if counted && (i =? MAP_IDX_RINGBUF_DROPS)%nat then wrap 64 (elem i + 1) else elem i) as Hend.
  { intros m Hm Hg Hf. unfold counted, offered. rewrite Hf. cbn [negb andb]. unfold accepted in *. rewrite Hev.
    apply (output_ends k relocs _ _ elem e Hpre eq_refl prog at_ _ m written); try done; [unfold zlen in Hwr; lia|].
    unfold at_. by rewrite length_app. }
  split; [rewrite Hev, zlen_app; unfold zlen in *; rewrite repeat_length; lia|].
  destruct (filtered k) eqn:Hf.
  { destruct (filtered_run k relocs prog elem Hkf R1) as (m & Hrun & Ho & Hel); [|done|].
    - apply (code_at_app prog 0 (mov64_reg R7 Bpf.R1 :: self_filter.1) (zeros ++ fill_header base)) in Hc1. apply Hc1.
    - exists m. split_and!; [done|done|]. intros i. unfold counted, offered. cbn. by rewrite Hel. }
  destruct (header_run k relocs prog elem e Hkf Hkd R1 w zeros) as (m & Hg & Hm); [lia|lia|done|done|exact Hc1|done|].
  assert (goes k relocs prog 0 (boot elem) (Z.of_nat (length before)) m) as Hg0 by (rewrite Hlen; exact Hg).
  destruct (reads_go k Hk relocs _ _ elem e Hpre eq_refl prog (length before) frs reads m (header_bytes k) to)
    as (m' & Hg' & Hm' & _); [done|unfold zlen; rewrite header_bytes_length; exact Hpk|lia|done|done|done|].
  apply (Hend m' Hm'); [|done]. eapply goes_trans; [exact Hg0|]. unfold at_. by rewrite length_app.
Qed.

(** C5: generated programs are correct. Take any specification [generate] accepts and any kernel
    whose function is called with as many arguments as its signature says (and the return value,
    on exit). The program runs to its exit in no more steps than it has instructions, without
    reading a register or a stack byte it has not written and without leaving its frame, and
    returns 0. The record it offers the ring buffer is, byte for byte, the time, the process and
    thread, the wanted fields in the order of the specification, and zeros up to the announced
    size; every field lies where the layout says. A filtered process offers nothing, a record is
    offered once, and a refused record counts one drop, modulo 2^64, and changes nothing else. *)
Theorem generated_program_correct spec btf sig g k elem :
  kernel_ok k -> k_key_size k MAP_IDX_PID_FILTER = 4%nat -> k_key_size k MAP_IDX_RINGBUF_DROPS = 4%nat ->
  resolve_function btf (sp_function spec) = Ok sig -> (length (fs_params sig) < 4096)%nat ->
  (length (fs_params sig) + (if bool_decide (sp_attachment spec = AtFexit) then 1 else 0) <= length (k_args k))%nat ->
  generate spec btf = Some (Ok g) ->
  exists fields m,
    let event := event_of k fields (gp_event_size g) in
    let offered := negb (filtered k) in
    let accepted := k_ringbuf k MAP_IDX_RINGBUF event in
    let counted := offered && negb accepted && k_has_key k MAP_IDX_RINGBUF_DROPS (le_put 4 0) in
    Forall2 (fun name bs => field_bytes k btf sig name = Some bs) (wanted_fields spec) fields /\
    (exists ls, gp_field_layout g = pl_layout header_plan ++ ls /\ map fl_name ls = wanted_fields spec) /\
    Forall2 (field_in event) (gp_field_layout g) (header_layout k ++ fields) /\
    zlen event = gp_event_size g /\
    run (length (gp_instructions g)) k (gp_relocations g) (gp_instructions g) 0 (boot elem) = Some (Some (0, m)) /\
    m_out m = (if offered && accepted then [(MAP_IDX_RINGBUF, event)] else []) /\
    forall i, m_elem m i = if counted && (i =? MAP_IDX_RINGBUF_DROPS)%nat then wrap 64 (elem i + 1) else elem i.
Proof.
  intros Hk Hkf Hkd Hs Hfew Hargs Hg.
  destruct (generate_Ok _ _ _ _ Hs Hg) as (plan & w & reads & Hp & Hlay & Hsize & Hmax & -> & Hreads & Hprog & Hrel & Hlen).
  cbv zeta in Hreads, Hprog, Hrel.
  apply (plan_fields_ok k spec btf sig Hk Hfew) with (names := []) in Hp as [(ls & Hl & Hn & Hls) Hok Hpk Hb];
    [|lia|intros Ha; rewrite bool_decide_true in Hargs by done; lia|apply header_plan_ok].
  assert (zlen (header_bytes k) = 16) as H16 by (unfold zlen; by rewrite header_bytes_length).
  pose proof (packed_length _ _ _ _ Hpk) as Hto. pose proof (zlen_nonneg (concat (map (read_bytes k) (pl_reads plan)))).
  destruct (align8 (pl_offset plan)) as (w & HE & Hoff & Hw); [lia|].
  set (E := gp_event_size g) in *. rewrite HE in Hsize.
  set (e := Z.to_nat E) in *. assert (E = Z.of_nat e) as HeE by (unfold e; lia).
  rewrite as_i32_small in * by lia. rewrite HeE in Hreads, Hprog, Hrel.
  destruct (program_runs k elem e w (pl_offset plan) (pl_reads plan) reads) as (Hev & m & Hrun & Hout & Hel);
    [done|done|done|lia|lia|lia|done|done|done|].
  rewrite <- Hprog, <- Hrel, <- ?HeE in *.
  exists (map (read_bytes k) (pl_reads plan)), m. split_and!; [..|done|done|done].
  - apply Forall2_fmap_r. exact Hb.
  - exists ls. by rewrite Hlay, Hl.
  - rewrite Hlay, Hl. unfold event_of. rewrite <- app_assoc. apply Forall2_app; [apply header_slices|].
    apply layout_slices with (to := pl_offset plan); [exact Hls|by rewrite H16].
  - exact Hev.
Qed.

(* ------------------------------------------------------------------ *)
(** ** What goes into the object file *)

Lemma lor_width w a b : 0 <= w -> in_width w a -> in_width w b -> in_width w (Z.lor a b).
Proof.
  intros Hw Ha Hb. assert (Z.lor a b = Z.lor a b mod 2 ^ w) as ->; [|apply Z.mod_pos_bound; lia].
  apply Z.bits_inj'. intros n Hn. destruct (Z.ltb_spec n w); [by rewrite Z.mod_pow2_bits_low|].
  rewrite Z.mod_pow2_bits_high, Z.lor_spec by lia.
  rewrite <- (Z.mod_small a (2 ^ w)), <- (Z.mod_small b (2 ^ w)) by done. by rewrite !Z.mod_pow2_bits_high by lia.
Qed.

Lemma insn_new_ok code dst src off imm :
  in_width 8 code -> - 2 ^ 15 <= off < 2 ^ 15 -> - 2 ^ 31 <= imm < 2 ^ 31 -> insn_ok (BpfInsn_new code dst src off imm).
Proof.
  intros Hc Ho Hi. split; [done|]. split; [|by split]. apply lor_width; [lia|apply Z.mod_pos_bound; lia|].
  unfold in_width. change 15 with (Z.ones 4). rewrite Z.land_ones by lia. pose proof (Z.mod_pos_bound dst (2 ^ 4)). lia.
Qed.

Ltac insn :=
  apply insn_new_ok; [split; by vm_compute| |];
  first [lia|apply (wrap_signed_range 16); lia|apply (wrap_signed_range 32); lia|split; by vm_compute].
Ltac insns := repeat first [apply Forall_nil_2|apply Forall_cons_2; [insn|]].

Lemma zero_init_ok base size : Forall insn_ok (zero_init base size).
Proof.
  assert (forall fuel off rem, - 2 ^ 15 <= off < 2 ^ 15 -> Forall insn_ok (zero_loop8 fuel off rem).1.1 /\
            - 2 ^ 15 <= (zero_loop8 fuel off rem).1.2 < 2 ^ 15) as H8.
  { induction fuel as [|fuel IH]; intros off rem Ho; cbn [zero_loop8]; [by split|]. destruct (8 <=? rem); [|by split].
    destruct (IH (as_i16 (off + 8)) (rem - 8)) as [H1 H2]; [apply (wrap_signed_range 16); lia|].
    destruct (zero_loop8 fuel _ _) as [[insns off'] rem']. split; [|done]. constructor; [by insn|done]. }
  assert (forall fuel off rem, - 2 ^ 15 <= off < 2 ^ 15 -> Forall insn_ok (zero_loop4 fuel off rem)) as H4.
  { induction fuel as [|fuel IH]; intros off rem Ho; cbn [zero_loop4]; [done|]. destruct (4 <=? rem); [|done].
    constructor; [insn|]. apply IH, (wrap_signed_range 16). lia. }
  unfold zero_init. specialize (H8 (S (Z.to_nat size)) (as_i16 base) size (wrap_signed_range 16 _ ltac:(lia))).
  destruct (zero_loop8 _ _ _) as [[insns off] rem]. apply Forall_app. split; [apply H8|apply H4, H8].
Qed.

Lemma emit_reads_ok base reads insns : emit_reads base reads = Ok insns -> Forall insn_ok insns.
Proof.
  revert insns. induction reads as [|r reads IH]; intros insns; cbn [emit_reads]; [by intros [= <-]|].
  destruct (emit_read base r) as [one|] eqn:H1; [|done]. destruct (emit_reads base reads) as [more|]; [|done].
  intros [= <-]. apply Forall_app. split; [|by apply IH].
  destruct r as [o|o i|o i size|o i so size ft]; cbn [emit_read] in H1.
  3: repeat (destruct (Z.eqb _ _); [injection H1 as <-; insns|]); done.
  all: injection H1 as <-; insns.
Qed.

Lemma generated_insns_ok spec btf sig g :
  resolve_function btf (sp_function spec) = Ok sig -> generate spec btf = Some (Ok g) -> Forall insn_ok (gp_instructions g).
Proof.
  intros Hs Hg. destruct (generate_Ok _ _ _ _ Hs Hg) as (plan & w & reads & Hpl & _ & Hsz & Hmax & _ & Hr & Hp & _).
  apply plan_fields_offset in Hpl. cbn in Hpl.
  assert (0 <= gp_event_size g) by (rewrite Hsz; apply Z.land_nonneg; left; lia).
  rewrite as_i32_small in * by lia. rewrite Hp. apply Forall_app. split; [|apply Forall_app; split; [by eapply emit_reads_ok|]].
  - apply Forall_cons_2; [insn|]. apply Forall_app. split; [|apply Forall_app; split; [apply zero_init_ok|insns]].
    unfold self_filter. cbn [fst length app take Nat.sub ld_map_fd]. insns.
  - unfold emit_output. cbn [fst app ld_map_fd]. insns.
Qed.

(** The maps, by index: the symbol's name and the definition in its section. *)
Definition map_spec (g : GeneratedProgram) (ringbuf_size : Z) : list (string * BpfMapDef) :=
  [("PID_FILTER", pid_filter_def); (gp_map_name g, ringbuf_def ringbuf_size); (gp_map_name g +:+ "_DROPS", ringbuf_drops_def)].

Lemma map_load_at (before rest : list BpfInsn) i dst :
  i = length before -> exists insn, (before ++ ld_map_fd dst ++ rest) !! i = Some insn /\ decode insn = decode (BpfInsn_new 0x18 dst 1 0 0).
Proof. intros ->. eexists. by rewrite lookup_app_r, Nat.sub_diag by lia. Qed.

(** The object file carries the program. For every program [generate] makes, the object is
    built, if the writer takes its relocations; the program section's bytes decode to exactly its instructions, under the name the
    loader attaches by; and each of the three relocations is on a map load, at the symbol of its
    map, whose section holds the map's definition. *)
Theorem object_carries_program add_relocation spec btf sig g ringbuf_size :
  (forall r, add_relocation r = None) ->
  resolve_function btf (sp_function spec) = Ok sig -> generate spec btf = Some (Ok g) ->
  exists obj program,
    elf_object add_relocation (sp_function spec) (sp_attachment spec) (gp_instructions g) (gp_relocations g) (gp_map_name g) ringbuf_size = Ok obj /\
    eo_sections obj !! 4%nat = Some program /\
    es_name program = (match sp_attachment spec with AtFentry => "fentry/" | AtFexit => "fexit/" end) +:+ sp_function spec /\
    insns_of_bytes (length (gp_instructions g)) (es_data program) = gp_instructions g /\
    Forall2 (fun rel (r : nat * nat) =>
        er_section rel = 4%nat /\ er_offset rel = Z.of_nat (8 * r.1) /\
        (exists insn, gp_instructions g !! r.1 = Some insn /\ decode insn = Some (OMapFd 1)) /\
        exists sym sec name def,
          map_spec g ringbuf_size !! r.2 = Some (name, def) /\
          eo_symbols obj !! er_symbol rel = Some sym /\ ey_name sym = name /\
          eo_sections obj !! ey_section sym = Some sec /\ es_data sec = map_def_bytes def)
      (eo_relocs obj) (gp_relocations g).
Proof.
  intros Hadd Hs Hg. pose proof (generated_insns_ok _ _ _ _ Hs Hg) as Hok.
  destruct (generate_Ok _ _ _ _ Hs Hg) as (plan & w & reads & _ & _ & _ & _ & _ & _ & Hp & Hr & _).
  set (base := - (4 + as_i32 (gp_event_size g))) in *.
  set (before := mov64_reg R7 R1 :: _) in *. set (at_ := length (before ++ reads)) in *.
  assert (forall i, In i [10%nat; at_; (at_ + 9)%nat] -> exists insn, gp_instructions g !! i = Some insn /\ decode insn = Some (OMapFd 1)) as Hload.
  { intros i Hi. cbn in Hi. destruct Hi as [<- | [<- | [<- | []]]].
    - eexists. by rewrite Hp.
    - destruct (map_load_at (before ++ reads) (drop 2 (emit_output 0 base (gp_event_size g)).1) at_ R1 eq_refl) as (insn & Hi & Hd).
      exists insn. by rewrite Hp, app_assoc.
    - destruct (map_load_at (before ++ reads ++ take 9 (emit_output 0 base (gp_event_size g)).1)
                  (drop 11 (emit_output 0 base (gp_event_size g)).1) (at_ + 9) R1) as (insn & Hi & Hd);
        [by rewrite app_assoc, length_app|].
      exists insn. rewrite Hp. by rewrite <- !app_assoc in Hi. }
  rewrite Hr. unfold elf_object. cbn [elf_relocs]. rewrite !Hadd. eexists _, _. split_and!; [done..| | |].
  - by destruct (sp_attachment spec).
  - cbn [es_data]. rewrite <- (app_nil_r (encode _)). by apply encode_decodes.
  - repeat apply Forall2_cons_2; [..|apply Forall2_nil_2]; cbn [fst snd er_section er_offset];
      (split_and!; [done|lia|apply Hload; cbn; tauto|]); do 4 eexists; by split_and!.
Qed.

(** Generation ends. In BTF without cyclic types every probe specification gives a program or
    an error. *)
Theorem generate_total spec btf : Acyclic btf -> is_Some (generate spec btf).
Proof.
  intros Ha. unfold generate. destruct (resolve_function btf (sp_function spec)) as [sig|]; [|by eexists].
  assert (forall p f, is_Some (plan_field spec btf sig p f)) as H1.
  { intros p f. unfold plan_field. repeat (case_bool_decide; [try case_match; by eexists|]).
    destruct (match split_once "." f with Some (q, path) => (q, Some path) | None => (f, None) end) as [q path].
    destruct (position _ _) as [i|] eqn:Hp; [|by eexists]. destruct (position_Some _ _ _ Hp) as (param & -> & _).
    destruct path as [path|].
    - destruct (pointer_pointee _ _) as [sname id|]; [|by eexists].
      destruct (resolve_parts_total btf path _ id 0 Ha : is_Some (resolve_field_offset btf id path)) as [r Hr].
      rewrite Hr. by eexists.
    - destruct (type_size_total btf (fp_type_id param) Ha) as [size ->]. cbn. case_bool_decide; by eexists. }
  assert (forall fields p, is_Some (plan_fields spec btf sig fields p)) as Hs.
  { induction fields as [|f fields IH]; intros p; cbn; [by eexists|].
    destruct (H1 p f) as [[p'|e] ->]; cbn; [apply IH|by eexists]. }
  destruct (Hs (sp_fields spec) header_plan) as [planned ->]. by eexists.
Qed.

(* ------------------------------------------------------------------ *)
(** ** One program *)

Definition w_spec : ProbeSpec :=
  mkProbeSpec "tcp_connect" AtFexit ["sk.common.daddr"; "pid"; "cookie"; "ret"; "comm"] "kernel.tcp.connect".
Definition w_sig : FunctionSignature := Eval vm_compute in
  match resolve_function w_btf "tcp_connect" with Ok sig => sig | Err _ => mkFunctionSignature "" [] 0 end.
Definition w_program : GeneratedProgram := Eval vm_compute in
  match generate w_spec w_btf with Some (Ok g) => g | _ => mkGeneratedProgram [] [] [] 0 "" end.

(** Process 7, thread 9, called with a socket at 4096 and cookie 77, returning -1; the ring buffer
    is full. *)
Definition w_kernel : Kernel := {|
  k_pid_tgid := 7 * 2 ^ 32 + 9;
  k_ktime := 1000;
  k_comm := fun n => repeat "c"%byte n;
  k_read := fun addr n => le_put n addr;
  k_args := [4096; 77; 2 ^ 64 - 1];
  k_key_size := fun _ => 4%nat;
  k_has_key := fun map _ => (map =? MAP_IDX_RINGBUF_DROPS)%nat;
  k_ringbuf := fun _ _ => false
|}.

Lemma w_kernel_ok : kernel_ok w_kernel.
Proof.
  split; [by vm_compute|by vm_compute|intros n; apply repeat_length|intros a n; apply le_put_length|].
  repeat constructor; by vm_compute.
Qed.

Lemma generated_program_correct_witness :
  exists m, run (length (gp_instructions w_program)) w_kernel (gp_relocations w_program) (gp_instructions w_program) 0
              (boot (fun _ => 5)) = Some (Some (0, m)) /\ m_out m = [] /\ m_elem m 2 = 6.
Proof.
  destruct (generated_program_correct w_spec w_btf w_sig w_program w_kernel (fun _ => 5)) as
    (fields & m & _ & _ & _ & _ & Hrun & Hout & Hel).
  - apply w_kernel_ok.
  - reflexivity.
  - reflexivity.
  - by vm_compute.
  - apply Nat.ltb_lt. by vm_compute.
  - apply Nat.leb_le. by vm_compute.
  - by vm_compute.
  - exists m. split; [exact Hrun|]. split; [exact Hout|]. rewrite Hel. by vm_compute.
Defined.

Lemma object_carries_program_witness :
  exists obj, elf_object (fun _ => None) "tcp_connect" AtFexit (gp_instructions w_program) (gp_relocations w_program)
                (gp_map_name w_program) DEFAULT_RINGBUF_SIZE = Ok obj.
Proof.
  destruct (object_carries_program (fun _ => None) w_spec w_btf w_sig w_program DEFAULT_RINGBUF_SIZE) as (obj & program & Ho & _);
    [done|by vm_compute|by vm_compute|]. exists obj. exact Ho.
Defined.

Lemma generate_total_witness : is_Some (generate w_spec w_btf).
Proof. apply generate_total, w_btf_acyclic. Defined.

(** What the verifier of the kernel refuses in every program [generate] makes: the first map load,
    left behind by the first attempt at the self-filter, keeps the placeholder descriptor 0, as
    no relocation names it; and the timestamp is an eight-byte store at a frame offset that is
    four more than a multiple of eight. *)
Theorem generated_program_not_loadable spec btf sig g :
  resolve_function btf (sp_function spec) = Ok sig -> generate spec btf = Some (Ok g) ->
  (exists insn, gp_instructions g !! 6%nat = Some insn /\ decode insn = Some (OMapFd 1) /\ i_imm insn = 0 /\
                reloc_at (gp_relocations g) 6 = None) /\
  exists insn off, insn ∈ gp_instructions g /\ decode insn = Some (OStore SzDW 10 0 off) /\ off mod 8 = 4.
Proof.
  intros Hs Hg. destruct (generate_Ok _ _ _ _ Hs Hg) as (plan & w & reads & Hpl & _ & Hsz & Hmax & _ & _ & Hp & Hr & _).
  apply plan_fields_offset in Hpl. cbn in Hpl. destruct (align8 (pl_offset plan)) as (w' & HE & Hoff & Hw); [lia|].
  rewrite HE in Hsz. rewrite as_i32_small in * by lia. split.
  - eexists. rewrite Hp, Hr. split_and!; [done..|].
    match goal with |- context [(_ :: _) ++ reads] => set (at_ := length _) end.
    assert (17 < at_)%nat by (subst at_; cbn [length app]; rewrite !length_app;
      change (length self_filter.1) with 17%nat; lia).
    unfold reloc_at. cbn [find_first fst]. by rewrite (proj2 (Nat.eqb_neq at_ 6)), (proj2 (Nat.eqb_neq (at_ + 9) 6)) by lia.
  - exists (stx_dw R10 R0 (as_i16 (- (4 + gp_event_size g)))), (as_i16 (- (4 + gp_event_size g))). split_and!; [|done|].
    + rewrite Hp. apply elem_of_app. left. apply elem_of_cons. right. apply elem_of_app. right. apply elem_of_app. right.
      apply elem_of_cons. right. by left.
    + rewrite as_i16_small by lia. rewrite Hsz. symmetry. apply Z.mod_unique with (- w' - 1); lia.
Qed.
