(* ===== verification/Generated.v ===== *)
(** The reader of a generated probe ([jalki/src/probes/generated.rs]): from the bytes of an event
    and the layout the generator gave, to evidence. *)
From Stdlib Require Import Strings.Byte.
From S2P Require Import Prelude Text Protocol Evidence Event Normalize Bpf Btf Codegen CodegenRun CodegenCorrect.

Record GeneratedProbeReader := mkGeneratedProbeReader {
  gr_spec : ProbeSpec;
  gr_layout : list FieldLayout;
  gr_event_size : Z;
  gr_map_name : string;
  gr_program_name : string;
  gr_attachments : list Attachment
}.

Definition GeneratedProbeReader_new (spec : ProbeSpec) (layout : list FieldLayout) (event_size : Z)
    (map_name program_name : string) : GeneratedProbeReader :=
  mkGeneratedProbeReader spec layout event_size map_name program_name
    [match sp_attachment spec with AtFentry => AFentry (sp_function spec) | AtFexit => AFexit (sp_function spec) end].

(** Its [Probe] implementation. *)
Definition generated_probe (r : GeneratedProbeReader) : Probe :=
  mkProbe (gr_attachments r) (sp_function (gr_spec r)) (sp_event_type (gr_spec r)) (gr_program_name r) (gr_map_name r).

(** [decode_event] *)
Definition generated_decode_event (r : GeneratedProbeReader) (raw : list byte) : result DecodeError KernelEvent :=
  Err (Invalid "generated probes produce normalized evidence directly").

(** [read_u8], [read_u16], [read_u32], [read_u64]: zero when the bytes are not there. *)
Definition read_uint (n : nat) (raw : list byte) (offset : Z) : Z :=
  if offset + Z.of_nat n <=? zlen raw then le_get (slice (Z.to_nat offset) n raw) else 0.
Definition read_u8 : list byte -> Z -> Z := read_uint 1.
Definition read_u16 : list byte -> Z -> Z := read_uint 2.
Definition read_u32 : list byte -> Z -> Z := read_uint 4.
Definition read_u64 : list byte -> Z -> Z := read_uint 8.
Definition read_i32 (raw : list byte) (offset : Z) : Z := wrap_signed 32 (read_u32 raw offset).

Definition read_comm (raw : list byte) (offset : Z) : string :=
  if offset + 16 <=? zlen raw then
    let bytes := slice (Z.to_nat offset) 16 raw in
    from_utf8_lossy (take (default 16%nat (position (fun b => bool_decide (b = x00)) bytes)) bytes)
  else "".

(** [Ipv4Addr::from(u32::from_be(addr)).to_string()] of four bytes read as a little-endian word. *)
Definition ipv4_of (addr : Z) : string := ipv4_display (le_put 4 addr).

(** The variables of the loop over the layout. *)
Record Seen := mkSeen {
  sn_src_ip : option string;
  sn_dst_ip : option string;
  sn_src_port : option Z;
  sn_dst_port : option Z;
  sn_comm : option string;
  sn_ret : option Z;
  sn_entities : list string
}.
#[export] Instance eta_Seen : Eta Seen := fun s =>
  mkSeen (sn_src_ip s) (sn_dst_ip s) (sn_src_port s) (sn_dst_port s) (sn_comm s) (sn_ret s) (sn_entities s).

(** The arms of the match on a field's name, in their order. *)
Inductive FieldUse := UHeader | UComm | URet | USrcIp | UDstIp | USrcPort | UDstPort | UEntity.
#[export] Instance FieldUse_eq_dec : EqDecision FieldUse.
Proof. solve_decision. Defined.

Definition field_use (name : string) : FieldUse :=
  if bool_decide (name ∈ ["pid"; "tid"; "timestamp_ns"]) then UHeader
  else if bool_decide (name = "comm") then UComm
  else if bool_decide (name = "ret") then URet
  else if contains name "skc_rcv_saddr" || contains name "src_addr" then USrcIp
  else if contains name "skc_daddr" || contains name "dst_addr" then UDstIp
  else if contains name "skc_num" || contains name "src_port" then USrcPort
  else if contains name "skc_dport" || contains name "dst_port" then UDstPort
  else UEntity.

(** The decimal a field without special handling is kept as. *)
Definition entity_value (raw : list byte) (field : FieldLayout) : Z :=
  match fl_field_type field with
  | FtU8 => read_u8 raw (fl_offset field)
  | FtU16 => read_u16 raw (fl_offset field)
  | FtU32 => read_u32 raw (fl_offset field)
  | FtU64 => read_u64 raw (fl_offset field)
  | FtI32 => read_i32 raw (fl_offset field)
  | FtI64 => wrap_signed 64 (read_u64 raw (fl_offset field))
  end.

Definition see_field (raw : list byte) (s : Seen) (field : FieldLayout) : Seen :=
  let off := fl_offset field in
  match field_use (fl_name field) with
  | UHeader => s
  | UComm => s <| sn_comm := Some (read_comm raw off) |>
  | URet => s <| sn_ret := Some (read_i32 raw off) |>
  | USrcIp => s <| sn_src_ip := Some (ipv4_of (read_u32 raw off)) |>
  | UDstIp => s <| sn_dst_ip := Some (ipv4_of (read_u32 raw off)) |>
  | USrcPort => s <| sn_src_port := Some (read_u16 raw off) |>
  | UDstPort => s <| sn_dst_port := Some (u16_from_be (read_u16 raw off)) |>
  | UEntity => s <| sn_entities ::= fun ids => ids ++ [fl_name field +:+ ":" +:+ dec (entity_value raw field)] |>
  end.

Section evidence.
Variables (id : string) (now : Z).

(** The occurrence [to_evidence] builds. *)
Definition generated_occurrence (r : GeneratedProbeReader) (raw : list byte) (cluster : string) : Occurrence :=
  let pid := read_u32 raw 8 in
  let occ := with_entities [process_entity pid]
    (in_cluster cluster (severity SevInfo
      (Occurrence_new id now ("jalki/" +:+ sp_function (gr_spec r)) (sp_event_type (gr_spec r))))) in
  let seen := foldl (see_field raw) (mkSeen None None None None None None (occ_entity_ids occ)) (gr_layout r) in
  let occ := occ <| occ_entity_ids := sn_entities seen |> in
  let src_port := default 0 (sn_src_port seen) in
  let dst_port := default 0 (sn_dst_port seen) in
  let occ :=
    match sn_src_ip seen, sn_dst_ip seen with
    | None, None => occ
    | src, dst =>
        let src_ip := default "" src in
        let dst_ip := default "" dst in
        occ <| occ_network_data := Some (tcp_network_data src_ip dst_ip src_port dst_port None None) |>
            <| occ_correlation_keys := [conn_id src_ip dst_ip src_port dst_port] |>
    end in
  let occ := match sn_comm seen with
             | Some cmd => occ <| occ_process_data := Some (tcp_process_data pid cmd) |>
             | None => occ
             end in
  match sn_ret seen with
  | Some ret => if ret =? 0 then outcome OutSuccess occ else severity SevWarning (outcome OutFailure occ)
  | None => occ
  end.

Definition generated_to_evidence (r : GeneratedProbeReader) (raw : list byte) (cluster : string)
  : result DecodeError (list EvidenceRecord) :=
  if zlen raw <? gr_event_size r then Err (TooShort (gr_event_size r) (zlen raw)) else
  Ok (single {| er_observed_at_ns := read_u64 raw 0;
                er_pid := read_u32 raw 8;
                er_cgroup_id := 0;
                er_probe := probe_metadata (generated_probe r);
                er_occurrence := generated_occurrence r raw cluster;
                er_binding := None |}).
End evidence.

(* ------------------------------------------------------------------ *)
(** ** What the reader makes of an event *)

(** The fields by name, with their bytes; the last one of a use counts. *)
Definition NamedField : Type := string * list byte.
Definition last_use (u : FieldUse) (fields : list NamedField) : option (list byte) :=
  snd <$> last (filter (fun f => field_use f.1 = u) fields).

(** Addresses are four bytes, ports two. *)
Definition use_size (u : FieldUse) : option Z :=
  match u with
  | USrcIp | UDstIp => Some 4
  | USrcPort | UDstPort => Some 2
  | _ => None
  end.
Definition sized (f : NamedField) : Prop := forall n, use_size (field_use f.1) = Some n -> zlen f.2 = n.

Definition entity (f : NamedField) : list string :=
  if bool_decide (field_use f.1 = UEntity) then [f.1 +:+ ":" +:+ dec (le_get f.2)] else [].
Definition comm_of (bs : list byte) : string :=
  from_utf8_lossy (take (default 16%nat (position (fun b => bool_decide (b = x00)) bs)) bs).

(** The reader's variables after the fields. *)
Definition seen_of (ids : list string) (fields : list NamedField) : Seen := {|
  sn_src_ip := ipv4_display <$> last_use USrcIp fields;
  sn_dst_ip := ipv4_display <$> last_use UDstIp fields;
  sn_src_port := le_get <$> last_use USrcPort fields;
  sn_dst_port := be_get <$> last_use UDstPort fields;
  sn_comm := comm_of <$> last_use UComm fields;
  sn_ret := (fun bs => wrap_signed 32 (le_get bs)) <$> last_use URet fields;
  sn_entities := ids ++ concat (map entity fields)
|}.

Section read.
Variable raw : list byte.

(** A read of a whole field is its value. *)
Lemma read_uint_field n fl bs :
  field_in raw fl bs -> fl_size fl = Z.of_nat n -> (0 < n)%nat ->
  read_uint n raw (fl_offset fl) = le_get bs /\ fl_offset fl + Z.of_nat n <= zlen raw.
Proof.
  intros [[Hs _] Hb] Hn Hpos. rewrite Hn, Nat2Z.id in Hb.
  assert (length bs = n) as Hl by (unfold zlen in Hs; lia).
  assert (Z.to_nat (fl_offset fl) + n <= length raw)%nat as Hin.
  { rewrite <- Hb in Hl. unfold slice in Hl. rewrite length_take, length_drop in Hl. lia. }
  assert (fl_offset fl + Z.of_nat n <= zlen raw) as Hle by (unfold zlen; lia).
  unfold read_uint. rewrite (proj2 (Z.leb_le _ _)) by done. by rewrite Hb.
Qed.

Lemma last_use_snoc u fields f :
  last_use u (fields ++ [f]) = if bool_decide (field_use f.1 = u) then Some f.2 else last_use u fields.
Proof.
  unfold last_use. rewrite filter_app, filter_cons, filter_nil. case_bool_decide as Hu.
  - rewrite decide_True by done. by rewrite last_snoc.
  - rewrite decide_False by done. by rewrite app_nil_r.
Qed.

Lemma use_comm name : field_use name = UComm <-> name = "comm".
Proof. split; [|by intros ->]. unfold field_use. by repeat case_bool_decide; repeat case_match. Qed.
Lemma use_ret name : field_use name = URet <-> name = "ret".
Proof. split; [|by intros ->]. unfold field_use. by repeat case_bool_decide; repeat case_match. Qed.

Lemma read_comm_field fl bs :
  field_in raw fl bs -> fl_size fl = 16 -> read_comm raw (fl_offset fl) = comm_of bs.
Proof.
  intros Hin Hs. destruct (read_uint_field 16 fl bs Hin) as [_ Hle]; [done|lia|].
  unfold read_comm. rewrite (proj2 (Z.leb_le _ _)) by lia.
  destruct Hin as [_ Hb]. rewrite Hs in Hb. change (Z.to_nat 16) with 16%nat in Hb. by rewrite Hb.
Qed.

Lemma le_put_get_sized n bs : zlen bs = Z.of_nat n -> le_put n (le_get bs) = bs.
Proof. intros H. replace n with (length bs) by (unfold zlen in H; lia). apply le_put_get. Qed.

Lemma entity_value_field fl bs :
  field_in raw fl bs -> size_to_field_type (fl_size fl) = Ok (fl_field_type fl) -> entity_value raw fl = le_get bs.
Proof.
  intros Hin Ht. unfold size_to_field_type in Ht. unfold entity_value.
  destruct (Z.eqb_spec (fl_size fl) 1) as [E|_]; [injection Ht as <-; by apply (read_uint_field 1); [| |lia]|].
  destruct (Z.eqb_spec (fl_size fl) 2) as [E|_]; [injection Ht as <-; by apply (read_uint_field 2); [| |lia]|].
  destruct (Z.eqb_spec (fl_size fl) 4) as [E|_]; [injection Ht as <-; by apply (read_uint_field 4); [| |lia]|].
  destruct (Z.eqb_spec (fl_size fl) 8) as [E|_]; [injection Ht as <-; by apply (read_uint_field 8); [| |lia]|done].
Qed.

Lemma see_field_spec ids fields fl bs :
  field_in raw fl bs -> sized (fl_name fl, bs) ->
  see_field raw (seen_of ids fields) fl = seen_of ids (fields ++ [(fl_name fl, bs)]).
Proof.
  intros Hin Hsz. assert (fl_size fl = zlen bs) as Hlen by apply Hin. unfold sized in Hsz. cbn [fst snd] in Hsz.
  assert (forall n, fl_size fl = Z.of_nat n -> (0 < n)%nat -> read_uint n raw (fl_offset fl) = le_get bs) as Hread
    by (intros n Hn Hpos; by apply (read_uint_field n fl bs)).
  unfold see_field, seen_of. rewrite !last_use_snoc, map_app, concat_app. cbn [fst snd map concat]. rewrite app_nil_r.
  assert (entity (fl_name fl, bs) = if bool_decide (field_use (fl_name fl) = UEntity)
            then [fl_name fl +:+ ":" +:+ dec (le_get bs)] else []) as -> by done.
  pose proof Hin as [[_ Hd] Hb].
  destruct (field_use (fl_name fl)) eqn:Hu; rewrite ?bool_decide_false, ?bool_decide_true by done; rewrite ?app_nil_r;
    cbn [use_size] in Hsz; try (specialize (Hsz _ eq_refl)).
  - done.
  - apply use_comm in Hu. rewrite bool_decide_true in Hd by done. by rewrite (read_comm_field fl bs).
  - apply use_ret in Hu. rewrite Hu, bool_decide_false, bool_decide_true in Hd by done. unfold read_i32, read_u32. by rewrite (Hread 4%nat) by lia.
  - unfold read_u32, ipv4_of. rewrite (Hread 4%nat), (le_put_get_sized 4) by lia. done.
  - unfold read_u32, ipv4_of. rewrite (Hread 4%nat), (le_put_get_sized 4) by lia. done.
  - unfold read_u16. rewrite (Hread 2%nat) by lia. done.
  - unfold read_u16, u16_from_be. rewrite (Hread 2%nat), (le_put_get_sized 2) by lia. done.
  - assert (fl_name fl <> "comm") by (intros Hc%use_comm; by rewrite Hu in Hc).
    assert (fl_name fl <> "ret") by (intros Hc%use_ret; by rewrite Hu in Hc).
    rewrite !bool_decide_false in Hd by done. rewrite (entity_value_field fl bs) by done.
    unfold set. cbn. by rewrite <- app_assoc.
Qed.

Lemma see_fields_spec ids layout bytes :
  Forall2 (field_in raw) layout bytes -> Forall sized (zip (map fl_name layout) bytes) ->
  foldl (see_field raw) (seen_of ids []) layout = seen_of ids (zip (map fl_name layout) bytes).
Proof.
  intros H. assert (forall done, Forall sized (zip (map fl_name layout) bytes) ->
    foldl (see_field raw) (seen_of ids done) layout = seen_of ids (done ++ zip (map fl_name layout) bytes)) as Hg;
    [|by apply (Hg [])].
  induction H as [|fl bs layout bytes Hin H IH]; intros done Hs; cbn in *; [by rewrite app_nil_r|].
  apply Forall_cons in Hs as [Hs1 Hs]. rewrite (see_field_spec _ _ _ bs) by done. rewrite IH by done. by rewrite <- app_assoc.
Qed.
End read.

(** C20: the reader undoes the program. Take any event of the announced size whose bytes are laid
    out as the layout says (which is what a generated program writes), with four-byte addresses
    and two-byte ports. The reader makes exactly one record of it: the time and the process of the
    header; every field without a special use as [name:value] among the entities, in order, after
    the process; the outcome that the return value's sign-extended 32 bits say; the thread's name
    as the command; and a connection exactly when there is an address, with ports and addresses
    read in network order, but for the source port, which the kernel keeps in its own. *)
Theorem generated_reader_correct id now r raw cluster ts pid tid ls bytes :
  gr_layout r = pl_layout header_plan ++ ls ->
  Forall2 (field_in raw) (gr_layout r) ([le_put 8 ts; le_put 4 pid; le_put 4 tid] ++ bytes) ->
  zlen raw = gr_event_size r -> is_u64 ts -> in_width 32 pid ->
  let fields := zip (map fl_name ls) bytes in
  Forall sized fields ->
  exists rec, generated_to_evidence id now r raw cluster = Ok [rec] /\
    er_observed_at_ns rec = ts /\ er_pid rec = pid /\
    let o := er_occurrence rec in
    occ_cluster o = cluster /\
    occ_entity_ids o = process_entity pid :: concat (map entity fields) /\
    occ_outcome o = (fun bs => outcome_of (wrap_signed 32 (le_get bs) =? 0)) <$> last_use URet fields /\
    proc_command <$> occ_process_data o = comm_of <$> last_use UComm fields /\
    occ_network_data o =
      match last_use USrcIp fields, last_use UDstIp fields with
      | None, None => None
      | src, dst => Some (tcp_network_data (from_option ipv4_display "" src) (from_option ipv4_display "" dst)
                            (from_option le_get 0 (last_use USrcPort fields))
                            (from_option be_get 0 (last_use UDstPort fields)) None None)
      end.
Proof.
  intros Hl Hin Hlen Hts Hpid fields Hs.
  assert (read_u64 raw 0 = ts /\ read_u32 raw 8 = pid) as [Ets Epid].
  { rewrite Hl in Hin. cbn [pl_layout header_plan app] in Hin.
    apply Forall2_cons in Hin as [H1 Hin]. apply Forall2_cons in Hin as [H2 _]. split.
    - pose proof (read_uint_field raw 8 _ _ H1 eq_refl) as [E _]; [lia|]. unfold read_u64. cbn [fl_offset] in E.
      rewrite E, le_get_put. apply Z.mod_small. unfold is_u64, u64_max in Hts. lia.
    - pose proof (read_uint_field raw 4 _ _ H2 eq_refl) as [E _]; [lia|]. unfold read_u32. cbn [fl_offset] in E.
      rewrite E, le_get_put. apply Z.mod_small. unfold in_width in Hpid. lia. }
  assert (foldl (see_field raw) (seen_of [process_entity pid] []) (gr_layout r) = seen_of [process_entity pid] fields) as Hseen.
  { rewrite (see_fields_spec raw _ _ _ Hin).
    - rewrite Hl. done.
    - rewrite Hl. cbn [map app zip pl_layout header_plan fl_name zip_with]. by repeat (apply Forall_cons; split; [done|]). }
  unfold generated_to_evidence. rewrite Hlen, Z.ltb_irrefl. eexists; split; [done|]. cbn [er_observed_at_ns er_pid er_occurrence].
  rewrite Ets, Epid. split; [done|]. split; [done|].
  unfold generated_occurrence. rewrite Epid.
  match goal with |- context [foldl ?f ?s ?l] => change (foldl f s l) with (foldl (see_field raw) (seen_of [process_entity pid] []) l) end.
  rewrite Hseen. cbn [seen_of sn_src_ip sn_dst_ip sn_src_port sn_dst_port sn_comm sn_ret sn_entities].
  destruct (last_use USrcIp fields) as [src|], (last_use UDstIp fields) as [dst|], (last_use UComm fields) as [cmd|],
    (last_use URet fields) as [ret|], (last_use USrcPort fields) as [sp|], (last_use UDstPort fields) as [dp|];
    cbn [fmap option_fmap option_map from_option]; try destruct (wrap_signed 32 (le_get ret) =? 0); by split_and!.
Qed.

(** The event of [w_spec]'s program in [w_kernel], and its reader. *)
Definition w_fields : list (list byte) :=
  [le_put 4 4096; le_put 8 77; le_put 4 (2 ^ 64 - 1); repeat "c"%byte 16].
Definition w_event : list byte := event_of w_kernel w_fields (gp_event_size w_program).
Definition w_reader : GeneratedProbeReader :=
  GeneratedProbeReader_new w_spec (gp_field_layout w_program) (gp_event_size w_program) (gp_map_name w_program)
    "jalki_codegen_tcp_connect".

Lemma generated_reader_correct_witness :
  exists rec, generated_to_evidence "id" 5 w_reader w_event "c1" = Ok [rec] /\ er_pid rec = 7 /\
    occ_entity_ids (er_occurrence rec) = ["process:7"; "sk.common.daddr:4096"; "cookie:77"] /\
    occ_outcome (er_occurrence rec) = Some OutFailure.
Proof.
  destruct (generated_reader_correct "id" 5 w_reader w_event "c1" 1000 7 9 (drop 3 (gp_field_layout w_program)) w_fields)
    as (rec & He & _ & Hp & _ & Hids & Hout & _).
  - reflexivity.
  - cbn [gr_layout w_reader GeneratedProbeReader_new gp_field_layout w_program app w_fields].
    repeat (apply Forall2_cons; split; [split; [split; by vm_compute|by vm_compute]|]). by apply Forall2_nil.
  - by vm_compute.
  - by vm_compute.
  - by vm_compute.
  - repeat (apply Forall_cons; split; [intros n; by vm_compute|]). by apply Forall_nil.
  - exists rec. split; [exact He|]. split; [exact Hp|]. split; [rewrite Hids; by vm_compute|rewrite Hout; by vm_compute].
Defined.
