(* ===== verification/Enrich.v ===== *)
(** Runtime enrichment: from a process's cgroup to the pod that runs it
    ([jalki-enrich/src/lib.rs], [jalki/src/enrich.rs]).

    Container identifiers in cgroup paths and in Kubernetes statuses, the resolvers over procfs and
    cgroupfs, the bounded cache from containers to pods, and the resolver the readers use. The file
    system is read through the functions of [FileSystem]; an [io::Error] is its message. *)
From Stdlib Require Import Strings.Byte Strings.Ascii.
From S2P Require Import Prelude Text Float Evidence.

(* ------------------------------------------------------------------ *)
(** ** Container identifiers *)

Definition CONTAINER_ID_LEN : Z := 64.
Definition DEFAULT_BINDING_CACHE_MAX_CONTAINERS : Z := 100000.

Inductive ContainerRuntime := Containerd | Crio | Docker.
#[export] Instance ContainerRuntime_eq_dec : EqDecision ContainerRuntime.
Proof. solve_decision. Defined.

(** [ContainerRuntime::as_str] *)
Definition runtime_as_str (r : ContainerRuntime) : string :=
  match r with Containerd => "containerd" | Crio => "cri-o" | Docker => "docker" end.

Record ContainerRef := mkContainerRef { cr_runtime : ContainerRuntime; cr_id : string }.
#[export] Instance ContainerRef_eq_dec : EqDecision ContainerRef.
Proof. solve_decision. Defined.

Inductive ParseContainerError :=
| NoContainerId
| InvalidContainerId (id : string).

Inductive ResolveCgroupError :=
| CgIo (path source : string)
| CgNotFound (inode : Z)
| CgUnbound (inode : Z) (path : string) (source : ParseContainerError).

Inductive ResolveProcCgroupError :=
| PcInvalidPid
| PcIo (path source : string)
| PcNoCgroupPath (path : string)
| PcUnbound (path : string) (source : ParseContainerError).

Definition is_container_id (value : string) : bool :=
  (slen value =? CONTAINER_ID_LEN) && forallb is_ascii_hexdigit (bytes_of value).

Definition validate_container_id (id : string) (runtime : ContainerRuntime) : result ParseContainerError ContainerRef :=
  if negb (is_container_id id) then Err (InvalidContainerId id)
  else Ok (mkContainerRef runtime (to_ascii_lowercase id)).

(** The prefixes of a scope's name, with their runtimes. *)
Definition SCOPE_PREFIXES : list (string * ContainerRuntime) :=
  [("cri-containerd-", Containerd); ("crio-", Crio); ("docker-", Docker)].

Fixpoint scope_prefix (prefixes : list (string * ContainerRuntime)) (segment : string) : option (string * ContainerRuntime) :=
  match prefixes with
  | [] => None
  | (prefix, runtime) :: rest =>
      match strip_prefix prefix segment with
      | Some after => Some (after, runtime)
      | None => scope_prefix rest segment
      end
  end.

(** The loop of [parse_container_ref] over the segments, last first. *)
Fixpoint parse_segments (path : string) (segments : list string) : result ParseContainerError ContainerRef :=
  match segments with
  | [] => Err NoContainerId
  | segment :: rest =>
      let segment := trim segment in
      if bool_decide (segment = "") then parse_segments path rest else
      match scope_prefix SCOPE_PREFIXES segment with
      | Some (after, runtime) => validate_container_id (default after (strip_suffix ".scope" after)) runtime
      | None =>
          if is_container_id segment then
            Ok (mkContainerRef (if contains path "/docker/" then Docker else Containerd) (to_ascii_lowercase segment))
          else parse_segments path rest
      end
  end.

Definition parse_container_ref (path : string) : result ParseContainerError ContainerRef :=
  parse_segments path (rev (split_char "/" path)).

(** [parse_k8s_container_id] *)
Definition parse_k8s_container_id (value : string) : result ParseContainerError ContainerRef :=
  let '(runtime, id) :=
    match split_once "://" value with
    | Some (scheme, id) =>
        (if bool_decide (scheme = "containerd") then Containerd
         else if bool_decide (scheme ∈ ["cri-o"; "crio"]) then Crio
         else if bool_decide (scheme = "docker") then Docker
         else Containerd, id)
    | None => (Containerd, value)
    end in
  validate_container_id id runtime.

(* ------------------------------------------------------------------ *)
(** ** The file system *)

(** [Path::join] of a relative path. *)
Definition path_join (root rel : string) : string :=
  match strip_suffix "/" root with
  | Some _ => root +:+ rel
  | None => if bool_decide (root = "") then rel else root +:+ "/" +:+ rel
  end.

Record FileSystem := mkFileSystem {
  fs_read_to_string : string -> result string string;
  fs_inode : string -> result string Z;
  fs_read_dir : string -> result string (list (result string string));
  fs_is_dir : string -> result string bool
}.

Section files.
Variable fs : FileSystem.

(** The loop over the lines of a proc cgroup file. *)
Fixpoint scan_lines (path : string) (lines : list string) (saw_path : bool) (first_error : option ParseContainerError)
  : result ResolveProcCgroupError ContainerRef :=
  match lines with
  | [] =>
      match first_error with
      | Some source => Err (PcUnbound path source)
      | None => if saw_path then Err (PcUnbound path NoContainerId) else Err (PcNoCgroupPath path)
      end
  | line :: rest =>
      match rsplit_once ":" line with
      | Some (_, cgroup_path) =>
          if bool_decide (cgroup_path = "") then scan_lines path rest saw_path first_error else
          match parse_container_ref cgroup_path with
          | Ok container => Ok container
          | Err source => scan_lines path rest true (match first_error with None => Some source | _ => first_error end)
          end
      | None => scan_lines path rest saw_path first_error
      end
  end.

Definition resolve_container_ref_from_procfs (proc_root : string) (pid : Z) : result ResolveProcCgroupError ContainerRef :=
  if pid =? 0 then Err PcInvalidPid else
  let path := path_join (path_join proc_root (dec pid)) "cgroup" in
  match fs_read_to_string fs path with
  | Err source => Err (PcIo path source)
  | Ok contents => scan_lines path (lines contents) false None
  end.

(** The loop of [find_dir_by_inode] over a directory's entries, [find] being the recursive call. *)
Fixpoint find_in_entries (find : string -> option (result ResolveCgroupError string)) (root : string) (inode : Z)
    (entries : list (result string string)) : option (result ResolveCgroupError string) :=
  match entries with
  | [] => Some (Err (CgNotFound inode))
  | Err source :: _ => Some (Err (CgIo root source))
  | Ok name :: rest =>
      let path := path_join root name in
      match fs_is_dir fs path with
      | Err source => Some (Err (CgIo path source))
      | Ok false => find_in_entries find root inode rest
      | Ok true =>
          found ← find path;
          match found with
          | Ok found => Some (Ok found)
          | Err (CgNotFound _) => find_in_entries find root inode rest
          | Err err => Some (Err err)
          end
      end
  end.

(** [find_dir_by_inode]; the fuel is for the depth of the tree. *)
Fixpoint find_dir_by_inode (fuel : nat) (root : string) (inode : Z) : option (result ResolveCgroupError string) :=
  match fuel with
  | O => None
  | S fuel' =>
      match fs_inode fs root with
      | Err source => Some (Err (CgIo root source))
      | Ok ino =>
          if ino =? inode then Some (Ok root) else
          match fs_read_dir fs root with
          | Err source => Some (Err (CgIo root source))
          | Ok entries => find_in_entries (fun path => find_dir_by_inode fuel' path inode) root inode entries
          end
      end
  end.

Definition resolve_container_ref_from_cgroupfs (fuel : nat) (root : string) (cgroup_id : Z)
  : option (result ResolveCgroupError ContainerRef) :=
  found ← find_dir_by_inode fuel root cgroup_id;
  Some (matched <-? found ;;
        match parse_container_ref (from_utf8_lossy (bytes_of matched)) with
        | Ok container => Ok container
        | Err source => Err (CgUnbound cgroup_id matched source)
        end).
End files.

(* ------------------------------------------------------------------ *)
(** ** The binding cache *)

Record WorkloadOwner := mkWorkloadOwner { wo_kind : string; wo_name : string; wo_uid : string }.

Record PodMetadata := mkPodMetadata {
  md_pod_uid : string;
  md_pod_name : string;
  md_namespace : string;
  md_service_account : option string;
  md_owner : option WorkloadOwner
}.

Record ContainerStatusSnapshot := mkContainerStatusSnapshot { cs_container_id : string }.

Record PodSnapshot := mkPodSnapshot {
  ps_pod_uid : string;
  ps_pod_name : string;
  ps_namespace : string;
  ps_service_account : option string;
  ps_owner : option WorkloadOwner;
  ps_containers : list ContainerStatusSnapshot
}.

(** [PodSnapshot::metadata] *)
Definition metadata (pod : PodSnapshot) : PodMetadata :=
  mkPodMetadata (ps_pod_uid pod) (ps_pod_name pod) (ps_namespace pod) (ps_service_account pod) (ps_owner pod).

Record CacheUpdate := mkCacheUpdate { cu_upserted : nat; cu_removed : nat; cu_ignored : nat }.
#[export] Instance eta_CacheUpdate : Eta CacheUpdate := fun u =>
  mkCacheUpdate (cu_upserted u) (cu_removed u) (cu_ignored u).

(** [Binding] *)
Inductive Binding :=
| BindBound (container_id : string) (metadata : PodMetadata) (provenance : BindingProvenance)
| BindUnbound (reason : UnboundReason).

Definition into_runtime_binding (b : Binding) : RuntimeBinding :=
  match b with
  | BindBound container_id metadata provenance =>
      Bound {| container_id := container_id;
               pod_uid := Some (md_pod_uid metadata);
               pod_name := Some (md_pod_name metadata);
               namespace := Some (md_namespace metadata);
               service_account := md_service_account metadata;
               owner_kind := wo_kind <$> md_owner metadata;
               owner_name := wo_name <$> md_owner metadata;
               owner_uid := wo_uid <$> md_owner metadata;
               provenance := provenance |}
  | BindUnbound reason => Unbound reason
  end.

Record BindingCache := mkBindingCache {
  by_container_id : gmap string PodMetadata;
  by_pod_uid : gmap string (list string);
  insertion_order : list string;
  max_containers : nat;
  hits : Z;
  misses : Z
}.
#[export] Instance eta_BindingCache : Eta BindingCache := fun c =>
  mkBindingCache (by_container_id c) (by_pod_uid c) (insertion_order c) (max_containers c) (hits c) (misses c).

Definition with_max_containers (max_containers : nat) : BindingCache := mkBindingCache ∅ ∅ [] max_containers 0 0.
Definition BindingCache_new : BindingCache := with_max_containers (Z.to_nat DEFAULT_BINDING_CACHE_MAX_CONTAINERS).

(** [retain(|id| id != container_id)] *)
Definition retain_other (container_id : string) (ids : list string) : list string :=
  filter (fun id => id <> container_id) ids.
#[global] Arguments retain_other : simpl never.

(** Every pod's list loses the container; a pod whose list becomes empty goes. *)
Definition remove_from_pod_index (container_id : string) (c : BindingCache) : BindingCache :=
  c <| by_pod_uid ::= omap (fun ids => match retain_other container_id ids with [] => None | ids => Some ids end) |>.

Definition insert_container (container_id : string) (md : PodMetadata) (c : BindingCache) : BindingCache :=
  let container_id := to_ascii_lowercase container_id in
  let is_new := negb (bool_decide (is_Some (by_container_id c !! container_id))) in
  let c := c <| by_container_id ::= <[container_id := md]> |> in
  if is_new then c <| insertion_order ::= fun order => order ++ [container_id] |> else c.

(** The eviction loop, over the insertion order from the front. *)
Fixpoint evict_loop (order : list string) (c : BindingCache) (removed : nat) : BindingCache * nat :=
  if (max_containers c <? size (by_container_id c))%nat then
    match order with
    | [] => (c, removed)
    | container_id :: rest =>
        let c := c <| insertion_order := rest |> in
        if bool_decide (is_Some (by_container_id c !! container_id))
        then evict_loop rest (remove_from_pod_index container_id (c <| by_container_id ::= delete container_id |>)) (S removed)
        else evict_loop rest c removed
    end
  else (c, removed).

Definition evict_to_capacity (c : BindingCache) : BindingCache * nat :=
  if (max_containers c =? 0)%nat then
    (c <| by_container_id := ∅ |> <| by_pod_uid := ∅ |> <| insertion_order := [] |>, size (by_container_id c))
  else evict_loop (insertion_order c) c 0.

Definition upsert (container_id : string) (md : PodMetadata) (c : BindingCache) : BindingCache :=
  (evict_to_capacity (insert_container container_id md c)).1.

(** [BindingCache::remove] *)
Definition cache_remove (container_id : string) (c : BindingCache) : BindingCache * option PodMetadata :=
  let container_id := to_ascii_lowercase container_id in
  let removed := by_container_id c !! container_id in
  let c := c <| by_container_id ::= delete container_id |> in
  match removed with
  | Some _ => (remove_from_pod_index container_id c <| insertion_order ::= retain_other container_id |>, removed)
  | None => (c, removed)
  end.

(** The removals of [remove_pod], counted. *)
Fixpoint remove_containers (ids : list string) (m : gmap string PodMetadata) (removed : nat) : gmap string PodMetadata * nat :=
  match ids with
  | [] => (m, removed)
  | id :: rest => remove_containers rest (delete id m) (if bool_decide (is_Some (m !! id)) then S removed else removed)
  end.

Definition remove_pod (uid : string) (c : BindingCache) : BindingCache * CacheUpdate :=
  match by_pod_uid c !! uid with
  | None => (c, mkCacheUpdate 0 0 0)
  | Some container_ids =>
      let '(m, removed) := remove_containers container_ids (by_container_id c) 0 in
      (c <| by_pod_uid ::= delete uid |> <| by_container_id := m |>
         <| insertion_order ::= filter (fun id => id ∉ container_ids) |>,
       mkCacheUpdate 0 removed 0)
  end.

(** The loop of [apply_pod_snapshot] over the containers. *)
Fixpoint insert_all (md : PodMetadata) (containers : list ContainerStatusSnapshot) (c : BindingCache) (ids : list string)
    (update : CacheUpdate) : BindingCache * list string * CacheUpdate :=
  match containers with
  | [] => (c, ids, update)
  | container :: rest =>
      match parse_k8s_container_id (cs_container_id container) with
      | Ok r => insert_all md rest (insert_container (cr_id r) md c) (ids ++ [cr_id r]) (update <| cu_upserted ::= S |>)
      | Err _ => insert_all md rest c ids (update <| cu_ignored ::= S |>)
      end
  end.

Definition apply_pod_snapshot (pod : PodSnapshot) (c : BindingCache) : BindingCache * CacheUpdate :=
  let '(c, update) := remove_pod (ps_pod_uid pod) c in
  let '(c, ids, update) := insert_all (metadata pod) (ps_containers pod) c [] update in
  let c := match ids with [] => c | _ => c <| by_pod_uid ::= <[ps_pod_uid pod := ids]> |> end in
  let '(c, evicted) := evict_to_capacity c in
  (c, update <| cu_removed ::= fun n => (n + evicted)%nat |>).

(** [bind_container], and the cache with its counter moved. *)
Definition bind_container (container_id : string) (prov : BindingProvenance) (c : BindingCache) : Binding * BindingCache :=
  match by_container_id c !! to_ascii_lowercase container_id with
  | Some md => (BindBound (to_ascii_lowercase container_id) md prov, c <| hits ::= fun n => wrap 64 (n + 1) |>)
  | None => (BindUnbound CacheMiss, c <| misses ::= fun n => wrap 64 (n + 1) |>)
  end.

Definition cache_len (c : BindingCache) : nat := size (by_container_id c).
Definition pod_count (c : BindingCache) : nat := size (by_pod_uid c).
Definition hit_ratio (c : BindingCache) : f64 :=
  let total := hits c + misses c in
  if total =? 0 then f_zero else f_div (f_of_Z (hits c)) (f_of_Z total).

Definition cache_is_empty (c : BindingCache) : bool := bool_decide (by_container_id c = ∅).

(* ------------------------------------------------------------------ *)
(** ** The resolvers of the readers *)

Definition CGROUP_FALLBACK_MEMO_MAX : nat := 8192.

(** [NoopEnricher::resolve] *)
Definition noop_resolve (cgroup_id pid : Z) : RuntimeBinding :=
  if cgroup_id =? 0 then Unbound NoCgroup else Unbound CacheMiss.

(** [CachedEnricher], its locks being held one call at a time. *)
Record CachedEnricher := mkCachedEnricher {
  ce_cgroup_root : string;
  ce_proc_root : string;
  ce_cache : BindingCache;
  ce_memo : gmap Z (option ContainerRef)
}.
#[export] Instance eta_CachedEnricher : Eta CachedEnricher := fun e =>
  mkCachedEnricher (ce_cgroup_root e) (ce_proc_root e) (ce_cache e) (ce_memo e).

Definition with_roots (cgroup_root proc_root : string) (cache : BindingCache) : CachedEnricher :=
  mkCachedEnricher cgroup_root proc_root cache ∅.
Definition CachedEnricher_new (cgroup_root : string) (cache : BindingCache) : CachedEnricher :=
  with_roots cgroup_root "/proc" cache.

(** [binding_cache_stats] *)
Definition binding_cache_stats (e : CachedEnricher) : nat * f64 := (cache_len (ce_cache e), hit_ratio (ce_cache e)).

Section resolve.
Variables (fs : FileSystem) (depth : nat).

(** [resolve_from_cgroupfs_fallback]; [None] is a tree deeper than the fuel. *)
Definition resolve_from_cgroupfs_fallback (cgroup_id : Z) (e : CachedEnricher)
  : option (result UnboundReason (option ContainerRef) * CachedEnricher) :=
  match ce_memo e !! cgroup_id with
  | Some container => Some (Ok container, e)
  | None =>
      found ← resolve_container_ref_from_cgroupfs fs depth (ce_cgroup_root e) cgroup_id;
      let remember resolved :=
        let memo := if (CGROUP_FALLBACK_MEMO_MAX <=? size (ce_memo e))%nat then ∅ else ce_memo e in
        Some (Ok resolved, e <| ce_memo := <[cgroup_id := resolved]> memo |>) in
      match found with
      | Ok container => remember (Some container)
      | Err (CgUnbound _ _ _) => remember None
      | Err _ => Some (Err CacheMiss, e)
      end
  end.

(** [CachedEnricher::bind_container] *)
Definition bind_ref (container : ContainerRef) (prov : BindingProvenance) (e : CachedEnricher)
  : RuntimeBinding * CachedEnricher :=
  let '(binding, cache) := bind_container (cr_id container) prov (ce_cache e) in
  (into_runtime_binding binding, e <| ce_cache := cache |>).

(** [CachedEnricher::resolve] *)
Definition cached_resolve (cgroup_id pid : Z) (e : CachedEnricher) : option (RuntimeBinding * CachedEnricher) :=
  if cgroup_id =? 0 then Some (Unbound NoCgroup, e) else
  match resolve_container_ref_from_procfs fs (ce_proc_root e) pid with
  | Ok container => Some (bind_ref container Observed e)
  | Err _ =>
      '(fallback, e) ← resolve_from_cgroupfs_fallback cgroup_id e;
      Some match fallback with
           | Ok (Some container) => bind_ref container DerivedFromCache e
           | Ok None => (Unbound HostProcess, e)
           | Err reason => (Unbound reason, e)
           end
  end.
End resolve.

(* ------------------------------------------------------------------ *)
(** ** Identifiers *)

Lemma ascii_lower_idem b : ascii_lower_byte (ascii_lower_byte b) = ascii_lower_byte b.
Proof. by destruct b. Qed.

Lemma lowercase_idem s : to_ascii_lowercase (to_ascii_lowercase s) = to_ascii_lowercase s.
Proof.
  unfold to_ascii_lowercase. rewrite bytes_of_string_of, map_map. f_equal. apply map_ext. apply ascii_lower_idem.
Qed.

Definition lower (s : string) : Prop := to_ascii_lowercase s = s.

Lemma validate_lower id rt r : validate_container_id id rt = Ok r -> lower (cr_id r).
Proof. unfold validate_container_id. destruct (negb _); [done|]. intros [= <-]. apply lowercase_idem. Qed.

Lemma parse_k8s_lower value r : parse_k8s_container_id value = Ok r -> lower (cr_id r).
Proof. unfold parse_k8s_container_id. destruct (match split_once _ _ with Some _ => _ | None => _ end). apply validate_lower. Qed.

(* ------------------------------------------------------------------ *)
(** ** The invariant of the cache *)

Record cache_ok (c : BindingCache) : Prop := {
  co_nodup : NoDup (insertion_order c);
  co_keys id : id ∈ insertion_order c <-> is_Some (by_container_id c !! id);
  co_lower id : is_Some (by_container_id c !! id) -> lower id;
  co_index uid ids : by_pod_uid c !! uid = Some ids -> ids <> [] /\ Forall lower ids
}.

(** The order is exactly the keys. *)
Lemma cache_ok_length c : cache_ok c -> length (insertion_order c) = size (by_container_id c).
Proof.
  intros [Hn Hk _ _]. rewrite <- (size_dom (by_container_id c)), <- (size_list_to_set (C:=gset string)) by done.
  f_equal. apply set_eq. intros id. by rewrite elem_of_list_to_set, Hk, elem_of_dom.
Qed.

Lemma with_max_ok n : cache_ok (with_max_containers n).
Proof.
  split; cbn; [constructor|..].
  - intros id. rewrite lookup_empty. split; [by intros ?%elem_of_nil|by intros []].
  - intros id. rewrite lookup_empty. by intros [].
  - intros uid ids. by rewrite lookup_empty.
Qed.

Lemma insert_container_ok id md c : cache_ok c -> cache_ok (insert_container id md c).
Proof.
  intros [Hn Hk Hl Hi]. unfold insert_container. set (k := to_ascii_lowercase id).
  assert (lower k) by apply lowercase_idem.
  assert (forall k', is_Some (<[k:=md]> (by_container_id c) !! k') <-> k' = k \/ is_Some (by_container_id c !! k')) as Hins.
  { intros k'. rewrite lookup_insert_is_Some. destruct (decide (k' = k)) as [->|]; [tauto|]. intuition congruence. }
  case_bool_decide as Hnew; cbn [negb]; split; cbn; try done.
  - intros k'. rewrite Hins, Hk. split; [tauto|]. by intros [-> |].
  - intros k'. rewrite Hins. intros [-> |]; auto.
  - apply NoDup_app. split; [done|]. split; [|apply NoDup_singleton].
    intros k' Hk' ->%list_elem_of_singleton. by apply Hnew, Hk.
  - intros k'. rewrite Hins, elem_of_app, list_elem_of_singleton, Hk. tauto.
  - intros k'. rewrite Hins. intros [-> |]; auto.
Qed.

Lemma elem_of_retain k id l : k ∈ retain_other id l <-> k <> id /\ k ∈ l.
Proof. unfold retain_other. by rewrite list_elem_of_filter. Qed.

Lemma index_omap c id uid ids :
  by_pod_uid (remove_from_pod_index id c) !! uid = Some ids <->
  exists ids0, by_pod_uid c !! uid = Some ids0 /\ ids = retain_other id ids0 /\ ids <> [].
Proof.
  unfold remove_from_pod_index. cbn. rewrite lookup_omap_Some. split.
  - intros (ids0 & Hr & H0). exists ids0. destruct (retain_other id ids0); [done|]. by injection Hr as <-.
  - intros (ids0 & H0 & -> & Hne). exists ids0. split; [|done]. by destruct (retain_other id ids0).
Qed.

(** A key leaves the map, the order and the pod lists. *)
Definition forget (id : string) (c : BindingCache) : BindingCache :=
  remove_from_pod_index id (c <| by_container_id ::= delete id |> <| insertion_order ::= retain_other id |>).

Lemma forget_ok id c : cache_ok c -> cache_ok (forget id c).
Proof.
  intros [Hn Hk Hl Hi]. split.
  - by apply NoDup_filter.
  - intros k. cbn. rewrite elem_of_retain, Hk, lookup_delete_is_Some. intuition congruence.
  - intros k. cbn. rewrite lookup_delete_is_Some. intros [_ ?]. auto.
  - intros uid ids (ids0 & H0 & -> & Hne)%index_omap. cbn in H0. apply Hi in H0 as [_ H0].
    split; [done|]. apply Forall_forall. intros k [_ Hin]%elem_of_retain. by apply (proj1 (Forall_forall _ _) H0).
Qed.


Lemma filter_all {A} (P : A -> Prop) `{!forall x, Decision (P x)} (l : list A) :
  (forall x, x ∈ l -> P x) -> filter P l = l.
Proof.
  induction l as [|x l IH]; intros Hall; [done|]. rewrite filter_cons, decide_True by (apply Hall; by left).
  rewrite IH; [done|]. intros y Hy. apply Hall. by right.
Qed.

Lemma retain_absent id l : id ∉ l -> retain_other id l = l.
Proof. intros Hn. apply filter_all. by intros k Hk ->. Qed.

Lemma retain_head id rest : NoDup (id :: rest) -> retain_other id (id :: rest) = rest.
Proof.
  intros [Hn _]%NoDup_cons. unfold retain_other. rewrite filter_cons, decide_False by (by intros []).
  by apply retain_absent.
Qed.

(** One turn of the eviction loop: the oldest key is forgotten. *)
Lemma evict_loop_step id rest c removed :
  cache_ok c -> insertion_order c = id :: rest -> (max_containers c < size (by_container_id c))%nat ->
  evict_loop (id :: rest) c removed = evict_loop rest (forget id c) (S removed).
Proof.
  intros Hok Ho Hlt. cbn [evict_loop]. rewrite (proj2 (Nat.ltb_lt _ _)) by done.
  rewrite bool_decide_true by (cbn; apply (co_keys c Hok); rewrite Ho; by left).
  f_equal. unfold forget, remove_from_pod_index, set. cbn. rewrite Ho, retain_head; [done|].
  rewrite <- Ho. apply Hok.
Qed.

Lemma forget_size id c : cache_ok c -> id ∈ insertion_order c -> size (by_container_id (forget id c)) = pred (size (by_container_id c)).
Proof. intros Hok Hin. cbn. apply map_size_delete_Some. by apply (co_keys c Hok). Qed.

(** The loop forgets the oldest keys, as many as are too many. *)
Lemma evict_loop_spec c removed c' n :
  cache_ok c -> evict_loop (insertion_order c) c removed = (c', n) ->
  let excess := (size (by_container_id c) - max_containers c)%nat in
  c' = foldl (fun c id => forget id c) c (take excess (insertion_order c)) /\ n = (removed + excess)%nat.
Proof.
  remember (insertion_order c) as order eqn:Ho. symmetry in Ho. revert c removed Ho.
  induction order as [|id rest IH]; intros c removed Ho Hok He excess.
  - assert (size (by_container_id c) = 0%nat) as Hz by (rewrite <- cache_ok_length, Ho; done).
    cbn [evict_loop] in He. rewrite Hz in He. cbn in He. injection He as <- <-. unfold excess. rewrite Hz. cbn. split; [done|lia].
  - destruct (decide (max_containers c < size (by_container_id c))%nat) as [Hlt|Hge].
    + rewrite evict_loop_step in He by done.
      assert (insertion_order (forget id c) = rest) as Hr.
      { cbn. rewrite Ho. apply retain_head. rewrite <- Ho. apply Hok. }
      apply IH in He as [-> ->]; [|done|by apply forget_ok]. rewrite forget_size by (try done; rewrite Ho; by left).
      change (max_containers (forget id c)) with (max_containers c). unfold excess.
      replace (size (by_container_id c) - max_containers c)%nat with (S (pred (size (by_container_id c)) - max_containers c)) by lia.
      split; [done|lia].
    + cbn [evict_loop] in He. rewrite (proj2 (Nat.ltb_ge _ _)) in He by lia. injection He as <- <-.
      unfold excess. replace (size (by_container_id c) - max_containers c)%nat with 0%nat by lia. split; [done|lia].
Qed.

Lemma evict_ok c : cache_ok c -> cache_ok (evict_to_capacity c).1 /\
  max_containers (evict_to_capacity c).1 = max_containers c /\
  (size (by_container_id (evict_to_capacity c).1) <= max_containers c)%nat.
Proof.
  intros Hok. unfold evict_to_capacity. destruct (Nat.eqb_spec (max_containers c) 0) as [Hz|Hz]; cbn.
  { rewrite map_size_empty. split_and!; [|done|lia]. destruct (with_max_ok 0) as [H1 H2 H3 H4]. by split. }
  destruct (evict_loop (insertion_order c) c 0) as [c' n] eqn:He.
  destruct (evict_loop_spec c 0 c' n Hok He) as [-> _]. cbn. clear He.
  set (excess := (size (by_container_id c) - max_containers c)%nat).
  assert (excess <= length (insertion_order c))%nat as Hle by (rewrite cache_ok_length by done; lia).
  assert (size (by_container_id c) <= excess + max_containers c)%nat as Hsize by lia. clearbody excess.
  remember (max_containers c) as mx eqn:Hmx. revert c Hok Hmx Hle Hsize.
  induction excess as [|x IH]; intros c Hok Hmx Hle Hsize; [by split_and!|].
  destruct (insertion_order c) as [|id rest] eqn:Ho; [cbn in Hle; lia|].
  assert (insertion_order (forget id c) = rest) as Hr.
  { cbn. rewrite Ho. apply retain_head. rewrite <- Ho. apply Hok. }
  cbn [take foldl]. rewrite <- Hr. apply IH; [by apply forget_ok|done|rewrite Hr; cbn in Hle; lia|].
  rewrite forget_size by (try done; rewrite Ho; by left). lia.
Qed.

Lemma remove_containers_lookup ids m n k :
  (remove_containers ids m n).1 !! k = if bool_decide (k ∈ ids) then None else m !! k.
Proof.
  revert m n. induction ids as [|id ids IH]; intros m n; cbn; [by rewrite bool_decide_false by (by intros ?%elem_of_nil)|].
  rewrite IH. destruct (decide (k = id)) as [->|Hk].
  - rewrite lookup_delete_eq, (bool_decide_true (id ∈ id :: ids)) by (by left). by destruct (bool_decide _).
  - rewrite lookup_delete_ne by done. by rewrite (bool_decide_ext (k ∈ id :: ids) (k ∈ ids)) by (rewrite elem_of_cons; tauto).
Qed.

(** What [remove_pod] leaves, by component. *)
Lemma remove_pod_eq uid c :
  let c' := (remove_pod uid c).1 in
  let gone := default [] (by_pod_uid c !! uid) in
  (forall k, by_container_id c' !! k = if bool_decide (k ∈ gone) then None else by_container_id c !! k) /\
  by_pod_uid c' = delete uid (by_pod_uid c) /\
  insertion_order c' = filter (fun id => id ∉ gone) (insertion_order c) /\ max_containers c' = max_containers c.
Proof.
  unfold remove_pod. destruct (by_pod_uid c !! uid) as [ids|] eqn:Hu; cbn [default].
  - pose proof (remove_containers_lookup ids (by_container_id c) 0) as Hl.
    destruct (remove_containers ids (by_container_id c) 0) as [m n]. cbn in *. by split_and!.
  - cbn. split_and!; [|by rewrite delete_id| |done].
    + intros k. by rewrite bool_decide_false by (by intros ?%elem_of_nil).
    + symmetry. apply filter_all. by intros k _ ?%elem_of_nil.
Qed.

Lemma remove_pod_ok uid c : cache_ok c -> cache_ok (remove_pod uid c).1.
Proof.
  intros [Hn Hk Hl Hi]. destruct (remove_pod_eq uid c) as (Em & Ep & Eo & _). split.
  - rewrite Eo. by apply NoDup_filter.
  - intros k. rewrite Eo, Em, list_elem_of_filter, Hk. case_bool_decide; split; [tauto|by intros []|tauto|done].
  - intros k. rewrite Em. case_bool_decide; [by intros []|auto].
  - intros u ids. rewrite Ep, lookup_delete_Some. intros [_ ?]. eauto.
Qed.

Lemma remove_pod_size uid c : (size (by_container_id (remove_pod uid c).1) <= size (by_container_id c))%nat.
Proof.
  destruct (remove_pod_eq uid c) as (Em & _). rewrite <- !size_dom. apply subseteq_size. intros k.
  rewrite !elem_of_dom, Em. by case_bool_decide; [intros []|].
Qed.

(** The identifiers of a pod's containers that parse. *)
Definition pod_ids (pod : PodSnapshot) : list string :=
  omap (fun cs => match parse_k8s_container_id (cs_container_id cs) with Ok r => Some (cr_id r) | Err _ => None end)
    (ps_containers pod).

Lemma pod_ids_lower pod : Forall lower (pod_ids pod).
Proof.
  apply Forall_forall. intros id Hid. apply list_elem_of_omap in Hid as (cs & _ & H).
  destruct (parse_k8s_container_id (cs_container_id cs)) as [r|] eqn:Hp; [|done]. injection H as <-.
  by eapply parse_k8s_lower.
Qed.

Lemma insert_all_eq md containers c ids u :
  let new := omap (fun cs => match parse_k8s_container_id (cs_container_id cs) with Ok r => Some (cr_id r) | Err _ => None end)
               containers in
  (insert_all md containers c ids u).1 = (foldl (fun c id => insert_container id md c) c new, ids ++ new) /\
  cu_removed (insert_all md containers c ids u).2 = cu_removed u /\
  (cu_upserted (insert_all md containers c ids u).2 = cu_upserted u + length new)%nat /\
  (cu_upserted (insert_all md containers c ids u).2 + cu_ignored (insert_all md containers c ids u).2
     = cu_upserted u + cu_ignored u + length containers)%nat.
Proof.
  revert c ids u. induction containers as [|cs containers IH]; intros c ids u;
    cbn [insert_all omap list_omap length].
  { rewrite app_nil_r. split_and!; [done..|cbn; lia|cbn; lia]. }
  destruct (parse_k8s_container_id (cs_container_id cs)) as [r|e];
  [destruct (IH (insert_container (cr_id r) md c) (ids ++ [cr_id r]) (u <| cu_upserted ::= S |>)) as (-> & -> & H1 & H2)
  |destruct (IH c ids (u <| cu_ignored ::= S |>)) as (-> & -> & H1 & H2)];
    rewrite <- ?app_assoc; split_and!; cbn in *; try done; lia.
Qed.

Lemma insert_many_eq md ids c :
  Forall lower ids ->
  let c' := foldl (fun c id => insert_container id md c) c ids in
  (forall k, by_container_id c' !! k = if bool_decide (k ∈ ids) then Some md else by_container_id c !! k) /\
  by_pod_uid c' = by_pod_uid c /\ max_containers c' = max_containers c /\ (cache_ok c -> cache_ok c').
Proof.
  revert c. induction ids as [|id ids IH]; intros c Hl; cbn.
  { split_and!; [|done..]. intros k. by rewrite bool_decide_false by (by intros ?%elem_of_nil). }
  apply Forall_cons in Hl as [Hid Hl]. destruct (IH (insert_container id md c) Hl) as (Hm & Hp & Hx & Ho).
  assert (by_container_id (insert_container id md c) = <[id := md]> (by_container_id c) /\
          by_pod_uid (insert_container id md c) = by_pod_uid c /\
          max_containers (insert_container id md c) = max_containers c) as (E1 & E2 & E3).
  { unfold insert_container. rewrite Hid. by case_bool_decide. }
  split_and!; [|congruence|congruence|intros Hc; by apply Ho, insert_container_ok].
  intros k. rewrite Hm, E1. destruct (decide (k = id)) as [->|Hk].
  - rewrite lookup_insert_eq, (bool_decide_true (id ∈ id :: ids)) by (by left). by destruct (bool_decide _).
  - rewrite lookup_insert_ne by done. by rewrite (bool_decide_ext (k ∈ id :: ids) (k ∈ ids)) by (rewrite elem_of_cons; tauto).
Qed.

(** The cache before the eviction of [apply_pod_snapshot]. *)
Definition applied (pod : PodSnapshot) (c : BindingCache) : BindingCache :=
  let c := foldl (fun c id => insert_container id (metadata pod) c) (remove_pod (ps_pod_uid pod) c).1 (pod_ids pod) in
  match pod_ids pod with [] => c | ids => c <| by_pod_uid ::= <[ps_pod_uid pod := ids]> |> end.

Lemma apply_pod_snapshot_eq pod c : (apply_pod_snapshot pod c).1 = (evict_to_capacity (applied pod c)).1.
Proof.
  unfold apply_pod_snapshot, applied. destruct (remove_pod (ps_pod_uid pod) c) as [c1 u]. cbn [fst].
  destruct (insert_all_eq (metadata pod) (ps_containers pod) c1 [] u) as (E & _). fold (pod_ids pod) in E.
  destruct (insert_all _ _ _ _ _) as [[c2 ids] u2]. cbn in E. injection E as -> ->. cbn.
  destruct (pod_ids pod) as [|id ids]; cbn [app]; by destruct (evict_to_capacity _).
Qed.

Lemma applied_ok pod c : cache_ok c -> cache_ok (applied pod c).
Proof.
  intros Hok. unfold applied. pose proof (pod_ids_lower pod) as Hl.
  destruct (insert_many_eq (metadata pod) (pod_ids pod) (remove_pod (ps_pod_uid pod) c).1 Hl) as (_ & _ & _ & Ho).
  specialize (Ho (remove_pod_ok _ _ Hok)). destruct (pod_ids pod) as [|id ids] eqn:Hids; [done|].
  destruct Ho as [H1 H2 H3 H4]. split; [done..|]. intros u l. cbn.
  rewrite lookup_insert_Some. intros [[_ <-]|[_ H]]; [by split|eauto].
Qed.

Lemma applied_max pod c : max_containers (applied pod c) = max_containers c.
Proof.
  unfold applied. destruct (insert_many_eq (metadata pod) (pod_ids pod) (remove_pod (ps_pod_uid pod) c).1 (pod_ids_lower pod))
    as (_ & _ & E & _). destruct (remove_pod_eq (ps_pod_uid pod) c) as (_ & _ & _ & E'). rewrite E' in E.
  by destruct (pod_ids pod).
Qed.

(* ------------------------------------------------------------------ *)
(** ** Any history of the cache *)

Inductive CacheOp :=
| OpUpsert (container_id : string) (md : PodMetadata)
| OpRemove (container_id : string)
| OpApply (pod : PodSnapshot)
| OpRemovePod (uid : string)
| OpBind (container_id : string) (prov : BindingProvenance).

Definition run_op (c : BindingCache) (op : CacheOp) : BindingCache :=
  match op with
  | OpUpsert id md => upsert id md c
  | OpRemove id => (cache_remove id c).1
  | OpApply pod => (apply_pod_snapshot pod c).1
  | OpRemovePod uid => (remove_pod uid c).1
  | OpBind id prov => (bind_container id prov c).2
  end.

Lemma cache_remove_ok id c : cache_ok c -> cache_ok (cache_remove id c).1 /\
  max_containers (cache_remove id c).1 = max_containers c /\
  (size (by_container_id (cache_remove id c).1) <= size (by_container_id c))%nat.
Proof.
  intros Hok. unfold cache_remove. set (k := to_ascii_lowercase id). destruct (by_container_id c !! k) as [md|] eqn:Hk; cbn.
  - split_and!; [|done|rewrite map_size_delete_Some by (by eexists); lia]. destruct (forget_ok k c Hok). by split.
  - rewrite delete_id by done. split_and!; [by destruct Hok|done|done].
Qed.

Lemma run_op_ok c op :
  cache_ok c /\ (size (by_container_id c) <= max_containers c)%nat ->
  cache_ok (run_op c op) /\ max_containers (run_op c op) = max_containers c /\
  (size (by_container_id (run_op c op)) <= max_containers c)%nat.
Proof.
  intros [Hok Hb]. destruct op as [id md|id|pod|uid|id prov]; cbn [run_op].
  - assert (max_containers (insert_container id md c) = max_containers c) as Hm
      by (unfold insert_container; by case_bool_decide).
    rewrite <- Hm. apply evict_ok. by apply insert_container_ok.
  - destruct (cache_remove_ok id c Hok) as (H1 & H2 & H3). split_and!; [done..|lia].
  - rewrite apply_pod_snapshot_eq.
    rewrite <- (applied_max pod c). by apply evict_ok, applied_ok.
  - pose proof (remove_pod_size uid c). destruct (remove_pod_eq uid c) as (_ & _ & _ & E).
    split_and!; [by apply remove_pod_ok|done|lia].
  - unfold bind_container. destruct (by_container_id c !! _); cbn; (split_and!; [|done|done]); by destruct Hok.
Qed.

(** C28: the binding cache is bounded and consistent. After any history of upserts, removals, pod
    snapshots and lookups, from an empty cache of any capacity: it holds at most that many
    containers; the eviction order lists exactly the containers held, once each, so it neither
    grows with tombstones nor misses one; every identifier is in lower case, which is how lookups
    ask; and no pod has an empty list. *)
Theorem cache_invariant n ops :
  let c := foldl run_op (with_max_containers n) ops in
  max_containers c = n /\ (size (by_container_id c) <= n)%nat /\
  length (insertion_order c) = size (by_container_id c) /\ cache_ok c.
Proof.
  intros c. assert (cache_ok c /\ max_containers c = n /\ (size (by_container_id c) <= n)%nat) as (H1 & H2 & H3).
  { subst c. assert (cache_ok (with_max_containers n) /\ max_containers (with_max_containers n) = n /\
      (size (by_container_id (with_max_containers n)) <= n)%nat) as H
      by (split_and!; [apply with_max_ok|done|cbn; rewrite map_size_empty; lia]).
    revert H. generalize (with_max_containers n). induction ops as [|op ops IH]; intros c H; [done|].
    cbn. apply IH. destruct H as (H1 & H2 & H3). destruct (run_op_ok c op) as (H4 & H5 & H6); [split; [done|lia]|].
    split_and!; [done|congruence|congruence]. }
  split_and!; [done..|by apply cache_ok_length|done].
Qed.

(* ------------------------------------------------------------------ *)
(** ** Resolvers *)

(** [RuntimeEnricher]: a binding for a cgroup and a process, and the resolver's next state. A
    record without a cgroup is never looked up. *)
Class RuntimeEnricher (E : Type) := {
  resolve : Z -> Z -> E -> option (RuntimeBinding * E);
  resolve_no_cgroup pid e : resolve 0 pid e = Some (Unbound NoCgroup, e)
}.

#[export] Instance NoopEnricher : RuntimeEnricher unit := {
  resolve cgroup_id pid e := Some (noop_resolve cgroup_id pid, e);
  resolve_no_cgroup pid e := eq_refl
}.

Section cached.
Variables (fs : FileSystem) (depth : nat).

Definition CachedEnricher_enricher : RuntimeEnricher CachedEnricher := {|
  resolve := cached_resolve fs depth;
  resolve_no_cgroup pid e := eq_refl
|}.

(** What the memo should say of a cgroup. *)
Definition memo_entry (root : string) (cgroup_id : Z) (c : option ContainerRef) : Prop :=
  match resolve_container_ref_from_cgroupfs fs depth root cgroup_id with
  | Some (Ok r) => c = Some r
  | Some (Err (CgUnbound _ _ _)) => c = None
  | _ => False
  end.

Record memo_ok (e : CachedEnricher) : Prop := {
  mo_size : (size (ce_memo e) <= CGROUP_FALLBACK_MEMO_MAX)%nat;
  mo_entries cgroup_id c : ce_memo e !! cgroup_id = Some c -> memo_entry (ce_cgroup_root e) cgroup_id c
}.

Lemma memo_insert root (memo : gmap Z (option ContainerRef)) cgroup_id c :
  (size memo <= CGROUP_FALLBACK_MEMO_MAX)%nat -> (forall i c, memo !! i = Some c -> memo_entry root i c) ->
  memo_entry root cgroup_id c -> memo !! cgroup_id = None ->
  let memo' := <[cgroup_id := c]> (if (CGROUP_FALLBACK_MEMO_MAX <=? size memo)%nat then ∅ else memo) in
  (size memo' <= CGROUP_FALLBACK_MEMO_MAX)%nat /\ (forall i c, memo' !! i = Some c -> memo_entry root i c).
Proof.
  intros Hs He Hc Hn. cbv zeta. destruct (Nat.leb_spec CGROUP_FALLBACK_MEMO_MAX (size memo)); split.
  - rewrite map_size_insert, lookup_empty, map_size_empty. apply Nat.leb_le. by vm_compute.
  - intros i c' [[<- <-]|[_ H0]]%lookup_insert_Some; [done|]. by rewrite lookup_empty in H0.
  - rewrite map_size_insert, Hn. lia.
  - intros i c' [[<- <-]|[_ H0]]%lookup_insert_Some; [done|]. by apply He.
Qed.

Lemma fallback_transparent cgroup_id e out :
  memo_ok e -> resolve_from_cgroupfs_fallback fs depth cgroup_id e = Some out ->
  memo_ok out.2 /\ ce_cache out.2 = ce_cache e /\
  exists e', resolve_from_cgroupfs_fallback fs depth cgroup_id (e <| ce_memo := ∅ |>) = Some (out.1, e') /\ ce_cache e' = ce_cache e.
Proof.
  intros [Hs He] H. unfold resolve_from_cgroupfs_fallback in *. cbn [ce_memo ce_cgroup_root set] in *.
  rewrite lookup_empty. destruct (ce_memo e !! cgroup_id) as [c|] eqn:Hm.
  - injection H as <-. apply He in Hm as Hc. cbn. split_and!; [by split|done|]. unfold memo_entry in Hc.
    destruct (resolve_container_ref_from_cgroupfs fs depth (ce_cgroup_root e) cgroup_id) as [[r|[]]|]; try done;
      subst c; cbn; by eexists.
  - assert (forall c, memo_entry (ce_cgroup_root e) cgroup_id c ->
      memo_ok (e <| ce_memo := <[cgroup_id := c]> (if (CGROUP_FALLBACK_MEMO_MAX <=? size (ce_memo e))%nat then ∅ else ce_memo e) |>)) as Hins.
    { intros c Hc. by destruct (memo_insert (ce_cgroup_root e) (ce_memo e) cgroup_id c Hs He Hc Hm). }
    unfold memo_entry in Hins.
    destruct (resolve_container_ref_from_cgroupfs fs depth (ce_cgroup_root e) cgroup_id) as [[r|[]]|]; cbn in H |- *; try done;
      injection H as <-; cbn; (split_and!; [first [by apply Hins|by split]|done|by eexists]).
Qed.

(** The memo changes nothing. While the file system does not change, resolving with any memo
    that earlier resolutions can have left gives the binding that resolving from scratch gives;
    the memo it leaves is again such a memo, of at most 8192 entries; the pod cache moves by one
    lookup at most; and a binding names exactly the container of the process's cgroup file, as
    observed, whenever that file names one. *)
Theorem cached_resolve_transparent cgroup_id pid e b e' :
  memo_ok e -> cached_resolve fs depth cgroup_id pid e = Some (b, e') ->
  memo_ok e' /\ by_container_id (ce_cache e') = by_container_id (ce_cache e) /\
  (exists e0, cached_resolve fs depth cgroup_id pid (e <| ce_memo := ∅ |>) = Some (b, e0)) /\
  (forall r, cgroup_id <> 0 -> resolve_container_ref_from_procfs fs (ce_proc_root e) pid = Ok r ->
    b = into_runtime_binding (bind_container (cr_id r) Observed (ce_cache e)).1).
Proof.
  intros Hok H. unfold cached_resolve in *. change (ce_proc_root (e <| ce_memo := ∅ |>)) with (ce_proc_root e). destruct (Z.eqb_spec cgroup_id 0) as [->|Hz].
  { injection H as <- <-. split_and!; [done|done|by eexists|done]. }
  assert (forall r p c, by_container_id (bind_container r p c).2 = by_container_id c) as Hbind
    by (intros r p c; unfold bind_container; by destruct (by_container_id c !! _)).
  destruct (resolve_container_ref_from_procfs fs (ce_proc_root e) pid) as [r|err] eqn:Hp.
  - unfold bind_ref in *. change (ce_cache (e <| ce_memo := ∅ |>)) with (ce_cache e). specialize (Hbind (cr_id r) Observed (ce_cache e)).
    destruct (bind_container (cr_id r) Observed (ce_cache e)) as [bd c] eqn:Hb.
    injection H as <- <-. destruct Hok. split_and!; [by split|exact Hbind|by eexists|].
    intros r' _ [= <-]. by rewrite Hb.
  - destruct (resolve_from_cgroupfs_fallback fs depth cgroup_id e) as [out|] eqn:Hf; [|done].
    destruct (fallback_transparent _ _ _ Hok Hf) as (Hok' & Hc & e0 & Hf0 & Hc0). rewrite Hf0.
    destruct out as [fb e1]; cbn in *. unfold bind_ref in *. destruct fb as [[r|]|reason].
    + rewrite Hc in H. specialize (Hbind (cr_id r) DerivedFromCache (ce_cache e)). rewrite Hc0.
      destruct (bind_container (cr_id r) DerivedFromCache (ce_cache e)) as [bd c].
      injection H as <- <-. destruct Hok'. split_and!; [by split|exact Hbind|by eexists|done].
    + injection H as <- <-. rewrite Hc. split_and!; [done|done|by eexists|done].
    + injection H as <- <-. rewrite Hc. split_and!; [done|done|by eexists|done].
Qed.
End cached.

(** A host with one pod's process, 42, and a cgroup without a container. *)
Definition w_container : string := String.string_of_list_ascii (repeat "c"%char 64).
Definition w_fs : FileSystem := {|
  fs_read_to_string path :=
    if bool_decide (path = "/proc/42/cgroup") then Ok ("0::/kubepods/docker-" +:+ w_container +:+ ".scope") else Err "gone";
  fs_inode path := if bool_decide (path = "/cg") then Ok 1 else Ok 7;
  fs_read_dir path := if bool_decide (path = "/cg") then Ok [Ok "system.slice"] else Ok [];
  fs_is_dir path := Ok true
|}.
Definition w_enricher : CachedEnricher :=
  CachedEnricher_new "/cg"
    (upsert w_container (mkPodMetadata "u1" "web-1" "prod" None None) (with_max_containers 10)).

Lemma cached_resolve_transparent_witness :
  exists b e', cached_resolve w_fs 4 7 42 w_enricher = Some (b, e') /\ memo_ok w_fs 4 e' /\ strong_binding b = true.
Proof.
  destruct (cached_resolve w_fs 4 7 42 w_enricher) as [[b e']|] eqn:E; [|by vm_compute in E].
  exists b, e'. split; [done|].
  destruct (cached_resolve_transparent w_fs 4 7 42 w_enricher b e') as (Hok & _ & _ & Hb); [|exact E|].
  - split; [apply Nat.leb_le; by vm_compute|]. intros i c H. change (ce_memo w_enricher) with (∅ : gmap Z (option ContainerRef)) in H. by rewrite lookup_empty in H.
  - split; [done|]. rewrite (Hb (mkContainerRef Docker w_container)); by vm_compute.
Defined.
