(* ===== verification/EnrichId.v ===== *)
(** Container identifiers across the sources ([jalki-enrich/src/lib.rs]): the spelling of a container
    in a cgroup path and in a pod's status is brought to the same key. *)
From Stdlib Require Import Strings.Byte Strings.Ascii.
From S2P Require Import Prelude Text Evidence Enrich.

(** The first byte of every white space, and the last. *)
Definition space_edge (c : ascii) : bool :=
  existsb (fun w => match w with String d _ => bool_decide (c = d) | EmptyString => true end)
    (white_space ++ map string_rev white_space).

Lemma strip_all_edge ps fuel c s :
  existsb (fun w => match w with String d _ => bool_decide (c = d) | EmptyString => true end) ps = false ->
  strip_all fuel ps (String c s) = String c s.
Proof.
  intros He. destruct fuel as [|fuel]; [done|]. cbn. assert (first_strip ps (String c s) = None) as ->; [|done].
  induction ps as [|w ps IH]; [done|]. cbn in *. apply orb_false_iff in He as [Hw He]. destruct w as [|d w]; [done|].
  cbn. apply bool_decide_eq_false in Hw. rewrite decide_False by congruence. by apply IH.
Qed.

Lemma string_rev_rev s : string_rev (string_rev s) = s.
Proof.
  unfold string_rev. rewrite String.list_ascii_of_string_of_list_ascii, rev_involutive.
  apply String.string_of_list_ascii_of_string.
Qed.

Lemma trim_edges c d s t :
  String c s = t +:+ String d "" -> space_edge c = false -> space_edge d = false -> trim (String c s) = String c s.
Proof.
  intros E Hc Hd. unfold space_edge in *. rewrite existsb_app in Hc, Hd. apply orb_false_iff in Hc as [Hc _], Hd as [_ Hd].
  unfold trim, trim_start. rewrite strip_all_edge by done. unfold trim_end.
  assert (exists r, string_rev (String c s) = String d r) as [r Hr].
  { rewrite E. unfold string_rev. fold (chars (t +:+ String d "")). rewrite chars_app. cbn [chars String.list_ascii_of_string].
    rewrite rev_app_distr. cbn. by eexists. }
  rewrite Hr, strip_all_edge, <- Hr by done. apply string_rev_rev.
Qed.

(* ------------------------------------------------------------------ *)
(** ** Hexadecimal identifiers *)

Definition hex_char (c : ascii) : bool := is_ascii_hexdigit (byte_of_ascii c).
Definition hex_id (s : string) : Prop := Forall (fun c => hex_char c = true) (chars s) /\ length (chars s) = 64%nat.

Lemma hex_char_plain c : hex_char c = true ->
  space_edge c = false /\ c <> "/"%char /\ c <> ":"%char /\ c <> "r"%char /\ c <> "o"%char /\ c <> "p"%char.
Proof. by destruct c as [[] [] [] [] [] [] [] []]. Qed.

Lemma is_container_id_spec s : is_container_id s = true <-> hex_id s.
Proof.
  unfold is_container_id, hex_id, CONTAINER_ID_LEN. rewrite andb_true_iff, Z.eqb_eq, forallb_forall, Forall_forall.
  assert (slen s = zlen (chars s)) as ->.
  { unfold slen, zlen. f_equal. induction s as [|c s IH]; [done|]. cbn. by f_equal. }
  unfold bytes_of, String.list_byte_of_string. fold (chars s). setoid_rewrite in_map_iff. split.
  - intros [Hl H]. split; [|unfold zlen in Hl; lia]. intros c Hc. apply H. exists c. split; [done|]. by apply list_elem_of_In.
  - intros [H Hl]. split; [unfold zlen; lia|]. intros b (c & <- & Hc). apply H. by apply list_elem_of_In.
Qed.

Lemma validate_ok id rt : hex_id id -> validate_container_id id rt = Ok (mkContainerRef rt (to_ascii_lowercase id)).
Proof. intros H%is_container_id_spec. unfold validate_container_id. by rewrite H. Qed.

Lemma chars_rev s : chars (string_rev s) = rev (chars s).
Proof. apply String.list_ascii_of_string_of_list_ascii. Qed.

Lemma chars_inj s t : chars s = chars t -> s = t.
Proof.
  intros H. by rewrite <- (String.string_of_list_ascii_of_string s), <- (String.string_of_list_ascii_of_string t); f_equal.
Qed.

Lemma string_rev_app s t : string_rev (s +:+ t) = string_rev t +:+ string_rev s.
Proof. apply chars_inj. by rewrite chars_rev, !chars_app, !chars_rev, rev_app_distr. Qed.

Lemma strip_prefix_self p s : strip_prefix p (p +:+ s) = Some s.
Proof.
  induction p as [|c p IH]; [done|]. change (String c p +:+ s) with (String c (p +:+ s)). cbn. by rewrite decide_True.
Qed.

Lemma strip_suffix_app s p : strip_suffix p (s +:+ p) = Some s.
Proof. unfold strip_suffix. rewrite string_rev_app, strip_prefix_self. cbn. by rewrite string_rev_rev. Qed.

(** The two characters at either end of an identifier. *)
Lemma hex_id_front s : hex_id s -> exists c d t, s = String c (String d t) /\ hex_char c = true /\ hex_char d = true.
Proof.
  intros [H Hl]. destruct s as [|c [|d t]]; [done..|]. exists c, d, t. cbn in H.
  apply Forall_cons in H as [Hc H]. by apply Forall_cons in H as [Hd _].
Qed.

Lemma hex_id_rev s : hex_id s -> hex_id (string_rev s).
Proof. intros [H Hl]. unfold hex_id. rewrite chars_rev, length_rev. split; [|done]. by apply Forall_rev. Qed.

Lemma hex_id_back s : hex_id s -> exists d t, s = t +:+ String d "" /\ hex_char d = true.
Proof.
  intros H. destruct (hex_id_front _ (hex_id_rev _ H)) as (c & d & t & E & Hc & _).
  exists c, (string_rev (String d t)). split; [|done].
  by rewrite <- (string_rev_rev s), E, <- (string_rev_rev (String c "")), <- string_rev_app.
Qed.

Lemma hex_id_no_scope s : hex_id s -> strip_suffix ".scope" s = None.
Proof.
  intros H. destruct (hex_id_front _ (hex_id_rev _ H)) as (c & d & t & E & Hc & Hd).
  unfold strip_suffix. rewrite E. change (string_rev ".scope") with "epocs.". cbn.
  destruct (decide _) as [_|]; [|done]. rewrite decide_False; [done|].
  intros <-. by destruct (hex_char_plain _ Hd) as (_ & _ & _ & _ & _ & Hp).
Qed.

Lemma hex_id_no_prefix s : hex_id s -> scope_prefix SCOPE_PREFIXES s = None.
Proof.
  intros H. destruct (hex_id_front _ H) as (c & d & t & -> & Hc & Hd).
  destruct (hex_char_plain _ Hd) as (_ & _ & _ & Hr & Ho & _). cbn.
  repeat (destruct (decide _) as [<-|_]; [rewrite decide_False by congruence|]); try done.
  all: by repeat (destruct (decide _) as [E|_]; [try congruence|]).
Qed.

Lemma hex_no_slash s : hex_id s -> "/"%char ∉ chars s.
Proof. intros [H _] Hin. rewrite Forall_forall in H. by destruct (hex_char_plain _ (H _ Hin)) as (_ & ? & _). Qed.

(** The last segment decides when it names a container. *)
Lemma parse_last dir seg c d t :
  "/"%char ∉ chars seg -> seg = String c t -> (exists u, seg = u +:+ String d "") -> space_edge c = false -> space_edge d = false ->
  parse_container_ref (dir +:+ String "/" seg) =
  parse_segments (dir +:+ String "/" seg) (seg :: rev (split_char "/" dir)) /\ trim seg = seg /\ seg <> "".
Proof.
  intros Hn -> [u Hu] Hc Hd. split; [|split; [by eapply trim_edges|done]]. unfold parse_container_ref.
  rewrite split_char_app, (split_char_none _ _ Hn), rev_app_distr. done.
Qed.

Lemma scope_prefix_app prefix rt rest : (prefix, rt) ∈ SCOPE_PREFIXES -> scope_prefix SCOPE_PREFIXES (prefix +:+ rest) = Some (rest, rt).
Proof.
  unfold SCOPE_PREFIXES. rewrite !elem_of_cons, elem_of_nil.
  intros [[= -> ->]|[[= -> ->]|[[= -> ->]|[]]]]; done.
Qed.

Lemma parse_scoped dir prefix rt rest id :
  (prefix, rt) ∈ SCOPE_PREFIXES -> hex_id id -> "/"%char ∉ chars rest ->
  default rest (strip_suffix ".scope" rest) = id ->
  (exists u d, prefix +:+ rest = u +:+ String d "" /\ space_edge d = false) ->
  parse_container_ref (dir +:+ String "/" (prefix +:+ rest)) = Ok (mkContainerRef rt (to_ascii_lowercase id)).
Proof.
  intros Hp Hid Hslash Hrest (u & d & Hu & Hd).
  assert (exists c t, prefix +:+ rest = String c t /\ space_edge c = false /\ "/"%char ∉ chars prefix) as (c & t & Ec & Hc & Hps).
  { unfold SCOPE_PREFIXES in Hp. rewrite !elem_of_cons, elem_of_nil in Hp.
    destruct Hp as [[= -> ->]|[[= -> ->]|[[= -> ->]|[]]]]; do 2 eexists; (split; [reflexivity|]); (split; [done|]);
      by apply (bool_decide_unpack _); vm_compute. }
  destruct (parse_last dir (prefix +:+ rest) c d t) as (-> & Ht & Hne); [|done|by exists u|done|done|].
  { rewrite chars_app, elem_of_app. by intros []. }
  cbn [parse_segments]. rewrite Ht, bool_decide_false by done. rewrite (scope_prefix_app _ rt) by done.
  rewrite Hrest. by apply validate_ok.
Qed.

Lemma append_assoc (a b c : string) : (a +:+ b) +:+ c = a +:+ (b +:+ c).
Proof. apply chars_inj. by rewrite !chars_app, app_assoc. Qed.

Lemma parse_segments_sound path segments r :
  parse_segments path segments = Ok r -> is_container_id (cr_id r) = true /\ lower (cr_id r).
Proof.
  assert (forall id, hex_id id -> is_container_id (to_ascii_lowercase id) = true /\ lower (to_ascii_lowercase id)) as Hlow.
  { intros id H%is_container_id_spec. split; [|apply lowercase_idem]. unfold is_container_id in *.
    apply andb_true_iff in H as [Hl Hh]. unfold to_ascii_lowercase. rewrite bytes_of_string_of.
    apply andb_true_iff. split.
    - unfold slen in *. rewrite <- bytes_of_length, bytes_of_string_of, length_map, bytes_of_length. done.
    - rewrite forallb_forall in Hh |- *. intros b' (b & <- & Hb)%in_map_iff. specialize (Hh b Hb). by destruct b. }
  induction segments as [|seg segments IH]; cbn [parse_segments]; [done|]. case_bool_decide; [done|].
  destruct (scope_prefix SCOPE_PREFIXES (trim seg)) as [[after rt]|].
  - unfold validate_container_id. destruct (is_container_id (default after (strip_suffix ".scope" after))) eqn:Hid; cbn [negb]; [|done].
    intros [= <-]. cbn [cr_id]. by apply Hlow, is_container_id_spec.
  - destruct (is_container_id (trim seg)) eqn:Hid; [|done]. intros [= <-]. cbn. by apply Hlow, is_container_id_spec.
Qed.

(** One container, one key. Whatever [parse_container_ref] accepts is 64 hexadecimal digits in
    lower case. It accepts an identifier, spelled in either case, as the last segment of any path:
    after each runtime's prefix, with and without [.scope], and bare, as Docker's when the path
    says so; and the key is the one [parse_k8s_container_id] makes of the same identifier under any
    scheme or none, so that what a process's cgroup names is what the pod's status filled in. *)
Theorem parse_container_ref_forms dir id :
  is_container_id id = true ->
  let ref rt := mkContainerRef rt (to_ascii_lowercase id) in
  (forall prefix rt, (prefix, rt) ∈ SCOPE_PREFIXES ->
    parse_container_ref (dir +:+ String "/" (prefix +:+ (id +:+ ".scope"))) = Ok (ref rt) /\
    parse_container_ref (dir +:+ String "/" (prefix +:+ id)) = Ok (ref rt)) /\
  (let path := dir +:+ String "/" id in
   parse_container_ref path = Ok (ref (if contains path "/docker/" then Docker else Containerd))) /\
  (forall scheme rt, (scheme, rt) ∈ [("containerd", Containerd); ("cri-o", Crio); ("crio", Crio); ("docker", Docker)] ->
    parse_k8s_container_id (scheme +:+ ("://" +:+ id)) = Ok (ref rt)) /\
  parse_k8s_container_id id = Ok (ref Containerd) /\
  (forall path r, parse_container_ref path = Ok r -> hex_id (cr_id r) /\ lower (cr_id r)).
Proof.
  intros Hid%is_container_id_spec ref. pose proof (hex_no_slash id Hid) as Hs.
  destruct (hex_id_front id Hid) as (c & d & t & Ef & Hc & _). destruct (hex_id_back id Hid) as (b & u & Eb & Hb).
  destruct (hex_char_plain _ Hc) as (Hce & _). destruct (hex_char_plain _ Hb) as (Hbe & _).
  split_and!.
  - intros prefix rt Hp. split.
    + apply parse_scoped; [done|done| |by rewrite strip_suffix_app|].
      * rewrite chars_app, elem_of_app. intros [?|H]; [done|]. revert H. by apply (bool_decide_unpack _); vm_compute.
      * exists (prefix +:+ (id +:+ ".scop")), "e"%char. split; [|done]. by rewrite !append_assoc.
    + apply parse_scoped; [done|done|done|by rewrite hex_id_no_scope|].
      exists (prefix +:+ u), b. split; [by rewrite append_assoc, <- Eb|done].
  - intros path. unfold path. destruct (parse_last dir id c b (String d t)) as (-> & Ht & Hne); [done|done|by exists u|done|done|].
    cbn [parse_segments]. rewrite Ht, bool_decide_false by done. rewrite hex_id_no_prefix by done.
    by rewrite (proj2 (is_container_id_spec id)).
  - intros scheme rt Hin. unfold parse_k8s_container_id. rewrite !elem_of_cons, elem_of_nil in Hin.
    destruct Hin as [[= -> ->]|[[= -> ->]|[[= -> ->]|[[= -> ->]|[]]]]]; by apply validate_ok.
  - unfold parse_k8s_container_id.
    assert (split_once "://" id = None) as ->; [|by apply validate_ok].
    assert (":"%char ∉ chars id) as Hcolon.
    { intros Hin. destruct Hid as [H _]. rewrite Forall_forall in H. by destruct (hex_char_plain _ (H _ Hin)) as (_ & _ & ? & _). }
    clear -Hcolon. induction id as [|c id IH]; [done|]. cbn in *. apply not_elem_of_cons in Hcolon as [Hc Hcolon].
    rewrite decide_False by done. by rewrite IH.
  - intros path r (Hi & Hl)%parse_segments_sound. split; [by apply is_container_id_spec|done].
Qed.

Lemma parse_container_ref_forms_witness :
  let id := String.string_of_list_ascii (repeat "A"%char 64) in
  parse_container_ref ("/sys/fs/cgroup/kubepods.slice" +:+ String "/" ("cri-containerd-" +:+ (id +:+ ".scope"))) =
    Ok (mkContainerRef Containerd (String.string_of_list_ascii (repeat "a"%char 64))).
Proof.
  intros id. destruct (parse_container_ref_forms "/sys/fs/cgroup/kubepods.slice" id) as (H & _); [by vm_compute|].
  apply (H "cri-containerd-" Containerd). by left.
Defined.
