(* ===== verification/KubeWatch.v ===== *)
(** The pod watcher ([jalki/src/kube_watch.rs]): the events of the node's pods, applied to the
    binding cache.

    A [Pod] of the Kubernetes API is the fields the watcher reads. The stream's events are a list;
    the cache's lock is not poisoned. *)
From Stdlib Require Import Strings.Byte Strings.Ascii.
From S2P Require Import Prelude Text Evidence Enrich.

(* ------------------------------------------------------------------ *)
(** ** Pods *)

Record OwnerReference := mkOwnerReference { or_kind : string; or_name : string; or_uid : string; or_controller : option bool }.

Record ContainerStatus := mkContainerStatus { st_container_id : option string }.

Record PodStatus := mkPodStatus {
  st_container_statuses : option (list ContainerStatus);
  st_init_container_statuses : option (list ContainerStatus);
  st_ephemeral_container_statuses : option (list ContainerStatus)
}.

Record Pod := mkPod {
  pod_meta_uid : option string;
  pod_meta_name : option string;
  pod_meta_namespace : option string;
  pod_owner_references : option (list OwnerReference);
  pod_service_account_name : option string;
  pod_status : option PodStatus
}.

Definition collect_container_statuses (out : list ContainerStatusSnapshot) (statuses : option (list ContainerStatus))
  : list ContainerStatusSnapshot :=
  match statuses with
  | None => out
  | Some statuses => out ++ map mkContainerStatusSnapshot (omap st_container_id statuses)
  end.

(** [controlling_owner]: the first reference marked as the controller, when it is complete. *)
Definition controlling_owner (pod : Pod) : option WorkloadOwner :=
  refs ← pod_owner_references pod;
  owner ← find_first (fun r => default false (or_controller r)) refs;
  if bool_decide (or_kind owner = "") || bool_decide (or_name owner = "") || bool_decide (or_uid owner = "") then None
  else Some (mkWorkloadOwner (or_kind owner) (or_name owner) (or_uid owner)).

Definition pod_to_snapshot (pod : Pod) : option PodSnapshot :=
  uid ← pod_meta_uid pod;
  name ← pod_meta_name pod;
  namespace ← pod_meta_namespace pod;
  let containers :=
    match pod_status pod with
    | Some status =>
        collect_container_statuses
          (collect_container_statuses (collect_container_statuses [] (st_container_statuses status))
             (st_init_container_statuses status))
          (st_ephemeral_container_statuses status)
    | None => []
    end in
  Some (mkPodSnapshot uid name namespace (pod_service_account_name pod) (controlling_owner pod) containers).

(* ------------------------------------------------------------------ *)
(** ** The watcher *)

Inductive WatchEvent :=
| EvInit
| EvInitApply (pod : Pod)
| EvInitDone
| EvApply (pod : Pod)
| EvDelete (pod : Pod)
| EvErr (message : string).

(** The locals of [run_pod_binding_watcher]. *)
Record Watcher := mkWatcher {
  w_cache : BindingCache;
  w_known_pods : gset string;
  w_init_seen : option (gset string)
}.
#[export] Instance eta_Watcher : Eta Watcher := fun w => mkWatcher (w_cache w) (w_known_pods w) (w_init_seen w).

Definition Watcher_new (cache : BindingCache) : Watcher := mkWatcher cache ∅ None.

Definition apply_pod_to_cache (pod : Pod) (c : BindingCache) : option string * BindingCache :=
  match pod_to_snapshot pod with
  | None => (None, c)
  | Some snapshot => (Some (ps_pod_uid snapshot), (apply_pod_snapshot snapshot c).1)
  end.

Definition remove_pod_from_cache (uid : string) (c : BindingCache) : BindingCache := (remove_pod uid c).1.

(** The removal of a pod the relist did not name. *)
Definition drop_stale (w : Watcher) (uid : string) : Watcher :=
  w <| w_cache ::= remove_pod_from_cache uid |> <| w_known_pods ::= fun known => known ∖ {[uid]} |>.

Definition watch_step (w : Watcher) (ev : WatchEvent) : Watcher :=
  match ev with
  | EvInit => w <| w_init_seen := Some ∅ |>
  | EvInitApply pod =>
      let '(uid, cache) := apply_pod_to_cache pod (w_cache w) in
      let w := w <| w_cache := cache |> in
      match uid with
      | Some uid => w <| w_init_seen ::= fmap (fun seen => {[uid]} ∪ seen) |> <| w_known_pods ::= fun known => {[uid]} ∪ known |>
      | None => w
      end
  | EvInitDone =>
      match w_init_seen w with
      | Some seen => foldl drop_stale (w <| w_init_seen := None |>) (elements (w_known_pods w ∖ seen))
      | None => w
      end
  | EvApply pod =>
      let '(uid, cache) := apply_pod_to_cache pod (w_cache w) in
      let w := w <| w_cache := cache |> in
      match uid with
      | Some uid => w <| w_known_pods ::= fun known => {[uid]} ∪ known |>
      | None => w
      end
  | EvDelete pod =>
      match pod_meta_uid pod with
      | Some uid => drop_stale w uid
      | None => w
      end
  | EvErr _ => w
  end.

(* ------------------------------------------------------------------ *)
(** ** What the watcher promises

    The pods of the node, by uid, as the events tell them: what was applied and neither deleted
    nor missing from a relist. *)

Record Node := mkNode { n_live : gmap string PodSnapshot; n_seen : option (gset string) }.

Definition node_apply (pod : Pod) (live : gmap string PodSnapshot) : gmap string PodSnapshot :=
  match pod_to_snapshot pod with Some s => <[ps_pod_uid s := s]> live | None => live end.

Definition node_step (n : Node) (ev : WatchEvent) : Node :=
  match ev with
  | EvInit => mkNode (n_live n) (Some ∅)
  | EvInitApply pod =>
      mkNode (node_apply pod (n_live n))
        (match pod_meta_uid pod, pod_to_snapshot pod with
         | Some uid, Some _ => (fun seen => {[uid]} ∪ seen) <$> n_seen n
         | _, _ => n_seen n
         end)
  | EvInitDone =>
      match n_seen n with
      | Some seen => mkNode (filter (fun p => p.1 ∈ seen) (n_live n)) None
      | None => n
      end
  | EvApply pod => mkNode (node_apply pod (n_live n)) (n_seen n)
  | EvDelete pod => mkNode (match pod_meta_uid pod with Some uid => delete uid (n_live n) | None => n_live n end) (n_seen n)
  | EvErr _ => n
  end.

(** [id] is a container of the live pod [s]. *)
Definition runs (live : gmap string PodSnapshot) (id : string) (s : PodSnapshot) : Prop :=
  live !! ps_pod_uid s = Some s /\ id ∈ pod_ids s.

Definition live_ids (live : gmap string PodSnapshot) : gset string :=
  list_to_set (concat (map (fun p => pod_ids p.2) (map_to_list live))).

(** No container belongs to two pods, and there are no more than the cache holds. *)
Record fits (max : nat) (live : gmap string PodSnapshot) : Prop := {
  ft_unique id s1 s2 : runs live id s1 -> runs live id s2 -> s1 = s2;
  ft_room : (size (live_ids live) <= max)%nat
}.

(** The cache of a node. *)
Record tracks (c : BindingCache) (live : gmap string PodSnapshot) : Prop := {
  tr_ok : cache_ok c;
  tr_uid uid s : live !! uid = Some s -> uid = ps_pod_uid s;
  tr_bound id md : by_container_id c !! id = Some md <-> exists s, runs live id s /\ md = metadata s;
  tr_index uid : default [] (by_pod_uid c !! uid) = default [] (pod_ids <$> live !! uid)
}.

Definition unique (live : gmap string PodSnapshot) : Prop :=
  forall id s1 s2, runs live id s1 -> runs live id s2 -> s1 = s2.
Definition keyed (live : gmap string PodSnapshot) : Prop := forall uid s, live !! uid = Some s -> uid = ps_pod_uid s.

Lemma elem_live_ids live id : keyed live -> id ∈ live_ids live <-> exists s, runs live id s.
Proof.
  intros Hk. unfold live_ids. rewrite elem_of_list_to_set, list_elem_of_In, in_concat. split.
  - intros (ids & Hids & Hid). apply in_map_iff in Hids as ([uid s] & <- & Hin).
    apply list_elem_of_In, elem_of_map_to_list in Hin. exists s. split; [|by apply list_elem_of_In].
    by rewrite <- (Hk _ _ Hin).
  - intros (s & Hl & Hid). exists (pod_ids s). split; [|by apply list_elem_of_In]. apply in_map_iff.
    exists (ps_pod_uid s, s). split; [done|]. apply list_elem_of_In. by apply elem_of_map_to_list.
Qed.

Lemma runs_delete live uid id s : runs (delete uid live) id s <-> ps_pod_uid s <> uid /\ runs live id s.
Proof. unfold runs. rewrite lookup_delete_Some. intuition congruence. Qed.

Lemma unique_delete uid live : unique live -> unique (delete uid live).
Proof. intros Hu id s1 s2 [_ H1]%runs_delete [_ H2]%runs_delete. by eapply Hu. Qed.

Lemma tracks_gone c live uid id :
  tracks c live -> id ∈ default [] (by_pod_uid c !! uid) <-> exists s, runs live id s /\ ps_pod_uid s = uid.
Proof.
  intros [_ Hk _ Hi]. rewrite Hi. destruct (live !! uid) as [s|] eqn:Hs; cbn; split.
  - intros Hid. pose proof (Hk _ _ Hs). subst uid. by exists s.
  - intros (s' & [Hl Hid] & <-). congruence.
  - by intros ?%elem_of_nil.
  - intros (s' & [Hl Hid] & <-). congruence.
Qed.

Lemma tracks_remove c live uid : unique live -> tracks c live -> tracks (remove_pod uid c).1 (delete uid live).
Proof.
  intros Hu Ht. destruct (remove_pod_eq uid c) as (Em & Ep & _ & _). pose proof (fun id => tracks_gone c live uid id Ht) as Hg.
  destruct Ht as [Hok Hk Hb Hi]. split.
  - by apply remove_pod_ok.
  - intros u s [_ Hs]%lookup_delete_Some. by apply Hk.
  - intros id md. rewrite Em. case_bool_decide as Hid.
    + split; [done|]. intros (s & [Hne Hr]%runs_delete & _). apply Hg in Hid as (s' & Hr' & <-).
      by rewrite (Hu id s s') in Hne.
    + rewrite Hb. split; intros (s & Hr & ->); exists s; (split; [|done]).
      * apply runs_delete. split; [|done]. intros <-. apply Hid, Hg. by exists s.
      * by apply runs_delete in Hr as [_ Hr].
  - intros u. rewrite Ep. destruct (decide (u = uid)) as [->|Hne]; [by rewrite !lookup_delete_eq|].
    by rewrite !lookup_delete_ne.
Qed.

Lemma runs_insert live s id s' :
  runs (<[ps_pod_uid s := s]> live) id s' <-> (s' = s /\ id ∈ pod_ids s) \/ (runs (delete (ps_pod_uid s) live) id s').
Proof.
  unfold runs. rewrite lookup_delete_Some, lookup_insert_Some. split.
  - intros [[[_ <-]|[Hne Hl]] Hid]; [by left|by right].
  - intros [[-> Hid]|[[Hne Hl] Hid]]; [by split; [left|]|by split; [right|]].
Qed.

Lemma tracks_applied c live s :
  unique live -> tracks c live -> unique (<[ps_pod_uid s := s]> live) ->
  tracks (applied s c) (<[ps_pod_uid s := s]> live).
Proof.
  intros Hu Ht Hun. pose proof (tracks_remove c live (ps_pod_uid s) Hu Ht) as Ht1.
  assert (cache_ok (applied s c)) as Hok by (apply applied_ok, Ht).
  destruct (insert_many_eq (metadata s) (pod_ids s) (remove_pod (ps_pod_uid s) c).1 (pod_ids_lower s)) as (Em & Ep & _ & _).
  assert (exists c2, c2 = foldl (fun c id => insert_container id (metadata s) c) (remove_pod (ps_pod_uid s) c).1 (pod_ids s) /\
    applied s c = match pod_ids s with [] => c2 | ids => c2 <| by_pod_uid ::= <[ps_pod_uid s := ids]> |> end) as (c2 & Ec2 & Ea)
    by (eexists; split; reflexivity).
  rewrite <- Ec2 in Em, Ep. clear Ec2.
  assert (by_container_id (applied s c) = by_container_id c2) as E1 by (rewrite Ea; by destruct (pod_ids s)).
  assert (forall uid, default [] (by_pod_uid (applied s c) !! uid) =
            if decide (uid = ps_pod_uid s) then pod_ids s else default [] (by_pod_uid (remove_pod (ps_pod_uid s) c).1 !! uid)) as E2.
  { intros uid. destruct (remove_pod_eq (ps_pod_uid s) c) as (_ & Ed & _ & _).
    rewrite Ea. destruct (pod_ids s) as [|i ids]; cbn; rewrite Ep.
    - destruct (decide _) as [->|]; [by rewrite Ed, lookup_delete_eq|done].
    - destruct (decide _) as [->|]; [by rewrite lookup_insert_eq|by rewrite lookup_insert_ne]. }
  destruct Ht1 as [_ Hk1 Hb1 Hi1]. split; [done| | |].
  - intros u s' [[<- <-]|[Hne Hs]]%lookup_insert_Some; [done|]. by apply (tr_uid c live Ht).
  - intros id md. rewrite E1, Em. case_bool_decide as Hid.
    + split.
      * intros [= <-]. exists s. split; [|done]. apply runs_insert. by left.
      * intros (s' & Hr & ->). do 2 f_equal. apply (Hun id); [apply runs_insert; by left|done].
    + rewrite Hb1. split; intros (s' & Hr & ->); exists s'; (split; [|done]).
      * apply runs_insert. by right.
      * apply runs_insert in Hr as [[_ ?]|Hr]; done.
  - intros u. rewrite E2. destruct (decide (u = ps_pod_uid s)) as [->|Hne]; [by rewrite lookup_insert_eq|].
    rewrite Hi1, lookup_insert_ne, lookup_delete_ne by done. done.
Qed.

(** Nothing is evicted while there is room. *)
Lemma tracks_evict c live :
  tracks c live -> (size (live_ids live) <= max_containers c)%nat -> tracks (evict_to_capacity c).1 live.
Proof.
  intros Ht Hroom. assert (size (by_container_id c) = size (live_ids live)) as Hsize.
  { rewrite <- size_dom. f_equal. apply set_eq. intros id. rewrite elem_of_dom, elem_live_ids by exact (tr_uid c live Ht).
    split; [intros [md (s & Hr & _)%(tr_bound c live Ht)]; by exists s|].
    intros [s Hr]. exists (metadata s). apply (tr_bound c live Ht). by exists s. }
  unfold evict_to_capacity. destruct (Nat.eqb_spec (max_containers c) 0) as [Hz|Hz].
  - assert (by_container_id c = ∅) as Hnil by (apply map_size_empty_inv; lia).
    assert (forall id s, ~ runs live id s) as Hno.
    { intros id s Hr. assert (by_container_id c !! id = Some (metadata s)) as H by (apply (tr_bound c live Ht); by exists s).
      by rewrite Hnil, lookup_empty in H. }
    cbn. split; cbn.
    + destruct (with_max_ok 0) as [H1 H2 H3 H4]. by split.
    + apply Ht.
    + intros id md. rewrite lookup_empty. split; [done|]. intros (s & Hr & _). by apply Hno in Hr.
    + intros uid. rewrite lookup_empty. cbn. destruct (live !! uid) as [s|] eqn:Hs; [cbn|done].
      destruct (pod_ids s) as [|id ids] eqn:Hids; [done|]. destruct (Hno id s). split; [|rewrite Hids; by left].
      by rewrite <- (tr_uid c live Ht _ _ Hs).
  - assert (evict_loop (insertion_order c) c 0 = (c, 0%nat)) as E; [|by rewrite E].
    destruct (insertion_order c) as [|id order]; cbn [evict_loop]; by rewrite (proj2 (Nat.ltb_ge _ _)) by lia.
Qed.

(** The watcher's state against the node's. *)
Record follows (max : nat) (w : Watcher) (n : Node) : Prop := {
  fo_tracks : tracks (w_cache w) (n_live n);
  fo_unique : unique (n_live n);
  fo_known : w_known_pods w = dom (n_live n);
  fo_seen : w_init_seen w = n_seen n;
  fo_max : max_containers (w_cache w) = max
}.

Lemma follows_drop max w n uid :
  follows max w n -> follows max (drop_stale w uid) (mkNode (delete uid (n_live n)) (n_seen n)).
Proof.
  intros [Ht Hu Hk Hs Hm]. destruct (remove_pod_eq uid (w_cache w)) as (_ & _ & _ & E). split; cbn.
  - by apply tracks_remove.
  - by apply unique_delete.
  - by rewrite Hk, dom_delete_L.
  - done.
  - unfold remove_pod_from_cache. congruence.
Qed.

Lemma follows_drops max w n uids :
  follows max w n -> follows max (foldl drop_stale w uids) (mkNode (foldl (fun m u => delete u m) (n_live n) uids) (n_seen n)).
Proof.
  revert w n. induction uids as [|uid uids IH]; intros w n Hf; cbn; [by destruct n|].
  by apply (IH _ (mkNode _ _)), follows_drop.
Qed.

Lemma deletes_lookup (m : gmap string PodSnapshot) uids k :
  foldl (fun m u => delete u m) m uids !! k = if bool_decide (k ∈ uids) then None else m !! k.
Proof.
  revert m. induction uids as [|uid uids IH]; intros m; cbn; [by rewrite bool_decide_false by (by intros ?%elem_of_nil)|].
  rewrite IH. destruct (decide (k = uid)) as [->|Hk].
  - rewrite lookup_delete_eq, (bool_decide_true (uid ∈ uid :: uids)) by (by left). by destruct (bool_decide _).
  - rewrite lookup_delete_ne by done.
    by rewrite (bool_decide_ext (k ∈ uid :: uids) (k ∈ uids)) by (rewrite elem_of_cons; tauto).
Qed.

Lemma snapshot_uid pod s : pod_to_snapshot pod = Some s -> pod_meta_uid pod = Some (ps_pod_uid s).
Proof.
  unfold pod_to_snapshot. destruct (pod_meta_uid pod); [|done]. destruct (pod_meta_name pod); [|done].
  destruct (pod_meta_namespace pod); [|done]. by intros [= <-].
Qed.

Lemma follows_apply max c live s known :
  tracks c live -> unique live -> known = dom live -> max_containers c = max -> fits max (<[ps_pod_uid s := s]> live) ->
  let c' := (apply_pod_snapshot s c).1 in
  tracks c' (<[ps_pod_uid s := s]> live) /\ {[ps_pod_uid s]} ∪ known = dom (<[ps_pod_uid s := s]> live) /\
  max_containers c' = max.
Proof.
  intros Ht Hu -> Hm [Hun Hroom]. rewrite apply_pod_snapshot_eq. cbn.
  assert (tracks (applied s c) (<[ps_pod_uid s := s]> live)) as Ha by (by apply tracks_applied).
  pose proof (applied_max s c). split_and!.
  - apply tracks_evict; [done|]. by rewrite applied_max, Hm.
  - by rewrite dom_insert_L.
  - destruct (evict_ok (applied s c)) as (_ & -> & _); [apply Ha|]. by rewrite applied_max.
Qed.

Lemma follows_step max w n ev :
  follows max w n -> fits max (n_live (node_step n ev)) -> follows max (watch_step w ev) (node_step n ev).
Proof.
  intros Hf Hfit. pose proof Hf as [Ht Hu Hk Hs Hm]. pose proof (ft_unique _ _ Hfit) as Hun.
  destruct ev as [|pod| |pod|pod|msg]; cbn [watch_step node_step] in *.
  - by split.
  - unfold apply_pod_to_cache, node_apply in *. destruct (pod_to_snapshot pod) as [s|] eqn:Hp; cbn in *.
    + rewrite (snapshot_uid _ _ Hp). destruct (follows_apply max (w_cache w) (n_live n) s _ Ht Hu Hk Hm Hfit) as (H1 & H2 & H3).
      split; cbn; [done..|by rewrite Hs|done].
    + destruct (pod_meta_uid pod); by split.
  - rewrite Hs. destruct (n_seen n) as [seen|]; [|done]. cbn [n_live] in *.
    set (w1 := w <| w_init_seen := None |>).
    assert (follows max w1 (mkNode (n_live n) None)) as Hf1 by (by split).
    apply (follows_drops max w1 _ (elements (w_known_pods w ∖ seen))) in Hf1.
    assert (foldl (fun m u => delete u m) (n_live n) (elements (w_known_pods w ∖ seen))
              = filter (fun p => p.1 ∈ seen) (n_live n)) as E; [|cbn in Hf1; by rewrite E in Hf1].
    apply map_eq. intros k. rewrite deletes_lookup.
    rewrite (bool_decide_ext _ (k ∈ dom (n_live n) /\ k ∉ seen)) by (by rewrite elem_of_elements, Hk, elem_of_difference).
    destruct (n_live n !! k) as [s|] eqn:Hl.
    + case_bool_decide as Hd; symmetry.
      * apply map_lookup_filter_None. right. intros s' Hs' Hin. by apply Hd.
      * apply map_lookup_filter_Some. split; [done|]. cbn. destruct (decide (k ∈ seen)); [done|].
        destruct Hd. split; [by apply elem_of_dom; eexists|done].
    + rewrite (proj2 (map_lookup_filter_None _ _ _)) by (by left). by case_bool_decide.
  - unfold apply_pod_to_cache, node_apply in *. destruct (pod_to_snapshot pod) as [s|] eqn:Hp; cbn in *; [|by split].
    destruct (follows_apply max (w_cache w) (n_live n) s _ Ht Hu Hk Hm Hfit) as (H1 & H2 & H3). by split.
  - destruct (pod_meta_uid pod) as [uid|]; [by apply follows_drop|by split; cbn].
  - by split.
Qed.

(** C16: the watcher refines the node, as long as containers have one owner. Follow a stream of pod
    events from an empty cache, through relists, updates, deletions and stream errors. If at every
    point of it no container is claimed by two live pods at once and their containers are no more
    than the cache holds ([fits]; else see [taken_over_container_lost]), a lookup is answered
    exactly: a container of a live pod is bound to that pod, with its owner as last reported, and
    any other container is a cache miss, in particular every container of a pod deleted or missing
    from the last relist. *)
Theorem watcher_refines_node max events :
  (forall before after, events = before ++ after -> fits max (n_live (foldl node_step (mkNode ∅ None) before))) ->
  let cache := w_cache (foldl watch_step (Watcher_new (with_max_containers max)) events) in
  let live := n_live (foldl node_step (mkNode ∅ None) events) in
  forall id prov,
  match (bind_container id prov cache).1 with
  | BindBound id' md prov' =>
      id' = to_ascii_lowercase id /\ prov' = prov /\ exists s, runs live (to_ascii_lowercase id) s /\ md = metadata s
  | BindUnbound reason => reason = CacheMiss /\ forall s, ~ runs live (to_ascii_lowercase id) s
  end.
Proof.
  intros Hfit cache live.
  assert (follows max (foldl watch_step (Watcher_new (with_max_containers max)) events) (foldl node_step (mkNode ∅ None) events)) as Hf.
  { clear cache live. induction events as [|ev events IH] using rev_ind.
    - split; cbn; [|intros id s1 s2 [H1 _]; by rewrite lookup_empty in H1|by rewrite dom_empty_L|done..].
      split; cbn; [apply with_max_ok|by intros uid s Hs; rewrite lookup_empty in Hs| |by intros uid; rewrite !lookup_empty].
      intros id md. rewrite lookup_empty. split; [done|]. intros (s & [Hl _] & _). by rewrite lookup_empty in Hl.
    - rewrite !foldl_app. cbn. apply follows_step.
      + apply IH. intros before after ->. apply (Hfit before (after ++ [ev])). by rewrite app_assoc.
      + specialize (Hfit (events ++ [ev]) []). rewrite app_nil_r, foldl_app in Hfit. by apply Hfit. }
  intros id prov. destruct (fo_tracks _ _ _ Hf) as [_ _ Hb _]. fold cache live in Hb. unfold bind_container.
  destruct (by_container_id cache !! to_ascii_lowercase id) as [md|] eqn:Hl; cbn.
  - split_and!; [done..|]. by apply Hb.
  - split; [done|]. intros s Hr. assert (by_container_id cache !! to_ascii_lowercase id = Some (metadata s)) as H by (apply Hb; by exists s).
    congruence.
Qed.

(* ------------------------------------------------------------------ *)
(** ** One node *)

Lemma NoDup_concat_same {A B} (f : A -> list B) (l : list A) a b x :
  NoDup (concat (map f l)) -> a ∈ l -> b ∈ l -> x ∈ f a -> x ∈ f b -> a = b.
Proof.
  assert (forall l a x, a ∈ l -> x ∈ f a -> x ∈ concat (map f l)) as Hin.
  { intros l' a' x' Ha Hx. apply list_elem_of_In, in_concat. exists (f a'). split; [|by apply list_elem_of_In].
    apply in_map. by apply list_elem_of_In. }
  induction l as [|c l IH]; intros Hn Ha Hb Hxa Hxb; [by apply elem_of_nil in Ha|]. cbn in Hn.
  apply NoDup_app in Hn as (_ & Hd & Hn).
  apply elem_of_cons in Ha as [-> |Ha], Hb as [-> |Hb]; [done| | |by apply IH].
  - destruct (Hd x Hxa). by eapply Hin.
  - destruct (Hd x Hxb). by eapply Hin.
Qed.

(** What is enough to fit: all the identifiers are different. *)
Lemma fits_intro max live :
  NoDup (concat (map (fun p => pod_ids p.2) (map_to_list live))) ->
  (length (concat (map (fun p => pod_ids p.2) (map_to_list live))) <= max)%nat -> fits max live.
Proof.
  intros Hn Hlen. split.
  - intros id s1 s2 [H1 Hid1] [H2 Hid2]. apply elem_of_map_to_list in H1, H2.
    assert ((ps_pod_uid s1, s1) = (ps_pod_uid s2, s2)) as E by (by eapply NoDup_concat_same). by injection E.
  - unfold live_ids. by rewrite size_list_to_set.
Qed.

Definition w_id (c : ascii) : string := String.string_of_list_ascii (repeat c 64).
Definition w_pod (uid name : string) (containers : list string) : Pod :=
  mkPod (Some uid) (Some name) (Some "prod") None (Some "default")
    (Some (mkPodStatus (Some (map (fun c => mkContainerStatus (Some c)) containers)) None None)).
Definition pod_a : Pod := w_pod "ua" "web-1" ["containerd://" +:+ w_id "a"].
Definition pod_b : Pod := w_pod "ub" "web-2" ["docker://" +:+ w_id "B"].
Definition w_events : list WatchEvent :=
  [EvInit; EvInitApply pod_a; EvInitApply pod_b; EvInitDone; EvErr "gone"; EvInit; EvInitApply pod_b; EvInitDone].

Lemma watcher_refines_node_witness :
  let cache := w_cache (foldl watch_step (Watcher_new (with_max_containers 2)) w_events) in
  let live := n_live (foldl node_step (mkNode ∅ None) w_events) in
  (exists md, by_container_id cache !! w_id "b" = Some md /\ md_pod_name md = "web-2" /\
              exists s, runs live (w_id "b") s /\ md = metadata s) /\
  (by_container_id cache !! w_id "a" = None /\ forall s, ~ runs live (w_id "a") s).
Proof.
  assert (forall before after, w_events = before ++ after -> fits 2 (n_live (foldl node_step (mkNode ∅ None) before))) as Hfit.
  { intros before after E. assert (before = take (length before) w_events) as -> by (by rewrite E, take_app_length).
    generalize (length before). intros n. apply fits_intro.
    - do 9 (destruct n as [|n]; [apply (bool_decide_unpack _); by vm_compute|]). apply (bool_decide_unpack _). by vm_compute.
    - do 9 (destruct n as [|n]; [apply Nat.leb_le; by vm_compute|]). apply Nat.leb_le. by vm_compute. }
  intros cache live. split.
  - assert (exists md, by_container_id cache !! w_id "b" = Some md /\ md_pod_name md = "web-2") as (md & Hl & Hn).
    { eexists. split; by vm_compute. }
    exists md. split; [done|]. split; [done|].
    pose proof (watcher_refines_node 2 w_events Hfit (w_id "b") Observed) as Hb. fold cache live in Hb.
    unfold bind_container in Hb. change (to_ascii_lowercase (w_id "b")) with (w_id "b") in Hb. rewrite Hl in Hb. apply Hb.
  - assert (by_container_id cache !! w_id "a" = None) as Hl by by vm_compute. split; [done|].
    pose proof (watcher_refines_node 2 w_events Hfit (w_id "a") Observed) as Ha. fold cache live in Ha.
    unfold bind_container in Ha. change (to_ascii_lowercase (w_id "a")) with (w_id "a") in Ha. rewrite Hl in Ha. apply Ha.
Defined.

(** A container taken over by another pod is lost: a static pod's mirror is made again, with a new
    uid, while the watch is down. The relist applies the new pod before the old one is found stale,
    and removing the old one unbinds the container, which is running. *)
Theorem taken_over_container_lost :
  let old := w_pod "ua" "etcd-node1" ["containerd://" +:+ w_id "a"] in
  let new := w_pod "uz" "etcd-node1" ["containerd://" +:+ w_id "a"] in
  let w := foldl watch_step (Watcher_new BindingCache_new) [EvApply old; EvErr "gone"; EvInit; EvInitApply new; EvInitDone] in
  w_known_pods w = {["uz"]} /\ by_pod_uid (w_cache w) = {["uz" := [w_id "a"]]} /\
  (bind_container (w_id "a") Observed (w_cache w)).1 = BindUnbound CacheMiss.
Proof. by vm_compute. Qed.
