(* ===== verification/Cgroup.v ===== *)
(** Memory pressure sensing ([jalki-evidence/src/cgroup.rs]): which cgroup is the agent's own, what
    its limit is, and how much of it is used. The file system is what [read_to_string] gives. *)
From Stdlib Require Import Strings.Byte Strings.Ascii.
From S2P Require Import Prelude Text Float Enrich.

Inductive LimitSource := FromCgroup (dir : string) | DeclaredLimit.

Record MemoryPressure := mkMemoryPressure { mp_current_path : string; mp_limit_bytes : Z; mp_source : LimitSource }.

Section cgroup.
(** [std::fs::read_to_string], and [Path::exists]. *)
Variable read : string -> option string.
Variable exists_ : string -> bool.

(** [str::trim_start_matches('/')] *)
Fixpoint trim_slashes (s : string) : string :=
  match s with
  | String c rest => if decide (c = "/"%char) then trim_slashes rest else s
  | EmptyString => ""
  end.

(** The loop of [own_cgroup_dir] over the lines. *)
Fixpoint own_line (cgroup_root : string) (lines : list string) : string :=
  match lines with
  | [] => cgroup_root
  | line :: rest =>
      match strip_prefix "0::" line with
      | Some path =>
          let rel := trim_slashes (trim path) in
          if bool_decide (rel = "") then cgroup_root else path_join cgroup_root rel
      | None => own_line cgroup_root rest
      end
  end.

Definition own_cgroup_dir (cgroup_root : string) : string :=
  match read "/proc/self/cgroup" with
  | None => cgroup_root
  | Some content => own_line cgroup_root (lines content)
  end.

Definition read_limit (path : string) : option Z :=
  raw ← read path;
  let raw := trim raw in
  if bool_decide (raw = "max") then None else parse_uint 64 raw.

Definition read_u64_file (path : string) : option Z := raw ← read path; parse_uint 64 (trim raw).

(** [MemoryPressure::at] *)
Definition pressure_at (cgroup_dir : string) (declared_limit : option Z) : option MemoryPressure :=
  let current_path := path_join cgroup_dir "memory.current" in
  if negb (exists_ current_path) then None else
  match read_limit (path_join cgroup_dir "memory.max") with
  | Some bytes => Some (mkMemoryPressure current_path bytes (FromCgroup cgroup_dir))
  | None =>
      bytes ← declared_limit;
      if 0 <? bytes then Some (mkMemoryPressure current_path bytes DeclaredLimit) else None
  end.

Definition detect (cgroup_root : string) (declared_limit : option Z) : option MemoryPressure :=
  pressure_at (own_cgroup_dir cgroup_root) declared_limit.

(** [MemoryPressure::ratio] *)
Definition pressure_ratio (p : MemoryPressure) : option f64 :=
  current ← read_u64_file (mp_current_path p); Some (f_div (f_of_Z current) (f_of_Z (mp_limit_bytes p))).

(** An unbounded cgroup is never taken for the agent's limit: a limit is a number the cgroup's file
    holds, or the declared one, which is positive and only used when the file holds none. *)
Lemma detect_limit root declared p :
  detect root declared = Some p ->
  exists_ (mp_current_path p) = true /\
  match mp_source p with
  | FromCgroup dir => dir = own_cgroup_dir root /\ read_limit (path_join dir "memory.max") = Some (mp_limit_bytes p)
  | DeclaredLimit => declared = Some (mp_limit_bytes p) /\ 0 < mp_limit_bytes p /\
                     read_limit (path_join (own_cgroup_dir root) "memory.max") = None
  end.
Proof.
  unfold detect, pressure_at. destruct (exists_ _) eqn:He; [|done]. cbn [negb].
  destruct (read_limit _) as [bytes|] eqn:Hr; [by intros [= <-]|].
  destruct declared as [bytes|]; [cbn|done]. destruct (Z.ltb_spec 0 bytes); [|done]. by intros [= <-].
Qed.
End cgroup.
