(* ===== verification/Knowledge.v ===== *)
(** The knowledge base ([jalki/src/knowledge.rs]): which kernel functions answer a question, and what
    an event's fields mean. Here a knowledge base is any list of layers; [Shipped] has the one the binary
    ships. *)
From stdpp Require Import base list sorting strings.
From S2P Require Import Prelude Text.

(* ------------------------------------------------------------------ *)
(** ** Data *)

Record FieldKnowledge := mkFieldKnowledge {
  fk_name : string;
  fk_type : string;
  fk_meaning : string;
  fk_important : bool
}.

Record Interpretation := mkInterpretation {
  in_pattern : string;
  in_conclusion : string;
  in_severity : string;
  in_action : string;
  in_errno : option string
}.

Record ProbeKnowledge := mkProbeKnowledge {
  pk_function : string;
  pk_attachment : string;
  pk_event_type : string;
  pk_layer : string;
  pk_answers : list string;
  pk_keywords : list string;
  pk_fields : list FieldKnowledge;
  pk_use_when : string;
  pk_not_when : string;
  pk_combine_with : list string;
  pk_tcp_states : option (list (string * string));
  pk_interpretations : list Interpretation
}.

Record Layer := mkLayer {
  ly_version : string;
  ly_layer : string;
  ly_description : string;
  ly_probes : list ProbeKnowledge
}.

Definition KnowledgeBase : Type := list Layer.

Record EventFields := mkEventFields { ef_ret : option Z; ef_tcp_state : option Z }.

(* ------------------------------------------------------------------ *)
(** ** Lookups *)

Definition all_probes (kb : KnowledgeBase) : list ProbeKnowledge := concat (map ly_probes kb).

(** [get_probe]: the first of the layers in their order. *)
Definition get_probe (function : string) (kb : KnowledgeBase) : option ProbeKnowledge :=
  find_first (fun p => bool_decide (pk_function p = function)) (all_probes kb).

Definition probes_in_layer (layer_name : string) (kb : KnowledgeBase) : list ProbeKnowledge :=
  default [] (ly_probes <$> find_first (fun l => bool_decide (ly_layer l = layer_name)) kb).

Definition layers (kb : KnowledgeBase) : list string := map ly_layer kb.

Definition all_functions (kb : KnowledgeBase) : list string := map pk_function (all_probes kb).

(** The conditions [interpretation_matches] looks for in a pattern, in its order. *)
Definition ret_matches (pattern : string) (ret : Z) : bool :=
  (contains pattern "ret == 0" && (ret =? 0)) ||
  (contains pattern "ret == -111" && (ret =? -111)) ||
  (contains pattern "ret == -110" && (ret =? -110)) ||
  (contains pattern "ret == -113" && (ret =? -113)) ||
  (contains pattern "ret == -101" && (ret =? -101)) ||
  (contains pattern "ret != 0" && negb (ret =? 0)).

Definition state_matches (pattern : string) (state : Z) : bool :=
  (contains pattern "SYN_SENT (2)" && (state =? 2)) ||
  (contains pattern "ESTABLISHED (1)" && (state =? 1)) ||
  (contains pattern "CLOSE_WAIT (7)" && (state =? 7)).

Definition interpretation_matches (interp : Interpretation) (fields : EventFields) : bool :=
  match ef_ret fields with Some ret => ret_matches (in_pattern interp) ret | None => false end ||
  match ef_tcp_state fields with Some state => state_matches (in_pattern interp) state | None => false end.

Definition explain (function : string) (fields : EventFields) (kb : KnowledgeBase) : list Interpretation :=
  match get_probe function kb with
  | Some probe => List.filter (fun i => interpretation_matches i fields) (pk_interpretations probe)
  | None => []
  end.

(* ------------------------------------------------------------------ *)
(** ** Questions *)

Section find.
(** [str::to_lowercase], over Unicode. *)
Variable to_lowercase : string -> string.

(** The score of a probe for a question in lower case; [usize] sums of at most one term per answer
    and keyword do not overflow. *)
Definition answer_matches (q answer : string) : bool :=
  contains q (to_lowercase answer) || contains (to_lowercase answer) q.

Definition score (q : string) (probe : ProbeKnowledge) : Z :=
  zsum (fun a => if answer_matches q a then 10 else 0) (pk_answers probe) +
  zsum (fun k => if contains q (to_lowercase k) then 5 else 0) (pk_keywords probe) +
  (if contains q (pk_function probe) then 20 else 0).

(** [sort_by_key] on the reversed score: stable, highest first. *)
Fixpoint insert_scored (x : ProbeKnowledge * Z) (l : list (ProbeKnowledge * Z)) : list (ProbeKnowledge * Z) :=
  match l with
  | [] => [x]
  | y :: rest => if y.2 <? x.2 then x :: l else y :: insert_scored x rest
  end.
Definition sort_scored (l : list (ProbeKnowledge * Z)) : list (ProbeKnowledge * Z) :=
  foldl (fun acc x => insert_scored x acc) [] l.

Definition scored_matches (q : string) (kb : KnowledgeBase) : list (ProbeKnowledge * Z) :=
  List.filter (fun ps => 0 <? ps.2) (map (fun p => (p, score q p)) (all_probes kb)).

Definition find_probes (question : string) (kb : KnowledgeBase) : list ProbeKnowledge :=
  let q := to_lowercase question in
  map fst (sort_scored (scored_matches q kb)).

(* ------------------------------------------------------------------ *)
(** ** What the order means *)

Lemma insert_scored_Permutation x l : insert_scored x l ≡ₚ x :: l.
Proof. induction l as [|y l IH]; cbn; [done|]. case_match; [done|]. rewrite IH. apply Permutation_swap. Qed.

Lemma insert_scored_sorted x l :
  StronglySorted (fun a b : ProbeKnowledge * Z => b.2 <= a.2) l -> StronglySorted (fun a b => b.2 <= a.2) (insert_scored x l).
Proof.
  induction 1 as [|y l Hl IH Hy]; cbn; [by repeat constructor|]. destruct (Z.ltb_spec y.2 x.2).
  - constructor; [by constructor|]. constructor; [lia|]. eapply Forall_impl; [exact Hy|]. cbn. lia.
  - constructor; [done|]. rewrite insert_scored_Permutation. by constructor.
Qed.

(** Of one score, those of [l] in their order, then [x]. *)
Lemma insert_scored_class n x l :
  StronglySorted (fun a b : ProbeKnowledge * Z => b.2 <= a.2) l ->
  List.filter (fun y => y.2 =? n) (insert_scored x l) = List.filter (fun y => y.2 =? n) (l ++ [x]).
Proof.
  induction 1 as [|y l Hl IH Hy]; [done|]. cbn [insert_scored]. destruct (Z.ltb_spec y.2 x.2).
  - rewrite List.filter_app. cbn [List.filter]. destruct (Z.eqb_spec x.2 n); [|by rewrite app_nil_r].
    assert (forall z, z ∈ y :: l -> (z.2 =? n) = false) as Hno.
    { intros z [->|Hz]%elem_of_cons; [lia|]. rewrite Forall_forall in Hy. specialize (Hy z Hz). lia. }
    assert (forall m : list (ProbeKnowledge * Z), (forall z, z ∈ m -> (z.2 =? n) = false) -> List.filter (fun y => y.2 =? n) m = []) as Hf.
    { clear. intros m Hm. induction m as [|z m IH]; [done|]. cbn. rewrite Hm by left. apply IH. intros; apply Hm. by right. }
    change (if y.2 =? n then y :: List.filter (fun y => y.2 =? n) l else List.filter (fun y => y.2 =? n) l)
      with (List.filter (fun y : ProbeKnowledge * Z => y.2 =? n) (y :: l)). by rewrite Hf.
  - cbn [List.filter app]. rewrite IH. done.
Qed.

Lemma sort_scored_spec l :
  sort_scored l ≡ₚ l /\ StronglySorted (fun a b : ProbeKnowledge * Z => b.2 <= a.2) (sort_scored l) /\
  forall n, List.filter (fun y => y.2 =? n) (sort_scored l) = List.filter (fun y => y.2 =? n) l.
Proof.
  unfold sort_scored. induction l as [|x l (IH & IHs & IHn)] using rev_ind; [by repeat constructor|].
  rewrite foldl_app. cbn. split_and!.
  - rewrite insert_scored_Permutation, IH. by rewrite Permutation_app_comm.
  - by apply insert_scored_sorted.
  - intros n. by rewrite insert_scored_class, !List.filter_app, IHn.
Qed.

Lemma zsum_ite_pos {A} (p : A -> bool) n (l : list A) :
  0 < n -> 0 <= zsum (fun a => if p a then n else 0) l /\ (0 < zsum (fun a => if p a then n else 0) l <-> exists a, a ∈ l /\ p a = true).
Proof.
  intros Hn. induction l as [|a l [IH0 IH]].
  - rewrite zsum_nil. split; [lia|]. split; [lia|]. by intros (a & ?%elem_of_nil & _).
  - rewrite zsum_cons. cbv beta. destruct (p a) eqn:E; (split; [lia|split]).
    + intros _. exists a. split; [left|done].
    + lia.
    + intros H. destruct (proj1 IH) as (b & ? & ?); [lia|]. exists b. split; [by right|done].
    + intros (b & [->|Hb]%elem_of_cons & Hp); [congruence|]. assert (exists a, a ∈ l /\ p a = true) as H%IH by by exists b. lia.
Qed.

Definition relevant (q : string) (p : ProbeKnowledge) : Prop :=
  (exists a, a ∈ pk_answers p /\ (contains q (to_lowercase a) = true \/ contains (to_lowercase a) q = true)) \/
  (exists k, k ∈ pk_keywords p /\ contains q (to_lowercase k) = true) \/
  contains q (pk_function p) = true.

Lemma score_relevant q p : 0 < score q p <-> relevant q p.
Proof.
  unfold score, relevant.
  destruct (zsum_ite_pos (answer_matches q) 10 (pk_answers p)) as [Ha0 Ha]; [lia|].
  destruct (zsum_ite_pos (fun k => contains q (to_lowercase k)) 5 (pk_keywords p)) as [Hk0 Hk]; [lia|].
  assert ((exists a, a ∈ pk_answers p /\ answer_matches q a = true) <->
          exists a, a ∈ pk_answers p /\ (contains q (to_lowercase a) = true \/ contains (to_lowercase a) q = true)) as Ea.
  { by setoid_rewrite orb_true_iff. }
  rewrite <- Ea, <- Ha, <- Hk. destruct (contains q (pk_function p)).
  - split; [auto|lia].
  - split; [|intros [?|[?|?]]; [lia..|done]]. intros H.
    destruct (Z.ltb_spec 0 (zsum (fun a => if answer_matches q a then 10 else 0) (pk_answers p))); [by left|].
    right; left. lia.
Qed.

(** Questions are answered by relevance. A probe is found for a question exactly as often as the
    knowledge base lists it when, after lowering the case, the question and one of its answers
    contain one another, or the question contains one of its keywords or its function's name, and
    not at all otherwise; found probes come by descending score, and those of equal score in the
    knowledge base's order. *)
Theorem find_probes_ranked question kb :
  let q := to_lowercase question in
  let found := find_probes question kb in
  found ≡ₚ List.filter (fun p => 0 <? score q p) (all_probes kb) /\
  (forall p, p ∈ found <-> p ∈ all_probes kb /\ relevant q p) /\
  StronglySorted (fun a b => score q b <= score q a) found /\
  (forall n, List.filter (fun p => score q p =? n) found = List.filter (fun p => (0 <? score q p) && (score q p =? n)) (all_probes kb)).
Proof.
  intros q found. unfold found, find_probes. fold q.
  destruct (sort_scored_spec (scored_matches q kb)) as (Hp & Hs & Hn).
  assert (forall l : list (ProbeKnowledge * Z), (forall x, x ∈ l -> x.2 = score q x.1) ->
            forall n, List.filter (fun p => score q p =? n) (map fst l) = map fst (List.filter (fun y => y.2 =? n) l)) as Hfst.
  { intros l Hl n. induction l as [|x l IH]; [done|]. cbn. rewrite (Hl x) by left. rewrite IH by (intros; apply Hl; by right).
    by destruct (_ =? _). }
  assert (map fst (scored_matches q kb) = List.filter (fun p => 0 <? score q p) (all_probes kb)) as Hm.
  { unfold scored_matches. induction (all_probes kb) as [|p l IH]; [done|]. cbn. destruct (0 <? score q p); cbn; by rewrite IH. }
  assert (forall x, x ∈ scored_matches q kb -> x.2 = score q x.1) as Hx.
  { intros x Hx%list_elem_of_In%filter_In. destruct Hx as [(p & <- & _)%in_map_iff _]. done. }
  assert (forall x, x ∈ sort_scored (scored_matches q kb) -> x.2 = score q x.1) as Hx' by (intros x; rewrite Hp; apply Hx).
  assert (map fst (sort_scored (scored_matches q kb)) ≡ₚ List.filter (fun p => 0 <? score q p) (all_probes kb)) as Hperm
    by by rewrite <- Hm, Hp.
  split_and!.
  - exact Hperm.
  - intros p. rewrite Hperm, list_elem_of_In, filter_In, <- list_elem_of_In, Z.ltb_lt, score_relevant. done.
  - clear -Hs Hx'. induction Hs as [|x l Hl IH Hy]; cbn; [constructor|]. constructor; [apply IH; intros; apply Hx'; by right|].
    rewrite Forall_forall in Hy. apply Forall_forall. intros p (y & -> & Hin)%list_elem_of_fmap.
    specialize (Hy y Hin). rewrite (Hx' x), (Hx' y) in Hy by (by left || by right). done.
  - intros n. rewrite Hfst by done. rewrite Hn, <- Hfst, Hm by done. clear.
    induction (all_probes kb) as [|p l IH]; [done|]. cbn. destruct (0 <? score q p); cbn; by rewrite IH.
Qed.
End find.

Lemma get_probe_Some function kb p :
  get_probe function kb = Some p -> p ∈ all_probes kb /\ pk_function p = function.
Proof. unfold get_probe. intros (Hin & Hf)%find_first_Some. by apply bool_decide_eq_true in Hf. Qed.
