(* ===== verification/Registry.v ===== *)
(** The probe registry ([jalki/src/registry.rs]) with the attaching of programs and the starting of
    readers it does ([spawn_reader] in [jalki/src/reader.rs]). What the readers and the callers share
    through [Arc]s is one store: counters and reader tasks are named by their index in it. aya's
    objects, programs and maps are parameters. *)
From stdpp Require Import base gmap list strings.
From S2P Require Import Prelude Text Float Evidence Event Normalize Reader.

(* ------------------------------------------------------------------ *)
(** ** Data *)

(** A reader thread: its [ReaderStop] flag, the probe it reads and the counters it keeps. *)
Record ReaderTask := mkReaderTask { rt_stop : bool; rt_probe : Probe; rt_stats : nat }.
#[export] Instance eta_ReaderTask : Eta ReaderTask := fun t => mkReaderTask (rt_stop t) (rt_probe t) (rt_stats t).

Record AttachedProbe := mkAttachedProbe {
  ap_probe : Probe;
  ap_attached_since : Z;
  ap_stats : nat;
  ap_stop : option nat
}.

Record ProbeRegistry := mkProbeRegistry {
  rg_attached : gmap string AttachedProbe;
  rg_next_id : Z;
  (** the store *)
  rg_stats : list ProbeStats;
  rg_readers : list ReaderTask
}.
#[export] Instance eta_ProbeRegistry : Eta ProbeRegistry := fun r =>
  mkProbeRegistry (rg_attached r) (rg_next_id r) (rg_stats r) (rg_readers r).

Definition ProbeRegistry_new : ProbeRegistry := mkProbeRegistry ∅ 1 [] [].

Record ProbeStatus := mkProbeStatus {
  pst_probe_id : string;
  pst_function : string;
  pst_name : string;
  pst_attached_since : Z;
  pst_events_total : Z;
  pst_ring_buffer_drops : Z;
  pst_sample_rate : f64
}.

(** [format!("probe_{:03}", n)] *)
Definition pad3 (n : Z) : string :=
  let digits := dec n in
  String.concat "" (repeat "0" (3 - String.length digits)) +:+ digits.
Definition probe_id_of (n : Z) : string := "probe_" +:+ pad3 n.

(** The default of [Probe::sample_rate], which no probe of the repository overrides. *)
Definition probe_sample_rate (p : Probe) : f64 := f_of_Z 1.

Definition first_function (p : Probe) : option string := attachment_function <$> head (pb_attachments p).

#[export] Instance HookKind_eq_dec : EqDecision HookKind.
Proof. solve_decision. Defined.

(* ------------------------------------------------------------------ *)
(** ** Attaching *)

Section attach.
Context {Ebpf AyaMap : Type}.
(** aya: the kind of the program of a name; [load] and [attach] of a program, which may fail after a
    change; taking a map out of an object, and what it is. *)
Variable program_kind : string -> Ebpf -> option HookKind.
Variable prog_load prog_attach : string -> Attachment -> Ebpf -> bool * Ebpf.
Variable take_map : string -> Ebpf -> option AyaMap * Ebpf.
Variable is_ring_buf is_per_cpu_array : AyaMap -> bool.

Definition attachment_target (a : Attachment) : string :=
  match a with
  | AFentry f => "fentry/" +:+ f
  | AFexit f => "fexit/" +:+ f
  | ATracepoint _ category name => "tracepoint/" +:+ category +:+ "/" +:+ name
  end.

(** One turn of the loop over the attachments. *)
Definition attach_program (prog_name : string) (a : Attachment) (e : Ebpf) : result string unit * Ebpf :=
  let program := match a with ATracepoint program _ _ => program | _ => prog_name end in
  match program_kind program e with
  | None => (Err ("program " +:+ program +:+ " not found"), e)
  | Some kind =>
      if bool_decide (kind = attachment_hook_kind a) then
        let '(loaded, e) := prog_load program a e in
        if loaded then
          let '(attached, e) := prog_attach program a e in
          if attached then (Ok tt, e) else (Err ("failed to attach " +:+ attachment_target a), e)
        else (Err ("failed to load " +:+ attachment_target a), e)
      else (Err (match a with
                 | AFentry _ => "not an fentry" | AFexit _ => "not an fexit" | ATracepoint _ _ _ => "not a tracepoint"
                 end), e)
  end.

Fixpoint attach_programs (prog_name : string) (attachments : list Attachment) (e : Ebpf) : result string unit * Ebpf :=
  match attachments with
  | [] => (Ok tt, e)
  | a :: rest =>
      let '(r, e) := attach_program prog_name a e in
      match r with
      | Ok _ => attach_programs prog_name rest e
      | Err msg => (Err msg, e)
      end
  end.

(** [spawn_reader]: the stop handle of the thread it starts. [clock] is what the monotonic clock says. *)
Definition spawn_reader (probe : Probe) (stats : nat) (clock : result string Z) (e : Ebpf) (r : ProbeRegistry)
  : result string nat * Ebpf * ProbeRegistry :=
  let map_name := pb_ring_buffer_map probe in
  let '(map, e) := take_map map_name e in
  match map with
  | None => (Err ("ring buffer map " +:+ map_name +:+ " not found"), e, r)
  | Some ring =>
      if is_ring_buf ring then
        let drop_map_name := map_name +:+ "_DROPS" in
        let '(drops, e) := take_map drop_map_name e in
        match drops with
        | None => (Err ("ring buffer drop counter map " +:+ drop_map_name +:+ " not found"), e, r)
        | Some drops =>
            if is_per_cpu_array drops then
              match clock with
              | Err msg => (Err msg, e, r)
              | Ok now_ns =>
                  (Ok (length (rg_readers r)), e,
                   r <| rg_stats ::= alter (start_drop_tracking now_ns) stats |>
                     <| rg_readers ::= fun ts => ts ++ [mkReaderTask false probe stats] |>)
              end
            else (Err (drop_map_name +:+ " is not a PerCpuArray"), e, r)
        end
      else (Err (map_name +:+ " is not a RingBuf"), e, r)
  end.

(** The first of [attach]'s three accesses to the registry: the check, under the read lock. *)
Definition already_attached (name : string) (r : ProbeRegistry) : bool :=
  existsb (fun a => bool_decide (pb_name (ap_probe a) = name)) (map_to_list (rg_attached r)).*2.

(** What it does between them: attach the programs, make the counters, start the reader. *)
Definition attach_start (probe : Probe) (clock : result string Z) (e : Ebpf) (r : ProbeRegistry)
  : result string (nat * nat) * Ebpf * ProbeRegistry :=
  let '(started, e) := attach_programs (pb_program_name probe) (pb_attachments probe) e in
  match started with
  | Err msg => (Err msg, e, r)
  | Ok _ =>
      let stats := length (rg_stats r) in
      let r := r <| rg_stats ::= fun ss => ss ++ [ProbeStats_new] |> in
      let '(stop, e, r) := spawn_reader probe stats clock e r in
      match stop with
      | Err msg => (Err msg, e, r)
      | Ok stop => (Ok (stats, stop), e, r)
      end
  end.

(** [next_id.fetch_add(1)] *)
Definition take_id (r : ProbeRegistry) : string * ProbeRegistry :=
  (probe_id_of (rg_next_id r), r <| rg_next_id ::= fun n => add64 n 1 |>).

(** The insertion, under the write lock. *)
Definition insert_entry (id : string) (entry : AttachedProbe) (r : ProbeRegistry) : ProbeRegistry :=
  r <| rg_attached ::= <[id := entry]> |>.

(** [attach], alone. *)
Definition attach (probe : Probe) (clock : result string Z) (now : Z) (e : Ebpf) (r : ProbeRegistry)
  : result string string * Ebpf * ProbeRegistry :=
  if already_attached (pb_name probe) r
  then (Err ("probe '" +:+ pb_name probe +:+ "' is already attached"), e, r)
  else
    let '(started, e, r) := attach_start probe clock e r in
    match started with
    | Err msg => (Err msg, e, r)
    | Ok (stats, stop) =>
        let '(id, r) := take_id r in
        (Ok id, e, insert_entry id (mkAttachedProbe probe now stats (Some stop)) r)
    end.
End attach.

(* ------------------------------------------------------------------ *)
(** ** The other operations *)

Definition register_startup_probe (probe : Probe) (stats : nat) (now : Z) (r : ProbeRegistry) : string * ProbeRegistry :=
  let '(id, r) := take_id r in
  (id, insert_entry id (mkAttachedProbe probe now stats None) r).

(** [ReaderStop::stop] *)
Definition stop_reader (t : nat) (r : ProbeRegistry) : ProbeRegistry :=
  r <| rg_readers ::= alter (fun task => task <| rt_stop := true |>) t |>.

(** [detach], which holds the write lock throughout. *)
Definition detach (probe_id : string) (r : ProbeRegistry) : result string (option string) * ProbeRegistry :=
  match rg_attached r !! probe_id with
  | None => (Ok None, r)
  | Some entry =>
      match ap_stop entry with
      | None =>
          (Err ("probe '" +:+ probe_id +:+ "' was attached at startup and shares the daemon's eBPF object; it cannot be detached at runtime"), r)
      | Some stop =>
          let r := stop_reader stop r in
          (Ok (Some (pb_name (ap_probe entry))), r <| rg_attached ::= delete probe_id |>)
      end
  end.

Definition is_attached (function : string) (r : ProbeRegistry) : bool :=
  existsb (fun a => existsb (fun att => bool_decide (attachment_function att = function)) (pb_attachments (ap_probe a)))
    (map_to_list (rg_attached r)).*2.

(** [status], in the map's order, which is unspecified. *)
Definition status_of (r : ProbeRegistry) (id : string) (entry : AttachedProbe) : ProbeStatus :=
  let stats := default ProbeStats_new (rg_stats r !! ap_stats entry) in
  {| pst_probe_id := id;
     pst_function := default "" (first_function (ap_probe entry));
     pst_name := pb_name (ap_probe entry);
     pst_attached_since := ap_attached_since entry;
     pst_events_total := ps_events_emitted stats;
     pst_ring_buffer_drops := ps_events_dropped stats;
     pst_sample_rate := probe_sample_rate (ap_probe entry) |}.

Definition status (r : ProbeRegistry) : list ProbeStatus :=
  map (fun ie : string * AttachedProbe => status_of r ie.1 ie.2) (map_to_list (rg_attached r)).

Definition get_status (probe_id : string) (r : ProbeRegistry) : option ProbeStatus :=
  find_first (fun s => bool_decide (pst_probe_id s = probe_id)) (status r).

Definition observability_stats (r : ProbeRegistry) : list (string * string * string * ProbeStats) :=
  map (fun ie : string * AttachedProbe =>
         (ie.1, pb_name (ap_probe ie.2), pb_occurrence_type (ap_probe ie.2),
          default ProbeStats_new (rg_stats r !! ap_stats ie.2)))
    (map_to_list (rg_attached r)).

(* ------------------------------------------------------------------ *)
(** ** Identifiers *)

Lemma parse_digits_zeros n s : parse_digits (String.concat "" (repeat "0" n) +:+ s) 0 = parse_digits s 0.
Proof. induction n as [|n IH]; [done|]. destruct n as [|n]; [done|]. exact IH. Qed.

Lemma dec_digits n : 0 <= n -> parse_digits (dec n) 0 = Some n.
Proof.
  intros Hn. destruct (decide (n = 0)) as [->|Hne]; [done|]. rewrite dec_of_N by lia.
  destruct (pretty_N_go_spec (Z.to_N n) "" ltac:(lia)) as (Hp & _). rewrite Hp. cbn. by rewrite Z2N.id by lia.
Qed.

Lemma probe_id_of_inj m n : 0 <= m -> 0 <= n -> probe_id_of m = probe_id_of n -> m = n.
Proof.
  intros Hm Hn E. unfold probe_id_of in E. apply (f_equal (strip_prefix "probe_")) in E.
  rewrite !strip_prefix_app in E. injection E as E. apply (f_equal (fun s => parse_digits s 0)) in E.
  unfold pad3 in E. rewrite !parse_digits_zeros, !dec_digits in E by done. by injection E.
Qed.

Example probe_ids : (probe_id_of 1, probe_id_of 42, probe_id_of 1000) = ("probe_001", "probe_042", "probe_1000").
Proof. reflexivity. Qed.

(** A name is taken when an entry has it. *)
Lemma already_attached_true name r :
  already_attached name r = true <-> exists id a, rg_attached r !! id = Some a /\ pb_name (ap_probe a) = name.
Proof.
  unfold already_attached. rewrite existsb_exists. setoid_rewrite bool_decide_eq_true. split.
  - intros (a & Hin & Hn). apply list_elem_of_In, list_elem_of_fmap in Hin as ([id a'] & -> & Hin).
    apply elem_of_map_to_list in Hin. by exists id, a'.
  - intros (id & a & Ha & Hn). exists a. split; [|done]. apply list_elem_of_In, list_elem_of_fmap. exists (id, a).
    split; [done|]. by apply elem_of_map_to_list.
Qed.

(* ------------------------------------------------------------------ *)
(** ** What the registry promises, under concurrent use

    Between its accesses to the registry an [attach] holds what the registry does not know yet: a
    running reader, then also an identifier. *)

Record Claim := mkClaim { cl_probe : Probe; cl_stats : nat; cl_stop : nat }.

Record RegState := mkRegState { rs_claims : list Claim; rs_pending : list string; rs_registry : ProbeRegistry }.

Inductive reg_step : RegState -> RegState -> Prop :=
| RegStay c p r stats :
    reg_step (mkRegState c p r) (mkRegState c p (r <| rg_stats := stats |>))
| RegStart c p r stats probe n :
    reg_step (mkRegState c p r)
      (mkRegState (mkClaim probe n (length (rg_readers r)) :: c) p
         (r <| rg_stats := stats |> <| rg_readers ::= fun ts => ts ++ [mkReaderTask false probe n] |>))
| RegNumber c p r :
    reg_step (mkRegState c p r) (mkRegState c ((take_id r).1 :: p) (take_id r).2)
| RegInsert probe n t id now c p r :
    reg_step (mkRegState (mkClaim probe n t :: c) (id :: p) r)
      (mkRegState c p (insert_entry id (mkAttachedProbe probe now n (Some t)) r))
| RegDetach c p r id :
    reg_step (mkRegState c p r) (mkRegState c p (detach id r).2).

(** The readers whose stop flag is not set. *)
Fixpoint running (i : nat) (ts : list ReaderTask) : list nat :=
  match ts with
  | [] => []
  | t :: rest => if rt_stop t then running (S i) rest else i :: running (S i) rest
  end.

Definition attached_stops (r : ProbeRegistry) : list nat := omap ap_stop (map_to_list (rg_attached r)).*2.

Record reg_ok (startup : list nat) (s : RegState) : Prop := {
  ro_next : 1 <= rg_next_id (rs_registry s) < 2 ^ 64;
  ro_ids id : is_Some (rg_attached (rs_registry s) !! id) \/ id ∈ rs_pending s ->
    exists k, 1 <= k < rg_next_id (rs_registry s) /\ id = probe_id_of k;
  ro_pending : NoDup (rs_pending s) /\ forall id, id ∈ rs_pending s -> rg_attached (rs_registry s) !! id = None;
  ro_readers : startup ++ attached_stops (rs_registry s) ++ map cl_stop (rs_claims s) ≡ₚ running 0 (rg_readers (rs_registry s))
}.

Lemma running_app i ts t : running i (ts ++ [t]) = running i ts ++ (if rt_stop t then [] else [(i + length ts)%nat]).
Proof.
  revert i. induction ts as [|u ts IH]; intros i; cbn; [by rewrite Nat.add_0_r|].
  rewrite IH, Nat.add_succ_r. by destruct (rt_stop u).
Qed.

Lemma running_ge i ts : Forall (fun t => i <= t)%nat (running i ts).
Proof.
  revert i. induction ts as [|t ts IH]; intros i; cbn; [constructor|].
  assert (Forall (fun t => i <= t)%nat (running (S i) ts)) by (eapply Forall_impl; [apply IH|]; cbn; lia).
  destruct (rt_stop t); [done|by constructor].
Qed.

Lemma running_NoDup i ts : NoDup (running i ts).
Proof.
  revert i. induction ts as [|t ts IH]; intros i; cbn; [constructor|]. destruct (rt_stop t); [done|].
  constructor; [|done]. intros Hin. pose proof (running_ge (S i) ts) as H. rewrite Forall_forall in H. specialize (H _ Hin). lia.
Qed.

Lemma running_elem i ts t : t ∈ running i ts <-> exists j task, t = (i + j)%nat /\ ts !! j = Some task /\ rt_stop task = false.
Proof.
  revert i. induction ts as [|u ts IH]; intros i; cbn; [split; [by intros ?%elem_of_nil|by intros (j & ? & _ & ? & _)]|].
  assert (t ∈ running (S i) ts <-> exists j task, t = (i + S j)%nat /\ ts !! j = Some task /\ rt_stop task = false) as E.
  { rewrite IH. split; intros (j & task & -> & ? & ?); exists j, task; (split_and!; [lia|done..]). }
  assert (t ∈ (if rt_stop u then running (S i) ts else i :: running (S i) ts) <-> (t = i /\ rt_stop u = false) \/ t ∈ running (S i) ts) as ->.
  { destruct (rt_stop u); [naive_solver|]. rewrite elem_of_cons. naive_solver. }
  rewrite E. split.
  - intros [[-> Hu]|(j & task & -> & ? & ?)]; [exists 0%nat, u; split_and!; [lia|done..]|by exists (S j), task].
  - intros ([|j] & task & -> & Hl & ?); [left; cbn in Hl; simplify_eq; split; [lia|done]|right; by exists j, task].
Qed.

Lemma running_stop i ts j task :
  ts !! j = Some task -> rt_stop task = false ->
  (i + j)%nat :: running i (alter (fun t => t <| rt_stop := true |>) j ts) ≡ₚ running i ts.
Proof.
  revert i j. induction ts as [|t ts IH]; intros i [|j] Hl Hs; cbn in Hl |- *; [done..| |].
  - simplify_eq. change (rt_stop (task <| rt_stop := true |>)) with true. cbn. by rewrite Hs, Nat.add_0_r.
  - specialize (IH (S i) j Hl Hs). replace (i + S j)%nat with (S i + j)%nat by lia. destruct (rt_stop t); [done|].
    rewrite Permutation_swap. by f_equiv.
Qed.

Lemma attached_stops_insert id a r :
  rg_attached r !! id = None ->
  attached_stops (insert_entry id a r) ≡ₚ match ap_stop a with Some t => [t] | None => [] end ++ attached_stops r.
Proof.
  intros Hn. unfold attached_stops, insert_entry. cbn. rewrite map_to_list_insert by done. cbn. by destruct (ap_stop a).
Qed.

Lemma attached_stops_delete id a t r readers :
  rg_attached r !! id = Some a -> ap_stop a = Some t ->
  t :: attached_stops (r <| rg_readers := readers |> <| rg_attached ::= delete id |>) ≡ₚ attached_stops r.
Proof.
  intros Ha Ht. unfold attached_stops. cbn. rewrite <- (map_to_list_delete (rg_attached r) id a Ha). cbn. by rewrite Ht.
Qed.

Lemma attached_stops_elem id a t r : rg_attached r !! id = Some a -> ap_stop a = Some t -> t ∈ attached_stops r.
Proof.
  intros Ha Ht. unfold attached_stops. apply list_elem_of_omap. exists a. split; [|done].
  apply list_elem_of_fmap. exists (id, a). split; [done|]. by apply elem_of_map_to_list.
Qed.

Lemma take_id_next r : 1 <= rg_next_id r < u64_max -> rg_next_id (take_id r).2 = rg_next_id r + 1.
Proof. intros H. cbn. apply add64_small. unfold u64_max in *. lia. Qed.

(** What detaching does, when it does something. *)
Lemma detach_effect id a t r :
  rg_attached r !! id = Some a -> ap_stop a = Some t ->
  detach id r = (Ok (Some (pb_name (ap_probe a))), stop_reader t r <| rg_attached ::= delete id |>).
Proof. intros Ha Ht. unfold detach. by rewrite Ha, Ht. Qed.

Lemma detach_none id r : (forall a, rg_attached r !! id = Some a -> ap_stop a = None) -> (detach id r).2 = r.
Proof.
  intros H. unfold detach. destruct (rg_attached r !! id) as [a|] eqn:Ha; [|done]. by rewrite (H a eq_refl).
Qed.

Lemma reg_step_ok startup s s' :
  reg_ok startup s -> reg_step s s' -> rg_next_id (rs_registry s) < u64_max -> reg_ok startup s'.
Proof.
  intros [Hn Hi [Hp Hf] Hr] Hs Hmax. destruct Hs as [c p r ss|c p r ss probe n|c p r|probe n t id now c p r|c p r id];
    cbn [rs_claims rs_pending rs_registry] in *.
  - by split.
  - split; cbn; [done..|]. rewrite running_app. cbn. rewrite <- Hr. unfold attached_stops. cbn.
    rewrite (assoc_L (++)), <- Permutation_cons_append. rewrite (assoc_L (++)).
    rewrite <- !Permutation_middle. done.
  - assert (forall id, is_Some (rg_attached r !! id) \/ id ∈ p -> id <> probe_id_of (rg_next_id r)) as Hfresh.
    { intros id Hid ->. destruct (Hi _ Hid) as (k & Hk & E). apply probe_id_of_inj in E; lia. }
    pose proof (take_id_next r) as Hnext. split; cbn [rs_claims rs_pending rs_registry].
    + rewrite Hnext by lia. unfold u64_max in *. lia.
    + intros id Hid. rewrite Hnext by lia. cbn in Hid. rewrite elem_of_cons in Hid.
      destruct Hid as [Hid|[->|Hid]]; [|exists (rg_next_id r); split; [lia|done]|];
        (destruct (Hi id) as (k & ? & ?); [by auto|exists k; split; [lia|done]]).
    + cbn. split; [constructor; [|done]|].
      * intros Hin. by eapply Hfresh; [right|].
      * intros id [->|Hid]%elem_of_cons; [|by apply Hf]. apply eq_None_not_Some. intros Hin. by eapply Hfresh; [left|].
    + done.
  - apply NoDup_cons in Hp as [Hid Hp]. assert (rg_attached r !! id = None) as Hnone by (apply Hf; by left).
    split; cbn [rs_claims rs_pending rs_registry]; [done| | |].
    + intros id' Hid'. apply Hi. cbn in Hid'. rewrite elem_of_cons.
      destruct Hid' as [H|H]; [|by auto]. destruct (decide (id' = id)) as [->|Hne]; [by auto|].
      rewrite lookup_insert_ne in H by done. by left.
    + split; [done|]. intros id' Hin. cbn. rewrite lookup_insert_ne by (intros ->; done). apply Hf. by right.
    + rewrite attached_stops_insert by done. cbn in *. rewrite <- Hr. apply Permutation_app_head. by rewrite Permutation_middle.
  - destruct (rg_attached r !! id) as [a|] eqn:Ha; [destruct (ap_stop a) as [t|] eqn:Ht|].
    2,3: by rewrite detach_none by (intros; congruence).
    rewrite (detach_effect id a t) by done. cbn [snd].
    split; cbn [rs_claims rs_pending rs_registry]; [done| | |].
    + intros id' Hid'. apply Hi. cbn in Hid'. destruct Hid' as [[x Hx]|]; [|by right]. left.
      apply lookup_delete_Some in Hx as [_ Hx]. by eexists.
    + split; [done|]. intros id' Hin. cbn. apply lookup_delete_None. right. by apply Hf.
    + assert (t ∈ running 0 (rg_readers r)) as (j & task & -> & Hl & Hs)%running_elem.
      { rewrite <- Hr, !elem_of_app. right. left. by eapply attached_stops_elem. }
      apply (Permutation_cons_inv (a := (0 + j)%nat)).
      transitivity (running 0 (rg_readers r)); [|symmetry; by apply (running_stop 0 (rg_readers r) j task)].
      rewrite <- Hr, Permutation_middle. apply Permutation_app_head. apply (Permutation_app_tail (map cl_stop c) (l := _ :: _)).
      by apply (attached_stops_delete id a j r).
Qed.

(** What an identifier named once it never names otherwise, and no startup probe goes. *)
Lemma reg_step_keeps startup s s' id a :
  reg_ok startup s -> reg_step s s' -> rg_attached (rs_registry s) !! id = Some a ->
  rg_attached (rs_registry s') !! id = Some a \/ ap_stop a <> None /\ rg_attached (rs_registry s') !! id = None.
Proof.
  intros [_ _ [_ Hf] _] Hs Ha. destruct Hs as [c p r ss|c p r ss probe n|c p r|probe n t id' now c p r|c p r id'];
    cbn [rs_claims rs_pending rs_registry] in *; [by left..| |].
  - left. cbn. rewrite lookup_insert_ne; [done|]. intros ->. rewrite Hf in Ha by left. done.
  - destruct (rg_attached r !! id') as [a'|] eqn:Ha'; [destruct (ap_stop a') as [t|] eqn:Ht|].
    2,3: rewrite detach_none by (intros; congruence); by left.
    rewrite (detach_effect id' a' t) by done. cbn. destruct (decide (id' = id)) as [->|Hne].
    + right. rewrite lookup_delete_eq. split; [|done]. congruence.
    + left. by rewrite lookup_delete_ne by done.
Qed.

#[export] Instance reg_ok_proper startup : Proper ((≡ₚ) ==> (≡ₚ) ==> (=) ==> iff) (fun c p r => reg_ok startup (mkRegState c p r)).
Proof.
  assert (forall c c' p p' r, c ≡ₚ c' -> p ≡ₚ p' -> reg_ok startup (mkRegState c p r) -> reg_ok startup (mkRegState c' p' r)) as H.
  { intros c c' p p' r Hc Hp [Hn Hi [Hd Hf] Hr]. split; cbn [rs_claims rs_pending rs_registry] in *; [done| | |by rewrite <- Hc].
    - intros id. rewrite <- Hp. apply Hi.
    - rewrite <- Hp. split; [done|]. intros id. rewrite <- Hp. apply Hf. }
  intros c c' Hc p p' Hp r r' <-. split; by apply H.
Qed.

(** What an identifier denoted, it denotes still, or it denotes nothing and nobody will get it. *)
Definition denotes (id : string) (a : AttachedProbe) (s : RegState) : Prop :=
  rg_attached (rs_registry s) !! id = Some a \/
  ap_stop a <> None /\ rg_attached (rs_registry s) !! id = None /\ id ∉ rs_pending s /\
  exists k, 1 <= k < rg_next_id (rs_registry s) /\ id = probe_id_of k.

#[export] Instance denotes_proper id a : Proper ((≡ₚ) ==> (≡ₚ) ==> (=) ==> iff) (fun c p r => denotes id a (mkRegState c p r)).
Proof. intros c c' Hc p p' Hp r r' <-. unfold denotes. cbn. by rewrite Hp. Qed.

Lemma denotes_step startup s s' id a :
  reg_ok startup s -> reg_step s s' -> rg_next_id (rs_registry s) < u64_max -> denotes id a s -> denotes id a s'.
Proof.
  intros Hok Hs Hmax [Ha|(Hrt & Hn & Hp & k & Hk & ->)].
  - destruct (reg_step_keeps startup s s' id a) as [?|[? Hn]]; [done..|by left|right].
    pose proof (reg_step_ok startup s s' Hok Hs Hmax) as Hok'.
    destruct Hok as [_ Hi [_ Hf] _]. split_and!; [done..| |].
    + intros Hin. assert (id ∉ rs_pending s) as Hno by (intros Hp; rewrite Hf in Ha; done).
      destruct Hs as [c p r ss|c p r ss probe n|c p r|probe n t id' now c p r|c p r id'];
        cbn [rs_claims rs_pending rs_registry] in *; [done..| | |done].
      * apply elem_of_cons in Hin as [->|Hin]; [|done]. cbn in Ha, Hn. congruence.
      * apply Hno. by right.
    + assert (exists k, 1 <= k < rg_next_id (rs_registry s) /\ id = probe_id_of k) as (k & Hk & ->) by (apply Hi; left; by eexists).
      exists k. split; [|done]. destruct Hs; cbn [rs_registry] in *; try done; [|by unfold detach; repeat case_match].
      rewrite take_id_next by lia. lia.
  - right. destruct Hs as [c p r ss|c p r ss probe n|c p r|probe n t id' now c p r|c p r id'];
      cbn [rs_claims rs_pending rs_registry] in *.
    + split_and!; [done..|]. by exists k.
    + split_and!; [done..|]. by exists k.
    + split_and!; [done|done| |].
      * intros [E|?]%elem_of_cons; [|done]. apply probe_id_of_inj in E; lia.
      * exists k. rewrite take_id_next by lia. split; [lia|done].
    + apply not_elem_of_cons in Hp as [Hne Hp]. split_and!; [done| |done|by exists k]. cbn. by rewrite lookup_insert_ne by done.
    + split_and!; [done| |done|].
      * destruct (rg_attached r !! id') as [a'|] eqn:Ha'; [destruct (ap_stop a') as [t|] eqn:Ht|].
        2,3: by rewrite detach_none by (intros; congruence).
        rewrite (detach_effect id' a' t) by done. cbn. apply lookup_delete_None. by right.
      * exists k. split; [|done]. by unfold detach; repeat case_match.
Qed.

(** What starting a probe's reader does to the registry's store. *)
Lemma attach_start_effect {Ebpf AyaMap} kind load attach_ take ring percpu probe clock (e e' : Ebpf) r r' started :
  @attach_start Ebpf AyaMap kind load attach_ take ring percpu probe clock e r = (started, e', r') ->
  match started with
  | Err _ => exists ss, r' = r <| rg_stats := ss |>
  | Ok (stats, stop) =>
      stop = length (rg_readers r) /\
      exists ss, r' = r <| rg_stats := ss |> <| rg_readers ::= fun ts => ts ++ [mkReaderTask false probe stats] |>
  end.
Proof.
  unfold attach_start, spawn_reader. destruct r as [att nid ss rd]. cbn.
  destruct (attach_programs _ _ _ _ _) as [[] e1]; [|intros [= <- _ <-]; by exists ss].
  destruct (take (pb_ring_buffer_map probe) e1) as [[ring1|] e2]; [destruct (ring ring1)|];
    [destruct (take _ e2) as [[drops|] e3]; [destruct (percpu drops); [destruct clock|]|]| |];
    intros [= <- _ <-]; [split; [done|]; by eexists|by eexists..].
Qed.
