(* ===== verification/Daemon.v ===== *)
(** The daemon's handle ([DaemonHandle] and [Runtime::run] in [jalki/src/runtime.rs], with
    [jalki/src/filter.rs]): deploying and detaching probes while the daemon runs, alone and
    concurrently. *)
From Stdlib Require Import Strings.Byte.
From stdpp Require Import base gmap list strings.
From S2P Require Import Prelude Text Float Evidence Event Normalize Reader Bpf Btf Codegen Generated Knowledge Registry.

(** [map_kb_fields_to_btf]: the knowledge base's names of fields, as paths. *)
Definition has_sock (btf : BtfData) (function : string) : bool :=
  match resolve_function btf function with
  | Ok sig => match head (fs_params sig) with Some p => bool_decide (fp_name p = "sk") | None => false end
  | Err _ => false
  end.

Definition btf_path (sock : bool) (field : string) : option string :=
  if bool_decide (field = "src_ip") && sock then Some "sk.__sk_common.skc_rcv_saddr"
  else if bool_decide (field = "dst_ip") && sock then Some "sk.__sk_common.skc_daddr"
  else if bool_decide (field = "src_port") && sock then Some "sk.__sk_common.skc_num"
  else if bool_decide (field = "dst_port") && sock then Some "sk.__sk_common.skc_dport"
  else if bool_decide (field = "tcp_state") && sock then Some "sk.__sk_common.skc_state"
  else if bool_decide (field ∈ ["pid"; "tid"; "timestamp_ns"]) then None
  else if bool_decide (field ∈ ["command"; "comm"]) then Some "comm"
  else if bool_decide (field = "ret") then Some "ret"
  else if contains field "." then Some field
  else None.

Definition map_kb_fields_to_btf (function : string) (kb_fields : list string) (btf : BtfData) : list string :=
  let result := omap (btf_path (has_sock btf function)) kb_fields in
  if bool_decide ("comm" ∈ result) then result else result ++ ["comm"].

(** The probes [deploy_probe] does not generate. *)
Definition pre_compiled (function : string) : option BuiltinProbe :=
  if bool_decide (function ∈ ["sched_process_exec"; "process_exec"]) then Some PProcessExec
  else if bool_decide (function = "tcp_connect") then Some PTcpConnect
  else if bool_decide (function = "tcp_close") then Some PTcpClose
  else if bool_decide (function = "tcp_retransmit_skb") then Some PTcpRetransmit
  else if bool_decide (function ∈ ["security_file_open"; "file_open"]) then Some PFileOpen
  else None.

(** What [deploy_codegen] generates for a function, by the knowledge base or by default. *)
Definition codegen_spec (kb : KnowledgeBase) (btf : BtfData) (function : string) : ProbeSpec :=
  let '(attachment, event_type, fields) :=
    match get_probe function kb with
    | Some info =>
        (if bool_decide (pk_attachment info = "fexit") then AtFexit else AtFentry, pk_event_type info,
         map fk_name (List.filter fk_important (pk_fields info)))
    | None => (AtFentry, "kernel." +:+ replace "_" "." function, ["comm"])
    end in
  mkProbeSpec function attachment (map_kb_fields_to_btf function fields btf) event_type.

Section daemon.
Context {Ebpf AyaMap : Type}.
Variable program_kind : string -> Ebpf -> option HookKind.
Variable prog_load prog_attach : string -> Attachment -> Ebpf -> bool * Ebpf.
Variable take_map : string -> Ebpf -> option AyaMap * Ebpf.
Variable is_ring_buf is_per_cpu_array : AyaMap -> bool.
(** [Ebpf::load]; what kind of map a name is, if any; and inserting a key and value into a map. *)
Variable ebpf_load : list byte -> option Ebpf.
Variable is_hash_map : string -> Ebpf -> option bool.
Variable map_insert : string -> Z -> Z -> Ebpf -> option Ebpf.
(** The object writer of the code generator, and the agent's process. *)
Variable add_relocation : ElfReloc -> option string.
Variable obj_write : ElfObject -> result string (list byte).
Variable self_pid : Z.
Variable kb : KnowledgeBase.
Variable btf : BtfData.

(** Inserting a process into the self-filter; [populate_pid_filter] inserts the agent itself. *)
Definition filter_insert (error : string) (pid : Z) (e : Ebpf) : result string Ebpf :=
  match is_hash_map "PID_FILTER" e with
  | None => Err "PID_FILTER map not found"
  | Some false => Err "PID_FILTER is not a HashMap"
  | Some true => match map_insert "PID_FILTER" pid 1 e with Some e => Ok e | None => Err error end
  end.
Definition populate_pid_filter : Ebpf -> result string Ebpf := filter_insert "failed to insert self PID into filter" self_pid.
Definition add_pid (pid : Z) : Ebpf -> result string Ebpf := filter_insert ("failed to insert PID " +:+ dec pid +:+ " into filter") pid.

(** [deploy_codegen] up to the registry: the probe and the object it made and loaded. *)
Definition codegen_object (function : string) : option (result string (Probe * Ebpf)) :=
  let spec := codegen_spec kb btf function in
  generated ← generate_probe add_relocation obj_write spec btf;
  Some match generated with
  | Err _ => Err ("codegen failed for " +:+ function)
  | Ok generated =>
      match ebpf_load (gb_elf_bytes generated) with
      | None => Err ("failed to load generated ELF for " +:+ function)
      | Some gen =>
          gen <-? populate_pid_filter gen ;;
          Ok (generated_probe (GeneratedProbeReader_new spec (gb_field_layout generated) (gb_event_size generated)
                                 (gb_map_name generated) ("jalki_codegen_" +:+ function)), gen)
      end
  end.

(** [DaemonHandle]: the registry, the shared object, and the generated objects, which are named by
    their place among all that were ever loaded; a dropped one, which is unloaded, is [None]. The lock
    is the shared object's. *)
Record Daemon := mkDaemon {
  dm_registry : ProbeRegistry;
  dm_ebpf : Ebpf;
  dm_locked : bool;
  dm_generated : gmap string nat;
  dm_objects : list (option Ebpf)
}.
#[export] Instance eta_Daemon : Eta Daemon := fun d =>
  mkDaemon (dm_registry d) (dm_ebpf d) (dm_locked d) (dm_generated d) (dm_objects d).

Definition drop_object (o : nat) (d : Daemon) : Daemon := d <| dm_objects ::= <[o := None]> |>.

(** The insertion into [generated_probes] at the end of [deploy_codegen]. *)
Definition own_object (function : string) (o : nat) (d : Daemon) : Daemon :=
  let previous := dm_generated d !! function in
  let d := d <| dm_generated ::= <[function := o]> |> in
  match previous with Some previous => drop_object previous d | None => d end.

(** The second half of [detach_probe]. *)
Definition unload_object (name : string) (d : Daemon) : Daemon :=
  match dm_generated d !! name with
  | Some o => drop_object o (d <| dm_generated ::= delete name |>)
  | None => d
  end.

(** The two clocks an operation reads. *)
Record Clocks := mkClocks { ck_monotonic : result string Z; ck_now : Z }.

Notation attach := (attach program_kind prog_load prog_attach take_map is_ring_buf is_per_cpu_array).
Notation attach_start := (attach_start program_kind prog_load prog_attach take_map is_ring_buf is_per_cpu_array).

(** [deploy_probe] and [detach_probe], alone. [None] when the generator's BTF lookups do not end. *)
Definition deploy_pre_compiled (p : BuiltinProbe) (ck : Clocks) (d : Daemon) : result string string * Daemon :=
  let '(r, e, reg) := attach (builtin p) (ck_monotonic ck) (ck_now ck) (dm_ebpf d) (dm_registry d) in
  (r, d <| dm_ebpf := e |> <| dm_registry := reg |>).

Definition deploy_codegen (function : string) (ck : Clocks) (d : Daemon) : option (result string string * Daemon) :=
  made ← codegen_object function;
  Some match made with
  | Err msg => (Err msg, d)
  | Ok (probe, gen) =>
      let o := length (dm_objects d) in
      let '(r, gen, reg) := attach probe (ck_monotonic ck) (ck_now ck) gen (dm_registry d) in
      let d := d <| dm_registry := reg |> <| dm_objects ::= fun os => os ++ [Some gen] |> in
      match r with
      | Err msg => (Err msg, drop_object o d)
      | Ok id => (Ok id, own_object function o d)
      end
  end.

Definition deploy_probe (function : string) (ck : Clocks) (d : Daemon) : option (result string string * Daemon) :=
  match pre_compiled function with
  | Some p => Some (deploy_pre_compiled p ck d)
  | None => deploy_codegen function ck d
  end.

Definition detach_probe (probe_id : string) (d : Daemon) : result string bool * Daemon :=
  let '(r, reg) := detach probe_id (dm_registry d) in
  let d := d <| dm_registry := reg |> in
  match r with
  | Err msg => (Err msg, d)
  | Ok None => (Ok false, d)
  | Ok (Some name) => (Ok true, unload_object name d)
  end.

(** [Runtime::run]: start a reader for each configured probe and register it. *)
Fixpoint start_probes (probes : list Probe) (ck : Clocks) (e : Ebpf) (r : ProbeRegistry) : result string (Ebpf * ProbeRegistry) :=
  match probes with
  | [] => Ok (e, r)
  | p :: rest =>
      let stats := length (rg_stats r) in
      let r := r <| rg_stats ::= fun ss => ss ++ [ProbeStats_new] |> in
      let '(stop, e, r) := spawn_reader take_map is_ring_buf is_per_cpu_array p stats (ck_monotonic ck) e r in
      match stop with
      | Err msg => Err msg
      | Ok _ => start_probes rest ck e (register_startup_probe p stats (ck_now ck) r).2
      end
  end.

Definition DaemonHandle_new (e : Ebpf) (r : ProbeRegistry) : Daemon := mkDaemon r e false ∅ [].

(* ------------------------------------------------------------------ *)
(** ** Concurrent operations

    What a call has still to do, between two of its accesses to what calls share. A call that has no
    object of its own holds the lock of the shared one from [TkCheck] to [TkInsert]. *)

Inductive Task :=
| TkDeploy (function : string)
| TkCheck (probe : Probe) (own : option (string * nat))
| TkStart (probe : Probe) (own : option (string * nat))
| TkNumber (probe : Probe) (own : option (string * nat)) (stats stop : nat)
| TkInsert (probe : Probe) (own : option (string * nat)) (stats stop : nat) (id : string)
| TkOwn (function : string) (o : nat)
| TkDetach (probe_id : string)
| TkUnload (name : string)
| TkDone.

(** An error return drops the object, or releases the lock. *)
Definition give_up_object (own : option (string * nat)) (d : Daemon) : Daemon :=
  match own with
  | Some (_, o) => drop_object o d
  | None => d <| dm_locked := false |>
  end.

Definition object_of (own : option (string * nat)) (d : Daemon) : option Ebpf :=
  match own with
  | Some (_, o) => mjoin (dm_objects d !! o)
  | None => Some (dm_ebpf d)
  end.
Definition set_object (own : option (string * nat)) (e : Ebpf) (d : Daemon) : Daemon :=
  match own with
  | Some (_, o) => d <| dm_objects ::= <[o := Some e]> |>
  | None => d <| dm_ebpf := e |>
  end.

(** [None]: the call waits, or is over. *)
Definition task_step (ck : Clocks) (t : Task) (d : Daemon) : option (Task * Daemon) :=
  match t with
  | TkDeploy function =>
      match pre_compiled function with
      | Some p => if dm_locked d then None else Some (TkCheck (builtin p) None, d <| dm_locked := true |>)
      | None =>
          made ← codegen_object function;
          Some match made with
          | Err _ => (TkDone, d)
          | Ok (probe, gen) =>
              (TkCheck probe (Some (function, length (dm_objects d))), d <| dm_objects ::= fun os => os ++ [Some gen] |>)
          end
      end
  | TkCheck probe own =>
      Some (if already_attached (pb_name probe) (dm_registry d) then (TkDone, give_up_object own d)
            else (TkStart probe own, d))
  | TkStart probe own =>
      e ← object_of own d;
      let '(started, e, reg) := attach_start probe (ck_monotonic ck) e (dm_registry d) in
      let d := set_object own e (d <| dm_registry := reg |>) in
      Some match started with
      | Err _ => (TkDone, give_up_object own d)
      | Ok (stats, stop) => (TkNumber probe own stats stop, d)
      end
  | TkNumber probe own stats stop =>
      let '(id, reg) := take_id (dm_registry d) in
      Some (TkInsert probe own stats stop id, d <| dm_registry := reg |>)
  | TkInsert probe own stats stop id =>
      let d := d <| dm_registry ::= insert_entry id (mkAttachedProbe probe (ck_now ck) stats (Some stop)) |> in
      Some match own with
      | Some (function, o) => (TkOwn function o, d)
      | None => (TkDone, d <| dm_locked := false |>)
      end
  | TkOwn function o => Some (TkDone, own_object function o d)
  | TkDetach probe_id =>
      let '(r, reg) := detach probe_id (dm_registry d) in
      let d := d <| dm_registry := reg |> in
      Some match r with
      | Ok (Some name) => (TkUnload name, d)
      | _ => (TkDone, d)
      end
  | TkUnload name => Some (TkDone, unload_object name d)
  | TkDone => None
  end.

(** The daemon and its calls; a turn is one step of one call. *)
Definition World : Type := Daemon * list Task.

Definition world_step (w : World) (turn : nat * Clocks) : World :=
  let '(d, ts) := w in
  match ts !! turn.1 with
  | Some t => match task_step turn.2 t d with
              | Some (t', d') => (d', <[turn.1 := t']> ts)
              | None => w
              end
  | None => w
  end.

(* ------------------------------------------------------------------ *)
(** ** The calls as steps of the registry *)

Definition task_claim (t : Task) : option Claim :=
  match t with
  | TkNumber probe _ stats stop | TkInsert probe _ stats stop _ => Some (mkClaim probe stats stop)
  | _ => None
  end.
Definition task_pending (t : Task) : option string := match t with TkInsert _ _ _ _ id => Some id | _ => None end.
Definition task_own (t : Task) : option (option (string * nat)) :=
  match t with
  | TkCheck _ own | TkStart _ own | TkNumber _ own _ _ | TkInsert _ own _ _ _ => Some own
  | TkOwn f o => Some (Some (f, o))
  | _ => None
  end.
Definition task_object (t : Task) : option nat :=
  match task_own t with Some (Some (_, o)) => Some o | _ => None end.
Definition critical (t : Task) : bool := match task_own t with Some None => true | _ => false end.

Definition opt_cons {A} (x : option A) (l : list A) : list A := match x with Some x => x :: l | None => l end.

Definition reg_of (t : Task) (c : list Claim) (p : list string) (d : Daemon) : RegState :=
  mkRegState (opt_cons (task_claim t) c) (opt_cons (task_pending t) p) (dm_registry d).

Lemma reg_stay c p (d d' : Daemon) : dm_registry d' = dm_registry d -> reg_step (mkRegState c p (dm_registry d)) (mkRegState c p (dm_registry d')).
Proof.
  intros ->. assert (dm_registry d = (dm_registry d) <| rg_stats := rg_stats (dm_registry d) |>) as E by by destruct (dm_registry d).
  rewrite E at 2. constructor.
Qed.

Lemma drop_object_registry o d : dm_registry (drop_object o d) = dm_registry d.
Proof. done. Qed.
Lemma give_up_registry own d : dm_registry (give_up_object own d) = dm_registry d.
Proof. by destruct own as [[f o]|]. Qed.
Lemma set_object_registry own e d : dm_registry (set_object own e d) = dm_registry d.
Proof. by destruct own as [[f o]|]. Qed.
Lemma own_object_registry f o d : dm_registry (own_object f o d) = dm_registry d.
Proof. unfold own_object. by destruct (dm_generated d !! f). Qed.
Lemma unload_object_registry f d : dm_registry (unload_object f d) = dm_registry d.
Proof. unfold unload_object. by destruct (dm_generated d !! f). Qed.

Lemma task_step_reg ck t t' d d' c p :
  task_step ck t d = Some (t', d') -> reg_step (reg_of t c p d) (reg_of t' c p d').
Proof.
  destruct t as [f|pr own|pr own|pr own st sp|pr own st sp id|f o|id|name|]; cbn [task_step]; intros H.
  - destruct (pre_compiled f) as [b|]; [destruct (dm_locked d); [done|]; by simplify_eq; apply reg_stay|].
    destruct (codegen_object f) as [[[probe gen]|msg]|]; cbn in H; simplify_eq; by apply reg_stay.
  - destruct (already_attached _ _); simplify_eq; apply reg_stay; [by rewrite give_up_registry|done].
  - destruct (object_of own d) as [e|]; [|done]. cbn in H.
    destruct (attach_start pr (ck_monotonic ck) e (dm_registry d)) as [[started e'] reg] eqn:Es.
    apply attach_start_effect in Es. destruct started as [[st sp]|msg]; simplify_eq; unfold reg_of; cbn [task_claim task_pending opt_cons];
      rewrite ?give_up_registry, set_object_registry; cbn [dm_registry].
    + destruct Es as (-> & ss & ->). apply RegStart.
    + destruct Es as (ss & ->). apply RegStay.
  - destruct (take_id (dm_registry d)) as [id reg] eqn:E. simplify_eq. unfold reg_of. cbn [task_claim task_pending opt_cons].
    assert (id = (take_id (dm_registry d)).1 /\ reg = (take_id (dm_registry d)).2) as [-> ->] by by rewrite E.
    apply RegNumber.
  - assert (dm_registry d' = insert_entry id (mkAttachedProbe pr (ck_now ck) st (Some sp)) (dm_registry d) /\
            task_claim t' = None /\ task_pending t' = None) as (E & Ec & Ep) by (destruct own as [[f o]|]; by simplify_eq).
    unfold reg_of. rewrite E, Ec, Ep. apply RegInsert.
  - simplify_eq. apply reg_stay. apply own_object_registry.
  - destruct (detach id (dm_registry d)) as [r reg] eqn:E.
    assert (dm_registry d' = (detach id (dm_registry d)).2 /\ task_claim t' = None /\ task_pending t' = None) as (Er & Ec & Ep)
      by (rewrite E; destruct r as [[]|]; by simplify_eq).
    unfold reg_of. rewrite Er, Ec, Ep. apply RegDetach.
  - simplify_eq. apply reg_stay. apply unload_object_registry.
  - done.
Qed.

(** Taking one call out of the list of calls. *)
Lemma insert_Permutation {A} (l : list A) i x :
  l !! i = Some x -> exists rest, l ≡ₚ x :: rest /\ forall y, <[i:=y]> l ≡ₚ y :: rest.
Proof.
  intros Hl. exists (take i l ++ drop (S i) l). split.
  - rewrite <- (take_drop_middle l i x Hl) at 1. by rewrite Permutation_middle.
  - intros y. rewrite insert_take_drop by (by eapply lookup_lt_Some). by rewrite Permutation_middle.
Qed.

Definition world_reg (w : World) : RegState :=
  mkRegState (omap task_claim w.2) (omap task_pending w.2) (dm_registry w.1).

Lemma world_reg_cons d t rest ts : ts ≡ₚ t :: rest ->
  omap task_claim ts ≡ₚ opt_cons (task_claim t) (omap task_claim rest) /\
  omap task_pending ts ≡ₚ opt_cons (task_pending t) (omap task_pending rest) /\ dm_registry d = dm_registry d.
Proof. intros ->. cbn. split_and!; [by destruct (task_claim t)|by destruct (task_pending t)|done]. Qed.

(** A property of registry states that steps keep and order does not matter to. *)
Lemma world_step_reg (P : list Claim -> list string -> ProbeRegistry -> Prop) w turn :
  Proper ((≡ₚ) ==> (≡ₚ) ==> (=) ==> iff) P ->
  (forall s s', reg_step s s' -> rs_registry s = dm_registry w.1 -> P (rs_claims s) (rs_pending s) (rs_registry s) -> P (rs_claims s') (rs_pending s') (rs_registry s')) ->
  P (omap task_claim w.2) (omap task_pending w.2) (dm_registry w.1) ->
  let w' := world_step w turn in P (omap task_claim w'.2) (omap task_pending w'.2) (dm_registry w'.1).
Proof.
  intros HP Hstep. destruct w as [d ts], turn as [i ck]. cbn [fst snd]. intros Hw. unfold world_step. cbn [fst snd].
  destruct (ts !! i) as [t|] eqn:Ht; [|done]. destruct (task_step ck t d) as [[t' d']|] eqn:Es; [|done]. cbn [fst snd].
  destruct (insert_Permutation ts i t Ht) as (rest & Hts & Hins). specialize (Hins t').
  destruct (world_reg_cons d t rest _ Hts) as (E1 & E2 & _). destruct (world_reg_cons d' t' rest _ Hins) as (E1' & E2' & _).
  rewrite E1, E2 in Hw. rewrite E1', E2'.
  apply (Hstep _ _ (task_step_reg ck t t' d d' (omap task_claim rest) (omap task_pending rest) Es)); done.
Qed.

(* ------------------------------------------------------------------ *)
(** ** Who owns the generated objects *)

Definition loaded (o : nat) (d : Daemon) : Prop := exists e, dm_objects d !! o = Some (Some e).

Record objects_ok (held : list nat) (d : Daemon) : Prop := {
  ob_loaded o : loaded o d <-> o ∈ held \/ exists f, dm_generated d !! f = Some o;
  ob_held : NoDup held /\ forall o f, o ∈ held -> dm_generated d !! f <> Some o;
  ob_inj f g o : dm_generated d !! f = Some o -> dm_generated d !! g = Some o -> f = g
}.

Lemma objects_ok_Permutation held held' d : held ≡ₚ held' -> objects_ok held d -> objects_ok held' d.
Proof.
  intros Hh [Hl [Hd Hn] Hi]. split; [|split|done].
  - intros o. by rewrite Hl, Hh.
  - by rewrite <- Hh.
  - intros o f. rewrite <- Hh. apply Hn.
Qed.

Lemma objects_ok_same held d d' :
  dm_objects d' = dm_objects d -> dm_generated d' = dm_generated d -> objects_ok held d -> objects_ok held d'.
Proof. intros Ho Hg [Hl Hh Hi]. split; [intros o; specialize (Hl o)|..]; unfold loaded in *; by rewrite ?Ho, ?Hg. Qed.

Lemma objects_load held d e : objects_ok held d ->
  objects_ok (length (dm_objects d) :: held) (d <| dm_objects ::= fun os => os ++ [Some e] |>).
Proof.
  intros [Hl [Hd Hn] Hi].
  assert (forall o, loaded o d -> (o < length (dm_objects d))%nat) as Hlt by (intros o (x & Hx); by eapply lookup_lt_Some).
  split; [|split|done]; cbn.
  - intros o. rewrite elem_of_cons, <- (assoc or), <- Hl. unfold loaded. cbn.
    destruct (decide (o = length (dm_objects d))) as [->|Hne].
    + rewrite list_lookup_middle by done. split; [by left|by eexists].
    + split; [|intros [?|(x & Hx)]; [done|exists x; by apply lookup_app_l_Some]].
      intros (x & [Hx|[? Hx%list_lookup_singleton_Some]]%lookup_app_Some); [right; by exists x|]. destruct Hx. lia.
  - constructor; [|done]. intros Hin. pose proof (Hlt (length (dm_objects d))). rewrite Hl in H. specialize (H (or_introl Hin)). lia.
  - intros o f [->|Hin]%elem_of_cons; [|by apply Hn]. intros Hf.
    pose proof (Hlt (length (dm_objects d))) as H. rewrite Hl in H. assert (length (dm_objects d) < length (dm_objects d))%nat by (apply H; right; by exists f). lia.
Qed.

Lemma loaded_drop o o' d : loaded o' (drop_object o d) <-> o' <> o /\ loaded o' d.
Proof.
  unfold loaded, drop_object. cbn. destruct (decide (o' = o)) as [->|Hne].
  - split; [|by intros []]. intros (e & He). exfalso. apply list_lookup_insert_Some in He. naive_solver.
  - rewrite list_lookup_insert_ne by done. naive_solver.
Qed.

Lemma objects_drop o held d : objects_ok (o :: held) d -> objects_ok held (drop_object o d).
Proof.
  intros [Hl [Hd Hn] Hi]. apply NoDup_cons in Hd as [Ho Hd]. split; [|split; [done|intros; apply Hn; by right]|done].
  intros o'. rewrite loaded_drop, Hl, elem_of_cons. cbn. split; [naive_solver|].
  intros [Hin|(f & Hf)]; (split; [|naive_solver]); intros ->; [done|]. apply (Hn o f); [left|done].
Qed.

Lemma objects_unload f held d : objects_ok held d -> objects_ok held (unload_object f d).
Proof.
  intros [Hl [Hd Hn] Hi]. unfold unload_object. destruct (dm_generated d !! f) as [o|] eqn:Hf; [|by split].
  split; [|split; [done|]|]; cbn.
  - intros o'. rewrite loaded_drop. unfold loaded. cbn. fold (loaded o' d). rewrite Hl. split.
    + intros [Hne [?|(g & Hg)]]; [by left|right]. exists g. rewrite lookup_delete_ne; [done|]. intros <-. congruence.
    + intros [Hin|(g & [? Hg]%lookup_delete_Some)]; [split; [|by left]|split; [|right; by exists g]].
      * intros ->. by apply (Hn o f).
      * intros ->. by specialize (Hi f g o Hf Hg).
  - intros o' g Hin [? Hg]%lookup_delete_Some. by eapply Hn.
  - intros g h o' [? Hg]%lookup_delete_Some [? Hh]%lookup_delete_Some. by eapply Hi.
Qed.

(** Owning a second object of a name is unloading the first, then owning. *)
Lemma own_object_unload f o d : own_object f o d = own_object f o (unload_object f d).
Proof.
  unfold own_object, unload_object. destruct (dm_generated d !! f) as [prev|] eqn:Hf; [|by rewrite Hf].
  destruct d as [r e l g os]. cbn in *. rewrite lookup_delete_eq. unfold drop_object, set, eta, eta_Daemon. cbn. by rewrite insert_delete_eq.
Qed.

Lemma objects_own f o held d : objects_ok (o :: held) d -> objects_ok held (own_object f o d).
Proof.
  intros Hok%(objects_unload f). rewrite own_object_unload.
  assert (dm_generated (unload_object f d) !! f = None) as Hf.
  { unfold unload_object. destruct (dm_generated d !! f) eqn:E; [apply lookup_delete_eq|done]. }
  revert Hok Hf. generalize (unload_object f d). clear d. intros d [Hl [Hd Hn] Hi] Hf. apply NoDup_cons in Hd as [Ho Hd].
  assert (forall g, dm_generated d !! g <> Some o) as Hno by (intros g; apply Hn; by left).
  unfold own_object. rewrite Hf. split; [|split; [done|]|]; cbn.
  - intros o'. unfold loaded. cbn. fold (loaded o' d). rewrite Hl, elem_of_cons. split.
    + intros [[->|?]|(g & Hg)]; [right; exists f; by rewrite lookup_insert_eq|by left|right].
      exists g. rewrite lookup_insert_ne; [done|]. intros <-. congruence.
    + intros [?|(g & [[-> ->]|[? ?]]%lookup_insert_Some)]; [auto|auto|right; by exists g].
  - intros o' g Hin. destruct (decide (f = g)) as [->|?]; [rewrite lookup_insert_eq; intros [= ->]; done|].
    rewrite lookup_insert_ne by done. apply Hn. by right.
  - intros g h o'. rewrite !lookup_insert_Some. intros [[-> ->]|[? Hg]] [[-> E]|[? Hh]]; subst; try done.
    + by apply Hno in Hh.
    + by apply Hno in Hg.
    + by eapply Hi.
Qed.

Lemma objects_set own e d held : objects_ok (opt_cons (snd <$> own) held) d -> objects_ok (opt_cons (snd <$> own) held) (set_object own e d).
Proof.
  destruct own as [[f o]|]; cbn; [|by apply objects_ok_same]. intros [Hl Hh Hi]. split; [|done..].
  intros o'. rewrite <- Hl. unfold loaded. cbn. destruct (decide (o' = o)) as [->|Hne]; [|by rewrite list_lookup_insert_ne].
  assert (loaded o d) as (x & Hx) by (apply Hl; left; by left). split; intros _; [by exists x|]. exists e.
  apply list_lookup_insert_eq. by eapply lookup_lt_Some.
Qed.

Local Ltac same_objects := simplify_eq; first [done | match goal with H : objects_ok _ ?d |- _ => by apply (objects_ok_same _ d) end].

Lemma task_step_objects ck t t' d d' held :
  task_step ck t d = Some (t', d') -> objects_ok (opt_cons (task_object t) held) d -> objects_ok (opt_cons (task_object t') held) d'.
Proof.
  destruct t as [f|pr own|pr own|pr own st sp|pr own st sp id|f o|id|name|]; cbn [task_step]; intros H Hok.
  - destruct (pre_compiled f) as [b|]; [destruct (dm_locked d); [done|]; same_objects|].
    destruct (codegen_object f) as [[[probe gen]|msg]|]; cbn in H; simplify_eq; [by apply objects_load|done].
  - destruct (already_attached _ _); simplify_eq; [|done].
    destruct own as [[f o]|]; cbn; [by apply objects_drop|same_objects].
  - destruct (object_of own d) as [e|] eqn:He; [|done]. cbn in H.
    destruct (attach_start pr (ck_monotonic ck) e (dm_registry d)) as [[started e'] reg].
    assert (objects_ok (opt_cons (snd <$> own) held) (set_object own e' (d <| dm_registry := reg |>))) as Hset.
    { apply objects_set, (objects_ok_same _ d); [done..|]. by destruct own as [[f o]|]. }
    destruct started as [[st sp]|msg]; simplify_eq; destruct own as [[f o]|]; try same_objects.
    by apply objects_drop.
  - destruct (take_id (dm_registry d)) as [id reg]. same_objects.
  - destruct own as [[f o]|]; same_objects.
  - simplify_eq. by apply objects_own.
  - destruct (detach id (dm_registry d)) as [[[]|] reg]; same_objects.
  - simplify_eq. by apply objects_unload.
  - done.
Qed.

(** The lock of the shared object: held by one call, while it is between the check and the insertion. *)
Definition lock_ok (n : nat) (d : Daemon) : Prop := n = if dm_locked d then 1%nat else 0%nat.

Lemma own_object_locked f o d : dm_locked (own_object f o d) = dm_locked d.
Proof. unfold own_object. by destruct (dm_generated d !! f). Qed.
Lemma unload_object_locked f d : dm_locked (unload_object f d) = dm_locked d.
Proof. unfold unload_object. by destruct (dm_generated d !! f). Qed.

Lemma task_step_lock ck t t' d d' n :
  task_step ck t d = Some (t', d') ->
  lock_ok ((if critical t then 1 else 0) + n) d -> lock_ok ((if critical t' then 1 else 0) + n) d'.
Proof.
  unfold lock_ok. destruct t as [f|pr own|pr own|pr own st sp|pr own st sp id|f o|id|name|]; cbn [task_step]; intros H Hok.
  - destruct (pre_compiled f) as [b|]; [destruct (dm_locked d) eqn:E; [done|]; simplify_eq; cbn in *; lia|].
    destruct (codegen_object f) as [[[probe gen]|msg]|]; cbn in H; by simplify_eq.
  - destruct (already_attached _ _); simplify_eq; [|done]. destruct own as [[f o]|]; cbn in *; [done|]. destruct (dm_locked d); lia.
  - destruct (object_of own d) as [e|] eqn:He; [|done]. cbn in H.
    destruct (attach_start pr (ck_monotonic ck) e (dm_registry d)) as [[started e'] reg].
    destruct started as [[st sp]|msg]; simplify_eq; destruct own as [[f o]|]; cbn in *; try done. destruct (dm_locked d); lia.
  - destruct (take_id (dm_registry d)) as [id reg]. by simplify_eq.
  - destruct own as [[f o]|]; simplify_eq; cbn in *; [done|]. destruct (dm_locked d); lia.
  - simplify_eq. cbn. by rewrite own_object_locked.
  - destruct (detach id (dm_registry d)) as [[[]|] reg]; by simplify_eq.
  - simplify_eq. cbn. by rewrite unload_object_locked.
  - done.
Qed.

Record world_ok (startup : list nat) (w : World) : Prop := {
  wo_registry : reg_ok startup (world_reg w);
  wo_objects : objects_ok (omap task_object w.2) w.1;
  wo_lock : lock_ok (length (List.filter critical w.2)) w.1
}.

Lemma filter_Permutation {A} (p : A -> bool) l l' : l ≡ₚ l' -> length (List.filter p l) = length (List.filter p l').
Proof. induction 1; cbn; [done|case_match; cbn; congruence|repeat case_match; done|congruence]. Qed.

Lemma world_step_ok startup w turn :
  rg_next_id (dm_registry w.1) < u64_max -> world_ok startup w -> world_ok startup (world_step w turn).
Proof.
  intros Hmax [Hr Ho Hl]. split.
  - apply (world_step_reg (fun c p r => reg_ok startup (mkRegState c p r)) w turn); [apply _| |exact Hr].
    intros [c p r] [c' p' r'] Hs Hreg Hok. cbn in *. eapply reg_step_ok; [exact Hok|done|]. cbn. by rewrite Hreg.
  - destruct w as [d ts], turn as [i ck]. unfold world_step. cbn [fst snd] in *.
    destruct (ts !! i) as [t|] eqn:Ht; [|done]. destruct (task_step ck t d) as [[t' d']|] eqn:Es; [|done]. cbn [fst snd].
    destruct (insert_Permutation ts i t Ht) as (rest & Hts & Hins). specialize (Hins t').
    assert (forall x l, l ≡ₚ x :: rest -> omap task_object l ≡ₚ opt_cons (task_object x) (omap task_object rest)) as E
      by (intros x l ->; cbn; by destruct (task_object x)).
    eapply objects_ok_Permutation; [symmetry; by apply E|]. eapply task_step_objects; [exact Es|].
    eapply objects_ok_Permutation; [by apply E|done].
  - destruct w as [d ts], turn as [i ck]. unfold world_step. cbn [fst snd] in *.
    destruct (ts !! i) as [t|] eqn:Ht; [|done]. destruct (task_step ck t d) as [[t' d']|] eqn:Es; [|done]. cbn [fst snd].
    destruct (insert_Permutation ts i t Ht) as (rest & Hts & Hins). specialize (Hins t').
    assert (forall x l, l ≡ₚ x :: rest -> length (List.filter critical l) = ((if critical x then 1 else 0) + length (List.filter critical rest))%nat) as E
      by (intros x l H; rewrite (filter_Permutation _ _ _ H); cbn; by destruct (critical x)).
    rewrite (E t') by done. eapply task_step_lock; [exact Es|]. by rewrite <- (E t ts Hts).
Qed.

Lemma world_step_next w turn :
  1 <= rg_next_id (dm_registry w.1) < u64_max ->
  rg_next_id (dm_registry w.1) <= rg_next_id (dm_registry (world_step w turn).1) <= rg_next_id (dm_registry w.1) + 1.
Proof.
  intros Hn.
  apply (world_step_reg (fun c p r => rg_next_id (dm_registry w.1) <= rg_next_id r <= rg_next_id (dm_registry w.1) + 1) w turn).
  - intros c c' _ p p' _ r r' <-. done.
  - intros s s' Hs Hreg _. rewrite <- Hreg in *. destruct Hs; cbn [rs_registry] in *; try (cbn; lia).
    + rewrite take_id_next; lia.
    + unfold detach. repeat case_match; cbn; lia.
  - lia.
Qed.

(* ------------------------------------------------------------------ *)
(** ** From the start *)

Record started_ok (n : nat) (r : ProbeRegistry) : Prop := {
  st_ok : reg_ok (seq 0 n) (mkRegState [] [] r);
  st_readers : length (rg_readers r) = n;
  st_next : rg_next_id r = 1 + Z.of_nat n;
  st_startup id a : rg_attached r !! id = Some a -> ap_stop a = None
}.

Lemma start_probes_ok probes ck e r e' r' n :
  start_probes probes ck e r = Ok (e', r') -> started_ok n r -> 1 + Z.of_nat n + zlen probes < u64_max ->
  started_ok (n + length probes) r'.
Proof.
  revert e r n. induction probes as [|p ps IH]; intros e r n; cbn [start_probes]; [intros [= -> ->]; by rewrite Nat.add_0_r|].
  destruct (spawn_reader _ _ _ _ _ _ _ _) as [[[stop|] e1] r1] eqn:Es; [|done]. intros H Hok Hmax. rewrite zlen_cons in Hmax. pose proof (zlen_nonneg ps).
  rewrite length_cons, <- Nat.add_succ_comm. eapply IH; [exact H| |lia]. clear IH H.
  assert (rg_attached r1 = rg_attached r /\ rg_next_id r1 = rg_next_id r /\
          rg_readers r1 = rg_readers r ++ [mkReaderTask false p (length (rg_stats r))]) as (Ea & En & Er).
  { unfold spawn_reader in Es. destruct (take_map (pb_ring_buffer_map p) e) as [[ring1|] e2]; [|done]. destruct (is_ring_buf ring1); [|done].
    destruct (take_map _ e2) as [[drops|] e3]; [|done]. destruct (is_per_cpu_array drops); [|done]. destruct (ck_monotonic ck); [|done].
    by simplify_eq. }
  destruct Hok as [[Hn Hi Hp Hr] Hlen Hnext Hst]. cbn [rs_registry rs_claims rs_pending] in *.
  assert (rg_attached r !! probe_id_of (rg_next_id r) = None) as Hfresh.
  { apply eq_None_not_Some. intros Hsome. destruct (Hi _ (or_introl Hsome)) as (k & Hk & E%probe_id_of_inj); lia. }
  unfold register_startup_probe, take_id. cbn [snd]. rewrite En.
  assert (add64 (rg_next_id r) 1 = rg_next_id r + 1) as Eadd by (apply add64_small; unfold u64_max in *; lia).
  split; [split|..]; cbn [rs_registry rs_claims rs_pending].
  - cbn. rewrite En, Eadd. unfold u64_max in *. lia.
  - intros id [Hid|?%elem_of_nil]; [|done]. cbn. rewrite En, Eadd. cbn in Hid.
    destruct (decide (id = probe_id_of (rg_next_id r))) as [->|Hne]; [exists (rg_next_id r); split; [lia|done]|].
    rewrite lookup_insert_ne, Ea in Hid by done. destruct (Hi id (or_introl Hid)) as (k & ? & ?). exists k. split; [lia|done].
  - split; [constructor|]. by intros id ?%elem_of_nil.
  - rewrite seq_S, attached_stops_insert by (cbn; by rewrite Ea).
    change (rg_readers (insert_entry _ _ _)) with (rg_readers r1). rewrite Er, running_app, <- Hr. cbn -[seq]. rewrite Hlen.
    unfold attached_stops. cbn -[seq]. rewrite Ea, !app_nil_r, <- !(assoc_L (++)).
    apply Permutation_app_head. by rewrite Permutation_app_comm.
  - cbn. rewrite Er, length_app. cbn. lia.
  - cbn. rewrite En, Eadd. lia.
  - intros id a. cbn. rewrite Ea, lookup_insert_Some. intros [[_ <-]|[_ Ha]]; [done|by eapply Hst].
Qed.

Lemma new_empty id a : rg_attached ProbeRegistry_new !! id = Some a -> False.
Proof. by apply lookup_empty_Some. Qed.

Lemma new_started : started_ok 0 ProbeRegistry_new.
Proof.
  split; [split|done|done|by intros id a ?%new_empty]; cbn [rs_registry rs_claims rs_pending].
  - done.
  - by intros id [[x ?%new_empty]|?%elem_of_nil].
  - split; [constructor|by intros id ?%elem_of_nil].
  - done.
Qed.

Definition is_call (t : Task) : Prop := match t with TkDeploy _ | TkDetach _ => True | _ => False end.

Lemma start_world_ok n e r calls : started_ok n r -> Forall is_call calls -> world_ok (seq 0 n) (DaemonHandle_new e r, calls).
Proof.
  intros [Hok _ _ _] Hc.
  assert (omap task_claim calls = [] /\ omap task_pending calls = [] /\ omap task_object calls = [] /\ List.filter critical calls = [])
    as (E1 & E2 & E3 & E4) by (induction Hc as [|[] ts H Hs IH]; try done; naive_solver).
  split; cbn [fst snd].
  - unfold world_reg. cbn [fst snd]. by rewrite E1, E2.
  - assert (forall f o, (∅ : gmap string nat) !! f = Some o -> False) as Hno by (intros f o; by apply lookup_empty_Some).
    rewrite E3. split; cbn; [|split; [constructor|by intros o f ?%elem_of_nil]|by intros f g o ?%Hno].
    intros o. split; [intros (x & Hx); cbn in Hx; by rewrite lookup_nil in Hx|].
    by intros [?%elem_of_nil|(f & ?%Hno)].
  - by rewrite E4.
Qed.

Lemma world_run_ok startup w turns :
  world_ok startup w -> rg_next_id (dm_registry w.1) + zlen turns < u64_max ->
  let w' := foldl world_step w turns in
  world_ok startup w' /\ rg_next_id (dm_registry w.1) <= rg_next_id (dm_registry w'.1) <= rg_next_id (dm_registry w.1) + zlen turns.
Proof.
  revert w. induction turns as [|turn turns IH]; intros w Hok Hmax; cbn [foldl]; [rewrite ?zlen_nil in *; split; [done|change (zlen []) with 0; lia]|].
  rewrite zlen_cons in *. pose proof (zlen_nonneg turns).
  pose proof (ro_next _ _ (wo_registry _ _ Hok)) as Hn. cbn in Hn.
  pose proof (world_step_next w turn ltac:(lia)) as Hnext.
  destruct (IH (world_step w turn)) as [Hok' Hb]; [apply world_step_ok; [lia|done]|lia|]. split; [done|lia].
Qed.

Lemma world_run_denotes startup w turns id a :
  world_ok startup w -> rg_next_id (dm_registry w.1) + zlen turns < u64_max ->
  denotes id a (world_reg w) -> denotes id a (world_reg (foldl world_step w turns)).
Proof.
  revert w. induction turns as [|turn turns IH]; intros w Hok Hmax Hd; cbn [foldl]; [done|].
  rewrite zlen_cons in *. pose proof (zlen_nonneg turns). pose proof (ro_next _ _ (wo_registry _ _ Hok)) as Hn. cbn in Hn.
  pose proof (world_step_next w turn ltac:(lia)) as Hnext.
  apply IH; [apply world_step_ok; [lia|done]|lia|].
  assert (let w' := world_step w turn in
          reg_ok startup (mkRegState (omap task_claim w'.2) (omap task_pending w'.2) (dm_registry w'.1)) /\
          denotes id a (mkRegState (omap task_claim w'.2) (omap task_pending w'.2) (dm_registry w'.1))) as [_ H']; [|exact H'].
  apply (world_step_reg (fun c p r => reg_ok startup (mkRegState c p r) /\ denotes id a (mkRegState c p r)) w turn).
  - intros c c' Hc p p' Hp r r' <-. by rewrite (reg_ok_proper startup c c' Hc p p' Hp r r eq_refl), (denotes_proper id a c c' Hc p p' Hp r r eq_refl).
  - intros [c p r] [c' p' r'] Hs Hreg [Hok1 Hd1]. cbn [rs_claims rs_pending rs_registry] in *.
    split; [eapply reg_step_ok; [exact Hok1|done|]|eapply denotes_step; [exact Hok1|done| |done]]; cbn; rewrite Hreg; lia.
  - split; [exact (wo_registry _ _ Hok)|exact Hd].
Qed.

(** C4: calls may overlap. Start the daemon with any probes and let any deploy and detach calls run
    interleaved in any way, fewer than 2^64 turns. Startup probes stay as registered. An identifier
    never comes to name another probe. The reader threads running are exactly those of the startup
    probes, those of the attached probes and those of calls about to register one, each once: no
    detached probe is read on, no reader is orphaned or stopped by another's detach. The generated
    BPF objects loaded are exactly those owned under some function and those of calls in progress,
    so none leaks; and at most one call works on the shared object. *)
Theorem concurrent_calls_safe probes ck e e' r0 calls turns :
  start_probes probes ck e ProbeRegistry_new = Ok (e', r0) -> Forall is_call calls ->
  1 + zlen probes + zlen turns < u64_max ->
  let after turns := foldl world_step (DaemonHandle_new e' r0, calls) turns in
  let d := (after turns).1 in
  let r := dm_registry d in
  let ts := (after turns).2 in
  (forall id a, rg_attached r0 !! id = Some a -> rg_attached r !! id = Some a) /\
  (forall before rest id a a', turns = before ++ rest ->
     rg_attached (dm_registry (after before).1) !! id = Some a -> rg_attached r !! id = Some a' -> a' = a) /\
  seq 0 (length probes) ++ attached_stops r ++ map cl_stop (omap task_claim ts) ≡ₚ running 0 (rg_readers r) /\
  (forall o, loaded o d <-> o ∈ omap task_object ts \/ exists f, dm_generated d !! f = Some o) /\
  (length (List.filter critical ts) <= 1)%nat.
Proof.
  intros Hs Hc Hmax after d r ts.
  pose proof (start_probes_ok _ _ _ _ _ _ _ Hs new_started ltac:(pose proof (zlen_nonneg turns); lia)) as Hst. cbn [plus] in Hst.
  pose proof (start_world_ok _ e' _ calls Hst Hc) as Hw0. pose proof (st_next _ _ Hst) as Hn. fold (zlen probes) in Hn.
  destruct (world_run_ok _ _ turns Hw0) as [[Hr Ho Hl] _]; [cbn; lia|]. fold (after turns) in Hr, Ho, Hl. split_and!.
  - intros id a Ha. assert (denotes id a (world_reg (after turns))) as [H|[H _]]; [|done|].
    { apply (world_run_denotes (seq 0 (length probes))); [done|cbn; lia|]. by left. }
    by rewrite (st_startup _ _ Hst id a Ha) in H.
  - intros before rest id a a' -> Ha Ha'. rewrite zlen_app in Hmax. pose proof (zlen_nonneg rest).
    destruct (world_run_ok _ _ before Hw0) as [Hwb Hnb]; [cbn; lia|]. fold (after before) in Hwb, Hnb. cbn in Hnb.
    assert (denotes id a (world_reg (after (before ++ rest)))) as [Hd|(_ & Hd & _)].
    { unfold after. rewrite foldl_app. apply (world_run_denotes (seq 0 (length probes))); [done|unfold after in Hnb; lia|]. by left. }
    all: unfold world_reg in Hd; cbn in Hd; fold d r in Hd; congruence.
  - exact (ro_readers _ _ Hr).
  - exact (ob_loaded _ _ Ho).
  - unfold lock_ok in Hl. fold ts d in Hl. destruct (dm_locked d); lia.
Qed.

(* ------------------------------------------------------------------ *)
(** ** Calls one at a time *)

Notation turns ck n := (replicate n (0%nat, ck)).

Lemma world_step_one ck t d t' d' : task_step ck t d = Some (t', d') -> world_step (d, [t]) (0%nat, ck) = (d', [t']).
Proof. intros H. unfold world_step. cbn [fst snd lookup list_lookup]. by rewrite H. Qed.
Lemma world_done n ck d : foldl world_step (d, [TkDone]) (turns ck n) = (d, [TkDone]).
Proof. by induction n. Qed.

(** A call that runs alone takes its turns without waiting. *)
Local Ltac turn_by tac := rewrite replicate_S; cbn [foldl]; erewrite world_step_one; [|cbn; tac; reflexivity].
Local Ltac turn H := turn_by ltac:(rewrite H).

Lemma deploy_runs f ck d r d' :
  dm_locked d = false -> deploy_probe f ck d = Some (r, d') ->
  foldl world_step (d, [TkDeploy f]) (turns ck 6) = (d', [TkDone]).
Proof.
  destruct d as [reg e l gens os]. cbn [dm_locked]. intros ->.
  unfold deploy_probe, deploy_pre_compiled, deploy_codegen, attach. cbn [dm_registry dm_ebpf dm_objects].
  destruct (pre_compiled f) as [b|] eqn:Hp; [|destruct (codegen_object f) as [[[p gen]|msg]|] eqn:Hg; [..|done]].
  - intros H. turn Hp. destruct (already_attached (pb_name (builtin b)) reg) eqn:Ha; [turn Ha; rewrite world_done; by simplify_eq/=|]. turn Ha.
    destruct (attach_start (builtin b) (ck_monotonic ck) e reg) as [[[[st sp]|msg] e'] reg'] eqn:Es.
    + turn Es. do 2 turn_by idtac. rewrite world_done. by simplify_eq/=.
    + turn Es. rewrite world_done. by simplify_eq/=.
  - assert (mjoin ((os ++ [Some gen]) !! length os) = Some gen) as Ho by by rewrite list_lookup_middle.
    assert (forall x, <[length os:=Some x]> (os ++ [Some gen]) = os ++ [Some x]) as Hins
      by (intros x; by rewrite insert_app_r_alt, Nat.sub_diag by done).
    intros H. cbn in H. turn_by ltac:(rewrite Hp, Hg).
    destruct (already_attached (pb_name p) reg) eqn:Ha; [turn Ha; rewrite world_done; by simplify_eq/=|]. turn Ha.
    destruct (attach_start p (ck_monotonic ck) gen reg) as [[[[st sp]|msg] e'] reg'] eqn:Es;
      turn_by ltac:(rewrite Ho; cbn; rewrite Es, Hins).
    + do 3 turn_by idtac. by simplify_eq/=.
    + rewrite world_done. by simplify_eq/=.
  - intros H. cbn in H. turn_by ltac:(rewrite Hp, Hg).
    rewrite world_done. by simplify_eq/=.
Qed.

Lemma detach_runs id ck d r d' :
  detach_probe id d = (r, d') -> foldl world_step (d, [TkDetach id]) (turns ck 2) = (d', [TkDone]).
Proof.
  unfold detach_probe. intros H. rewrite replicate_S. cbn [foldl]. destruct (detach id (dm_registry d)) as [[[name|]|msg] reg] eqn:E.
  - erewrite world_step_one; [|cbn [task_step]; rewrite E; reflexivity]. by simplify_eq.
  - erewrite world_step_one; [|cbn [task_step]; rewrite E; reflexivity]. by simplify_eq.
  - erewrite world_step_one; [|cbn [task_step]; rewrite E; reflexivity]. by simplify_eq.
Qed.

Definition is_generated (p : Probe) : Prop := pb_program_name p = "jalki_codegen_" +:+ pb_name p.

Lemma builtin_not_generated b : ~ is_generated (builtin b).
Proof. by destruct b. Qed.

Lemma codegen_object_probe f p gen : codegen_object f = Some (Ok (p, gen)) -> pb_name p = f /\ is_generated p.
Proof.
  unfold codegen_object, is_generated. intros H.
  assert (sp_function (codegen_spec kb btf f) = f) as Hf by (unfold codegen_spec; by destruct (get_probe f kb)).
  destruct (generate_probe _ _ _ _) as [[g|]|]; cbn in H; [|done..]. destruct (ebpf_load _); [|done].
  destruct (populate_pid_filter _); cbn in H; [|done]. simplify_eq. cbn. by rewrite Hf.
Qed.

(** [attach], alone: what it changes in the registry. *)
Lemma attach_effect p clock now e r res e' r' :
  attach p clock now e r = (res, e', r') ->
  match res with
  | Err _ => rg_attached r' = rg_attached r /\ rg_readers r' = rg_readers r
  | Ok id =>
      already_attached (pb_name p) r = false /\
      exists stats, rg_attached r' = <[id := mkAttachedProbe p now stats (Some (length (rg_readers r)))]> (rg_attached r) /\
                    rg_readers r' = rg_readers r ++ [mkReaderTask false p stats] /\ id = probe_id_of (rg_next_id r)
  end.
Proof.
  unfold attach. destruct (already_attached (pb_name p) r); [by intros [= <- <- <-]|].
  destruct (attach_start p clock e r) as [[started e1] r1] eqn:Es. apply attach_start_effect in Es.
  destruct started as [[stats stop]|msg]; intros [= <- <- <-].
  - destruct Es as (-> & ss & ->). split; [done|]. by exists stats.
  - destruct Es as (ss & ->). done.
Qed.

Definition same_probes (d d' : Daemon) : Prop :=
  rg_attached (dm_registry d') = rg_attached (dm_registry d) /\ rg_readers (dm_registry d') = rg_readers (dm_registry d) /\
  dm_generated d' = dm_generated d.

Lemma deploy_effect f ck d r d' :
  deploy_probe f ck d = Some (r, d') ->
  match r with
  | Err _ => same_probes d d'
  | Ok id =>
      exists p stats,
        already_attached (pb_name p) (dm_registry d) = false /\ id = probe_id_of (rg_next_id (dm_registry d)) /\
        rg_attached (dm_registry d') = <[id := mkAttachedProbe p (ck_now ck) stats (Some (length (rg_readers (dm_registry d))))]> (rg_attached (dm_registry d)) /\
        rg_readers (dm_registry d') = rg_readers (dm_registry d) ++ [mkReaderTask false p stats] /\
        match pre_compiled f with
        | Some b => p = builtin b /\ dm_generated d' = dm_generated d
        | None => pb_name p = f /\ is_generated p /\ dm_generated d' = <[f := length (dm_objects d)]> (dm_generated d)
        end
  end.
Proof.
  unfold deploy_probe, deploy_pre_compiled, deploy_codegen, same_probes. destruct (pre_compiled f) as [b|].
  - destruct (attach (builtin b) _ _ _ _) as [[res e'] reg'] eqn:Ea. apply attach_effect in Ea. intros [= <- <-].
    destruct res as [id|msg]; cbn.
    + destruct Ea as (Ha & stats & ? & ? & ?). by exists (builtin b), stats.
    + by destruct Ea.
  - destruct (codegen_object f) as [[[p gen]|msg]|] eqn:Hg; [|by intros [= <- <-]|done]. cbn.
    destruct (attach p _ _ _ _) as [[res e'] reg'] eqn:Ea. apply attach_effect in Ea.
    destruct res as [id|msg]; intros [= <- <-].
    + destruct Ea as (Ha & stats & ? & ? & ?). destruct (codegen_object_probe f p gen Hg). exists p, stats.
      rewrite own_object_registry. split_and!; [done..|]. unfold own_object. cbn. by destruct (dm_generated d !! f).
    + by destruct Ea.
Qed.

Lemma detach_probe_effect id d r d' :
  detach_probe id d = (r, d') ->
  match r with
  | Ok true =>
      exists a t, rg_attached (dm_registry d) !! id = Some a /\ ap_stop a = Some t /\
        dm_registry d' = stop_reader t (dm_registry d) <| rg_attached ::= delete id |> /\
        dm_generated d' = delete (pb_name (ap_probe a)) (dm_generated d) /\ dm_ebpf d' = dm_ebpf d
  | Ok false => rg_attached (dm_registry d) !! id = None /\ d' = d
  | Err _ => (exists a, rg_attached (dm_registry d) !! id = Some a /\ ap_stop a = None) /\ d' = d
  end.
Proof.
  unfold detach_probe, detach. destruct (rg_attached (dm_registry d) !! id) as [a|] eqn:Ha; [destruct (ap_stop a) as [t|] eqn:Ht|].
  - intros [= <- <-]. exists a, t. rewrite unload_object_registry. unfold unload_object. cbn.
    destruct (dm_generated d !! pb_name (ap_probe a)) eqn:Hg; [done|]. split_and!; [done..| |done]. cbn. by rewrite delete_id.
  - intros [= <- <-]. split; [by exists a|]. by destruct d.
  - intros [= <- <-]. split; [done|]. by destruct d.
Qed.

Definition names_distinct (r : ProbeRegistry) : Prop :=
  forall id1 a1 id2 a2, rg_attached r !! id1 = Some a1 -> rg_attached r !! id2 = Some a2 ->
  pb_name (ap_probe a1) = pb_name (ap_probe a2) -> id1 = id2.

Lemma names_distinct_insert id a r r' :
  rg_attached r' = <[id := a]> (rg_attached r) -> already_attached (pb_name (ap_probe a)) r = false ->
  names_distinct r -> names_distinct r'.
Proof.
  intros E Hno Hd.
  assert (forall id' a', rg_attached r !! id' = Some a' -> pb_name (ap_probe a') <> pb_name (ap_probe a)) as Hne.
  { intros id' a' Ha' Hn. assert (already_attached (pb_name (ap_probe a)) r = true) by (apply already_attached_true; by exists id', a'). congruence. }
  intros id1 a1 id2 a2. rewrite E, !lookup_insert_Some. intros [[-> ->]|[_ H1]] [[-> ->]|[_ H2]] Hn; try done.
  - by apply Hne in H2.
  - by apply Hne in H1.
  - by eapply Hd.
Qed.

Lemma start_probes_names probes ck e r e' r' :
  start_probes probes ck e r = Ok (e', r') -> NoDup (map pb_name probes) ->
  (forall p, p ∈ probes -> already_attached (pb_name p) r = false) -> names_distinct r -> names_distinct r'.
Proof.
  revert e r. induction probes as [|p ps IH]; intros e r; cbn [start_probes]; [by intros [= -> ->]|].
  destruct (spawn_reader _ _ _ _ _ _ _ _) as [[[stop|] e1] r1] eqn:Es; [|done]. cbn. rewrite NoDup_cons.
  intros H [Hp Hps] Hno Hd.
  assert (rg_attached r1 = rg_attached r) as Ea.
  { unfold spawn_reader in Es. destruct (take_map (pb_ring_buffer_map p) e) as [[ring1|] e2]; [|done]. destruct (is_ring_buf ring1); [|done].
    destruct (take_map _ e2) as [[drops|] e3]; [|done]. destruct (is_per_cpu_array drops); [|done]. destruct (ck_monotonic ck); [|done].
    by simplify_eq. }
  eapply IH; [exact H|done| |].
  - intros p' Hp'. apply not_true_is_false. rewrite already_attached_true. cbn. rewrite Ea. intros (id & a & Ha & Hn).
    apply lookup_insert_Some in Ha as [[_ <-]|[_ Ha]].
    + cbn in Hn. apply Hp. rewrite Hn. apply list_elem_of_In, in_map, list_elem_of_In. exact Hp'.
    + assert (already_attached (pb_name p') r = true) by (apply already_attached_true; by exists id, a). rewrite Hno in H0; [done|by right].
  - eapply names_distinct_insert; [cbn; by rewrite Ea|apply Hno; by left|done].
Qed.

Record alone_ok (startup : list nat) (d : Daemon) : Prop := {
  al_world : world_ok startup (d, []);
  al_names : names_distinct (dm_registry d);
  al_generated f : is_Some (dm_generated d !! f) <->
    exists id a t, rg_attached (dm_registry d) !! id = Some a /\ ap_stop a = Some t /\ is_generated (ap_probe a) /\ pb_name (ap_probe a) = f
}.

Lemma alone_unlocked startup d : alone_ok startup d -> dm_locked d = false.
Proof. intros [[_ _ Hl] _ _]. unfold lock_ok in Hl. cbn in Hl. by destruct (dm_locked d). Qed.

(** The world without calls, with one to come, and with one that is over. *)
Lemma world_ok_idle startup d t :
  task_claim t = None -> task_pending t = None -> task_own t = None -> world_ok startup (d, [t]) <-> world_ok startup (d, []).
Proof.
  intros H1 H2 H3. assert (task_object t = None /\ critical t = false) as [H4 H5] by (unfold task_object, critical; by rewrite H3).
  split; intros [Hr Ho Hl]; unfold world_reg in *; cbn in *; rewrite ?H1, ?H2, ?H4, ?H5 in *; by split; unfold world_reg; cbn; rewrite ?H1, ?H2, ?H4, ?H5.
Qed.

Lemma fresh_id startup d : reg_ok startup (mkRegState [] [] (dm_registry d)) ->
  rg_attached (dm_registry d) !! probe_id_of (rg_next_id (dm_registry d)) = None.
Proof.
  intros [Hn Hi _ _]. cbn in *. apply eq_None_not_Some. intros Hsome. destruct (Hi _ (or_introl Hsome)) as (k & Hk & E%probe_id_of_inj); lia.
Qed.

Lemma deploy_alone startup f ck d r d' :
  alone_ok startup d -> rg_next_id (dm_registry d) + 6 < u64_max -> deploy_probe f ck d = Some (r, d') ->
  alone_ok startup d' /\ rg_next_id (dm_registry d) <= rg_next_id (dm_registry d') <= rg_next_id (dm_registry d) + 6.
Proof.
  intros Hok Hmax Hdep. pose proof (deploy_runs f ck d r d' (alone_unlocked _ _ Hok) Hdep) as Hrun.
  pose proof (deploy_effect f ck d r d' Hdep) as Heff. destruct Hok as [Hw Hn Hg].
  destruct (world_run_ok startup (d, [TkDeploy f]) (turns ck 6)) as [Hw' Hnext]; [by apply world_ok_idle|done|]. rewrite Hrun in Hw', Hnext.
  split; [|done]. pose proof (fresh_id _ d (wo_registry _ _ Hw)) as Hfresh. split.
  - by apply world_ok_idle in Hw'.
  - destruct r as [id|msg]; [|destruct Heff as (Ea & _); unfold names_distinct; by rewrite Ea].
    destruct Heff as (p & st & Hno & -> & Ea & _). by eapply names_distinct_insert.
  - intros g. destruct r as [id|msg]; [|destruct Heff as (Ea & _ & Eg); by rewrite Ea, Eg].
    destruct Heff as (p & st & Hno & -> & Ea & _ & Hcase). rewrite Ea.
    assert ((exists id a t, <[probe_id_of (rg_next_id (dm_registry d)) := mkAttachedProbe p (ck_now ck) st (Some (length (rg_readers (dm_registry d))))]>
                              (rg_attached (dm_registry d)) !! id = Some a /\ ap_stop a = Some t /\ is_generated (ap_probe a) /\ pb_name (ap_probe a) = g) <->
            is_generated p /\ pb_name p = g \/ is_Some (dm_generated d !! g)) as ->.
    { rewrite Hg. split.
      - intros (id & a & t & [[<- <-]|[_ Ha]]%lookup_insert_Some & Ht & H1 & H2); [by left|right; by exists id, a, t].
      - intros [[H1 H2]|(id & a & t & Ha & Ht & H1 & H2)]; [do 3 eexists; split; [apply lookup_insert_eq|done]|].
        exists id, a, t. split; [|done]. rewrite lookup_insert_ne; [done|]. intros <-. congruence. }
    destruct (pre_compiled f) as [b|].
    + destruct Hcase as (-> & ->). pose proof (builtin_not_generated b). naive_solver.
    + destruct Hcase as (<- & Hgen & ->). destruct (decide (g = pb_name p)) as [->|Hne].
      * rewrite lookup_insert_eq. split; [by left|by eexists].
      * rewrite lookup_insert_ne by done. naive_solver.
Qed.

Lemma detach_alone startup id d r d' :
  alone_ok startup d -> rg_next_id (dm_registry d) + 2 < u64_max -> detach_probe id d = (r, d') ->
  alone_ok startup d' /\ rg_next_id (dm_registry d') = rg_next_id (dm_registry d).
Proof.
  intros Hok Hmax Hdet. pose proof (detach_runs id (mkClocks (Ok 0) 0) d r d' Hdet) as Hrun.
  pose proof (detach_probe_effect id d r d' Hdet) as Heff.
  destruct r as [[]|msg]; [|by destruct Heff as [_ ->]..]. destruct Heff as (a & t & Ha & Ht & Hreg & Hgen & _).
  destruct Hok as [Hw Hn Hg].
  destruct (world_run_ok startup (d, [TkDetach id]) (turns (mkClocks (Ok 0) 0) 2)) as [Hw' _]; [by apply world_ok_idle|done|]. rewrite Hrun in Hw'.
  split; [|by rewrite Hreg]. split.
  - by apply world_ok_idle in Hw'.
  - intros id1 a1 id2 a2. rewrite Hreg. cbn. intros [_ H1]%lookup_delete_Some [_ H2]%lookup_delete_Some. by apply Hn.
  - intros g. rewrite Hgen, Hreg. cbn. split.
    + intros [o [Hne Ho]%lookup_delete_Some]. destruct (proj1 (Hg g)) as (id' & a' & t' & Ha' & Ht' & H1 & H2); [by eexists|].
      exists id', a', t'. split; [|done]. apply lookup_delete_Some. split; [|done]. intros <-. congruence.
    + intros (id' & a' & t' & [Hne Ha']%lookup_delete_Some & Ht' & H1 & H2). rewrite lookup_delete_ne.
      * apply Hg. by exists id', a', t'.
      * intros E. apply Hne. eapply Hn; [exact Ha|exact Ha'|congruence].
Qed.

Inductive Op := OpDeploy (function : string) (ck : Clocks) | OpDetach (probe_id : string).
Definition run_op (op : Op) (d : Daemon) : option Daemon :=
  match op with
  | OpDeploy f ck => snd <$> deploy_probe f ck d
  | OpDetach id => Some (detach_probe id d).2
  end.
Fixpoint run_ops (ops : list Op) (d : Daemon) : option Daemon :=
  match ops with
  | [] => Some d
  | op :: rest => d ← run_op op d; run_ops rest d
  end.

Lemma run_ops_alone startup ops d d' :
  alone_ok startup d -> rg_next_id (dm_registry d) + 6 * zlen ops < u64_max -> run_ops ops d = Some d' ->
  alone_ok startup d' /\ rg_next_id (dm_registry d') <= rg_next_id (dm_registry d) + 6 * zlen ops.
Proof.
  revert d. induction ops as [|op ops IH]; intros d Hok Hmax; cbn [run_ops]; [intros [= ->]; change (zlen []) with 0; split; [done|lia]|].
  rewrite zlen_cons in *. pose proof (zlen_nonneg ops).
  destruct op as [f ck|id]; cbn [run_op].
  - destruct (deploy_probe f ck d) as [[r d1]|] eqn:Hd; [cbn|done]. intros Hrun.
    destruct (deploy_alone startup f ck d r d1) as [Hok1 Hn1]; [done|lia|done|].
    destruct (IH d1) as [Hok' Hn']; [done|lia|done|]. split; [done|lia].
  - cbn. destruct (detach_probe id d) as [r d1] eqn:Hd. cbn. intros Hrun.
    destruct (detach_alone startup id d r d1) as [Hok1 Hn1]; [done|lia|done|].
    destruct (IH d1) as [Hok' Hn']; [done|lia|done|]. split; [done|lia].
Qed.

Lemma alone_loaded startup d : alone_ok startup d -> forall o, loaded o d <-> exists f, dm_generated d !! f = Some o.
Proof. intros [[_ [Hl _ _] _] _ _] o. rewrite Hl. cbn. rewrite elem_of_nil. naive_solver. Qed.

Lemma alone_running startup d :
  alone_ok startup d -> startup ++ attached_stops (dm_registry d) ≡ₚ running 0 (rg_readers (dm_registry d)).
Proof. intros [[[_ _ _ Hr] _ _] _ _]. cbn in Hr. by rewrite app_nil_r in Hr. Qed.

(** A detach that does something unloads the object of its probe, if it has one, and no other. *)
Lemma detach_unloads startup id d d' a t :
  alone_ok startup d -> alone_ok startup d' -> detach_probe id d = (Ok true, d') ->
  rg_attached (dm_registry d) !! id = Some a -> ap_stop a = Some t ->
  t :: running 0 (rg_readers (dm_registry d')) ≡ₚ running 0 (rg_readers (dm_registry d)) /\
  forall o, loaded o d' <-> loaded o d /\ dm_generated d !! pb_name (ap_probe a) <> Some o.
Proof.
  intros Hok Hok' (a' & t' & Ha' & Ht' & Hreg & Hgen & _)%detach_probe_effect Ha Ht.
  assert (a' = a) as -> by congruence. assert (t' = t) as -> by congruence. split.
  - rewrite <- (alone_running _ _ Hok), <- (alone_running _ _ Hok'), Permutation_middle. apply Permutation_app_head.
    rewrite Hreg. by apply (attached_stops_delete id a t).
  - intros o. rewrite (alone_loaded _ _ Hok'), (alone_loaded _ _ Hok), Hgen. split.
    + intros (f & [Hne Hf]%lookup_delete_Some). split; [by exists f|]. intros Hn. apply Hne.
      by apply (ob_inj _ _ (wo_objects _ _ (al_world _ _ Hok)) _ _ o).
    + intros [(f & Hf) Hn]. exists f. apply lookup_delete_Some. split; [|done]. intros <-. done.
Qed.

Lemma start_alone probes ck e e' r0 :
  start_probes probes ck e ProbeRegistry_new = Ok (e', r0) -> NoDup (map pb_name probes) -> 1 + zlen probes < u64_max ->
  alone_ok (seq 0 (length probes)) (DaemonHandle_new e' r0) /\ rg_next_id r0 = 1 + zlen probes.
Proof.
  intros Hs Hnd Hmax. pose proof (start_probes_ok _ _ _ _ _ _ _ Hs new_started ltac:(lia)) as Hst. cbn [plus] in Hst.
  split; [|exact (st_next _ _ Hst)]. split.
  - apply start_world_ok; [done|constructor].
  - eapply start_probes_names; [exact Hs|done| |].
    + intros p _. apply not_true_is_false. rewrite already_attached_true. by intros (id & a & ?%new_empty & _).
    + by intros id1 a1 id2 a2 ?%new_empty.
  - intros f. split; [intros [o Ho]; cbn in Ho; by rewrite lookup_empty in Ho|].
    intros (id & a & t & Ha & Ht & _). apply (st_startup _ _ Hst) in Ha. congruence.
Qed.

(** C11: deploying and detaching undo each other. Start the daemon with probes of distinct names and
    make any deploy and detach calls, one after the other, each of which returns. The attached
    probes have distinct names; a function owns a generated object exactly when its generated probe
    is attached, and no other object is loaded; the reader threads running are those of the startup
    probes and the attached ones. A next deploy that succeeds adds one probe, under an identifier
    not in use, with a running reader; one that fails leaves the attached probes, the readers and
    the loaded generated objects as they were, while of the shared object, whose programs it may
    have loaded and whose ring map it may have taken, nothing is said. A next detach is refused for
    a startup probe and does nothing for an unknown identifier; otherwise it removes the probe,
    stops its reader and unloads its object, and touches no other. *)
Theorem calls_one_at_a_time probes ck e e' r0 ops d :
  start_probes probes ck e ProbeRegistry_new = Ok (e', r0) -> NoDup (map pb_name probes) ->
  7 + zlen probes + 6 * zlen ops < u64_max -> run_ops ops (DaemonHandle_new e' r0) = Some d ->
  let r := dm_registry d in
  names_distinct r /\
  (forall f, is_Some (dm_generated d !! f) <->
     exists id a t, rg_attached r !! id = Some a /\ ap_stop a = Some t /\ is_generated (ap_probe a) /\ pb_name (ap_probe a) = f) /\
  (forall o, loaded o d <-> exists f, dm_generated d !! f = Some o) /\
  seq 0 (length probes) ++ attached_stops r ≡ₚ running 0 (rg_readers r) /\
  (forall f ck' res d', deploy_probe f ck' d = Some (res, d') ->
     match res with
     | Ok id =>
         rg_attached r !! id = None /\
         exists p stats, already_attached (pb_name p) r = false /\
           rg_attached (dm_registry d') = <[id := mkAttachedProbe p (ck_now ck') stats (Some (length (rg_readers r)))]> (rg_attached r) /\
           rg_readers (dm_registry d') = rg_readers r ++ [mkReaderTask false p stats]
     | Err _ => same_probes d d' /\ forall o, loaded o d' <-> loaded o d
     end) /\
  (forall id res d', detach_probe id d = (res, d') ->
     match res with
     | Ok true => exists a t, rg_attached r !! id = Some a /\ ap_stop a = Some t /\
         rg_attached (dm_registry d') = delete id (rg_attached r) /\
         t :: running 0 (rg_readers (dm_registry d')) ≡ₚ running 0 (rg_readers r) /\
         forall o, loaded o d' <-> loaded o d /\ dm_generated d !! pb_name (ap_probe a) <> Some o
     | Ok false => rg_attached r !! id = None /\ d' = d
     | Err _ => (exists a, rg_attached r !! id = Some a /\ ap_stop a = None) /\ d' = d
     end).
Proof.
  intros Hs Hnd Hmax Hrun r. pose proof (zlen_nonneg ops). pose proof (zlen_nonneg probes).
  destruct (start_alone _ _ _ _ _ Hs Hnd ltac:(lia)) as [Hok0 Hn0].
  destruct (run_ops_alone _ ops _ d Hok0 ltac:(cbn; lia) Hrun) as [Hok Hn]. cbn in Hn.
  split_and!; [exact (al_names _ _ Hok)|exact (al_generated _ _ Hok)|exact (alone_loaded _ _ Hok)|exact (alone_running _ _ Hok)|..].
  - intros f ck' res d' Hd. destruct (deploy_alone _ f ck' d res d' Hok ltac:(lia) Hd) as [Hok' _].
    pose proof (deploy_effect _ _ _ _ _ Hd) as He. destruct res as [id|msg].
    + destruct He as (p & st & Hno & -> & Ea & Er & _). split; [|by exists p, st].
      exact (fresh_id _ d (wo_registry _ _ (al_world _ _ Hok))).
    + split; [done|]. intros o. rewrite (alone_loaded _ _ Hok'), (alone_loaded _ _ Hok). by destruct He as (_ & _ & ->).
  - intros id res d' Hd. destruct (detach_alone _ id d res d' Hok ltac:(lia) Hd) as [Hok' _].
    pose proof (detach_probe_effect _ _ _ _ Hd) as He. destruct res as [[]|msg]; [|done..].
    destruct He as (a & t & Ha & Ht & Hreg & _). exists a, t. rewrite Hreg.
    destruct (detach_unloads _ id d d' a t Hok Hok' Hd Ha Ht) as [Hrd Hl]. by rewrite Hreg in Hrd.
Qed.

(** A map taken out of an object is gone from it, whatever is done with the object after. *)
Section gone.
Variable gone : string -> Ebpf -> Prop.
Hypothesis take_gone : forall n e m e', take_map n e = (Some m, e') -> gone n e'.
Hypothesis gone_none : forall n e, gone n e -> (take_map n e).1 = None.
Hypothesis gone_load : forall n e p a, gone n e -> gone n (prog_load p a e).2.
Hypothesis gone_attach : forall n e p a, gone n e -> gone n (prog_attach p a e).2.
Hypothesis gone_take : forall n e n', gone n e -> gone n (take_map n' e).2.

Lemma attach_programs_gone n prog ats e : gone n e -> gone n (attach_programs program_kind prog_load prog_attach prog ats e).2.
Proof.
  revert e. induction ats as [|a ats IH]; intros e Hg; [done|]. cbn.
  assert (gone n (attach_program program_kind prog_load prog_attach prog a e).2) as Ha.
  { unfold attach_program. set (program := match a with ATracepoint program _ _ => program | _ => prog end).
    destruct (program_kind program e) as [k|]; [|done]. destruct (bool_decide _); [|done].
    pose proof (gone_load n e program a Hg) as Hl. destruct (prog_load program a e) as [[] e1]; [|done]. cbn in Hl.
    pose proof (gone_attach n e1 program a Hl) as Hat. by destruct (prog_attach program a e1) as [[] e2]. }
  destruct (attach_program _ _ _ prog a e) as [[] e1]; [by apply IH|done].
Qed.

(** So a probe of the shared object that was deployed once and detached never deploys again, and its
    programs stay loaded. *)
Theorem pre_compiled_not_redeployable b ck d id d1 d2 :
  deploy_pre_compiled b ck d = (Ok id, d1) -> detach_probe id d1 = (Ok true, d2) ->
  dm_ebpf d2 = dm_ebpf d1 /\ forall ck', exists msg, (deploy_pre_compiled b ck' d2).1 = Err msg.
Proof.
  unfold deploy_pre_compiled, attach. destruct (already_attached _ _); [done|]. unfold attach_start.
  destruct (attach_programs _ _ _ _ _ _) as [[] e1]; [|done]. unfold spawn_reader.
  destruct (take_map (pb_ring_buffer_map (builtin b)) e1) as [[ring1|] e2] eqn:Et; [|done]. apply take_gone in Et.
  destruct (is_ring_buf ring1); [|done]. pose proof (gone_take _ _ (pb_ring_buffer_map (builtin b) +:+ "_DROPS") Et) as Hg.
  destruct (take_map _ e2) as [[drops|] e3]; [|done]. cbn in Hg. destruct (is_per_cpu_array drops); [|done].
  destruct (ck_monotonic ck); [|done]. cbn. intros [= <- <-] (entry & stop & _ & _ & _ & _ & He)%detach_probe_effect. split; [done|].
  intros ck'. rewrite He. cbn. destruct (already_attached _ _); [by eexists|].
  pose proof (attach_programs_gone _ (pb_program_name (builtin b)) (pb_attachments (builtin b)) e3 Hg) as Hg'.
  destruct (attach_programs _ _ _ _ _ e3) as [[] e4]; [|by eexists]. cbn in Hg'. apply gone_none in Hg'.
  destruct (take_map _ e4) as [[] e5]; [done|by eexists].
Qed.
End gone.
End daemon.

(* ------------------------------------------------------------------ *)
(** ** A toy kernel

    An object is the list of the maps it still holds; every program loads and attaches. *)

Definition w_kind (program : string) (e : list string) : option HookKind :=
  Some (if starts_with program "jalki_codegen_" then Fentry else Fexit).
Definition w_works (program : string) (a : Attachment) (e : list string) : bool * list string := (true, e).
Definition w_take (name : string) (e : list string) : option unit * list string :=
  if bool_decide (name ∈ e) then (Some tt, List.filter (fun m => negb (bool_decide (m = name))) e) else (None, e).
Definition w_load (elf : list byte) : option (list string) := Some ["TCP_SENDMSG_EVENTS"; "TCP_SENDMSG_EVENTS_DROPS"].
Definition w_btf_sendmsg : BtfData :=
  mkBtfData (btf_types w_btf) (btf_strings w_btf) {["tcp_sendmsg" := 11]} (btf_struct_index w_btf).
Definition w_ck : Clocks := mkClocks (Ok 7) 9.

Notation w_step := (world_step w_kind w_works w_works w_take (fun _ => true) (fun _ => true) w_load (fun _ _ => Some true)
  (fun _ _ _ e => Some e) (fun _ => None) (fun _ => Ok []) 1 [] w_btf_sendmsg).
Notation w_run := (run_ops w_kind w_works w_works w_take (fun _ => true) (fun _ => true) w_load (fun _ _ => Some true)
  (fun _ _ _ e => Some e) (fun _ => None) (fun _ => Ok []) 1 [] w_btf_sendmsg).
Notation w_start := (start_probes w_take (fun _ => true) (fun _ => true)).

Definition w_maps : list string :=
  ["TCP_CONNECT_EVENTS"; "TCP_CONNECT_EVENTS_DROPS"; "TCP_CLOSE_EVENTS"; "TCP_CLOSE_EVENTS_DROPS"].
(** A daemon started with the probe of [tcp_connect]. *)
Definition w_started : list string * ProbeRegistry := Eval vm_compute in
  match w_start [builtin PTcpConnect] w_ck w_maps ProbeRegistry_new with Ok s => s | Err _ => ([], ProbeRegistry_new) end.
Definition w_daemon : Daemon := DaemonHandle_new w_started.1 w_started.2.
Definition w_turns (calls : list nat) : list (nat * Clocks) := map (fun i => (i, w_ck)) calls.

(** Names and identifiers of the attached probes. *)
Definition w_attached (d : Daemon (Ebpf := list string)) : list (string * string) :=
  map (fun ia : string * AttachedProbe => (ia.1, pb_name (ap_probe ia.2))) (map_to_list (rg_attached (dm_registry d))).

(** Two overlapping deploys of one function, the first to be half done. *)
Lemma concurrent_calls_safe_witness :
  let w := foldl w_step (w_daemon, [TkDeploy "tcp_sendmsg"; TkDetach "probe_002"; TkDeploy "tcp_sendmsg"])
             (w_turns [0; 0; 0; 0; 0; 2; 1]%nat) in
  rg_attached (dm_registry w.1) !! "probe_001" = rg_attached w_started.2 !! "probe_001" /\
  seq 0 1 ++ attached_stops (dm_registry w.1) ++ map cl_stop (omap task_claim w.2) ≡ₚ running 0 (rg_readers (dm_registry w.1)).
Proof.
  intros w. destruct (rg_attached w_started.2 !! "probe_001") as [a|] eqn:Ha; [|by vm_compute in Ha].
  destruct (concurrent_calls_safe w_kind w_works w_works w_take (fun _ => true) (fun _ => true) w_load (fun _ _ => Some true)
    (fun _ _ _ e => Some e) (fun _ => None) (fun _ => Ok []) 1 [] w_btf_sendmsg [builtin PTcpConnect] w_ck w_maps w_started.1 w_started.2
    [TkDeploy "tcp_sendmsg"; TkDetach "probe_002"; TkDeploy "tcp_sendmsg"] (w_turns [0; 0; 0; 0; 0; 2; 1]%nat)) as (H1 & _ & H2 & _).
  - by vm_compute.
  - repeat constructor.
  - by vm_compute.
  - split; [by apply H1|exact H2].
Defined.

Lemma calls_one_at_a_time_witness :
  exists d, w_run [OpDeploy "tcp_sendmsg" w_ck; OpDeploy "tcp_close" w_ck; OpDetach "probe_002"; OpDeploy "tcp_sendmsg" w_ck] w_daemon = Some d /\
            names_distinct (dm_registry d) /\ seq 0 1 ++ attached_stops (dm_registry d) ≡ₚ running 0 (rg_readers (dm_registry d)).
Proof.
  destruct (w_run [OpDeploy "tcp_sendmsg" w_ck; OpDeploy "tcp_close" w_ck; OpDetach "probe_002"; OpDeploy "tcp_sendmsg" w_ck] w_daemon)
    as [d|] eqn:Hd; [|by vm_compute in Hd].
  exists d. split; [done|].
  destruct (calls_one_at_a_time w_kind w_works w_works w_take (fun _ => true) (fun _ => true) w_load (fun _ _ => Some true)
    (fun _ _ _ e => Some e) (fun _ => None) (fun _ => Ok []) 1 [] w_btf_sendmsg [builtin PTcpConnect] w_ck w_maps w_started.1 w_started.2
    [OpDeploy "tcp_sendmsg" w_ck; OpDeploy "tcp_close" w_ck; OpDetach "probe_002"; OpDeploy "tcp_sendmsg" w_ck] d) as (H1 & _ & _ & H2 & _).
  - by vm_compute.
  - cbn. apply NoDup_singleton.
  - by vm_compute.
  - exact Hd.
  - by split.
Defined.

(** Overlapping calls can leave a probe attached whose programs are unloaded. Two deploys of a function
    that both pass the check before either registers: the object of the second replaces that of the
    first, though both stay attached. And a detach that unloads after a new deploy of the function: it
    unloads the new one's object. *)
Theorem overlapping_calls_blind :
  (let w := foldl w_step (w_daemon, [TkDeploy "tcp_sendmsg"; TkDeploy "tcp_sendmsg"])
              (w_turns [0; 1; 0; 1; 0; 0; 0; 0; 1; 1; 1; 1]%nat) in
   w_attached w.1 ≡ₚ [("probe_001", "tcp_connect"); ("probe_002", "tcp_sendmsg"); ("probe_003", "tcp_sendmsg")] /\
   w.2 = [TkDone; TkDone] /\ dm_objects w.1 = [None; Some []]) /\
  (let w := foldl w_step (w_daemon, [TkDeploy "tcp_sendmsg"; TkDetach "probe_002"; TkDeploy "tcp_sendmsg"])
              (w_turns [0; 0; 0; 0; 0; 0; 1; 2; 2; 2; 2; 2; 2; 1]%nat) in
   w_attached w.1 ≡ₚ [("probe_001", "tcp_connect"); ("probe_003", "tcp_sendmsg")] /\
   w.2 = [TkDone; TkDone; TkDone] /\ dm_objects w.1 = [None; None]).
Proof.
  split; intros w; (split; [|by split]).
  all: apply (bool_decide_unpack _); by vm_compute.
Qed.
