(* ===== verification/Ipc.v ===== *)
(** The control socket ([jalki/src/ipc.rs]): frames, requests and their handlers, the streams a
    connection runs, and the client's side of a call. The MessagePack codec is a parameter; what the
    handlers ask of the daemon is the interface [DaemonOps]. *)
From Stdlib Require Import Strings.Byte.
From stdpp Require Import base gmap list strings.
From S2P Require Import Prelude Text Float Protocol Evidence Event Normalize Store Knowledge Registry Daemon.

(* ------------------------------------------------------------------ *)
(** ** Constants *)

Definition FRAME_HEADER_LEN : nat := 6.
Definition FRAME_MAX_LEN : Z := 1024 * 1024.

Definition MSG_REQUEST : Z := 1.
Definition MSG_RESPONSE : Z := 2.
Definition MSG_STREAM_START : Z := 3.
Definition MSG_STREAM_EVENT : Z := 4.
Definition MSG_STREAM_END : Z := 5.
Definition MSG_ERROR : Z := 6.
Definition MSG_PING : Z := 7.
Definition MSG_PONG : Z := 8.

Definition FLAG_INTERPRETED : Z := 2.

Definition METHOD_FIND : Z := 1.
Definition METHOD_DEPLOY : Z := 2.
Definition METHOD_SUBSCRIBE : Z := 3.
Definition METHOD_UNSUBSCRIBE : Z := 4.
Definition METHOD_STATUS : Z := 5.
Definition METHOD_ASK : Z := 6.
Definition METHOD_GET_EVENTS : Z := 7.
Definition METHOD_DETACH : Z := 8.

(* ------------------------------------------------------------------ *)
(** ** Values

    [rmpv::Value]. A string holds bytes, which need not be UTF-8; an integer is a [u64] or an [i64]. *)

Inductive Value :=
| VNil
| VBoolean (b : bool)
| VInteger (z : Z)
| VF32 (f : f64)
| VF64 (f : f64)
| VString (bs : list byte)
| VBinary (bs : list byte)
| VArray (l : list Value)
| VMap (l : list (Value * Value))
| VExt (tag : Z) (bs : list byte).

Definition as_str (v : Value) : option string :=
  match v with VString bs => if utf8_valid bs then Some (string_of bs) else None | _ => None end.
Definition as_u64 (v : Value) : option Z :=
  match v with VInteger z => if 0 <=? z then Some z else None | _ => None end.
Definition as_bool (v : Value) : option bool := match v with VBoolean b => Some b | _ => None end.
Definition as_f64 (v : Value) : option f64 :=
  match v with VInteger z => Some (f_of_Z z) | VF32 f | VF64 f => Some f | _ => None end.

Definition msgpack_str (s : string) : Value := VString (bytes_of s).

(** The first pair of a map under a key. *)
Definition map_get (v : Value) (key : string) : option Value :=
  match v with
  | VMap pairs => snd <$> find_first (fun kv : Value * Value => bool_decide (as_str kv.1 = Some key)) pairs
  | _ => None
  end.
Definition get_str (v : Value) (key : string) : option string := map_get v key ≫= as_str.
Definition get_u64 (v : Value) (key : string) : option Z := map_get v key ≫= as_u64.
Definition get_bool (v : Value) (key : string) : option bool := map_get v key ≫= as_bool.
Definition get_f64 (v : Value) (key : string) : option f64 :=
  v ← map_get v key; match as_f64 v with Some f => Some f | None => f_of_Z <$> as_u64 v end.

Definition parse_event_filter (params : Value) : EventFilter :=
  let f := default VNil (map_get params "filter") in
  {| ef_last_seconds := match get_u64 f "last_seconds" with Some n => Some n | None => Some 60 end;
     ef_src_ip := get_str f "src_ip";
     ef_dst_ip := get_str f "dst_ip";
     ef_src_port := wrap 16 <$> get_u64 f "src_port";
     ef_dst_port := wrap 16 <$> get_u64 f "dst_port";
     ef_pid := wrap 32 <$> get_u64 f "pid";
     ef_command := get_str f "command";
     ef_limit := Some 100 |}.

(* ------------------------------------------------------------------ *)
(** ** Frames *)

Definition encode_frame (msg_type flags : Z) (payload : list byte) : list byte :=
  be_put 4 (wrap 32 (zlen payload + 2)) ++ [byte_of_Z msg_type; byte_of_Z flags] ++ payload.

Inductive FrameError := UnexpectedEof | InvalidFrameLen (n : Z).

(** [read_frame], from the bytes of a stream that ends: the frame and the bytes after it. *)
Definition read_frame (stream : list byte) : result FrameError (Z * Z * list byte * list byte) :=
  if (length stream <? FRAME_HEADER_LEN)%nat then Err UnexpectedEof else
  let frame_len := be_get (slice 0 4 stream) in
  let msg_type := le_get (slice 4 1 stream) in
  let flags := le_get (slice 5 1 stream) in
  let stream := drop FRAME_HEADER_LEN stream in
  if negb ((2 <=? frame_len) && (frame_len <=? FRAME_MAX_LEN)) then Err (InvalidFrameLen frame_len) else
  let payload_len := Z.to_nat (frame_len - 2) in
  if (length stream <? payload_len)%nat then Err UnexpectedEof
  else Ok (msg_type, flags, take payload_len stream, drop payload_len stream).

(* ------------------------------------------------------------------ *)
(** ** What events say *)

Definition severity_code (s : Severity) : Z :=
  match s with SevInfo => 0 | SevWarning => 1 | SevError => 2 | SevCritical => 3 | SevDebug => 4 end.
Definition outcome_code (o : option Outcome) : Z :=
  match o with
  | Some OutSuccess => 0 | Some OutFailure => 1 | Some OutTimeout => 3 | Some OutInProgress => 4
  | Some OutUnknown | None => 2
  end.

(** [timestamp_nanos_opt().unwrap_or(0) as u64] *)
Definition ts_ns (t : Z) : Z := if (- 2 ^ 63 <=? t) && (t <? 2 ^ 63) then wrap 64 t else 0.

Definition extract_event_fields (occ : Occurrence) : EventFields :=
  mkEventFields
    (e ← occ_error occ;
     if bool_decide (err_code e = "ECONNREFUSED") then Some (-111)
     else if bool_decide (err_code e = "ETIMEDOUT") then Some (-110)
     else if bool_decide (err_code e = "EHOSTUNREACH") then Some (-113)
     else if bool_decide (err_code e = "ENETUNREACH") then Some (-101)
     else None)
    (s ← occ_labels occ !! "tcp_state";
     if bool_decide (s = "ESTABLISHED") then Some 1
     else if bool_decide (s = "SYN_SENT") then Some 2
     else if bool_decide (s = "CLOSE_WAIT") then Some 7
     else None).

(** The kernel function the knowledge base is asked about. *)
Definition source_function (occ : Occurrence) : string := default (occ_source occ) (strip_prefix "jalki/" (occ_source occ)).
Definition interpretations (kb : KnowledgeBase) (occ : Occurrence) : list Interpretation :=
  explain (source_function occ) (extract_event_fields occ) kb.

Definition opt_value {A} (f : A -> Value) (x : option A) : Value := match x with Some x => f x | None => VNil end.
Definition interp_value (i : Interpretation) : Value := VArray [msgpack_str (in_conclusion i); msgpack_str (in_action i)].
Definition labels_value (labels : gmap string string) : Value :=
  if bool_decide (labels = ∅) then VNil
  else VMap (map (fun kv : string * string => (msgpack_str kv.1, msgpack_str kv.2)) (map_to_list labels)).
Definition endpoint (ip : string) (port : Z) : string := ip +:+ ":" +:+ dec port.

(** The twelve positions of a streamed event, and of an event in a reply; a reply says 0 for any
    protocol. *)
Definition event_value (occ : Occurrence) (probe_idx : Z) (proto : NetworkEventData -> Z) (interp : option Interpretation) : Value :=
  VArray [msgpack_str (occ_id occ); VInteger probe_idx; VInteger (ts_ns (occ_timestamp occ));
          VInteger (severity_code (occ_severity occ)); VInteger (outcome_code (occ_outcome occ));
          opt_value (fun n => msgpack_str (endpoint (net_src_ip n) (net_src_port n))) (occ_network_data occ);
          opt_value (fun n => msgpack_str (endpoint (net_dst_ip n) (net_dst_port n))) (occ_network_data occ);
          opt_value (fun n => VInteger (proto n)) (occ_network_data occ);
          opt_value (fun p => VInteger (proc_pid p)) (occ_process_data occ);
          opt_value (fun p => msgpack_str (proc_command p)) (occ_process_data occ);
          labels_value (occ_labels occ);
          opt_value interp_value interp].

Definition encode_compact_event (kb : KnowledgeBase) (occ : Occurrence) : Value :=
  event_value occ 0 (fun _ => 0) (head (interpretations kb occ)).

Definition encode_ask_result (interpretation : string) (severity : Z) (action : string) (events : list Value)
    (probes_used : list string) (kb_only : bool) : Value :=
  VMap [(msgpack_str "interpretation", msgpack_str interpretation); (msgpack_str "severity", VInteger severity);
        (msgpack_str "action", msgpack_str action); (msgpack_str "events", VArray events);
        (msgpack_str "probes_used", VArray (map msgpack_str probes_used)); (msgpack_str "kb_only", VBoolean kb_only)].

Definition NL2 : string := String NL (String NL "").
Definition encode_ask_result_kb_only (selected : list ProbeKnowledge) : Value :=
  let parts := map (fun p => "**" +:+ pk_function p +:+ "** (" +:+ pk_attachment p +:+ "): " +:+ pk_use_when p) selected in
  encode_ask_result (join NL2 parts) 0 "Start the daemon for live events: sudo jalki --sink stdout" []
    (map pk_function selected) true.

(* ------------------------------------------------------------------ *)
(** ** What the handlers need *)

(** [DaemonHandle], as the handlers see it. *)
Class DaemonOps (D : Type) := {
  op_deploy : string -> Clocks -> D -> option (result string string * D);
  op_detach : string -> D -> result string bool * D;
  op_status : D -> list ProbeStatus;
  op_store : D -> EventStore
}.

Section server.
Context {D : Type} `{DaemonOps D}.
(** rmpv's [write_value] and [read_value], which reads one value and leaves what follows. *)
Variable write_value : Value -> result string (list byte).
Variable read_value : list byte -> result string Value.
(** [str::to_lowercase], [DateTime::to_rfc3339] and subtracting seconds from a [DateTime]. *)
Variable to_lowercase : string -> string.
Variable rfc3339 : Z -> string.
Variable seconds_before : Z -> Z -> Z.
Variable kb : KnowledgeBase.

(** [encode_msgpack(..).unwrap_or_default()] *)
Definition encode_error_frame (code message : string) : list byte :=
  encode_frame MSG_ERROR 0
    (match write_value (VArray [msgpack_str code; msgpack_str message]) with Ok bs => bs | Err _ => [] end).

Definition decode_msgpack (data : list byte) : result string Value :=
  match data with [] => Ok (VArray []) | _ => read_value data end.

Definition response_value (request_id : Z) (r : result string Value) : Value :=
  match r with
  | Ok v => VArray [VInteger request_id; VBoolean true; v]
  | Err msg => VArray [VInteger request_id; VBoolean false; msgpack_str msg]
  end.

Definition encode_response (request_id : Z) (r : result string Value) : list byte :=
  match write_value (response_value request_id r) with
  | Ok bs => encode_frame MSG_RESPONSE 0 bs
  | Err e => encode_error_frame "encode_failed"
               ("daemon failed to encode response for request " +:+ dec request_id +:+ ": msgpack encode")
  end.

(** A frame of the given type around a value, or the error frame that stands for it. *)
Definition value_frame (msg_type flags : Z) (v : Value) (failure : string) : list byte :=
  match write_value v with
  | Ok bs => encode_frame msg_type flags bs
  | Err _ => encode_error_frame "encode_failed" failure
  end.

Definition encode_stream_event (occ : Occurrence) (probe_idx : Z) (interpreted : bool) : list byte :=
  value_frame MSG_STREAM_EVENT (if interpreted then FLAG_INTERPRETED else 0)
    (event_value occ probe_idx (fun n => if bool_decide (net_protocol n = "tcp") then 0 else 1)
       (if interpreted then head (interpretations kb occ) else None))
    "failed to encode stream event payload".

(* ------------------------------------------------------------------ *)
(** ** A connection *)

Record Subscription := mkSubscription { su_probe_id : string; su_task : nat }.

(** The task of a subscription: what it was given, and how far it is. *)
Record Stream := mkStream {
  sm_probe_id : string;
  sm_filter : EventFilter;
  sm_interpreted : bool;
  sm_started : bool;
  sm_last_seen_id : option string;
  sm_aborted : bool
}.
#[export] Instance eta_Stream : Eta Stream := fun s =>
  mkStream (sm_probe_id s) (sm_filter s) (sm_interpreted s) (sm_started s) (sm_last_seen_id s) (sm_aborted s).

(** [ConnectionHandler], with its tasks, named by their place, and the frames sent on its channel. *)
Record Conn := mkConn {
  cn_daemon : D;
  cn_subscriptions : gmap string Subscription;
  cn_streams : list Stream;
  cn_sent : list (list byte)
}.
#[export] Instance eta_Conn : Eta Conn := fun c => mkConn (cn_daemon c) (cn_subscriptions c) (cn_streams c) (cn_sent c).

Definition Conn_new (d : D) : Conn := mkConn d ∅ [] [].
Definition send (frame : list byte) (c : Conn) : Conn := c <| cn_sent ::= fun fs => fs ++ [frame] |>.

(** What a handler reads of the world: the clocks, the time, a new ULID, and what the daemon is after
    so many seconds. *)
Record Env := mkEnv {
  en_clocks : Clocks;
  en_now : Z;
  en_ulid : string;
  en_sleep : Z -> D -> D
}.

(** [AbortHandle::abort] *)
Definition abort_stream (task : nat) (c : Conn) : Conn :=
  c <| cn_streams ::= alter (fun s => s <| sm_aborted := true |>) task |>.

(** [abort_subscriptions_for]: how many were stopped. *)
Definition abort_subscriptions_for (probe_id : string) (c : Conn) : nat * Conn :=
  let stopped := map_to_list (filter (fun ks : string * Subscription => su_probe_id ks.2 = probe_id) (cn_subscriptions c)) in
  (length stopped,
   (foldr (fun ks => abort_stream (su_task ks.2)) c stopped)
     <| cn_subscriptions ::= filter (fun ks : string * Subscription => su_probe_id ks.2 <> probe_id) |>).

(* ------------------------------------------------------------------ *)
(** ** Handlers *)

Definition find_result (probe : ProbeKnowledge) : Value :=
  let field f := VMap [(msgpack_str "name", msgpack_str (fk_name f)); (msgpack_str "meaning", msgpack_str (fk_meaning f));
                       (msgpack_str "important", VBoolean true)] in
  VMap [(msgpack_str "function", msgpack_str (pk_function probe)); (msgpack_str "attachment", msgpack_str (pk_attachment probe));
        (msgpack_str "event_type", msgpack_str (pk_event_type probe)); (msgpack_str "why", msgpack_str (pk_use_when probe));
        (msgpack_str "fields", VArray (map field (List.filter fk_important (pk_fields probe))));
        (msgpack_str "combine_with", VArray (map msgpack_str (pk_combine_with probe)))].

Definition handle_find (params : Value) : result string Value :=
  match get_str params "question" with
  | None => Err "missing 'question'"
  | Some question => Ok (VArray (map find_result (take 5 (find_probes to_lowercase question kb))))
  end.

Definition handle_detach (params : Value) (d : D) : result string Value * D :=
  match get_str params "probe_id" with
  | None => (Err "missing 'probe_id'", d)
  | Some probe_id =>
      let '(r, d) := op_detach probe_id d in
      (match r with
       | Ok detached => Ok (VMap [(msgpack_str "ok", VBoolean true); (msgpack_str "detached", VBoolean detached)])
       | Err msg => Err msg
       end, d)
  end.

Definition handle_deploy (params : Value) (env : Env) (d : D) : option (result string Value * D) :=
  match get_str params "function" with
  | None => Some (Err "missing 'function'", d)
  | Some function =>
      match get_probe function kb with
      | None => Some (Err ("unknown function '" +:+ function +:+ "' — use find() to search"), d)
      | Some _ =>
          '(r, d) ← op_deploy function (en_clocks env) d;
          Some (match r with
                | Ok probe_id => Ok (VMap [(msgpack_str "probe_id", msgpack_str probe_id);
                                           (msgpack_str "function", msgpack_str function);
                                           (msgpack_str "status", msgpack_str "attached")])
                | Err msg => Err msg
                end, d)
      end
  end.

Definition status_value (s : ProbeStatus) : Value :=
  VMap [(msgpack_str "probe_id", msgpack_str (pst_probe_id s)); (msgpack_str "function", msgpack_str (pst_function s));
        (msgpack_str "events_total", VInteger (pst_events_total s));
        (msgpack_str "ring_buffer_drops", VInteger (pst_ring_buffer_drops s));
        (msgpack_str "sample_rate", VF64 (pst_sample_rate s));
        (msgpack_str "attached_since", msgpack_str (rfc3339 (pst_attached_since s)))].
Definition handle_status (d : D) : result string Value := Ok (VArray (map status_value (op_status d))).

Definition handle_get_events (params : Value) (env : Env) (d : D) : result string Value :=
  let f := parse_event_filter params in
  let events := match get_str params "probe_id" with
                | Some pid => query seconds_before (en_now env) pid f (op_store d)
                | None => query_all seconds_before (en_now env) f (op_store d)
                end in
  Ok (VMap [(msgpack_str "events", VArray (map (encode_compact_event kb) events));
            (msgpack_str "total", VInteger (zlen events))]).

(** The deploys of [handle_ask]: what it counts as deployed. *)
Fixpoint ask_deploy (selected : list ProbeKnowledge) (env : Env) (d : D) : option (list string * D) :=
  match selected with
  | [] => Some ([], d)
  | probe :: rest =>
      '(r, d) ← op_deploy (pk_function probe) (en_clocks env) d;
      '(deployed, d) ← ask_deploy rest env d;
      Some (match r with
            | Ok _ => pk_function probe :: deployed
            | Err msg => if contains msg "already attached" then pk_function probe :: deployed else deployed
            end, d)
  end.

Definition ask_severity (s : string) : Z :=
  if bool_decide (s = "warning") then 1 else if bool_decide (s = "error") then 2
  else if bool_decide (s = "critical") then 3 else 0.

(** The interpretation of the first event that has one. *)
Definition first_interpretation (events : list Occurrence) : option Interpretation :=
  head (omap (fun occ => head (interpretations kb occ)) events).

Definition handle_ask (params : Value) (env : Env) (d : D) : option (result string Value * D) :=
  match get_str params "question" with
  | None => Some (Err "missing 'question'", d)
  | Some question =>
      let collect_seconds := default 5 (get_u64 params "collect_seconds") in
      let max_events := default 100 (get_u64 params "max_events") in
      let f := parse_event_filter params in
      match find_probes to_lowercase question kb with
      | [] => Some (Ok (encode_ask_result "No probes found for this question." 0
                          "Try keywords like 'connect', 'retransmit', 'packet loss'." [] [] true), d)
      | found =>
          let selected := take 3 found in
          '(probes_used, d) ← ask_deploy selected env d;
          if bool_decide (probes_used = []) then Some (Ok (encode_ask_result_kb_only selected), d) else
          let d := en_sleep env collect_seconds d in
          let events := take (Z.to_nat max_events) (query_all seconds_before (en_now env) f (op_store d)) in
          Some (Ok (match events with
                    | [] => encode_ask_result "No events observed. The kernel functions did not fire." 0
                              "Try collecting for longer." [] probes_used true
                    | _ =>
                        let compact := map (encode_compact_event kb) events in
                        match first_interpretation events with
                        | Some i => encode_ask_result (in_conclusion i) (ask_severity (in_severity i)) (in_action i) compact probes_used false
                        | None => encode_ask_result ("Collected " +:+ dec (zlen events) +:+ " events but no specific interpretation matched.")
                                    0 "Review the events manually." compact probes_used false
                        end
                    end), d)
      end
  end.

(** The response; the task starts on its own. *)
Definition handle_subscribe (request_id : Z) (params : Value) (flags : Z) (env : Env) (c : Conn) : list byte * Conn :=
  match get_str params "probe_id" with
  | None => (encode_response request_id (Err "missing 'probe_id'"), c)
  | Some probe_id =>
      let f := parse_event_filter params in
      let interpreted := negb (Z.land flags FLAG_INTERPRETED =? 0) || default false (get_bool params "interpreted") in
      let stream_id := en_ulid env in
      (encode_response request_id (Ok (VMap [(msgpack_str "stream_id", msgpack_str stream_id)])),
       c <| cn_streams ::= fun ss => ss ++ [mkStream probe_id f interpreted false None false] |>
         <| cn_subscriptions ::= <[stream_id := mkSubscription probe_id (length (cn_streams c))]> |>)
  end.

Definition handle_unsubscribe (params : Value) (c : Conn) : result string Value * Conn :=
  match get_str params "probe_id" with
  | None => (Err "missing 'probe_id'", c)
  | Some probe_id =>
      let '(stopped, c) := abort_subscriptions_for probe_id c in
      let c := if (0 <? stopped)%nat
               then send (value_frame MSG_STREAM_END 0 (VArray [msgpack_str probe_id]) "failed to encode STREAM_END payload") c
               else c in
      (Ok (VMap [(msgpack_str "ok", VBoolean true); (msgpack_str "stopped", VInteger (Z.of_nat stopped))]), c)
  end.

Definition hex2 (n : Z) : string := hex_digit (n / 16) +:+ hex_digit (n mod 16).

(** The methods that answer with a value. *)
Definition handle_method (method : Z) (params : Value) (env : Env) (c : Conn) : option (result string Value * Conn) :=
  let on_daemon (rd : result string Value * D) := (rd.1, c <| cn_daemon := rd.2 |>) in
  if method =? METHOD_FIND then Some (handle_find params, c)
  else if method =? METHOD_DEPLOY then on_daemon <$> handle_deploy params env (cn_daemon c)
  else if method =? METHOD_DETACH then Some (on_daemon (handle_detach params (cn_daemon c)))
  else if method =? METHOD_UNSUBSCRIBE then Some (handle_unsubscribe params c)
  else if method =? METHOD_STATUS then Some (handle_status (cn_daemon c), c)
  else if method =? METHOD_ASK then on_daemon <$> handle_ask params env (cn_daemon c)
  else if method =? METHOD_GET_EVENTS then Some (handle_get_events params env (cn_daemon c), c)
  else Some (Err ("unknown method: 0x" +:+ hex2 method), c).

Definition handle_request (request_id method : Z) (params : Value) (flags : Z) (env : Env) (c : Conn) : option (list byte * Conn) :=
  if method =? METHOD_SUBSCRIBE then Some (handle_subscribe request_id params flags env c)
  else '(r, c) ← handle_method method params env c; Some (encode_response request_id r, c).

(* ------------------------------------------------------------------ *)
(** ** The loops of a connection *)

(** One turn of the loop of [handle_connection], on a frame. *)
Definition connection_frame (env : Env) (frame : Z * Z * list byte) (c : Conn) : option Conn :=
  let '(msg_type, flags, payload) := frame in
  if msg_type =? MSG_REQUEST then
    match decode_msgpack payload with
    | Ok (VArray (id :: method :: params :: _)) =>
        let request_id := wrap 32 (default 0 (as_u64 id)) in
        let method := wrap 8 (default 0 (as_u64 method)) in
        '(response, c) ← handle_request request_id method params flags env c;
        Some (send response c)
    | _ => Some c
    end
  else if msg_type =? MSG_PING then Some (send (value_frame MSG_PONG 0 (VArray []) "failed to encode PONG payload") c)
  else Some c.

(** The end of [handle_connection]: every subscription's task is aborted. *)
Definition close_connection (c : Conn) : Conn :=
  (foldr (fun ks : string * Subscription => abort_stream (su_task ks.2)) c (map_to_list (cn_subscriptions c))) <| cn_subscriptions := ∅ |>.

(** The loop, over all the bytes a client sends. [None] when the fuel does not do. *)
Fixpoint handle_connection (fuel : nat) (envs : list Env) (stream : list byte) (c : Conn) : option Conn :=
  match read_frame stream with
  | Err _ => Some (close_connection c)
  | Ok (msg_type, flags, payload, stream) =>
      match fuel, envs with
      | S fuel, env :: envs => c ← connection_frame env (msg_type, flags, payload) c; handle_connection fuel envs stream c
      | _, _ => None
      end
  end.

(** One turn of a subscription's task: it starts, then polls. The events of a poll are sent in order. *)
Definition stream_poll (now : Z) (store : EventStore) (s : Stream) : list (list byte) * Stream :=
  let events := query_since seconds_before now (sm_probe_id s) (sm_last_seen_id s) (sm_filter s) store in
  (map (fun occ => encode_stream_event occ 0 (sm_interpreted s)) events,
   match last events with Some occ => s <| sm_last_seen_id := Some (occ_id occ) |> | None => s end).

Definition stream_start (s : Stream) : list byte :=
  value_frame MSG_STREAM_START 0 (VArray [msgpack_str (sm_probe_id s)]) "failed to encode STREAM_START payload".

Definition stream_turn (task : nat) (now : Z) (c : Conn) : Conn :=
  match cn_streams c !! task with
  | None => c
  | Some s =>
      if sm_aborted s then c
      else if sm_started s then
        let '(frames, s) := stream_poll now (op_store (cn_daemon c)) s in
        c <| cn_streams ::= <[task := s]> |> <| cn_sent ::= fun fs => fs ++ frames |>
      else
        (send (stream_start s) c)
          <| cn_streams ::= <[task := s <| sm_started := true |>
                                        <| sm_aborted := negb (is_ok (write_value (VArray [msgpack_str (sm_probe_id s)]))) |>]> |>
  end.

(* ------------------------------------------------------------------ *)
(** ** The client *)

Record Response := mkResponse { rp_ok : bool; rp_result : option Value; rp_error : option string }.
Definition Response_success (v : Value) : Response := mkResponse true (Some v) None.
Definition Response_err (msg : string) : Response := mkResponse false None (Some msg).

Inductive CallError := CallFrame (e : FrameError) | CallCodec (msg : string).

(** The two halves of [call_native]. *)
Definition client_request (method : Z) (params : Value) : result CallError (list byte) :=
  match write_value (VArray [VInteger 1; VInteger method; params]) with
  | Ok payload => Ok (encode_frame MSG_REQUEST 0 payload)
  | Err _ => Err (CallCodec "msgpack encode")
  end.

Definition client_response (stream : list byte) : result CallError Response :=
  match read_frame stream with
  | Err e => Err (CallFrame e)
  | Ok (msg_type, _, payload, _) =>
      if negb (msg_type =? MSG_RESPONSE) then Ok (Response_err ("unexpected response type: " +:+ dec msg_type)) else
      match decode_msgpack payload with
      | Err _ => Err (CallCodec "msgpack decode")
      | Ok (VArray (_ :: ok :: v :: _)) =>
          Ok (if default false (as_bool ok) then Response_success v
              else Response_err (default "unknown error" (as_str v)))
      | Ok _ => Ok (Response_err "malformed response")
      end
  end.

(* ------------------------------------------------------------------ *)
(** ** Frames *)

Lemma encode_frame_length t f p : length (encode_frame t f p) = (6 + length p)%nat.
Proof. unfold encode_frame. rewrite !length_app, be_put_length. done. Qed.

(** What is read of an encoded frame, whatever follows. *)
Lemma read_encoded t f p rest :
  in_width 8 t -> in_width 8 f -> zlen p + 2 < 2 ^ 32 ->
  read_frame (encode_frame t f p ++ rest) =
    if zlen p + 2 <=? FRAME_MAX_LEN then Ok (t, f, p, rest) else Err (InvalidFrameLen (zlen p + 2)).
Proof.
  intros Ht Hf Hp. pose proof (zlen_nonneg p). unfold read_frame.
  rewrite (proj2 (Nat.ltb_ge _ _)) by (rewrite length_app, encode_frame_length; unfold FRAME_HEADER_LEN; lia).
  unfold encode_frame. rewrite wrap_small by (unfold in_width; lia). rewrite <- !(assoc_L (++)).
  assert (exists a b c d, be_put 4 (zlen p + 2) = [a; b; c; d]) as (a & b & c & d & E).
  { pose proof (be_put_length 4 (zlen p + 2)) as Hl. destruct (be_put 4 (zlen p + 2)) as [|a [|b [|c [|d [|]]]]]; try done. by exists a, b, c, d. }
  assert (be_get (be_put 4 (zlen p + 2)) = zlen p + 2) as Eg
    by (rewrite be_get_put; apply Z.mod_small; change (256 ^ Z.of_nat 4) with (2 ^ 32); lia).
  rewrite E in *. cbn [app slice take drop FRAME_HEADER_LEN Nat.sub]. unfold slice. cbn [take drop]. rewrite Eg.
  assert (forall z, in_width 8 z -> le_get [byte_of_Z z] = z) as H8.
  { intros z Hz. cbn. rewrite bZ_byte_of_Z, Z.mod_small by exact Hz. lia. }
  rewrite !H8 by done.
  destruct (Z.leb_spec (zlen p + 2) FRAME_MAX_LEN); rewrite andb_comm; cbn [andb negb]; [|done].
  rewrite (proj2 (Z.leb_le 2 (zlen p + 2))) by lia. cbn [negb].
  replace (Z.to_nat (zlen p + 2 - 2)) with (length p) by (unfold zlen; lia).
  destruct (Nat.ltb_spec (length (drop 0 (p ++ rest))) (length p)) as [Hlt|_]; [rewrite drop_0, length_app in Hlt; lia|].
  rewrite !drop_0. by rewrite take_app_length, drop_app_length.
Qed.

(* ------------------------------------------------------------------ *)
(** ** Calls *)

(** What the codec does on a value a call needs. *)
Definition codec_ok (v : Value) : Prop := exists bs, write_value v = Ok bs /\ bs <> [] /\ read_value bs = Ok v /\ zlen bs + 2 < 2 ^ 32.

Lemma decode_encoded v bs : bs <> [] -> read_value bs = Ok v -> decode_msgpack bs = Ok v.
Proof. by destruct bs. Qed.

Lemma abort_fresh p d : abort_subscriptions_for p (Conn_new d) = (0%nat, Conn_new d).
Proof. unfold abort_subscriptions_for. cbn. by rewrite !map_filter_empty, map_to_list_empty. Qed.

Lemma handle_method_fresh method params env d res c :
  handle_method method params env (Conn_new d) = Some (res, c) -> exists d', c = Conn_new d'.
Proof.
  unfold handle_method. intros Hm.
  repeat (destruct (Z.eqb _ _); [|]); [by simplify_eq/=; eexists|..].
  - destruct (handle_deploy _ _ _) as [[r d']|]; [|done]. cbn in Hm. simplify_eq. by exists d'.
  - simplify_eq. cbn. by eexists.
  - unfold handle_unsubscribe in Hm. destruct (get_str params "probe_id"); [rewrite abort_fresh in Hm|]; cbn in Hm; simplify_eq; by eexists.
  - simplify_eq; by eexists.
  - destruct (handle_ask _ _ _) as [[r d']|]; [|done]. cbn in Hm. simplify_eq. by exists d'.
  - simplify_eq; by eexists.
  - simplify_eq; by eexists.
Qed.

Lemma close_fresh c : cn_subscriptions c = ∅ -> cn_daemon (close_connection c) = cn_daemon c /\ cn_sent (close_connection c) = cn_sent c.
Proof. intros E. unfold close_connection. rewrite E, map_to_list_empty. by destruct c. Qed.

(** C17: a call is answered with what its handler says. Let a client send one request, for any
    method but [subscribe] (whose response the frames of its own stream may overtake), that encodes
    and fits a frame, and close its side; let the handler end, with a response that encodes and
    reads back and, if an error, a message in UTF-8. The server reads the request back, runs the
    handler of the method on the parameters, and sends exactly one frame; the client makes of it the
    handler's value, or its error message, unless the encoded response is over the limit of a frame:
    then the server sends it all the same and the client refuses it, whatever the handler did to the
    daemon. *)
Theorem call_native_answered method params d env bytes res c :
  in_width 8 method -> method <> METHOD_SUBSCRIBE ->
  codec_ok (VArray [VInteger 1; VInteger method; params]) -> codec_ok (response_value 1 res) ->
  client_request method params = Ok bytes -> zlen bytes <= FRAME_MAX_LEN + 4 ->
  handle_method method params env (Conn_new d) = Some (res, c) ->
  (forall msg, res = Err msg -> utf8_valid (bytes_of msg) = true) ->
  exists c' frame bs,
    handle_connection 1 [env] bytes (Conn_new d) = Some c' /\ cn_daemon c' = cn_daemon c /\ cn_sent c' = [frame] /\
    write_value (response_value 1 res) = Ok bs /\
    client_response frame =
      if zlen bs + 2 <=? FRAME_MAX_LEN
      then Ok (match res with Ok v => Response_success v | Err msg => Response_err msg end)
      else Err (CallFrame (InvalidFrameLen (zlen bs + 2))).
Proof.
  intros Hm Hsub (b1 & Hw1 & Hne1 & Hr1 & _) (b2 & Hw2 & Hne2 & Hr2 & Hl2) Hreq Hfits Hh Hutf.
  unfold client_request in Hreq. rewrite Hw1 in Hreq. injection Hreq as <-.
  assert (zlen b1 + 2 <= FRAME_MAX_LEN) as Hb1 by (unfold zlen in *; rewrite encode_frame_length in Hfits; lia).
  destruct (handle_method_fresh _ _ _ _ _ _ Hh) as [d' ->].
  assert (read_frame (encode_frame MSG_REQUEST 0 b1) = Ok (MSG_REQUEST, 0, b1, [])) as Hread1.
  { rewrite <- (app_nil_r (encode_frame _ _ _)), read_encoded by (unfold FRAME_MAX_LEN in *; done || lia).
    by rewrite (proj2 (Z.leb_le _ _) Hb1). }
  exists (close_connection (send (encode_frame MSG_RESPONSE 0 b2) (Conn_new d'))), (encode_frame MSG_RESPONSE 0 b2), b2.
  destruct (close_fresh (send (encode_frame MSG_RESPONSE 0 b2) (Conn_new d')) eq_refl) as [Hcd Hcs].
  split_and!; [|by rewrite Hcd|by rewrite Hcs|done|].
  - cbn [handle_connection]. rewrite Hread1. unfold connection_frame. rewrite (decode_encoded _ _ Hne1 Hr1). cbn [MSG_REQUEST Z.eqb Pos.eqb].
    change (wrap 32 (default 0 (as_u64 (VInteger 1)))) with 1.
    assert (wrap 8 (default 0 (as_u64 (VInteger method))) = method) as ->.
    { cbn [as_u64]. destruct Hm as [Hm0 Hm1]. rewrite (proj2 (Z.leb_le 0 method)) by done. by apply wrap_small. }
    unfold handle_request. rewrite (proj2 (Z.eqb_neq method METHOD_SUBSCRIBE)) by done. rewrite Hh. cbn [mbind option_bind].
    unfold encode_response. by rewrite Hw2.
  - unfold client_response. rewrite <- (app_nil_r (encode_frame _ _ _)), read_encoded by done.
    destruct (zlen b2 + 2 <=? FRAME_MAX_LEN); [|done]. cbn [MSG_RESPONSE Z.eqb Pos.eqb negb]. rewrite (decode_encoded _ _ Hne2 Hr2).
    destruct res as [v|msg]; cbn; [done|]. rewrite (Hutf msg eq_refl). by rewrite string_of_bytes_of.
Qed.
End server.

(* ------------------------------------------------------------------ *)
(** ** The daemon behind the socket *)

Section daemon_ops.
Context {Ebpf AyaMap : Type}.
Variable program_kind : string -> Ebpf -> option HookKind.
Variable prog_load prog_attach : string -> Attachment -> Ebpf -> bool * Ebpf.
Variable take_map : string -> Ebpf -> option AyaMap * Ebpf.
Variable is_ring_buf is_per_cpu_array : AyaMap -> bool.
Variable ebpf_load : list byte -> option Ebpf.
Variable is_hash_map : string -> Ebpf -> option bool.
Variable map_insert : string -> Z -> Z -> Ebpf -> option Ebpf.
Variable add_relocation : Codegen.ElfReloc -> option string.
Variable obj_write : Codegen.ElfObject -> result string (list byte).
Variable self_pid : Z.
Variable kb : KnowledgeBase.
Variable btf : Btf.BtfData.

(** [DaemonHandle] with its store. *)
Definition daemon_ops : DaemonOps (Daemon (Ebpf := Ebpf) * EventStore) := {|
  op_deploy f ck d :=
    '(r, d1) ← deploy_probe program_kind prog_load prog_attach take_map is_ring_buf is_per_cpu_array ebpf_load is_hash_map map_insert
                 add_relocation obj_write self_pid kb btf f ck d.1;
    Some (r, (d1, d.2));
  op_detach id d := let '(r, d1) := detach_probe id d.1 in (r, (d1, d.2));
  op_status d := status (dm_registry d.1);
  op_store := snd
|}.
End daemon_ops.

Definition w_ops := daemon_ops w_kind w_works w_works w_take (fun _ => true) (fun _ => true) w_load (fun _ _ => Some true)
  (fun _ _ _ e => Some e) (fun _ => None) (fun _ => Ok []) 1 [] w_btf_sendmsg.
Definition w_params : Value := VMap [(msgpack_str "probe_id", msgpack_str "probe_001")].
Definition w_message : string :=
  "probe 'probe_001' was attached at startup and shares the daemon's eBPF object; it cannot be detached at runtime".

(** A codec that knows one request and its response. *)
Definition w_write (v : Value) : result string (list byte) :=
  match v with VArray [_; VInteger _; _] => Ok [x01] | _ => Ok [x02] end.
Definition w_read (bs : list byte) : result string Value :=
  match bs with
  | x01 :: _ => Ok (VArray [VInteger 1; VInteger METHOD_DETACH; w_params])
  | _ => Ok (response_value 1 (Err w_message))
  end.

(** Asking over the socket to detach the startup probe. *)
Lemma call_native_answered_witness :
  exists bytes c frame,
    client_request w_write METHOD_DETACH w_params = Ok bytes /\
    handle_connection (H := w_ops) w_write w_read (fun s => s) (fun _ => "") (fun now s => now) [] 1
      [mkEnv w_ck 0 "01" (fun _ d => d)] bytes (Conn_new (w_daemon, EventStore_new 16)) = Some c /\
    cn_sent c = [frame] /\ client_response w_read frame = Ok (Response_err w_message).
Proof.
  assert (forall v bs, w_write v = Ok bs -> bs <> [] -> w_read bs = Ok v -> zlen bs + 2 < 2 ^ 32 -> codec_ok w_write w_read v) as Hcodec.
  { intros v bs Hw Hne Hr Hl. by exists bs. }
  edestruct (call_native_answered (H := w_ops) w_write w_read (fun s => s) (fun _ => "") (fun now s => now) []
    METHOD_DETACH w_params (w_daemon, EventStore_new 16) (mkEnv w_ck 0 "01" (fun _ d => d)) (encode_frame MSG_REQUEST 0 [x01])
    (Err w_message)) as (c' & frame & bs & H1 & _ & H2 & H3 & H4).
  - by split.
  - done.
  - by apply (Hcodec _ [x01]).
  - by apply (Hcodec _ [x02]).
  - reflexivity.
  - by vm_compute.
  - by vm_compute.
  - intros msg [= <-]. by vm_compute.
  - exists (encode_frame MSG_REQUEST 0 [x01]), c', frame. split; [done|]. split; [exact H1|]. split; [done|].
    cbn in H3. injection H3 as <-. exact H4.
Defined.
