(* ===== verification/IpcStream.v ===== *)
(** What a subscription delivers: the task of [handle_subscribe] in [jalki/src/ipc.rs], polling the
    event store while readers push to it. *)
From Stdlib Require Import Strings.Byte.
From stdpp Require Import base gmap list sorting strings.
From S2P Require Import Prelude Text Float Protocol Evidence Samples Event Normalize Store Knowledge Registry Daemon Ipc.

(** Strictly increasing identifiers, as [query_since] compares them. *)
Definition newer (x y : Occurrence) : Prop := String.leb (occ_id y) (occ_id x) = false.

Lemma newer_leb x y : newer x y -> String.leb (occ_id x) (occ_id y) = true.
Proof. unfold newer. intros H. destruct (String.leb_total (occ_id x) (occ_id y)); congruence. Qed.

Lemma leb_refl s : String.leb s s = true.
Proof. by destruct (String.leb_total s s). Qed.

Section stream.
Variable write_value : Value -> result string (list byte).
Variable seconds_before : Z -> Z -> Z.
Variable kb : KnowledgeBase.
(** The subscription. *)
Variable probe : string.
Variable f : EventFilter.
Variable interpreted : bool.

Inductive Tick := Pushed (name : string) (occ : Occurrence) | Polled (now : Z).

Definition run_tick (t : Tick) (st : EventStore * Stream * list (list byte)) : option (EventStore * Stream * list (list byte)) :=
  let '(store, s, sent) := st in
  match t with
  | Pushed name occ => store ← store_push name occ store; Some (store, s, sent)
  | Polled now =>
      let '(frames, s) := stream_poll write_value seconds_before kb now store s in Some (store, s, sent ++ frames)
  end.

Fixpoint run_ticks (ticks : list Tick) (st : EventStore * Stream * list (list byte)) : option (EventStore * Stream * list (list byte)) :=
  match ticks with
  | [] => Some st
  | t :: rest => st ← run_tick t st; run_ticks rest st
  end.

(** The subscription's task, started. *)
Definition subscribed : Stream := mkStream probe f interpreted true None false.

(* ------------------------------------------------------------------ *)
(** ** What it is to deliver *)

(** The events the subscription is after: all that the filter matches at some poll. With
    [last_seconds] the filter matches an event only for so long. *)
Variable wanted : Occurrence -> bool.

(** The events of a history from the first wanted one that is not among the first [k]. *)
Fixpoint unsent (k : nat) (xs : list Occurrence) : list Occurrence :=
  match xs with
  | [] => []
  | x :: rest => if wanted x then match k with O => xs | S k => unsent k rest end else unsent k rest
  end.

Definition limit : nat := Z.to_nat (filter_limit f).
Definition next_sent (k : nat) (xs : list Occurrence) : nat := Nat.min (k + limit) (length (List.filter wanted xs)).

(** How many wanted events have been sent after a history, each poll sending as many of the next ones
    as the limit lets it. *)
Fixpoint sent_count (ticks : list Tick) (ps : list (string * Occurrence)) (k : nat) : nat :=
  match ticks with
  | [] => k
  | Pushed name occ :: rest => sent_count rest (ps ++ [(name, occ)]) k
  | Polled _ :: rest => sent_count rest ps (next_sent k (of_probe probe ps))
  end.

(** Polls keep up: at each, the ring still holds the events not sent, and the filter still matches
    the wanted ones among them. *)
Fixpoint keeps_up (cap : nat) (ticks : list Tick) (ps : list (string * Occurrence)) (k : nat) : bool :=
  match ticks with
  | [] => true
  | Pushed name occ :: rest => keeps_up cap rest (ps ++ [(name, occ)]) k
  | Polled now :: rest =>
      (length (unsent k (of_probe probe ps)) <=? cap)%nat &&
      forallb (fun x => implb (wanted x) (event_matches seconds_before now f x)) (unsent k (of_probe probe ps)) &&
      keeps_up cap rest ps (next_sent k (of_probe probe ps))
  end.

Definition pushes (ticks : list Tick) : list (string * Occurrence) :=
  omap (fun t => match t with Pushed name occ => Some (name, occ) | Polled _ => None end) ticks.

Definition last_id (k : nat) (xs : list Occurrence) : option string := occ_id <$> last (take k (List.filter wanted xs)).

(* ------------------------------------------------------------------ *)
(** ** One poll *)

Lemma unsent_split k xs : exists pre, xs = pre ++ unsent k xs /\
  List.filter wanted pre = take k (List.filter wanted xs) /\ List.filter wanted (unsent k xs) = drop k (List.filter wanted xs).
Proof.
  revert k. induction xs as [|x xs IH]; intros k; [exists []; cbn; by rewrite take_nil, drop_nil|].
  cbn. destruct (wanted x) eqn:Hx.
  - destruct k as [|k]; [exists []; split_and!; cbn; by rewrite ?Hx, ?take_0|]. destruct (IH k) as (pre & E & H1 & H2).
    exists (x :: pre). cbn. rewrite Hx, H1, <- E. done.
  - destruct (IH k) as (pre & E & H1 & H2). exists (x :: pre). cbn. rewrite Hx, <- E. done.
Qed.

Lemma StronglySorted_filter {A} (R : A -> A -> Prop) p l : StronglySorted R l -> StronglySorted R (List.filter p l).
Proof.
  induction 1 as [|x l Hl IH Hx]; cbn; [constructor|]. destruct (p x); [|done]. constructor; [done|].
  rewrite Forall_forall in *. intros y [Hy _]%list_elem_of_In%filter_In. apply Hx. by apply list_elem_of_In.
Qed.

Lemma filter_none {A} (p : A -> bool) l : (forall x, x ∈ l -> p x = false) -> List.filter p l = [].
Proof. induction l as [|x l IH]; intros H; [done|]. cbn. rewrite H by left. apply IH. intros; apply H. by right. Qed.
Lemma filter_keep {A} (p : A -> bool) l : (forall x, x ∈ l -> p x = true) -> List.filter p l = l.
Proof. induction l as [|x l IH]; intros H; [done|]. cbn. rewrite H by left. f_equal. apply IH. intros; apply H. by right. Qed.

(** Asking for what is newer than the last event sent finds the wanted ones after it. *)
Lemma poll_finds cap k xs m :
  StronglySorted newer xs -> (length (unsent k xs) <= cap)%nat ->
  (forall x, x ∈ xs -> m x = true -> wanted x = true) -> forallb (fun x => implb (wanted x) (m x)) (unsent k xs) = true ->
  List.filter m (List.filter (fun occ => match last_id k xs with Some l => negb (String.leb (occ_id occ) l) | None => true end) (lastn cap xs))
    = drop k (List.filter wanted xs).
Proof.
  intros Hs Hcap Hm Hmu. destruct (unsent_split k xs) as (pre & E & H1 & H2).
  assert (lastn cap xs = lastn (cap - length (unsent k xs)) pre ++ unsent k xs) as ->.
  { rewrite E at 1. unfold lastn. rewrite length_app, drop_app_le by lia. f_equal. f_equal. lia. }
  rewrite E in Hs. apply StronglySorted_app in Hs as (Hcross & Hpre & _).
  rewrite !List.filter_app. rewrite <- H2.
  assert (forall l1 l2 : list Occurrence, l1 = [] -> l2 = List.filter wanted (unsent k xs) -> l1 ++ l2 = List.filter wanted (unsent k xs)) as Hsplit by (intros ? ? -> ->; done).
  apply Hsplit; clear Hsplit.
  - apply filter_none. intros x [Hx Hnew]%list_elem_of_In%filter_In. apply list_elem_of_In in Hx.
    assert (x ∈ pre) as Hxp by (unfold lastn in Hx; eapply elem_of_subseteq; [|exact Hx]; apply subseteq_drop).
    apply not_true_is_false. intros Hmx. assert (wanted x = true) as Hw by (apply Hm; [rewrite E, elem_of_app; by left|done]).
    assert (x ∈ List.filter wanted pre) as Hin by (apply list_elem_of_In, filter_In; split; [by apply list_elem_of_In|done]).
    unfold last_id in Hnew. rewrite <- H1 in Hnew.
    destruct (last (List.filter wanted pre)) as [l|] eqn:El; [|apply last_None in El; rewrite El in Hin; by apply elem_of_nil in Hin].
    apply last_Some in El as (F & EF). cbn in Hnew. apply negb_true_iff in Hnew.
    assert (String.leb (occ_id x) (occ_id l) = true) as Hle; [|congruence].
    apply (StronglySorted_filter newer wanted) in Hpre. rewrite EF in Hpre. apply StronglySorted_app in Hpre as (HF & _).
    rewrite EF in Hin. apply elem_of_app in Hin as [Hin| ->%list_elem_of_singleton]; [|apply leb_refl]. apply newer_leb, HF; [done|by left].
  - rewrite (filter_keep _ (unsent k xs)).
    + apply filter_ext_in. intros x Hx. rewrite forallb_forall in Hmu. apply eq_true_iff_eq. split; [|intros Hw; specialize (Hmu x Hx); by rewrite Hw in Hmu].
      apply list_elem_of_In in Hx. apply Hm. rewrite E, elem_of_app. by right.
    + intros x Hx. unfold last_id. rewrite <- H1. destruct (last (List.filter wanted pre)) as [l|] eqn:El; [|done]. cbn.
      apply negb_true_iff, (Hcross l x); [|done]. apply last_Some in El as (F & EF).
      assert (l ∈ List.filter wanted pre) as Hl by (rewrite EF, elem_of_app; right; by left).
      by apply list_elem_of_In, filter_In in Hl as [?%list_elem_of_In _].
Qed.

(* ------------------------------------------------------------------ *)
(** ** Any pushes and polls *)

Notation frame := (fun occ => encode_stream_event write_value kb occ 0 interpreted).
Notation events ps := (List.filter wanted (of_probe probe ps)).

Record stream_ok (cap : nat) (ps : list (string * Occurrence)) (k : nat) (st : EventStore * Stream * list (list byte)) : Prop := {
  so_store : store_ok cap ps st.1.1;
  so_stream : st.1.2 = subscribed <| sm_last_seen_id := last_id k (of_probe probe ps) |>;
  so_sent : st.2 = map frame (take k (events ps));
  so_count : (k <= length (events ps))%nat
}.

Lemma events_snoc ps p : exists more, events (ps ++ [p]) = events ps ++ more.
Proof. rewrite of_probe_snoc, List.filter_app. by eexists. Qed.

Lemma pushed_ok cap ps k st name occ :
  (0 < cap)%nat -> zlen ps < u64_max -> stream_ok cap ps k st ->
  exists st', run_tick (Pushed name occ) st = Some st' /\ stream_ok cap (ps ++ [(name, occ)]) k st'.
Proof.
  destruct st as [[store s] sent]. intros Hc Hl [Hst Hs Hsent Hk]. cbn in *.
  destruct (store_push_ok cap ps store (name, occ) Hc Hl Hst) as (store' & Hp & Hst'). cbn in Hp. rewrite Hp.
  destruct (events_snoc ps (name, occ)) as (more & E). exists (store', s, sent). split; [done|].
  split; cbn; [done| | |rewrite E, length_app; lia].
  - unfold last_id in *. by rewrite E, take_app_le by lia.
  - by rewrite E, take_app_le by lia.
Qed.

Lemma polled_ok cap ps k st now :
  stream_ok cap ps k st -> StronglySorted newer (of_probe probe ps) -> (length (unsent k (of_probe probe ps)) <= cap)%nat ->
  (forall x, x ∈ of_probe probe ps -> event_matches seconds_before now f x = true -> wanted x = true) ->
  forallb (fun x => implb (wanted x) (event_matches seconds_before now f x)) (unsent k (of_probe probe ps)) = true ->
  exists st', run_tick (Polled now) st = Some st' /\ stream_ok cap ps (next_sent k (of_probe probe ps)) st'.
Proof.
  destruct st as [[store s] sent]. intros [[Hcap Hst] Hs Hsent Hk] Hsorted Hup Hm Hmu. cbn in *.
  assert (query_since seconds_before now probe (last_id k (of_probe probe ps)) f store = take limit (drop k (events ps))) as Hq.
  { unfold query_since. specialize (Hst probe). destruct (es_buffers store !! probe) as [b|].
    - rewrite (buffer_iter_ok _ _ _ Hst). unfold filter_events. fold limit. f_equal. by apply poll_finds.
    - rewrite Hst. cbn. by rewrite drop_nil, take_nil. }
  unfold stream_poll. subst s. cbn [sm_probe_id sm_last_seen_id sm_filter sm_interpreted subscribed set eta eta_Stream]. rewrite Hq.
  assert (take (next_sent k (of_probe probe ps)) (events ps) = take k (events ps) ++ take limit (drop k (events ps))) as Et.
  { rewrite take_take_drop. unfold next_sent. destruct (Nat.le_ge_cases (k + limit) (length (events ps))).
    - by rewrite Nat.min_l.
    - rewrite Nat.min_r by done. by rewrite !take_ge by lia. }
  eexists. split; [reflexivity|]. split; cbn [fst snd]; [done| | |unfold next_sent; lia].
  - unfold last_id. rewrite Et, last_app. by destruct (last (take limit (drop k (events ps)))).
  - by rewrite Et, map_app, Hsent.
Qed.

Lemma of_probe_app p ps qs : of_probe p (ps ++ qs) = of_probe p ps ++ of_probe p qs.
Proof. unfold of_probe. by rewrite List.filter_app, fmap_app. Qed.

Lemma run_ticks_ok cap ticks ps k st :
  (0 < cap)%nat -> zlen (ps ++ pushes ticks) <= u64_max -> StronglySorted newer (of_probe probe (ps ++ pushes ticks)) ->
  (forall now x, Polled now ∈ ticks -> x ∈ of_probe probe (ps ++ pushes ticks) -> event_matches seconds_before now f x = true -> wanted x = true) ->
  keeps_up cap ticks ps k = true -> stream_ok cap ps k st ->
  exists st', run_ticks ticks st = Some st' /\ stream_ok cap (ps ++ pushes ticks) (sent_count ticks ps k) st'.
Proof.
  intros Hc. revert ps k st. induction ticks as [|[name occ|now] ticks IH]; intros ps k st Hl Hsorted Hm Hup Hok; cbn [run_ticks sent_count keeps_up] in *.
  - exists st. split; [done|]. cbn. by rewrite app_nil_r.
  - assert (ps ++ pushes (Pushed name occ :: ticks) = (ps ++ [(name, occ)]) ++ pushes ticks) as E by by rewrite <- (assoc_L (++)).
    rewrite E in Hl, Hsorted, Hm |- *. clear E. rewrite zlen_app in Hl. pose proof (zlen_nonneg (pushes ticks)).
    assert (zlen ps < u64_max) as Hps by (rewrite zlen_app in Hl; change (zlen [(name, occ)]) with 1 in Hl; lia).
    destruct (pushed_ok cap ps k st name occ Hc Hps Hok) as (st1 & -> & Hok1). cbn [mbind option_bind].
    apply (IH _ k st1); [by rewrite zlen_app|done| |done|done]. intros now x Hin. apply Hm. by right.
  - change (pushes (Polled now :: ticks)) with (pushes ticks) in *. apply andb_prop in Hup as [[Hroom%Nat.leb_le Hmu]%andb_prop Hup].
    destruct (polled_ok cap ps k st now Hok) as (st1 & -> & Hok1).
    + rewrite of_probe_app in Hsorted. by apply StronglySorted_app in Hsorted as (_ & ? & _).
    + done.
    + intros x Hx. apply (Hm now); [by left|]. rewrite of_probe_app, elem_of_app. by left.
    + done.
    + cbn [mbind option_bind]. apply (IH _ _ st1); [done|done| |done|done]. intros now' x Hin. apply Hm. by right.
Qed.

Lemma sent_count_app t1 t2 ps k : sent_count (t1 ++ t2) ps k = sent_count t2 (ps ++ pushes t1) (sent_count t1 ps k).
Proof.
  revert ps k. induction t1 as [|[name occ|now] t1 IH]; intros ps k; cbn [app sent_count]; [cbn; by rewrite app_nil_r| |].
  - rewrite IH. change (pushes (Pushed name occ :: t1)) with ([(name, occ)] ++ pushes t1). by rewrite (assoc_L (++)).
  - apply IH.
Qed.

Lemma sent_count_le ticks ps k :
  (k <= length (events ps) -> sent_count ticks ps k <= length (events (ps ++ pushes ticks)))%nat.
Proof.
  revert ps k. induction ticks as [|[name occ|now] ticks IH]; intros ps k Hk; cbn [sent_count]; [by rewrite app_nil_r| |].
  - change (pushes (Pushed name occ :: ticks)) with ([(name, occ)] ++ pushes ticks). rewrite (assoc_L (++)). apply IH.
    destruct (events_snoc ps (name, occ)) as (more & E). rewrite E, length_app. lia.
  - apply IH. unfold next_sent. lia.
Qed.

Lemma sent_count_polls ticks ps k : pushes ticks = [] -> (k <= length (events ps))%nat ->
  sent_count ticks ps k = Nat.min (k + length ticks * limit) (length (events ps)).
Proof.
  revert k. induction ticks as [|[name occ|now] ticks IH]; intros k Hp Hk; cbn [sent_count length]; [lia|done|].
  rewrite IH by (done || unfold next_sent; lia). unfold next_sent. lia.
Qed.

(** C12: a stream that keeps up delivers every event exactly once. Let readers push to a store and a
    subscription poll it, in any order. If the probe's identifiers strictly increase, the wanted
    events are all that the filter matches at the polls, and at each poll those not yet sent are
    still in the ring and still match, then the frames sent are those of the wanted events, each
    once and in the order of the pushes, up to as many as the limit of each poll has let through;
    and once the pushes have paused for enough polls all of them have been sent. An event whose
    identifier does not sort after the last one sent, such as one of the same millisecond, is
    skipped: see [same_millisecond_event_skipped]. *)
Theorem stream_exactly_once cap ticks :
  (0 < cap)%nat -> zlen (pushes ticks) <= u64_max ->
  StronglySorted newer (of_probe probe (pushes ticks)) ->
  (forall now x, Polled now ∈ ticks -> x ∈ of_probe probe (pushes ticks) -> event_matches seconds_before now f x = true -> wanted x = true) ->
  keeps_up cap ticks [] 0 = true ->
  let all := List.filter wanted (of_probe probe (pushes ticks)) in
  exists store s sent,
    run_ticks ticks (EventStore_new (Z.of_nat cap), subscribed, []) = Some (store, s, sent) /\
    sent = map frame (take (sent_count ticks [] 0) all) /\
    (forall before polls, ticks = before ++ polls -> pushes polls = [] -> (length all <= length polls * limit)%nat ->
       sent = map frame all).
Proof.
  intros Hc Hl Hs Hm Hup all.
  destruct (run_ticks_ok cap ticks [] 0 (EventStore_new (Z.of_nat cap), subscribed, [])) as ([[store s] sent] & Hrun & [_ _ Hsent Hk]);
    [done..| |].
  { split; cbn; [apply store_new_ok|done|done|lia]. }
  change ([] ++ pushes ticks) with (pushes ticks) in *. cbn [snd] in Hsent. exists store, s, sent. split; [done|]. split; [done|].
  intros before polls -> Hp Hlen. rewrite Hsent. fold all in Hk |- *. do 2 f_equal. rewrite take_ge; [done|].
  assert (pushes (before ++ polls) = pushes before) as E by (unfold pushes in *; by rewrite omap_app, Hp, app_nil_r).
  assert (all = events (pushes before)) as Ea by (unfold all; by rewrite E).
  rewrite sent_count_app. change ([] ++ pushes before) with (pushes before).
  pose proof (sent_count_le before [] 0 ltac:(cbn; lia)) as Hb. change ([] ++ pushes before) with (pushes before) in Hb.
  rewrite Ea in Hlen |- *. rewrite sent_count_polls by done. lia.
Qed.
End stream.

(* ------------------------------------------------------------------ *)
(** ** What a stream misses *)

(** An event whose identifier sorts below the last one sent is not found again, whatever the filter. *)
Lemma older_not_found seconds_before now probe last f store occ :
  String.leb (occ_id occ) last = true -> occ ∉ query_since seconds_before now probe (Some last) f store.
Proof.
  intros Hle Hin. unfold query_since in Hin. destruct (es_buffers store !! probe) as [b|]; [|by apply elem_of_nil in Hin].
  unfold filter_events in Hin. assert (occ ∈ List.filter (event_matches seconds_before now f)
    (List.filter (fun occ => negb (String.leb (occ_id occ) last)) (buffer_iter b))) as H
    by (eapply elem_of_subseteq; [apply subseteq_take|exact Hin]).
  apply list_elem_of_In, filter_In in H as [[_ H]%filter_In _]. by rewrite Hle in H.
Qed.

(** A stream of a name nothing is pushed under stays silent. *)
Lemma unpushed_silent write_value seconds_before kb probe f interpreted cap ticks :
  (0 < cap)%nat -> zlen (pushes ticks) <= u64_max ->
  Forall (fun p : string * Occurrence => p.1 <> probe) (pushes ticks) ->
  exists store s,
    run_ticks write_value seconds_before kb ticks (EventStore_new (Z.of_nat cap), subscribed probe f interpreted, []) = Some (store, s, []).
Proof.
  intros Hc Hl Hne.
  assert (of_probe probe (pushes ticks) = []) as E.
  { unfold of_probe. rewrite filter_none; [done|]. intros x Hx. rewrite Forall_forall in Hne. specialize (Hne x Hx). by rewrite bool_decide_false. }
  destruct (run_ticks_ok write_value seconds_before kb probe f interpreted (fun _ => true) cap ticks [] 0
    (EventStore_new (Z.of_nat cap), subscribed probe f interpreted, [])) as ([[store s] sent] & Hrun & [_ _ Hsent _]); [done|done| | | | |].
  - change ([] ++ pushes ticks) with (pushes ticks). rewrite E. constructor.
  - intros now x _ Hx. change ([] ++ pushes ticks) with (pushes ticks) in Hx. rewrite E in Hx. by apply elem_of_nil in Hx.
  - clear Hl Hne. change (pushes ticks) with ([] ++ pushes ticks) in E. revert E. generalize (@nil (string * Occurrence)) as ps.
    induction ticks as [|[name occ|now] ticks IH]; intros ps E; cbn [keeps_up]; [done| |].
    + apply IH. rewrite <- E. change (pushes (Pushed name occ :: ticks)) with ([(name, occ)] ++ pushes ticks). by rewrite (assoc_L (++)).
    + change (pushes (Polled now :: ticks)) with (pushes ticks) in E. rewrite of_probe_app in E. apply app_eq_nil in E as [E1 E2].
      rewrite E1. cbn -[Nat.min]. unfold next_sent. cbn [length]. rewrite Nat.min_0_r. apply IH. by rewrite of_probe_app, E1, E2.
  - split; cbn; [apply store_new_ok|done|done|lia].
  - exists store, s. rewrite Hrun. cbn [snd] in Hsent. rewrite Hsent. change ([] ++ pushes ticks) with (pushes ticks). rewrite E. cbn. by rewrite take_nil.
Qed.

(** The built-in readers push under their probe's name, which is never an identifier that [deploy]
    returns: a subscription by that identifier, as the protocol's documents have it, sees nothing. *)
Lemma deployed_id_silent write_value seconds_before kb n f interpreted cap ticks :
  (0 < cap)%nat -> zlen (pushes ticks) <= u64_max ->
  Forall (fun p : string * Occurrence => exists b, p.1 = pb_name (builtin b)) (pushes ticks) ->
  exists store s,
    run_ticks write_value seconds_before kb ticks
      (EventStore_new (Z.of_nat cap), subscribed (probe_id_of n) f interpreted, []) = Some (store, s, []).
Proof.
  intros Hc Hl Hb. apply unpushed_silent; [done|done|]. eapply Forall_impl; [exact Hb|]. intros x [b ->]. by destruct b.
Qed.

(** Events of a probe whose name is not a function the knowledge base knows carry no interpretation.
    The files under [knowledge/] know [tcp_retransmit_skb], [security_file_open] and
    [sched_process_exec], and these are asked about under their probe's name. *)
Lemma events_not_interpreted kb p raw k id now cluster :
  decode_event p raw = Ok k -> get_probe (pb_name (builtin p)) kb = None ->
  interpretations kb (to_occurrence id now k cluster) = [].
Proof.
  intros Hk Hno. destruct (to_occurrence_frame id now cluster p raw k Hk) as (Hs & _).
  assert (source_function (to_occurrence id now k cluster) = pb_name (builtin p)) as E.
  { unfold source_function. by rewrite Hs, strip_prefix_app. }
  unfold interpretations, explain. by rewrite E, Hno.
Qed.

(** A connection that succeeds has no [ret] to match, though the knowledge base explains [ret == 0]. *)
Lemma success_has_no_ret occ : occ_error occ = None -> ef_ret (extract_event_fields occ) = None.
Proof. unfold extract_event_fields. by intros ->. Qed.

(** A subscription to the last minute of connections, one at a poll, taken up when the store holds an
    older one: it starts with the others, and two further polls send what it has not yet. *)
Definition w_event (id : string) (secs : nat) : Occurrence := (w_occ 1) <| occ_id := id |> <| occ_timestamp := 1000000000 * Z.of_nat secs |>.
Definition w_minute : EventFilter := mkEventFilter (Some 60) None None None None None None (Some 1).
Definition w_wanted (occ : Occurrence) : bool := 40000000000 <=? occ_timestamp occ.
Definition w_now (secs : Z) : Tick := Polled (1000000000 * secs).
Definition w_ticks : list Tick :=
  [Pushed "tcp_connect" (w_event "01A" 3); Pushed "tcp_connect" (w_event "01B" 90); w_now 100;
   Pushed "file_open" (w_event "019" 101); Pushed "tcp_connect" (w_event "01C" 101); Pushed "tcp_connect" (w_event "01D" 102);
   w_now 103; w_now 155].
Definition w_bytes (v : Value) : result string (list byte) := Ok [].

Lemma stream_exactly_once_witness :
  exists st,
    run_ticks w_bytes w_before [] w_ticks (EventStore_new (Z.of_nat 3), subscribed "tcp_connect" w_minute false, []) = Some st /\
    st.2 = map (fun occ => encode_stream_event w_bytes [] occ 0 false) [w_event "01B" 90; w_event "01C" 101; w_event "01D" 102].
Proof.
  assert (of_probe "tcp_connect" (pushes w_ticks) = [w_event "01A" 3; w_event "01B" 90; w_event "01C" 101; w_event "01D" 102]) as E
    by reflexivity.
  destruct (stream_exactly_once w_bytes w_before [] "tcp_connect" w_minute false w_wanted 3 w_ticks) as (store & s & sent & Hrun & Hsent & _).
  - lia.
  - by vm_compute.
  - rewrite E. repeat constructor; by vm_compute.
  - rewrite E. intros now x Hnow Hx Hm.
    assert (now = 100000000000 \/ now = 103000000000 \/ now = 155000000000) as Hn
      by (unfold w_ticks, w_now in Hnow; rewrite !elem_of_cons, elem_of_nil in Hnow; naive_solver).
    apply elem_of_cons in Hx as [->|Hx]; [by destruct Hn as [->|[->| ->]]; vm_compute in Hm|].
    repeat (apply elem_of_cons in Hx as [->|Hx]; [reflexivity|]). by apply elem_of_nil in Hx.
  - by vm_compute.
  - eexists. split; [exact Hrun|]. rewrite Hsent. reflexivity.
Defined.

(** Two events of one millisecond, whose random parts sort against their order, and a poll between
    them: the second is never sent. *)
Example same_millisecond_event_skipped :
  snd <$> run_ticks w_bytes w_before []
    [Pushed "tcp_connect" (w_event "01HZX7J3KQ8" 1); Polled 10; Pushed "tcp_connect" (w_event "01HZX7J3KQ2" 1); Polled 20; Polled 30]
    (EventStore_new 16, subscribed "tcp_connect" EventFilter_default false, []) =
  Some [encode_stream_event w_bytes [] (w_event "01HZX7J3KQ8" 1) 0 false].
Proof. reflexivity. Qed.
