(* ===== verification/IpcConn.v ===== *)
(** The subscriptions of a connection and the tasks behind them: [ConnectionHandler] in
    [jalki/src/ipc.rs], whatever the client sends and however its tasks are scheduled. *)
From Stdlib Require Import Strings.Byte.
From stdpp Require Import base gmap list strings.
From S2P Require Import Prelude Text Float Protocol Store Knowledge Registry Daemon Ipc.

Section connection.
Context {D : Type} {H : DaemonOps D}.
Variable write_value : Value -> result string (list byte).
Variable read_value : list byte -> result string Value.
Variable to_lowercase : string -> string.
Variable rfc3339 : Z -> string.
Variable seconds_before : Z -> Z -> Z.
Variable kb : KnowledgeBase.

Notation connection_frame := (connection_frame write_value read_value to_lowercase rfc3339 seconds_before kb).
Notation stream_turn := (stream_turn write_value seconds_before kb).
Notation handle_unsubscribe := (handle_unsubscribe write_value).

(** What can happen to an open connection: a frame is read, under a ULID no subscription has; a task
    takes a turn; the daemon changes under it. *)
Inductive conn_step (c : Conn) : Conn -> Prop :=
| StepFrame env frame c' :
    cn_subscriptions c !! en_ulid env = None -> connection_frame env frame c = Some c' -> conn_step c c'
| StepTurn task now : conn_step c (stream_turn task now c)
| StepDaemon d : conn_step c (c <| cn_daemon := d |>).

(** Every subscription has its task, for the same probe, and every task that runs has its
    subscription. *)
Record routed (c : Conn (D := D)) : Prop := {
  rt_task id su : cn_subscriptions c !! id = Some su ->
    exists s, cn_streams c !! su_task su = Some s /\ sm_probe_id s = su_probe_id su;
  rt_live i s : cn_streams c !! i = Some s -> sm_aborted s = false ->
    exists id, cn_subscriptions c !! id = Some (mkSubscription (sm_probe_id s) i)
}.

Definition stopped (s : Stream) : Stream := s <| sm_aborted := true |>.

Inductive conn_reach (d : D) : Conn -> Prop :=
| ReachNew : conn_reach d (Conn_new d)
| ReachStep c c' : conn_reach d c -> conn_step c c' -> conn_reach d c'.

(* ------------------------------------------------------------------ *)
(** ** Aborting *)

Lemma abort_streams_lookup (l : list (string * Subscription)) (c : Conn (D := D)) i :
  let c' := foldr (fun ks => abort_stream (su_task ks.2)) c l in
  cn_streams c' !! i = (if decide (i ∈ map (fun ks => su_task ks.2) l) then stopped else id) <$> cn_streams c !! i.
Proof.
  induction l as [|ks l IH]; cbn -[decide] in *.
  - rewrite decide_False by apply not_elem_of_nil. by rewrite option_fmap_id.
  - destruct (decide (i = su_task ks.2)) as [->|Hne].
    + rewrite list_lookup_alter_eq, IH. rewrite (decide_True (P := _ ∈ _ :: _)) by left.
      destruct (cn_streams c !! su_task ks.2) as [s|]; [|done]. cbn. by case_decide.
    + rewrite list_lookup_alter_ne by done. rewrite IH. f_equal. symmetry. apply decide_ext. rewrite elem_of_cons. naive_solver.
Qed.

Lemma abort_streams_rest (l : list (string * Subscription)) (c : Conn (D := D)) :
  let c' := foldr (fun ks => abort_stream (su_task ks.2)) c l in
  cn_daemon c' = cn_daemon c /\ cn_sent c' = cn_sent c /\ cn_subscriptions c' = cn_subscriptions c.
Proof. by induction l. Qed.

(** Of the streams of a routed connection, [abort_subscriptions_for] stops those of the probe. *)
Lemma abort_for_lookup p (c : Conn (D := D)) n c' i s :
  routed c -> abort_subscriptions_for p c = (n, c') -> cn_streams c !! i = Some s ->
  cn_streams c' !! i = Some (if decide (sm_probe_id s = p) then stopped s else s).
Proof.
  intros [Htask Hlive] [= _ <-] Hi. cbn -[decide]. rewrite abort_streams_lookup, Hi. cbn -[decide]. f_equal.
  destruct (decide (i ∈ _)) as [Hin|Hout].
  - apply list_elem_of_fmap in Hin as ((id & su) & -> & Hid). apply elem_of_map_to_list, map_lookup_filter_Some in Hid as [Hid Hp].
    cbn in *. destruct (Htask id su Hid) as (s' & Hs' & E). rewrite Hi in Hs'. injection Hs' as <-. by rewrite decide_True by congruence.
  - destruct (decide (sm_probe_id s = p)) as [E|]; [|done]. destruct (sm_aborted s) eqn:Ha; [by destruct s; cbn in *; subst|].
    destruct (Hlive i s Hi Ha) as (id & Hid). destruct Hout. apply list_elem_of_fmap. exists (id, mkSubscription (sm_probe_id s) i).
    split; [done|]. by apply elem_of_map_to_list, map_lookup_filter_Some.
Qed.

Lemma abort_for_subscriptions p (c : Conn (D := D)) n c' :
  abort_subscriptions_for p c = (n, c') ->
  cn_subscriptions c' = filter (fun ks : string * Subscription => su_probe_id ks.2 <> p) (cn_subscriptions c) /\
  cn_daemon c' = cn_daemon c /\ cn_sent c' = cn_sent c.
Proof.
  intros [= _ <-]. destruct (abort_streams_rest (map_to_list (filter (fun ks : string * Subscription => su_probe_id ks.2 = p)
    (cn_subscriptions c))) c) as (H1 & H2 & H3). cbn. by rewrite H1, H2, H3.
Qed.

(** A task that was there before an abort is there after it, and the other way round. *)
Lemma abort_for_back p (c : Conn (D := D)) n c' i s :
  abort_subscriptions_for p c = (n, c') -> cn_streams c' !! i = Some s -> exists s0, cn_streams c !! i = Some s0.
Proof.
  intros [= _ <-]. cbn -[decide]. rewrite abort_streams_lookup. destruct (cn_streams c !! i); [by eexists|done].
Qed.

(** Closing stops them all. *)
Lemma close_stops (c : Conn (D := D)) i s : routed c -> cn_streams (close_connection c) !! i = Some s -> sm_aborted s = true.
Proof.
  intros [Htask Hlive]. unfold close_connection. cbn -[decide]. rewrite abort_streams_lookup.
  destruct (cn_streams c !! i) as [s0|] eqn:Hi; [|done]. cbn -[decide]. intros [= <-]. case_decide as Hin; [done|].
  apply not_false_is_true. intros Ha. destruct (Hlive i s0 Hi Ha) as (id & Hid). destruct Hin. apply list_elem_of_fmap.
  exists (id, mkSubscription (sm_probe_id s0) i). split; [done|]. by apply elem_of_map_to_list.
Qed.

(* ------------------------------------------------------------------ *)
(** ** The invariant *)

(** What a connection may change without touching its tasks. *)
Lemma routed_same (c c' : Conn (D := D)) :
  cn_streams c' = cn_streams c -> cn_subscriptions c' = cn_subscriptions c -> routed c -> routed c'.
Proof. intros E1 E2 [H1 H2]. split; rewrite ?E1, ?E2; done. Qed.

Lemma routed_new d : routed (Conn_new d).
Proof. split; done. Qed.

(** A task changes, keeping its probe; it may stop. *)
Lemma routed_insert (c c' : Conn (D := D)) i s s' :
  cn_streams c !! i = Some s -> sm_aborted s = false -> cn_streams c' = <[i := s']> (cn_streams c) ->
  cn_subscriptions c' = cn_subscriptions c -> sm_probe_id s' = sm_probe_id s -> routed c -> routed c'.
Proof.
  intros Hi Ha E1 E2 Hp [Htask Hlive]. split.
  - intros id su Hid. rewrite E2 in Hid. destruct (Htask id su Hid) as (s0 & H0 & Hs0). rewrite E1.
    destruct (decide (su_task su = i)) as [E|Hne].
    + subst i. exists s'. rewrite list_lookup_insert_eq by (by eapply lookup_lt_Some). split; [done|]. congruence.
    + exists s0. by rewrite list_lookup_insert_ne by done.
  - intros j s0 Hj Ha0. rewrite E1 in Hj. rewrite E2. destruct (decide (i = j)) as [<-|Hne].
    + rewrite list_lookup_insert_eq in Hj by (by eapply lookup_lt_Some). injection Hj as <-. rewrite Hp. by apply Hlive.
    + rewrite list_lookup_insert_ne in Hj by done. by apply Hlive.
Qed.

Lemma routed_turn task now c : routed c -> routed (stream_turn task now c).
Proof.
  intros Hr. unfold Ipc.stream_turn. destruct (cn_streams c !! task) as [s|] eqn:Hs; [|done].
  destruct (sm_aborted s) eqn:Ha; [done|]. destruct (sm_started s).
  - unfold stream_poll. eapply (routed_insert c); [exact Hs|exact Ha|reflexivity|reflexivity| |exact Hr]. by destruct (last _).
  - eapply (routed_insert c); [exact Hs|exact Ha|reflexivity|reflexivity|done|exact Hr].
Qed.

Lemma routed_abort_for p (c : Conn (D := D)) n c' : routed c -> abort_subscriptions_for p c = (n, c') -> routed c'.
Proof.
  intros Hr Hab. pose proof (abort_for_subscriptions p c n c' Hab) as (E & _). pose proof Hr as [Htask Hlive]. split.
  - intros id su Hid. rewrite E in Hid. apply map_lookup_filter_Some in Hid as [Hid Hp]. destruct (Htask id su Hid) as (s & Hs & Eq).
    exists s. rewrite (abort_for_lookup p c n c' _ _ Hr Hab Hs), decide_False by (cbn in Hp; congruence). done.
  - intros i s Hi Ha. destruct (abort_for_back p c n c' i s Hab Hi) as (s0 & H0).
    rewrite (abort_for_lookup p c n c' i s0 Hr Hab H0) in Hi. injection Hi as Hi. case_decide as Hp; [by subst s|]. subst s0.
    destruct (Hlive i s H0 Ha) as (id & Hid). exists id. rewrite E. apply map_lookup_filter_Some. by split.
Qed.

Lemma unsubscribe_routed params c : routed c -> routed (handle_unsubscribe params c).2.
Proof.
  intros Hr. unfold Ipc.handle_unsubscribe. destruct (get_str params "probe_id") as [p|]; [|done].
  destruct (abort_subscriptions_for p c) as [n c'] eqn:E. pose proof (routed_abort_for p c n c' Hr E) as Hr'. cbn.
  case_match; [|done]. by apply (routed_same c').
Qed.

Lemma subscribe_routed id params flags env (c : Conn (D := D)) :
  cn_subscriptions c !! en_ulid env = None -> routed c -> routed (handle_subscribe write_value id params flags env c).2.
Proof.
  intros Hfresh Hr. pose proof Hr as [Htask Hlive]. unfold handle_subscribe. destruct (get_str params "probe_id") as [p|]; [|done].
  cbn [snd]. split; cbn [cn_streams cn_subscriptions set eta eta_Conn].
  - intros k su [[<- <-]|[_ Hk]]%lookup_insert_Some; cbn.
    + eexists. rewrite lookup_app_r, Nat.sub_diag by done. by split.
    + destruct (Htask k su Hk) as (s & Hs & E). exists s. split; [|done]. by apply lookup_app_l_Some.
  - intros i s [Hi|[Hge Hi]]%lookup_app_Some Ha.
    + destruct (Hlive i s Hi Ha) as (k & Hk). exists k. rewrite lookup_insert_ne; [done|]. intros <-. by rewrite Hfresh in Hk.
    + apply list_lookup_singleton_Some in Hi as [Hi <-]. exists (en_ulid env). rewrite lookup_insert_eq. cbn. do 2 f_equal. lia.
Qed.

Lemma request_routed id method params flags env c bs c' :
  cn_subscriptions c !! en_ulid env = None -> routed c ->
  handle_request write_value to_lowercase rfc3339 seconds_before kb id method params flags env c = Some (bs, c') -> routed c'.
Proof.
  intros Hfresh Hr. unfold handle_request. destruct (method =? METHOD_SUBSCRIBE).
  { intros [= E]. pose proof (subscribe_routed id params flags env c Hfresh Hr) as H'. by rewrite E in H'. }
  assert (forall d, routed (c <| cn_daemon := d |>)) as Hd by (intros d0; apply (routed_same c); done).
  intros ([r c1] & Hm & [= _ <-])%bind_Some. unfold handle_method in Hm.
  repeat (destruct (method =? _); [|]); try (injection Hm as _ <-; done).
  - destruct (handle_deploy _ _ _) as [[r' d']|]; [|done]. injection Hm as _ <-. apply Hd.
  - injection Hm as _ <-. apply Hd.
  - injection Hm as Hm. pose proof (unsubscribe_routed params c Hr) as H'. by rewrite Hm in H'.
  - destruct (handle_ask _ _ _) as [[r' d']|]; [|done]. injection Hm as _ <-. apply Hd.
Qed.

Lemma step_routed c c' : routed c -> conn_step c c' -> routed c'.
Proof.
  intros Hr [env [[t flags] payload] c1 Hfresh Hf|task now|d].
  - unfold Ipc.connection_frame in Hf. destruct (t =? MSG_REQUEST).
    + destruct (decode_msgpack _ _) as [v|]; [|by simplify_eq].
      destruct v as [| | | | | | |[|id [|method [|params rest]]]| |]; try by simplify_eq.
      apply bind_Some in Hf as ([bs c2] & Hq & [= <-]). apply request_routed in Hq; [|done..]. by apply (routed_same c2).
    + destruct (t =? MSG_PING); injection Hf as <-; [|done]. by apply (routed_same c).
  - by apply routed_turn.
  - by apply (routed_same c).
Qed.

Lemma reach_routed d c : conn_reach d c -> routed c.
Proof. induction 1; [apply routed_new|by eapply step_routed]. Qed.

(** Unsubscribing stops the streams of the probe it names, and no others. On a connection reached
    by any frames, turns of its tasks and changes of the daemon, unsubscribing [p] answers with the
    number of subscriptions to [p]; it sends the end of the stream when there was one and nothing
    otherwise; from then on the tasks streaming [p] send nothing, the others are as they were, and
    so are the subscriptions to other probes. Closing the connection stops every task. *)
Theorem unsubscribe_exact d c params p :
  conn_reach d c -> get_str params "probe_id" = Some p ->
  let n := size (filter (fun ks : string * Subscription => su_probe_id ks.2 = p) (cn_subscriptions c)) in
  exists c',
    handle_unsubscribe params c =
      (Ok (VMap [(msgpack_str "ok", VBoolean true); (msgpack_str "stopped", VInteger (Z.of_nat n))]), c') /\
    cn_daemon c' = cn_daemon c /\
    cn_sent c' = cn_sent c ++
      (if (0 <? n)%nat then [value_frame write_value MSG_STREAM_END 0 (VArray [msgpack_str p]) "failed to encode STREAM_END payload"] else []) /\
    (forall i s, cn_streams c !! i = Some s ->
       cn_streams c' !! i = Some (if decide (sm_probe_id s = p) then stopped s else s) /\
       (sm_probe_id s = p -> forall now, stream_turn i now c' = c')) /\
    cn_subscriptions c' = filter (fun ks : string * Subscription => su_probe_id ks.2 <> p) (cn_subscriptions c) /\
    (forall i s, cn_streams (close_connection c') !! i = Some s -> sm_aborted s = true).
Proof.
  intros Hreach Hp n. apply reach_routed in Hreach as Hr. unfold Ipc.handle_unsubscribe. rewrite Hp.
  destruct (abort_subscriptions_for p c) as [m c1] eqn:E. assert (m = n) as -> by (injection E as <- _; apply length_map_to_list).
  destruct (abort_for_subscriptions p c n c1 E) as (E1 & E2 & E3). pose proof (fun i s => abort_for_lookup p c n c1 i s Hr E) as Hstreams.
  pose proof (routed_abort_for p c n c1 Hr E) as Hr1.
  set (c2 := if (0 <? n)%nat then _ else c1). exists c2. split; [done|].
  assert (cn_daemon c2 = cn_daemon c1 /\ cn_subscriptions c2 = cn_subscriptions c1 /\ cn_streams c2 = cn_streams c1) as (D1 & D2 & D3)
    by (subst c2; by destruct (0 <? n)%nat).
  split_and!.
  - by rewrite D1.
  - subst c2. destruct (0 <? n)%nat; cbn; [by rewrite E3|by rewrite E3, app_nil_r].
  - intros i s Hi. rewrite D3, (Hstreams i s Hi). split; [done|]. intros Heq now. unfold Ipc.stream_turn.
    rewrite D3, (Hstreams i s Hi), decide_True by done. done.
  - by rewrite D2.
  - intros i s Hi. eapply close_stops, Hi. exact (routed_same c1 _ D3 D2 Hr1).
Qed.
End connection.

(** A client subscribed to two probes, one task started, leaves one of them. *)
Definition w_probe (name : string) : Value := VMap [(msgpack_str "probe_id", msgpack_str name)].
Definition w_subscribe (bs : list byte) : result string Value :=
  Ok (VArray [VInteger 1; VInteger METHOD_SUBSCRIBE; w_probe (match bs with x01 :: _ => "tcp_connect" | _ => "file_open" end)]).
Definition w_ok (v : Value) : result string (list byte) := Ok [x00].
Definition w_frame (ulid : string) (b : byte) c :=
  connection_frame (H := w_ops) w_ok w_subscribe (fun s => s) (fun _ => "") (fun now s => now) [] (mkEnv w_ck 0 ulid (fun _ d => d)) (MSG_REQUEST, 0, [b]) c.
Definition w_two :=
  c ← w_frame "01A" x01 (Conn_new (w_daemon, EventStore_new 16));
  w_frame "01B" x02 (stream_turn (H := w_ops) w_ok (fun now s => now) [] 0 5 c).

Lemma unsubscribe_exact_witness :
  exists c c', w_two = Some c /\
    handle_unsubscribe w_ok (w_probe "tcp_connect") c =
      (Ok (VMap [(msgpack_str "ok", VBoolean true); (msgpack_str "stopped", VInteger 1)]), c') /\
    map sm_aborted (cn_streams c) = [false; false] /\
    sm_aborted <$> cn_streams c' !! 0%nat = Some true /\ sm_aborted <$> cn_streams c' !! 1%nat = Some false.
Proof.
  destruct w_two as [c|] eqn:E; [|by vm_compute in E].
  assert (conn_reach (H := w_ops) w_ok w_subscribe (fun s => s) (fun _ => "") (fun now s => now) [] (w_daemon, EventStore_new 16) c) as Hreach.
  { unfold w_two in E. destruct (w_frame "01A" x01 _) as [c1|] eqn:E1; [|done].
    eapply ReachStep; [eapply ReachStep; [eapply ReachStep; [apply ReachNew|]|]|].
    - eapply StepFrame; [|exact E1]. by vm_compute.
    - apply (StepTurn _ _ _ _ _ _ _ 0 5).
    - eapply StepFrame; [|exact E]. vm_compute in E1. injection E1 as <-. by vm_compute. }
  destruct (unsubscribe_exact (H := w_ops) w_ok w_subscribe (fun s => s) (fun _ => "") (fun now s => now) []
    (w_daemon, EventStore_new 16) c (w_probe "tcp_connect") "tcp_connect" Hreach eq_refl) as (c' & Hu & _ & _ & Hs & _).
  exists c, c'. split; [done|]. vm_compute in E. injection E as <-. split; [rewrite Hu; by vm_compute|]. split; [done|].
  split; [destruct (Hs 0%nat _ eq_refl) as [Hi _]|destruct (Hs 1%nat _ eq_refl) as [Hi _]]; rewrite Hi; reflexivity.
Defined.
