(* ===== verification/IpcJson.v ===== *)
(** The client's JSON layer ([jalki/src/ipc.rs]): requests by name, and the conversions between JSON
    and MessagePack values that the command line and the MCP server rely on. *)
From Stdlib Require Import Strings.Byte Sorted.
From S2P Require Import Prelude Text Float Store Knowledge Registry Ipc.

(* ------------------------------------------------------------------ *)
(** ** JSON

    [serde_json::Value]. A number is a [u64], a negative [i64] or a finite float; an object lists its
    entries in key order. *)

Inductive Number := NumPos (z : Z) | NumNeg (z : Z) | NumFloat (f : f64).
Inductive JsonValue :=
| JsNull
| JsBool (b : bool)
| JsNumber (n : Number)
| JsString (s : string)
| JsArray (l : list JsonValue)
| JsObject (l : list (string * JsonValue)).

(** [json!] of an integer and of a float. *)
Definition js_int (z : Z) : JsonValue := JsNumber (if 0 <=? z then NumPos z else NumNeg z).
Definition js_float (f : f64) : JsonValue := match f_dyadic f with Some _ => JsNumber (NumFloat f) | None => JsNull end.

Definition num_as_u64 (n : Number) : option Z := match n with NumPos z => Some z | _ => None end.
Definition num_as_i64 (n : Number) : option Z :=
  match n with NumPos z => if z <? 2 ^ 63 then Some z else None | NumNeg z => Some z | NumFloat _ => None end.
Definition num_as_f64 (n : Number) : option f64 :=
  match n with NumPos z | NumNeg z => Some (f_of_Z z) | NumFloat f => Some f end.

Definition js_as {A} (f : Number -> option A) (v : JsonValue) : option A := match v with JsNumber n => f n | _ => None end.
Definition js_as_str (v : JsonValue) : option string := match v with JsString s => Some s | _ => None end.
Definition js_as_array (v : JsonValue) : option (list JsonValue) := match v with JsArray l => Some l | _ => None end.

(** [Value::get] with a string: only an object has anything. *)
Definition js_get (key : string) (v : JsonValue) : option JsonValue :=
  match v with JsObject l => snd <$> find_first (fun kv => bool_decide (kv.1 = key)) l | _ => None end.

(** [Map::insert] *)
Fixpoint obj_insert (key : string) (v : JsonValue) (l : list (string * JsonValue)) : list (string * JsonValue) :=
  match l with
  | [] => [(key, v)]
  | (k, w) :: rest =>
      match String.compare key k with
      | Eq => (k, v) :: rest
      | Lt => (key, v) :: (k, w) :: rest
      | Gt => (k, w) :: obj_insert key v rest
      end
  end.
Definition js_object (l : list (string * JsonValue)) : JsonValue := JsObject (foldl (fun acc kv => obj_insert kv.1 kv.2 acc) [] l).

(* ------------------------------------------------------------------ *)
(** ** JSON and MessagePack *)

Fixpoint json_to_msgpack (v : JsonValue) : Value :=
  match v with
  | JsNull => VNil
  | JsBool b => VBoolean b
  | JsNumber n =>
      match num_as_u64 n with
      | Some i => VInteger i
      | None =>
          match num_as_i64 n with
          | Some i => VInteger i
          | None => match num_as_f64 n with Some f => VF64 f | None => VNil end
          end
      end
  | JsString s => msgpack_str s
  | JsArray l => VArray (map json_to_msgpack l)
  | JsObject l => VMap (map (fun kv => (msgpack_str kv.1, json_to_msgpack kv.2)) l)
  end.

Section client.
(** The [Display] of a MessagePack value. *)
Variable display : Value -> string.

Definition key_text (k : Value) : string := match k with VString _ => default "" (as_str k) | _ => display k end.

Fixpoint msgpack_to_json (v : Value) : JsonValue :=
  match v with
  | VNil => JsNull
  | VBoolean b => JsBool b
  | VInteger i => if (0 <=? i) && (i <=? u64_max) then js_int i else if (- 2 ^ 63 <=? i) && (i <? 2 ^ 63) then js_int i else JsNull
  | VF32 f | VF64 f => js_float f
  | VString _ => JsString (default "" (as_str v))
  | VBinary b => JsString (from_utf8_lossy b)
  | VArray l => JsArray (map msgpack_to_json l)
  | VMap l => js_object (map (fun kv => (key_text kv.1, msgpack_to_json kv.2)) l)
  | VExt _ _ => JsNull
  end.

(** The getters of [Response]. *)
Definition response_get_str (key : string) (r : Response) : option string := v ← rp_result r; get_str v key.
Definition response_get_u64 (key : string) (r : Response) : option Z := v ← rp_result r; get_u64 v key.
Definition response_get_f64 (key : string) (r : Response) : option f64 := v ← rp_result r; get_f64 v key.
Definition response_as_array (r : Response) : option (list Value) :=
  v ← rp_result r; match v with VArray l => Some l | _ => None end.
Definition response_to_json (r : Response) : JsonValue := match rp_result r with Some v => msgpack_to_json v | None => JsNull end.
End client.

Definition method_of_name (method : string) : option Z :=
  if bool_decide (method ∈ ["find_probe"; "find"]) then Some METHOD_FIND
  else if bool_decide (method ∈ ["deploy_probe"; "deploy"]) then Some METHOD_DEPLOY
  else if bool_decide (method ∈ ["detach_probe"; "detach"]) then Some METHOD_DETACH
  else if bool_decide (method = "subscribe") then Some METHOD_SUBSCRIBE
  else if bool_decide (method = "unsubscribe") then Some METHOD_UNSUBSCRIBE
  else if bool_decide (method ∈ ["probe_status"; "status"]) then Some METHOD_STATUS
  else if bool_decide (method = "ask") then Some METHOD_ASK
  else if bool_decide (method ∈ ["get_events"; "get_all_events"]) then Some METHOD_GET_EVENTS
  else None.

(** [call], over what [call_native] does to the world. *)
Definition call {W} (call_native : Z -> Value -> W -> result string Response * W) (method : string) (params : JsonValue) (w : W)
  : result string Response * W :=
  match method_of_name method with
  | None => (Ok (Response_err ("unknown method: " +:+ method)), w)
  | Some m => call_native m (json_to_msgpack params) w
  end.

(* ------------------------------------------------------------------ *)
(** ** The daemon at the other end

    A whole call, by [call_native_answered] of [Ipc]: the response a client sees is the result of the
    method's handler. [None] is a daemon that panicked; [closed] is what the client is then told. *)

Definition Response_of (res : result string Value) : Response :=
  match res with Ok v => Response_success v | Err msg => Response_err msg end.

Section daemon.
Context {D : Type} `{DaemonOps D}.
Variable write_value : Value -> result string (list byte).
Variable to_lowercase : string -> string.
Variable rfc3339 : Z -> string.
Variable seconds_before : Z -> Z -> Z.
Variable kb : KnowledgeBase.
Variable closed : string.

(** The daemon, and the clocks it reads. *)
Definition Remote : Type := option (Env (D := D) * D).

Definition call_daemon (method : Z) (params : Value) (w : Remote) : result string Response * Remote :=
  match w with
  | None => (Err closed, None)
  | Some (env, d) =>
      match handle_method write_value to_lowercase rfc3339 seconds_before kb method params env (Conn_new d) with
      | None => (Err closed, None)
      | Some (res, c) => (Ok (Response_of res), Some (env, cn_daemon c))
      end
  end.
End daemon.

(* ------------------------------------------------------------------ *)
(** ** Round trip *)

Definition num_ok (n : Number) : Prop :=
  match n with
  | NumPos z => is_u64 z
  | NumNeg z => - 2 ^ 63 <= z < 0
  | NumFloat f => is_Some (f_dyadic f)
  end.

Definition key_lt (a b : string * JsonValue) : Prop := String.compare a.1 b.1 = Lt.

(** What a parser can have made: numbers in range, text in UTF-8, keys in order and without repeats. *)
Fixpoint json_ok (v : JsonValue) : Prop :=
  match v with
  | JsNull | JsBool _ => True
  | JsNumber n => num_ok n
  | JsString s => utf8_valid (bytes_of s) = true
  | JsArray l => foldr (fun v P => json_ok v /\ P) True l
  | JsObject l => StronglySorted key_lt l /\ foldr (fun kv P => (utf8_valid (bytes_of kv.1) = true /\ json_ok kv.2) /\ P) True l
  end.

Section json_ind.
Variable P : JsonValue -> Prop.
Hypothesis Hnull : P JsNull.
Hypothesis Hbool : forall b, P (JsBool b).
Hypothesis Hnum : forall n, P (JsNumber n).
Hypothesis Hstr : forall s, P (JsString s).
Hypothesis Harr : forall l, Forall P l -> P (JsArray l).
Hypothesis Hobj : forall l, Forall (fun kv => P kv.2) l -> P (JsObject l).

Fixpoint JsonValue_ind' (v : JsonValue) : P v :=
  match v with
  | JsNull => Hnull
  | JsBool b => Hbool b
  | JsNumber n => Hnum n
  | JsString s => Hstr s
  | JsArray l => Harr l ((fix go l : Forall P l := match l with [] => Forall_nil_2 _ | x :: l => Forall_cons_2 _ _ _ (JsonValue_ind' x) (go l) end) l)
  | JsObject l =>
      Hobj l ((fix go l : Forall (fun kv => P kv.2) l :=
                 match l with [] => Forall_nil_2 _ | x :: l => Forall_cons_2 _ _ _ (JsonValue_ind' x.2) (go l) end) l)
  end.
End json_ind.

Lemma as_str_msgpack s : utf8_valid (bytes_of s) = true -> as_str (msgpack_str s) = Some s.
Proof. intros H. unfold msgpack_str, as_str. rewrite H. by rewrite string_of_bytes_of. Qed.

Lemma obj_insert_last key v l : Forall (fun kv => String.compare kv.1 key = Lt) l -> obj_insert key v l = l ++ [(key, v)].
Proof.
  induction 1 as [|[k w] l Hk Hl IH]; [done|]. cbn [obj_insert]. cbn in Hk.
  rewrite String.compare_antisym, Hk. cbn. by rewrite IH.
Qed.

Lemma js_object_sorted l acc :
  StronglySorted key_lt (acc ++ l) -> foldl (fun acc kv => obj_insert kv.1 kv.2 acc) acc l = acc ++ l.
Proof.
  revert acc. induction l as [|[k v] l IH]; intros acc Hs; cbn [foldl]; [by rewrite app_nil_r|].
  rewrite obj_insert_last.
  - rewrite IH by by rewrite <- app_assoc. by rewrite <- app_assoc.
  - apply StronglySorted_app in Hs as (H & _ & _). apply Forall_forall. intros kv Hkv. apply (H kv (k, v) Hkv). by left.
Qed.

Lemma str_to_json display s : utf8_valid (bytes_of s) = true -> msgpack_to_json display (msgpack_str s) = JsString s.
Proof. intros H. change (JsString (default "" (as_str (msgpack_str s))) = JsString s). by rewrite as_str_msgpack. Qed.

Lemma as_str_key s key : utf8_valid (bytes_of s) = true -> bool_decide (as_str (msgpack_str s) = Some key) = bool_decide (s = key).
Proof. intros H. rewrite as_str_msgpack by done. apply bool_decide_ext. by split; [intros [= ->] | intros ->]. Qed.

Lemma num_roundtrip display n : num_ok n -> msgpack_to_json display (json_to_msgpack (JsNumber n)) = JsNumber n.
Proof.
  destruct n as [z|z|f]; cbn.
  - intros [Hl Hu]. by rewrite (proj2 (Z.leb_le _ _) Hl), (proj2 (Z.leb_le _ _) Hu); cbn; unfold js_int; rewrite (proj2 (Z.leb_le _ _) Hl).
  - intros [Hl Hu]. assert (0 <=? z = false) as Hz by (apply Z.leb_gt; lia). rewrite Hz. cbn [andb].
    rewrite (proj2 (Z.leb_le _ _) Hl), (proj2 (Z.ltb_lt z (2 ^ 63))) by lia. cbn [andb]. unfold js_int. by rewrite Hz.
  - intros [d Hd]. unfold js_float. by rewrite Hd.
Qed.

(** The fields of an object are found under the same names in its image. *)
Lemma json_map_get v key : json_ok v -> map_get (json_to_msgpack v) key = json_to_msgpack <$> js_get key v.
Proof.
  destruct v as [| | n | | |l]; try done.
  - cbn. by destruct n as [z|z|f].
  - intros [_ H]. cbn [json_to_msgpack map_get js_get]. induction l as [|[k v] l IH]; [done|].
    destruct H as [[Hk _] H]. cbn [map find_first fst snd] in *. rewrite as_str_key by done.
    case_bool_decide; [done | by apply IH].
Qed.

Lemma json_field v key : json_ok v -> forall w, js_get key v = Some w -> json_ok w.
Proof.
  destruct v as [| | | | |l]; try done. intros [_ H] w. cbn [js_get].
  induction l as [|[k v] l IH]; [done|]. destruct H as [[_ Hv] H]. cbn [find_first fst snd].
  case_bool_decide; [by intros [= <-] | by apply IH].
Qed.

(** C39: What a client passes through the socket's encoding is what it gets back: converting any JSON
    value to MessagePack and back is the identity, and so is reading one of its fields: a string
    under a key, and a natural number, are found in the converted value exactly when they are in the
    JSON one. *)
Theorem json_roundtrip display v :
  json_ok v ->
  msgpack_to_json display (json_to_msgpack v) = v /\
  (forall key, get_str (json_to_msgpack v) key = js_get key v ≫= js_as_str /\
               get_u64 (json_to_msgpack v) key = js_get key v ≫= js_as num_as_u64).
Proof.
  intros Hv. split.
  - revert Hv. induction v as [|b|n|s|l IH|l IH] using JsonValue_ind'; intros Hv; try done.
    + by apply num_roundtrip.
    + by apply str_to_json.
    + cbn [json_to_msgpack msgpack_to_json]. f_equal. rewrite map_map. cbn in Hv.
      induction IH as [|x l Hx _ IHl]; [done|]. destruct Hv as [Hx' Hl]. cbn [map]. by rewrite Hx, IHl.
    + destruct Hv as [Hs Hl]. cbn [json_to_msgpack msgpack_to_json]. rewrite map_map. cbn [fst snd].
      rewrite (map_ext_in _ id), map_id; [unfold js_object; by rewrite js_object_sorted|].
      clear Hs. induction IH as [|[k x] l Hx _ IHl]; [by intros ? []|]. destruct Hl as [[Hk Hx'] Hl].
      intros kv [<- | Hin]; [|by apply IHl]. cbn [fst snd] in *. rewrite Hx by done. cbn. by rewrite Hk, string_of_bytes_of.
  - intros key. unfold get_str, get_u64. rewrite (json_map_get v key Hv).
    destruct (js_get key v) as [w|] eqn:Ew; [|done]. cbn. pose proof (json_field v key Hv w Ew) as Hw.
    destruct w as [| |n|s| |]; try done.
    + destruct n as [z|z|f]; cbn in *; try done; unfold is_u64 in Hw; case_match; try done; lia.
    + cbn in Hw. split; [by apply as_str_msgpack | done].
Qed.

(** Deploying by a call. *)
Section deploy_call.
Context {D : Type} `{DaemonOps D}.
Variable write_value : Value -> result string (list byte).
Variable to_lowercase : string -> string.
Variable rfc3339 : Z -> string.
Variable seconds_before : Z -> Z -> Z.
Variable kb : KnowledgeBase.
Variable closed : string.

Definition attached_value (id f : string) : Value :=
  VMap [(msgpack_str "probe_id", msgpack_str id); (msgpack_str "function", msgpack_str f); (msgpack_str "status", msgpack_str "attached")].

Lemma attached_json display id f :
  utf8_valid (bytes_of id) = true -> utf8_valid (bytes_of f) = true ->
  msgpack_to_json display (attached_value id f) =
    js_object [("probe_id", JsString id); ("function", JsString f); ("status", JsString "attached")].
Proof.
  intros Hid Hf. unfold attached_value. cbn [msgpack_to_json map fst snd].
  change (VString (bytes_of ?s)) with (msgpack_str s). by rewrite !str_to_json.
Qed.

Lemma call_deploy f params env d :
  get_str params "function" = Some f ->
  call_daemon write_value to_lowercase rfc3339 seconds_before kb closed METHOD_DEPLOY params (Some (env, d)) =
    match get_probe f kb with
    | None => (Ok (Response_err ("unknown function '" +:+ f +:+ "' — use find() to search")), Some (env, d))
    | Some _ =>
        match op_deploy f (en_clocks env) d with
        | None => (Err closed, None)
        | Some (Ok id, d) => (Ok (Response_success (attached_value id f)), Some (env, d))
        | Some (Err msg, d) => (Ok (Response_err msg), Some (env, d))
        end
    end.
Proof.
  intros Hf. unfold call_daemon, handle_method. cbn [METHOD_DEPLOY METHOD_FIND Z.eqb Pos.eqb cn_daemon Conn_new].
  unfold handle_deploy. rewrite Hf. destruct (get_probe f kb); [|done]. by destruct (op_deploy f _ d) as [[[id|msg] d']|].
Qed.
End deploy_call.

(** A request of the MCP server's with a window, a filter and a rate. *)
Definition w_json : JsonValue :=
  JsObject [("filter", JsObject [("last_seconds", JsNumber (NumPos 30)); ("pid", JsNumber (NumPos 4242))]);
            ("probe_id", JsString "probe_001"); ("ret", JsNumber (NumNeg (- 110))); ("sample_rate", JsNumber (NumFloat f_one));
            ("tags", JsArray [JsString "a"; JsNull; JsBool true])].

Lemma w_json_ok : json_ok w_json.
Proof. cbn. repeat (split || constructor || (by eexists) || lia || done). Defined.

Lemma json_roundtrip_witness : get_str (json_to_msgpack w_json) "probe_id" = Some "probe_001".
Proof. rewrite (proj1 (proj2 (json_roundtrip (fun _ => "") w_json w_json_ok) "probe_id")). reflexivity. Defined.
