(* ===== verification/Mcp.v ===== *)
(** The MCP server ([jalki-mcp/src/main.rs], [jalki-mcp/src/tools.rs]): JSON-RPC requests on stdin, one a
    line, answered on stdout from the knowledge base compiled into the binary or by the daemon.

    serde_json's parser and printers are parameters, as is what a call over the socket does: to a
    world [W], with the anyhow error as its text. *)
From Stdlib Require Import Strings.Byte.
From S2P Require Import Prelude Text Float Store Knowledge Registry Daemon Ipc IpcJson.

(* ------------------------------------------------------------------ *)
(** ** JSON-RPC *)

(** A missing field and a null one are both [None]. *)
Record JsonRpcRequest := mkJsonRpcRequest {
  rq_jsonrpc : string;
  rq_id : option JsonValue;
  rq_method : string;
  rq_params : option JsonValue
}.
Record JsonRpcError := mkJsonRpcError { re_code : Z; re_message : string }.
Record JsonRpcResponse := mkJsonRpcResponse {
  rs_jsonrpc : string;
  rs_id : JsonValue;
  rs_result : option JsonValue;
  rs_error : option JsonRpcError
}.

Definition handle_initialize : result string JsonValue :=
  Ok (js_object [("protocolVersion", JsString "2024-11-05");
                 ("capabilities", js_object [("tools", js_object [])]);
                 ("serverInfo", js_object [("name", JsString "jalki-mcp"); ("version", JsString "0.1.0")])]).

Definition handle_tools_list : result string JsonValue :=
  Ok (js_object [
    ("tools", JsArray [
      js_object [
        ("name", JsString "jalki_find_probe");
        ("description", JsString "Find which kernel probe answers your question. Always call this first — do not guess function names. Returns matching probes from the knowledge base ranked by relevance.");
        ("inputSchema", js_object [
          ("type", JsString "object");
          ("properties", js_object [
            ("question", js_object [
              ("type", JsString "string");
              ("description", JsString "Natural language question about what you want to observe. Examples: 'why are connections failing', 'is the network dropping packets', 'which process is connecting to port 5432'")])]);
          ("required", JsArray [JsString "question"])])];
      js_object [
        ("name", JsString "jalki_deploy_probe");
        ("description", JsString "Attach a kernel probe by function name. The probe starts collecting events immediately. Use jalki_find_probe first to identify the right function.");
        ("inputSchema", js_object [
          ("type", JsString "object");
          ("properties", js_object [
            ("function", js_object [
              ("type", JsString "string");
              ("description", JsString "Kernel function name, e.g. 'tcp_retransmit_skb', 'tcp_connect'")]);
            ("sample_rate", js_object [
              ("type", JsString "number");
              ("description", JsString "Sampling rate 0.0-1.0. Default 1.0 (all events). Use 0.1 for high-frequency probes like tcp_sendmsg.")])]);
          ("required", JsArray [JsString "function"])])];
      js_object [
        ("name", JsString "jalki_get_events");
        ("description", JsString "Retrieve collected events from an attached probe. Filter by IP, port, PID, or time window.");
        ("inputSchema", js_object [
          ("type", JsString "object");
          ("properties", js_object [
            ("probe_id", js_object [
              ("type", JsString "string");
              ("description", JsString "Probe ID returned by jalki_deploy_probe")]);
            ("last_seconds", js_object [
              ("type", JsString "integer");
              ("description", JsString "Only return events from the last N seconds. Default: 60")]);
            ("filter", js_object [
              ("type", JsString "object");
              ("properties", js_object [
                ("src_ip", js_object [("type", JsString "string")]);
                ("dst_ip", js_object [("type", JsString "string")]);
                ("src_port", js_object [("type", JsString "integer")]);
                ("dst_port", js_object [("type", JsString "integer")]);
                ("pid", js_object [("type", JsString "integer")]);
                ("command", js_object [("type", JsString "string")])]);
              ("description", JsString "Filter events by network tuple, process, or command")])]);
          ("required", JsArray [JsString "probe_id"])])];
      js_object [
        ("name", JsString "jalki_explain_event");
        ("description", JsString "Interpret a kernel event using the knowledge base. Returns conclusion, severity, recommended action, and common misdiagnoses to avoid.");
        ("inputSchema", js_object [
          ("type", JsString "object");
          ("properties", js_object [
            ("function", js_object [
              ("type", JsString "string");
              ("description", JsString "Kernel function that generated the event")]);
            ("ret", js_object [
              ("type", JsString "integer");
              ("description", JsString "Return value (for fexit probes). Negative = errno.")]);
            ("tcp_state", js_object [
              ("type", JsString "integer");
              ("description", JsString "TCP state value (for tcp_retransmit_skb). 1=ESTABLISHED, 2=SYN_SENT, etc.")])]);
          ("required", JsArray [JsString "function"])])];
      js_object [
        ("name", JsString "jalki_probe_status");
        ("description", JsString "List all attached probes with event counts, drop counts, and attachment time.");
        ("inputSchema", js_object [("type", JsString "object"); ("properties", js_object [])])];
      js_object [
        ("name", JsString "jalki_deploy_descriptor");
        ("description", JsString "Deploy a probe from a descriptor — the foundation for SDK-driven probe deployment. Specifies function, attachment type, fields, filter, and sampling.");
        ("inputSchema", js_object [
          ("type", JsString "object");
          ("properties", js_object [
            ("function", js_object [
              ("type", JsString "string");
              ("description", JsString "Kernel function to hook")]);
            ("attachment", js_object [
              ("type", JsString "string");
              ("enum", JsArray [JsString "fentry"; JsString "fexit"]);
              ("description", JsString "Hook type. Use fexit when you need the return value.")]);
            ("fields", js_object [
              ("type", JsString "array");
              ("schema_items", js_object [("type", JsString "string")]);
              ("description", JsString "Fields to extract from the event")]);
            ("filter", js_object [
              ("type", JsString "object");
              ("properties", js_object [
                ("dst_port", js_object [("type", JsString "integer")]);
                ("src_ip", js_object [("type", JsString "string")]);
                ("pid", js_object [("type", JsString "integer")]);
                ("command", js_object [("type", JsString "string")])])]);
            ("sample_rate", js_object [
              ("type", JsString "number");
              ("description", JsString "Sampling rate 0.0-1.0")]);
            ("event_type", js_object [
              ("type", JsString "string");
              ("description", JsString "FALSE Protocol occurrence type")])]);
          ("required", JsArray [JsString "function"; JsString "attachment"; JsString "event_type"])])]])]).

(* ------------------------------------------------------------------ *)
(** ** The advertised schemas *)

(** JSON Schema, as far as [tools/list] uses it: [required], and the [type] of a property. *)
Definition has_type (type : string) (v : JsonValue) : bool :=
  match v with
  | JsString _ => bool_decide (type = "string")
  | JsNumber _ => bool_decide (type = "number") || bool_decide (type = "integer")
  | JsObject _ => bool_decide (type = "object")
  | JsArray _ => bool_decide (type = "array")
  | _ => false
  end.

Definition schema_entries (v : option JsonValue) : list (string * JsonValue) := match v with Some (JsObject l) => l | _ => [] end.
Definition schema_items (v : option JsonValue) : list JsonValue := match v with Some (JsArray l) => l | _ => [] end.

Definition conforms (schema args : JsonValue) : bool :=
  forallb (fun k => match js_as_str k with Some k => bool_decide (is_Some (js_get k args)) | None => false end) (schema_items (js_get "required" schema)) &&
  forallb (fun kv => match js_get kv.1 args, js_get "type" kv.2 ≫= js_as_str with
                     | Some v, Some type => has_type type v
                     | _, _ => true
                     end) (schema_entries (js_get "properties" schema)).

(** The name and the input schema of each tool in the listing. *)
Definition listed_tools : list (string * JsonValue) :=
  match handle_tools_list with
  | Ok v => omap (fun t => name ← js_get "name" t ≫= js_as_str; schema ← js_get "inputSchema" t; Some (name, schema)) (schema_items (js_get "tools" v))
  | Err _ => []
  end.
Abbreviation tool_schema name := (default JsNull (snd <$> find_first (fun t => bool_decide (t.1 = name)) listed_tools)).

(* ------------------------------------------------------------------ *)
(** ** Tools *)

Section mcp.
Context {W : Type}.
Variable call_native : Z -> Value -> W -> result string Response * W.
(** [Display] of a MessagePack value, [str::to_lowercase], [to_string_pretty]. *)
Variable display : Value -> string.
Variable to_lowercase : string -> string.
Variable to_string_pretty : JsonValue -> result string string.
Variable kb : KnowledgeBase.

Definition field_json (f : FieldKnowledge) : JsonValue := js_object [("name", JsString (fk_name f)); ("meaning", JsString (fk_meaning f))].
Definition probe_json (probe : ProbeKnowledge) : JsonValue :=
  js_object [("function", JsString (pk_function probe)); ("attachment", JsString (pk_attachment probe));
             ("event_type", JsString (pk_event_type probe)); ("why", JsString (pk_use_when probe));
             ("combine_with", JsArray (map JsString (pk_combine_with probe)));
             ("fields", JsArray (map field_json (List.filter fk_important (pk_fields probe))))].

Definition arg_str (key : string) (args : JsonValue) : option string := js_get key args ≫= js_as_str.

Definition tool_find_probe (args : JsonValue) : result string JsonValue :=
  match arg_str "question" args with
  | None => Err "missing 'question' argument"
  | Some question =>
      let results := map probe_json (take 5 (find_probes to_lowercase question kb)) in
      Ok (match results with
          | [] => js_object [("matches", JsArray []);
                             ("suggestion", JsString "No matching probes found. Try broader keywords like 'connect', 'retransmit', 'send', 'accept'.")]
          | _ => js_object [("matches", JsArray results)]
          end)
  end.

Definition tool_explain_event (args : JsonValue) : result string JsonValue :=
  match arg_str "function" args with
  | None => Err "missing 'function' argument"
  | Some function =>
      let fields := mkEventFields (wrap_signed 32 <$> (js_get "ret" args ≫= js_as num_as_i64))
                                  (wrap 8 <$> (js_get "tcp_state" args ≫= js_as num_as_u64)) in
      match explain function fields kb with
      | [] =>
          match get_probe function kb with
          | Some probe =>
              Ok (js_object [("function", JsString function);
                             ("conclusion", JsString "No specific interpretation matches these field values.");
                             ("probe_info", js_object [("use_when", JsString (pk_use_when probe));
                                                       ("combine_with", JsArray (map JsString (pk_combine_with probe)))])])
          | None => Err ("unknown function '" +:+ function +:+ "'")
          end
      | best :: _ =>
          Ok (js_object [("function", JsString function); ("pattern", JsString (in_pattern best));
                         ("conclusion", JsString (in_conclusion best)); ("severity", JsString (in_severity best));
                         ("action", JsString (in_action best));
                         ("errno", match in_errno best with Some e => JsString e | None => JsNull end)])
      end
  end.

(** The ends of the four tools that ask the daemon. *)
Definition answered_with (r : result string Response) (k : JsonValue -> JsonValue) : result string JsonValue :=
  match r with
  | Err e => Err ("daemon connection failed: " +:+ e)
  | Ok resp => if rp_ok resp then Ok (k (response_to_json display resp)) else Err (default "unknown error" (rp_error resp))
  end.

Definition deploy_args (function : string) (sample_rate : f64) : JsonValue :=
  js_object [("function", JsString function); ("sample_rate", js_float sample_rate)].

Definition tool_deploy_probe (args : JsonValue) (w : W) : result string JsonValue * W :=
  match arg_str "function" args with
  | None => (Err "missing 'function' argument", w)
  | Some function =>
      let sample_rate := default f_one (js_get "sample_rate" args ≫= js_as num_as_f64) in
      match get_probe function kb with
      | None => (Err ("unknown function '" +:+ function +:+ "'. Use jalki_find_probe to search the knowledge base."), w)
      | Some _ =>
          let '(r, w) := call call_native "deploy_probe" (deploy_args function sample_rate) w in
          (answered_with r (fun v => v), w)
      end
  end.

Definition tool_get_events (args : JsonValue) (w : W) : result string JsonValue * W :=
  let '(r, w) := call call_native "get_events" args w in (answered_with r (fun v => v), w).

Definition tool_probe_status (args : JsonValue) (w : W) : result string JsonValue * W :=
  let '(r, w) := call call_native "probe_status" (js_object []) w in (answered_with r (fun v => v), w).

(** [as_object_mut] and two inserts. *)
Definition with_descriptor (attachment : string) (event_type : JsonValue) (v : JsonValue) : JsonValue :=
  match v with
  | JsObject l => JsObject (obj_insert "event_type" event_type (obj_insert "attachment" (JsString attachment) l))
  | _ => v
  end.

Definition tool_deploy_descriptor (args : JsonValue) (w : W) : result string JsonValue * W :=
  match arg_str "function" args with
  | None => (Err "missing 'function'", w)
  | Some function =>
      match arg_str "attachment" args with
      | None => (Err "missing 'attachment'", w)
      | Some attachment =>
          let deploy :=
            let sample_rate := default f_one (js_get "sample_rate" args ≫= js_as num_as_f64) in
            let '(r, w) := call call_native "deploy_probe" (deploy_args function sample_rate) w in
            (answered_with r (with_descriptor attachment (default JsNull (js_get "event_type" args))), w) in
          match get_probe function kb with
          | Some probe =>
              if bool_decide (pk_attachment probe <> attachment)
              then (Err ("knowledge base recommends '" +:+ pk_attachment probe +:+ "' for " +:+ function +:+ ", not '" +:+ attachment +:+ "'"), w)
              else deploy
          | None => deploy
          end
      end
  end.

(** The dispatch of [handle_tools_call]. *)
Definition tool (name : string) (args : JsonValue) (w : W) : result string JsonValue * W :=
  if bool_decide (name = "jalki_find_probe") then (tool_find_probe args, w)
  else if bool_decide (name = "jalki_deploy_probe") then tool_deploy_probe args w
  else if bool_decide (name = "jalki_get_events") then tool_get_events args w
  else if bool_decide (name = "jalki_explain_event") then (tool_explain_event args, w)
  else if bool_decide (name = "jalki_probe_status") then tool_probe_status args w
  else if bool_decide (name = "jalki_deploy_descriptor") then tool_deploy_descriptor args w
  else (Err ("unknown tool: " +:+ name), w).

Definition text_content (text : string) : string * JsonValue :=
  ("content", JsArray [js_object [("type", JsString "text"); ("text", JsString text)]]).

Definition handle_tools_call (params : option JsonValue) (w : W) : result string JsonValue * W :=
  match params with
  | None => (Err "missing params", w)
  | Some params =>
      match arg_str "name" params with
      | None => (Err "missing tool name", w)
      | Some tool_name =>
          let args := default (js_object []) (js_get "arguments" params) in
          let '(r, w) := tool tool_name args w in
          (Ok (match r with
               | Ok content => js_object [text_content (match to_string_pretty content with Ok s => s | Err _ => "" end)]
               | Err e => js_object [text_content e; ("isError", JsBool true)]
               end), w)
      end
  end.

(** [JalkiState::handle] *)
Definition handle (method : string) (params : option JsonValue) (w : W) : result string JsonValue * W :=
  if bool_decide (method = "initialize") then (handle_initialize, w)
  else if bool_decide (method = "tools/list") then (handle_tools_list, w)
  else if bool_decide (method = "tools/call") then handle_tools_call params w
  else (Err ("unknown method: " +:+ method), w).

(* ------------------------------------------------------------------ *)
(** ** The server *)

Variable from_str : string -> result string JsonRpcRequest.
Variable to_string : JsonRpcResponse -> result string string.

Definition parse_error (e : string) : JsonRpcResponse :=
  mkJsonRpcResponse "2.0" JsNull None (Some (mkJsonRpcError (-32700) ("parse error: " +:+ e))).
Definition rpc_response (id : JsonValue) (r : result string JsonValue) : JsonRpcResponse :=
  match r with
  | Ok v => mkJsonRpcResponse "2.0" id (Some v) None
  | Err e => mkJsonRpcResponse "2.0" id None (Some (mkJsonRpcError (-32603) e))
  end.

(** What a line is answered with, if anything. *)
Definition answer (line : string) (w : W) : option JsonRpcResponse * W :=
  if bool_decide (line = "") then (None, w) else
  match from_str line with
  | Err e => (Some (parse_error e), w)
  | Ok request =>
      match rq_id request with
      | None => (None, w)
      | Some id => let '(r, w) := handle (rq_method request) (rq_params request) w in (Some (rpc_response id r), w)
      end
  end.

(** [main]: the lines as [next_line] gives them, what was written, and whether the next write to
    stdout works. *)
Variable write_ok : list string -> bool.

Fixpoint serve (lines : list (result string string)) (out : list string) (w : W) : result string unit * list string * W :=
  match lines with
  | [] | Err _ :: _ => (Ok tt, out, w)
  | Ok line :: lines =>
      match answer line w with
      | (None, w) => serve lines out w
      | (Some resp, w) =>
          match to_string resp with
          | Err e => (Err e, out, w)
          | Ok json => if write_ok out then serve lines (out ++ [json]) w else (Err "write", out, w)
          end
      end
  end.

(* ------------------------------------------------------------------ *)
(** ** Requests and responses *)

Fixpoint readable (lines : list (result string string)) : list string :=
  match lines with Ok line :: rest => line :: readable rest | _ => [] end.

(** The lines that ask for a response: all but empty ones and notifications. *)
Definition wants_reply (line : string) : bool :=
  negb (bool_decide (line = "")) &&
  match from_str line with Err _ => true | Ok rq => bool_decide (is_Some (rq_id rq)) end.

(** A response to a line: of a request it carries the id, and either a result or an internal error. *)
Definition replies (line : string) (resp : JsonRpcResponse) : Prop :=
  match from_str line with
  | Err e => resp = parse_error e
  | Ok rq =>
      rq_id rq = Some (rs_id resp) /\ rs_jsonrpc resp = "2.0" /\
      ((exists v, rs_result resp = Some v /\ rs_error resp = None) \/
       (exists e, rs_result resp = None /\ rs_error resp = Some (mkJsonRpcError (-32603) e)))
  end.

(** The tool calls of a line, and what one does to the world. *)
Definition tool_request (line : string) : option (option JsonValue) :=
  if bool_decide (line = "") then None else
  match from_str line with
  | Ok rq => if bool_decide (is_Some (rq_id rq) /\ rq_method rq = "tools/call") then Some (rq_params rq) else None
  | Err _ => None
  end.
Definition call_effect (w : W) (params : option JsonValue) : W := (handle_tools_call params w).2.

Lemma rpc_response_replies id r line rq :
  from_str line = Ok rq -> rq_id rq = Some id -> replies line (rpc_response id r).
Proof. intros Hf Hid. unfold replies. rewrite Hf. destruct r as [v|e]; cbn; split_and!; eauto. Qed.

Lemma handle_effect method params w :
  (handle method params w).2 = if bool_decide (method = "tools/call") then call_effect w params else w.
Proof.
  unfold handle. destruct (bool_decide_reflect (method = "initialize")) as [->|_]; [done|].
  destruct (bool_decide_reflect (method = "tools/list")) as [->|_]; [done|]. by case_bool_decide.
Qed.

Lemma answer_spec line w :
  match (answer line w).1 with
  | Some resp => wants_reply line = true /\ replies line resp
  | None => wants_reply line = false
  end /\ (answer line w).2 = foldl call_effect w (option_list (tool_request line)).
Proof.
  unfold answer, wants_reply, tool_request, replies. case_bool_decide; [done|].
  destruct (from_str line) as [rq|e] eqn:Hf; [|done].
  destruct (rq_id rq) as [id|] eqn:Hid.
  - pose proof (handle_effect (rq_method rq) (rq_params rq) w) as He.
    destruct (handle _ _ w) as [r w']. cbn [fst snd] in *. rewrite (bool_decide_eq_true_2 (is_Some (Some id))) by done.
    split.
    + split; [done|]. pose proof (rpc_response_replies id r line rq Hf Hid) as Hr. unfold replies in Hr. by rewrite Hf, Hid in Hr.
    + rewrite He. case_bool_decide as Hm; case_bool_decide as Hm'; try done; exfalso; naive_solver.
  - rewrite !bool_decide_eq_false_2 by (intros [x Hx]; by inversion Hx || (destruct x; naive_solver)). done.
Qed.

Lemma serve_spec lines out w :
  exists served written lost new,
    (serve lines out w).1.2 = out ++ new /\
    served `prefix_of` readable lines /\ Forall2 replies (List.filter wants_reply served) (written ++ lost) /\
    Forall2 (fun resp json => to_string resp = Ok json) written new /\
    match (serve lines out w).1.1 with
    | Ok _ => served = readable lines /\ lost = []
    | Err e => exists resp, lost = [resp] /\ (to_string resp = Err e \/ write_ok (out ++ new) = false)
    end /\
    (serve lines out w).2 = foldl call_effect w (omap tool_request served).
Proof.
  revert out w. induction lines as [|[line|e] lines IH]; intros out w.
  1,3: exists [], [], [], []; cbn; rewrite app_nil_r; split_and!; (done || (by apply prefix_nil) || constructor).
  cbn [serve readable]. pose proof (answer_spec line w) as [Ha Hw]. destruct (answer line w) as [[resp|] w1]; cbn [fst snd] in *.
  - destruct Ha as [Hwants Hr]. destruct (to_string resp) as [json|e] eqn:Hjson; [destruct (write_ok out) eqn:Hwrite|].
    + destruct (IH (out ++ [json]) w1) as (served & written & lost & new & Ho & Hp & Hf & Ht & Hok & He).
      exists (line :: served), (resp :: written), lost, (json :: new). rewrite Ho, He, <- app_assoc in *. split_and!; try done.
      * by apply prefix_cons.
      * cbn. rewrite Hwants. by constructor.
      * by constructor.
      * destruct (serve lines _ _) as [[[u|e] ?] ?]; cbn in *; [by destruct Hok as [-> ->]|done].
      * rewrite Hw. cbn. by destruct (tool_request line).
    + exists [line], [], [resp], []. cbn. rewrite Hwants, app_nil_r. split_and!; try done; [|by repeat constructor|by exists resp; auto].
      apply prefix_cons, prefix_nil.
    + exists [line], [], [resp], []. cbn. rewrite Hwants, app_nil_r. split_and!; try done; [|by repeat constructor|by exists resp; auto].
      apply prefix_cons, prefix_nil.
  - destruct (IH out w1) as (served & written & lost & new & Ho & Hp & Hf & Ht & Hok & He).
    exists (line :: served), written, lost, new. rewrite Ho, He. split_and!; try done.
    + by apply prefix_cons.
    + cbn. by rewrite Ha.
    + destruct (serve lines _ _) as [[[u|e] ?] ?]; cbn in *; [by destruct Hok as [-> ->]|done].
    + rewrite Hw. cbn [omap list_omap]. by destruct (tool_request line).
Qed.

(** A line that cannot be read ends the serving as the end of the input does: what follows it is
    never looked at. *)
Lemma unreadable_line_ends_serving before e after out w :
  serve (map Ok before ++ Err e :: after) out w = serve (map Ok before) out w.
Proof.
  revert out w. induction before as [|line before IH]; intros out w; [done|]. cbn [map app serve].
  destruct (answer line w) as [[resp|] w1]; [|apply IH]. destruct (to_string resp); [|done]. destruct (write_ok out); [apply IH|done].
Qed.

(** C38: over the lines before the first that cannot be read, the server answers each request with
    exactly one line, in the order of the requests, and nothing else is written: empty lines and
    notifications get none, a line that does not parse gets a parse error with a null id, any other
    a result or an internal error under its own id. Only [tools/call] requests have an effect, each
    once and in order, and a notification of one has none. The server ends with success when the
    input does, or at a line that cannot be read (one that is not UTF-8), whatever follows it: see
    [unreadable_line_ends_serving]. It ends with an error only when a response cannot be encoded or
    written, and then that response alone, to the last line it read, is missing. *)
Theorem every_request_answered lines w :
  let '(r, out, w') := serve lines [] w in
  exists served written lost,
    served `prefix_of` readable lines /\ Forall2 replies (List.filter wants_reply served) (written ++ lost) /\
    Forall2 (fun resp json => to_string resp = Ok json) written out /\
    match r with
    | Ok _ => served = readable lines /\ lost = []
    | Err e => exists resp, lost = [resp] /\ (to_string resp = Err e \/ write_ok out = false)
    end /\
    w' = foldl call_effect w (omap tool_request served).
Proof.
  destruct (serve_spec lines [] w) as (served & written & lost & new & Ho & H). destruct (serve lines [] w) as [[r out] w'].
  cbn in *. subst. by exists served, written, lost.
Qed.

(* ------------------------------------------------------------------ *)
(** ** What a call can be refused for *)

(** A complaint about the call itself, and the daemon's part in one. *)
Definition call_error (name msg : string) : Prop := starts_with msg "missing" = true \/ msg = "unknown tool: " +:+ name.
Definition daemon_said (w : W) (msg : string) : Prop :=
  exists method params resp, (call_native method params w).1 = Ok resp /\ rp_ok resp = false /\ rp_error resp = Some msg.

Lemma answered_with_error r k msg :
  answered_with r k = Err msg -> starts_with msg "missing" = true \/ (exists name, msg = "unknown tool: " +:+ name) ->
  exists resp, r = Ok resp /\ rp_ok resp = false /\ rp_error resp = Some msg.
Proof.
  unfold answered_with. destruct r as [resp|e].
  - destruct (rp_ok resp) eqn:Hok; [done|]. intros [= <-] Hm. exists resp. destruct (rp_error resp); [done|]. by destruct Hm as [|[]].
  - intros [= <-] [|[]]; done.
Qed.

Lemma forwarded_error method code params w k msg w' name :
  (let '(r, w1) := call call_native method params w in (answered_with r k, w1)) = (Err msg, w') ->
  method_of_name method = Some code -> call_error name msg -> daemon_said w msg.
Proof.
  unfold call. intros Ht Hm He. rewrite Hm in Ht. destruct (call_native code (json_to_msgpack params) w) as [r w1] eqn:Hc.
  injection Ht as Ht <-. destruct (answered_with_error r k msg Ht) as (resp & -> & Hok & Herr); [destruct He; eauto|].
  exists code, (json_to_msgpack params), resp. by rewrite Hc.
Qed.
End mcp.

Lemma string_arg key args : is_Some (js_get key args) -> (forall v, js_get key args = Some v -> has_type "string" v = true) -> is_Some (arg_str key args).
Proof. intros [v Hv] Ht. specialize (Ht v Hv). unfold arg_str. rewrite Hv. destruct v; naive_solver. Qed.

Lemma conforms_string schema args key :
  JsString key ∈ schema_items (js_get "required" schema) ->
  (exists p, (key, p) ∈ schema_entries (js_get "properties" schema) /\ (js_get "type" p ≫= js_as_str) = Some "string") ->
  conforms schema args = true -> is_Some (arg_str key args).
Proof.
  intros Hr (p & Hp & Ht) [Hreq Hprops]%andb_prop. rewrite forallb_forall in Hreq, Hprops.
  apply list_elem_of_In in Hr, Hp. specialize (Hreq _ Hr). specialize (Hprops _ Hp). cbn in Hreq, Hprops.
  apply string_arg; [by apply bool_decide_eq_true in Hreq|]. intros v Hv. by rewrite Hv, Ht in Hprops.
Qed.

Ltac in_list := first [left | right; in_list].
Ltac closed_in := vm_compute; in_list.

Section calls.
Context {W : Type}.
Variable call_native : Z -> Value -> W -> result string Response * W.
Variable display : Value -> string.
Variable to_lowercase : string -> string.
Variable kb : KnowledgeBase.

(** The listing tells the truth about the calls. A tool is dispatched exactly when it is listed.
    Given arguments that have the properties its schema requires, with the types it states, no tool
    complains about its arguments: any such complaint is one the daemon answered with. *)
Theorem listed_tools_understood name args w :
  (name ∉ map fst listed_tools -> tool call_native display to_lowercase kb name args w = (Err ("unknown tool: " +:+ name), w)) /\
  (forall schema msg w',
     (name, schema) ∈ listed_tools -> conforms schema args = true ->
     tool call_native display to_lowercase kb name args w = (Err msg, w') ->
     call_error name msg -> daemon_said call_native w msg).
Proof.
  split.
  - intros Hn. unfold tool. repeat (case_bool_decide; [subst; destruct Hn; closed_in|]). done.
  - intros schema msg w' Hin Hc Ht He.
    pose proof (fun key Hr Hp => conforms_string schema args key Hr Hp Hc) as Harg. clear Hc.
    apply list_elem_of_In in Hin. set (l := listed_tools) in Hin. vm_compute in l. subst l.
    repeat destruct Hin as [Hin|Hin]; try done; injection Hin as <- <-.
    + destruct (Harg "question") as [q Hq]; [closed_in|eexists; split; [closed_in|done]|].
      injection Ht as Ht _. unfold tool_find_probe in Ht. by rewrite Hq in Ht.
    + destruct (Harg "function") as [f Hf]; [closed_in|eexists; split; [closed_in|done]|].
      change (tool_deploy_probe call_native display kb args w = (Err msg, w')) in Ht. unfold tool_deploy_probe in Ht.
      rewrite Hf in Ht. case_match; [by (eapply forwarded_error; [exact Ht|reflexivity|exact He])|]. injection Ht as <- _. by destruct He.
    + change (tool_get_events call_native display args w = (Err msg, w')) in Ht. eapply forwarded_error; [exact Ht|reflexivity|exact He].
    + destruct (Harg "function") as [f Hf]; [closed_in|eexists; split; [closed_in|done]|].
      injection Ht as Ht _. unfold tool_explain_event in Ht. rewrite Hf in Ht. repeat case_match; try done.
      injection Ht as <-. by destruct He.
    + change (tool_probe_status call_native display args w = (Err msg, w')) in Ht. eapply forwarded_error; [exact Ht|reflexivity|exact He].
    + destruct (Harg "function") as [f Hf]; [closed_in|eexists; split; [closed_in|done]|].
      destruct (Harg "attachment") as [a Ha]; [closed_in|eexists; split; [closed_in|done]|].
      change (tool_deploy_descriptor call_native display kb args w = (Err msg, w')) in Ht. unfold tool_deploy_descriptor in Ht.
      rewrite Hf, Ha in Ht.
      destruct (get_probe f kb) as [p|]; [case_bool_decide; [injection Ht as <- _; by destruct He|]|];
        (eapply forwarded_error; [exact Ht|reflexivity|exact He]).
Qed.
End calls.

(* ------------------------------------------------------------------ *)
(** ** Deploying through the server *)

Section deploy.
Context {D : Type} `{DaemonOps D}.
Variable write_value : Value -> result string (list byte).
Variable display : Value -> string.
Variable to_lowercase : string -> string.
Variable rfc3339 : Z -> string.
Variable seconds_before : Z -> Z -> Z.
Variable kb : KnowledgeBase.
Variable env : Env (D := D).
Variable closed : string.

Abbreviation daemon := (call_daemon write_value to_lowercase rfc3339 seconds_before kb closed).
Abbreviation mcp := (tool daemon display to_lowercase kb).

(** What a deploy of [f] comes to, with [more] fields in its result. *)
Definition deploy_outcome (f : string) (more : list (string * JsonValue)) (d : D) : result string JsonValue * Remote (D := D) :=
  match op_deploy f (en_clocks env) d with
  | None => (Err ("daemon connection failed: " +:+ closed), None)
  | Some (Err msg, d') => (Err msg, Some (env, d'))
  | Some (Ok id, d') =>
      (Ok (js_object ([("probe_id", JsString id); ("function", JsString f); ("status", JsString "attached")] ++ more)), Some (env, d'))
  end.

Definition texts_ok (f : string) (d : D) : Prop :=
  utf8_valid (bytes_of f) = true /\
  forall id d', op_deploy f (en_clocks env) d = Some (Ok id, d') -> utf8_valid (bytes_of id) = true.

Lemma deploy_args_json f r : deploy_args f r = JsObject [("function", JsString f); ("sample_rate", js_float r)].
Proof. reflexivity. Qed.

Lemma deploy_args_function f r : utf8_valid (bytes_of f) = true -> get_str (json_to_msgpack (deploy_args f r)) "function" = Some f.
Proof. intros Hf. rewrite deploy_args_json. cbn. by apply as_str_msgpack. Qed.

Lemma deploy_call f r d :
  call daemon "deploy_probe" (deploy_args f r) (Some (env, d)) = daemon METHOD_DEPLOY (json_to_msgpack (deploy_args f r)) (Some (env, d)).
Proof. reflexivity. Qed.

Lemma known_deploy f r d p k more :
  texts_ok f d -> get_probe f kb = Some p ->
  (forall id, k (js_object [("probe_id", JsString id); ("function", JsString f); ("status", JsString "attached")]) =
              js_object ([("probe_id", JsString id); ("function", JsString f); ("status", JsString "attached")] ++ more)) ->
  (let '(res, w) := call daemon "deploy_probe" (deploy_args f r) (Some (env, d)) in (answered_with display res k, w)) = deploy_outcome f more d.
Proof.
  intros [Hf Hid] Hp Hk. rewrite deploy_call, (call_deploy _ _ _ _ _ _ f) by by apply deploy_args_function. rewrite Hp. unfold deploy_outcome.
  destruct (op_deploy f (en_clocks env) d) as [[[id|msg] d']|] eqn:Ho; [|done|done].
  unfold answered_with. cbn [rp_ok Response_success]. f_equal. f_equal. rewrite <- Hk. f_equal.
  apply attached_json; [by eapply Hid|done].
Qed.

(** Deploying through the server is deploying on the daemon. For a function of the knowledge base,
    [jalki_deploy_probe] does to the daemon exactly its deploy operation, and answers with the new
    probe's id or with the daemon's reason; [jalki_deploy_descriptor], given the attachment the
    knowledge base has, does the same and echoes the attachment and the event type. Nothing else of
    the arguments, neither a rate, fields nor a filter, plays a part. [jalki_deploy_probe] refuses a
    function the knowledge base does not have, and [jalki_deploy_descriptor] another attachment than
    it has, without a call. *)
Theorem deploy_tools_deploy args f d :
  arg_str "function" args = Some f -> texts_ok f d ->
  match get_probe f kb with
  | None => exists msg, mcp "jalki_deploy_probe" args (Some (env, d)) = (Err msg, Some (env, d))
  | Some p =>
      mcp "jalki_deploy_probe" args (Some (env, d)) = deploy_outcome f [] d /\
      forall a, arg_str "attachment" args = Some a ->
        mcp "jalki_deploy_descriptor" args (Some (env, d)) =
          if bool_decide (pk_attachment p = a)
          then deploy_outcome f [("attachment", JsString a); ("event_type", default JsNull (js_get "event_type" args))] d
          else (Err ("knowledge base recommends '" +:+ pk_attachment p +:+ "' for " +:+ f +:+ ", not '" +:+ a +:+ "'"), Some (env, d))
  end.
Proof.
  intros Hf Ht.
  change (mcp "jalki_deploy_probe" args (Some (env, d))) with (tool_deploy_probe daemon display kb args (Some (env, d))).
  change (mcp "jalki_deploy_descriptor" args (Some (env, d))) with (tool_deploy_descriptor daemon display kb args (Some (env, d))).
  unfold tool_deploy_probe, tool_deploy_descriptor. rewrite Hf. destruct (get_probe f kb) as [p|] eqn:Hp; [|by eexists].
  split; [by eapply known_deploy|]. intros a ->. case_bool_decide; case_bool_decide; try done.
  by apply (known_deploy _ _ _ p).
Qed.
End deploy.

(** A window next to the filter, where the schema of [jalki_get_events] puts it, is not where the
    daemon looks for one. *)
Theorem events_window_ignored args :
  json_ok args -> js_get "filter" args = None -> ef_last_seconds (parse_event_filter (json_to_msgpack args)) = Some 60.
Proof.
  intros Ha Hf. unfold parse_event_filter. rewrite json_map_get, Hf by done. reflexivity.
Qed.

(* ------------------------------------------------------------------ *)
(** ** Concrete runs *)

(** A daemon that attaches whatever it is asked for. *)
Definition w_attaching : DaemonOps (list string) := {|
  op_deploy f _ d := Some (Ok ("probe_" +:+ dec (zlen d)), d ++ [f]);
  op_detach _ d := (Ok true, d);
  op_status _ := [];
  op_store _ := EventStore_new 16
|}.
Definition w_kb : KnowledgeBase :=
  [mkLayer "1" "tcp" "" [mkProbeKnowledge "tcp_connect" "fexit" "kernel.tcp.connect" "tcp" [] ["connect"] [] "" "" [] None []]].
Definition w_mcp_env : Env (D := list string) := mkEnv w_ck 0 "01" (fun _ d => d).
Definition w_deploy_args : JsonValue := JsObject [("function", JsString "tcp_connect"); ("sample_rate", JsNumber (NumFloat (f_lit 1 2)))].

Lemma deploy_tools_deploy_witness :
  tool (call_daemon (H := w_attaching) (fun _ => Ok []) (fun s => s) (fun _ => "") (fun now s => now) w_kb "closed")
    (fun _ => "") (fun s => s) w_kb "jalki_deploy_probe" w_deploy_args (Some (w_mcp_env, ["tcp_close"])) =
  (Ok (JsObject [("function", JsString "tcp_connect"); ("probe_id", JsString "probe_1"); ("status", JsString "attached")]),
   Some (w_mcp_env, ["tcp_close"; "tcp_connect"])).
Proof.
  pose proof (deploy_tools_deploy (H := w_attaching) (fun _ => Ok []) (fun _ => "") (fun s => s) (fun _ => "") (fun now s => now) w_kb
    w_mcp_env "closed" w_deploy_args "tcp_connect" ["tcp_close"] eq_refl) as Hd.
  assert (texts_ok (H := w_attaching) w_mcp_env "tcp_connect" ["tcp_close"]) as Ht.
  { split; [by vm_compute|]. intros id d' [= <- _]. by vm_compute. }
  specialize (Hd Ht). cbn [get_probe w_kb] in Hd. destruct (get_probe "tcp_connect" w_kb) as [p|] eqn:Hp; [|by vm_compute in Hp].
  destruct Hd as [Hd _]. exact Hd.
Defined.

Lemma listed_tools_understood_witness :
  daemon_said (fun _ _ w => (Ok (Response_err "missing 'probe_id'"), w)) tt "missing 'probe_id'".
Proof.
  eapply (proj2 (listed_tools_understood (fun _ _ w => (Ok (Response_err "missing 'probe_id'"), w)) (fun _ => "") (fun s => s) w_kb
    "jalki_get_events" (JsObject [("probe_id", JsString "probe_001"); ("last_seconds", JsNumber (NumPos 30))]) tt)
    (tool_schema "jalki_get_events")).
  - apply list_elem_of_In. vm_compute. tauto.
  - by vm_compute.
  - by vm_compute.
  - left. by vm_compute.
Defined.

(** A request, a notification of one, and a line that is not JSON. *)
Definition w_from_str (line : string) : result string JsonRpcRequest :=
  if bool_decide (line = "list") then Ok (mkJsonRpcRequest "2.0" (Some (js_int 7)) "tools/list" None)
  else if bool_decide (line = "note") then Ok (mkJsonRpcRequest "2.0" None "tools/list" None)
  else Err "expected value".

Example serve_example :
  let '(r, out, _) := serve (fun _ _ w => (Err "", w)) (fun _ => "") (fun s => s) (fun _ => Ok "") w_kb w_from_str
    (fun resp => Ok (match rs_error resp with Some e => dec (Z.abs (re_code e)) | None => "result" end))
    (fun _ => true) [Ok "list"; Ok ""; Ok "note"; Ok "oops"; Err "EOF"; Ok "list"] [] tt in
  r = Ok tt /\ out = ["result"; "32700"].
Proof. by vm_compute. Qed.
