(* ===== verification/Cli.v ===== *)
(** The command line ([jalki/src/cli]): what each subcommand asks the daemon and prints. Output is a
    list of lines, each to one of the two streams; a call over the socket does to a world what the
    parameter [call_native] says, as in [Mcp]. The waits of a command are steps of that world. *)
From Stdlib Require Import Strings.Byte Strings.Ascii.
From S2P Require Import Prelude Text Float Protocol Evidence Samples Normalize Store Knowledge Registry Daemon Ipc IpcJson.

Inductive Line := StdOut (s : string) | StdErr (s : string).

Definition QUOTE : string := String (Ascii.ascii_of_N 34) "".
Definition NEWLINE : string := String NL "".

(* ------------------------------------------------------------------ *)
(** ** Formatting *)

(** The number of characters of a string: its bytes that start one. *)
Definition char_count (s : string) : nat := length (List.filter (fun b => negb (cont_byte b)) (bytes_of s)).

Fixpoint spaces (n : nat) : string := match n with O => "" | S n => " " +:+ spaces n end.
(** [{:<n}] *)
Definition pad (n : nat) (s : string) : string := s +:+ spaces (n - char_count s).

(* ------------------------------------------------------------------ *)
(** ** [jalki list] *)

Section list_run.
(** [Debug] of a list of strings. *)
Variable debug_strs : list string -> string.
Variable kb : KnowledgeBase.

Definition important_fields (p : ProbeKnowledge) : list FieldKnowledge := List.filter fk_important (pk_fields p).

Definition print_probe (p : ProbeKnowledge) : list Line :=
  [StdOut ("  " +:+ pk_function p +:+ " (" +:+ pk_attachment p +:+ ")  " +:+ pk_event_type p); StdOut ("    " +:+ pk_use_when p)] ++
  (if bool_decide (pk_combine_with p = []) then [] else [StdOut ("    combine with: " +:+ join ", " (pk_combine_with p))]) ++
  (if bool_decide (important_fields p = []) then [] else [StdOut ("    key fields: " +:+ join ", " (map fk_name (important_fields p)))]) ++
  [StdOut ""].

Definition list_run (layer : option string) : list Line :=
  match layer with
  | Some layer_name =>
      match probes_in_layer layer_name kb with
      | [] => [StdErr ("Unknown layer '" +:+ layer_name +:+ "'. Available: " +:+ debug_strs (layers kb))]
      | probes => [StdOut ("Layer: " +:+ layer_name); StdOut ""] ++ concat (map print_probe probes)
      end
  | None =>
      concat (map (fun layer_name => [StdOut ("## " +:+ layer_name); StdOut ""] ++ concat (map print_probe (probes_in_layer layer_name kb)))
                (layers kb))
  end.
End list_run.

(* ------------------------------------------------------------------ *)
(** ** Commands that ask the daemon *)

Section commands.
Context {W : Type}.
Variable call_native : Z -> Value -> W -> result string Response * W.
(** Whether the socket can be connected to, and what the world is after so many seconds. *)
Variable connects : W -> bool.
Variable sleep : Z -> W -> W.
(** [Display] of a MessagePack value and of a float, [str::to_lowercase], serde_json's printers. *)
Variable display : Value -> string.
Variable show_f64 : f64 -> string.
Variable to_lowercase : string -> string.
Variable to_string to_string_pretty : JsonValue -> result string string.
(** [DateTime::parse_from_rfc3339], in nanoseconds. *)
Variable parse_from_rfc3339 : string -> option Z.
Variable kb : KnowledgeBase.

Definition NOT_CONNECTED (e : string) : string :=
  "Cannot connect to jalki daemon: " +:+ e +:+ NEWLINE +:+ "Start the daemon first: sudo jalki --sink stdout".

Definition status_row (p : Value) : Line :=
  StdOut (pad 12 (default "-" (get_str p "probe_id")) +:+ " " +:+ pad 24 (default "-" (get_str p "function")) +:+ " " +:+
          pad 10 (dec (default 0 (get_u64 p "events_total"))) +:+ " " +:+ pad 10 (dec (default 0 (get_u64 p "ring_buffer_drops"))) +:+ " " +:+
          pad 8 (show_f64 (default f_one (get_f64 p "sample_rate")))).

Definition status_run (w : W) : list Line * W :=
  let '(resp, w) := call_native METHOD_STATUS (VMap []) w in
  (match resp with
   | Ok r =>
       if rp_ok r then
         match default [] (response_as_array r) with
         | [] => [StdOut "No probes attached."]
         | probes =>
             StdOut (pad 12 "PROBE_ID" +:+ " " +:+ pad 24 "FUNCTION" +:+ " " +:+ pad 10 "EVENTS" +:+ " " +:+ pad 10 "DROPS" +:+ " " +:+ pad 8 "RATE")
               :: map status_row probes
         end
       else [StdErr ("Error: " +:+ default "unknown" (rp_error r))]
   | Err e => [StdErr (NOT_CONNECTED e)]
   end, w).

Definition deploy_params (function : string) : Value :=
  VMap [(msgpack_str "function", msgpack_str function); (msgpack_str "sample_rate", VF64 f_one)].

(** A response's events: [to_json], [get("events")] and [as_array]. *)
Definition json_events (r : Response) : option (list JsonValue) := js_get "events" (response_to_json display r) ≫= js_as_array.

(** Printed as one line, if it can be. *)
Definition print_json (event : JsonValue) : list Line := match to_string event with Ok json => [StdOut json] | Err _ => [] end.

(** [jalki watch] *)
Definition watch_filter (dst_port : option Z) (dst_ip : option string) (pid : option Z) : list (Value * Value) :=
  match dst_port with Some p => [(msgpack_str "dst_port", VInteger p)] | None => [] end ++
  match dst_ip with Some ip => [(msgpack_str "dst_ip", msgpack_str ip)] | None => [] end ++
  match pid with Some p => [(msgpack_str "pid", VInteger p)] | None => [] end.

Definition watch_params (seconds : Z) (dst_port : option Z) (dst_ip : option string) (pid : option Z) : Value :=
  VMap [(msgpack_str "last_seconds", VInteger (add64 seconds 1)); (msgpack_str "filter", VMap (watch_filter dst_port dst_ip pid))].

(** What is printed about the deploy, or why the command fails. *)
Definition watch_deployed (function : string) (resp : result string Response) : result string (list Line) :=
  match resp with
  | Ok r =>
      if rp_ok r then Ok [StdErr ("Attached " +:+ function +:+ " → " +:+ default function (response_get_str "probe_id" r))]
      else
        let err := default "" (rp_error r) in
        if contains err "already attached" then Ok [StdErr (function +:+ " already attached, collecting...")]
        else Err ("deploy failed: " +:+ err)
  | Err e => Err (NOT_CONNECTED e)
  end.

Definition watch_run (function : string) (seconds : Z) (dst_port : option Z) (dst_ip : option string) (pid : option Z) (w : W)
  : result string unit * list Line * W :=
  let '(resp, w) := call_native METHOD_DEPLOY (deploy_params function) w in
  match watch_deployed function resp with
  | Err e => (Err e, [], w)
  | Ok attached =>
      let out := attached ++ [StdErr ("Collecting for " +:+ dec seconds +:+ "s...")] in
      let w := sleep seconds w in
      let '(resp, w) := call_native METHOD_GET_EVENTS (watch_params seconds dst_port dst_ip pid) w in
      match resp with
      | Err e => (Err e, out, w)
      | Ok r =>
          if negb (rp_ok r) then (Err ("get_events failed: " +:+ default "" (rp_error r)), out, w) else
          let events := default [] (json_events r) in
          (Ok tt, out ++ [StdErr (dec (zlen events) +:+ " events collected."); StdOut ""] ++ concat (map print_json events), w)
      end
  end.

(** [jalki stream]: the deploy, then turns of the loop, which ends on an error only. *)
Definition stream_deploy (function : option string) (w : W) : result string unit * list Line * W :=
  match function with
  | None => (Ok tt, [], w)
  | Some func =>
      let '(resp, w) := call_native METHOD_DEPLOY (deploy_params func) w in
      match resp with
      | Ok r =>
          if rp_ok r then (Ok tt, [StdErr ("Attached " +:+ func)], w)
          else let err := default "" (rp_error r) in
               (Ok tt, if contains err "already attached" then [] else [StdErr ("Warning: " +:+ err)], w)
      | Err e => (Err (NOT_CONNECTED e), [], w)
      end
  end.

Definition stream_params : Value := VMap [(msgpack_str "last_seconds", VInteger 2)].

(** The events of one response, with the time of the last one printed. *)
Fixpoint stream_events (events : list JsonValue) (last_seen : Z) : list Line * Z :=
  match events with
  | [] => ([], last_seen)
  | event :: rest =>
      match (js_get "timestamp" event ≫= js_as_str) ≫= parse_from_rfc3339 with
      | Some t =>
          if t <=? last_seen then stream_events rest last_seen
          else let '(out, last_seen) := stream_events rest t in (print_json event ++ out, last_seen)
      | None => let '(out, last_seen) := stream_events rest last_seen in (print_json event ++ out, last_seen)
      end
  end.

(** A turn: the call, its output, the wait of half a second. *)
Variable poll_interval : W -> W.

Definition poll_turn (last_seen : Z) (w : W) : result string (list Line * Z) * W :=
  let '(resp, w) := call_native METHOD_GET_EVENTS stream_params w in
  match resp with
  | Err e => (Err e, w)
  | Ok r =>
      (Ok (match (if rp_ok r then json_events r else None) with
           | Some events => stream_events events last_seen
           | None => ([], last_seen)
           end), poll_interval w)
  end.

Fixpoint poll_turns (n : nat) (last_seen : Z) (w : W) : result string unit * list Line * W :=
  match n with
  | O => (Ok tt, [], w)
  | S n =>
      match poll_turn last_seen w with
      | (Err e, w) => (Err e, [], w)
      | (Ok (out, last_seen), w) => let '(r, more, w) := poll_turns n last_seen w in (r, out ++ more, w)
      end
  end.

(** The first [n] turns of [jalki stream], started at [now]. *)
Definition stream_run (n : nat) (function : option string) (now : Z) (w : W) : result string unit * list Line * W :=
  match stream_deploy function w with
  | (Err e, out, w) => (Err e, out, w)
  | (Ok _, out, w) =>
      let '(r, more, w) := poll_turns n now w in (r, out ++ [StdErr "Streaming events (ctrl+c to stop)..."] ++ more, w)
  end.

(* ------------------------------------------------------------------ *)
(** ** [jalki ask] *)

Definition BLANK : Line := StdOut "".

(** The first of each function, as the [HashSet] of those seen keeps them. *)
Fixpoint dedup_functions (seen : list string) (probes : list ProbeKnowledge) : list ProbeKnowledge :=
  match probes with
  | [] => []
  | p :: rest =>
      if bool_decide (pk_function p ∈ seen) then dedup_functions seen rest
      else p :: dedup_functions (pk_function p :: seen) rest
  end.
Definition select_probes (question : string) : list ProbeKnowledge := take 3 (dedup_functions [] (find_probes to_lowercase question kb)).

Definition when {A} (c : bool) (l : list A) : list A := if c then l else [].

(** One probe's part of [print_kb_answer]. *)
Definition print_kb_probe (p : ProbeKnowledge) : list Line :=
  [StdOut ("### " +:+ pk_function p +:+ " (" +:+ pk_attachment p +:+ ")"); BLANK; StdOut (pk_use_when p); BLANK] ++
  when (bool_decide (important_fields p <> []))
    ([StdOut "Key fields:"] ++ map (fun f => StdOut ("  " +:+ fk_name f +:+ " — " +:+ fk_meaning f)) (important_fields p) ++ [BLANK]) ++
  when (bool_decide (pk_combine_with p <> [])) [StdOut ("Combine with: " +:+ join ", " (pk_combine_with p)); BLANK] ++
  match pk_interpretations p with
  | [] => []
  | interps =>
      [StdOut "What to look for:"] ++
      concat (map (fun i => [StdOut ("  [" +:+ in_severity i +:+ "] " +:+ in_pattern i +:+ " → " +:+ in_conclusion i);
                             StdOut ("    Action: " +:+ in_action i)]) interps) ++ [BLANK]
  end.

Definition print_kb_answer (question : string) (selected : list ProbeKnowledge) : list Line :=
  [StdOut ("# Question: " +:+ question); BLANK; StdOut "## Recommended probes"; BLANK] ++
  concat (map print_kb_probe selected) ++
  [StdOut "## To collect live events"; BLANK; StdOut "  sudo jalki --sink stdout    # terminal 1";
   StdOut ("  jalki ask " +:+ QUOTE +:+ question +:+ QUOTE +:+ "              # terminal 2"); BLANK].

(** [str::parse::<i32>()] *)
Definition parse_i32 (s : string) : option Z :=
  match s with
  | String c (String _ _ as rest) =>
      if decide (c = "-"%char) then v ← parse_digits rest 0; (if v <=? 2 ^ 31 then Some (- v) else None)
      else parse_uint 31 s
  | _ => parse_uint 31 s
  end.

Definition errno_from_name (name : string) : Z :=
  if bool_decide (name = "ECONNREFUSED") then -111
  else if bool_decide (name = "ETIMEDOUT") then -110
  else if bool_decide (name = "EHOSTUNREACH") then -113
  else if bool_decide (name = "ENETUNREACH") then -101
  else match strip_prefix "E" name ≫= parse_i32 with Some n => wrap_signed 32 (- n) | None => -1 end.

(** What [jalki ask] looks for in an event. *)
Definition extract_fields (event : JsonValue) (function : string) : EventFields :=
  let ret := err ← js_get "error" event; code ← js_get "code" err ≫= js_as_str; Some (errno_from_name code) in
  let ret := match ret with
             | Some _ => ret
             | None =>
                 outcome ← js_get "outcome" event ≫= js_as_str;
                 (if bool_decide (outcome = "success") then Some 0 else if bool_decide (outcome = "failure") then Some (-1) else None)
             end in
  mkEventFields ret
    (if contains function "retransmit" then
       Some (match (js_get "metadata" event ≫= js_get "tcp_state") ≫= js_as num_as_u64 with Some state => wrap 8 state | None => 1 end)
     else None).

(** The deploys: the functions counted as deployed, and what is printed. *)
Fixpoint ask_deploys (selected : list ProbeKnowledge) (w : W) : list string * list Line * W :=
  match selected with
  | [] => ([], [], w)
  | probe :: rest =>
      let f := pk_function probe in
      let '(resp, w) := call_native METHOD_DEPLOY (deploy_params f) w in
      let '(counted, line) :=
        match resp with
        | Ok r =>
            if rp_ok r then ([f], "  attached " +:+ f +:+ " → " +:+ default "unknown" (response_get_str "probe_id" r))
            else
              let err := default "" (rp_error r) in
              if contains err "already attached" then ([f], "  " +:+ f +:+ " already attached") else ([], "  " +:+ f +:+ " failed: " +:+ err)
        | Err e => ([], "  deploy error: " +:+ e)
        end in
      let '(deployed, out, w) := ask_deploys rest w in
      (counted ++ deployed, StdErr line :: out, w)
  end.

Definition ask_params (question : string) (collect_seconds : Z) : Value :=
  VMap [(msgpack_str "question", msgpack_str question); (msgpack_str "collect_seconds", VInteger collect_seconds);
        (msgpack_str "max_events", VInteger 100)].

Definition event_source (event : JsonValue) : string := default "unknown" (js_get "source" event ≫= js_as_str).

(** [by_source]: a [HashMap], so the order of the groups is any. *)
Definition group_by_source (events : list JsonValue) : gmap string (list JsonValue) :=
  foldl (fun m event => <[event_source event := default [] (m !! event_source event) ++ [event]]> m) ∅ events.

(** The interpretation of one selected probe's first event, if it has one. *)
Definition interpret_probe (by_source : gmap string (list JsonValue)) (probe : ProbeKnowledge) : list Line :=
  let f := pk_function probe in
  let events : option (list JsonValue) :=
    match by_source !! ("jalki/" +:+ replace "_skb" "" f) with Some es => Some es | None => by_source !! ("jalki/" +:+ f) end in
  match events ≫= head with
  | None => []
  | Some event =>
      match explain f (extract_fields event f) kb with
      | [] => []
      | i :: _ =>
          [StdOut ("**" +:+ f +:+ "** (" +:+ in_severity i +:+ ")"); BLANK; StdOut ("  " +:+ in_conclusion i); BLANK;
           StdOut ("  Action: " +:+ in_action i)] ++
          match in_errno i with Some errno => [StdOut ("  errno: " +:+ errno)] | None => [] end ++ [BLANK]
      end
  end.

Definition NOT_INTERPRETED : list Line :=
  [StdOut "Events were collected but no specific interpretation matched."; StdOut "This often means the observed behavior is normal."].

Definition print_sample (event : JsonValue) : list Line :=
  match to_string_pretty event with Ok pretty => [StdOut pretty; BLANK] | Err _ => [] end.

(** The answer, from the events of the daemon's. *)
Definition print_answer (question : string) (collect_seconds : Z) (selected : list ProbeKnowledge) (events : list JsonValue) : list Line :=
  let by_source := group_by_source events in
  let interpreted := concat (map (interpret_probe by_source) selected) in
  [StdOut ("# Question: " +:+ question); BLANK;
   StdOut ("## Events observed (" +:+ dec (zlen events) +:+ " total in " +:+ dec collect_seconds +:+ "s)"); BLANK] ++
  map (fun kv : string * list JsonValue => StdOut ("  " +:+ kv.1 +:+ ": " +:+ dec (zlen kv.2) +:+ " events")) (map_to_list by_source) ++
  [BLANK; StdOut "## Interpretation"; BLANK] ++ interpreted ++
  (match interpreted with [] => NOT_INTERPRETED | _ => [] end) ++
  [StdOut "## Sample events"; BLANK] ++
  concat (map print_sample (take 5 events)).

Definition print_nothing_seen (question : string) (collect_seconds : Z) (selected : list ProbeKnowledge) : list Line :=
  [StdOut ("No events observed in " +:+ dec collect_seconds +:+ "s."); BLANK; StdOut "The kernel functions we hooked did not fire.";
   StdOut "Either nothing is happening, or the probes need more time."; BLANK; StdOut "Here's what to look for when events do arrive:"; BLANK] ++
  print_kb_answer question selected.

Definition ask_run (question : string) (collect_seconds : Z) (w : W) : result string unit * list Line * W :=
  match find_probes to_lowercase question kb with
  | [] => (Ok tt, [StdErr "No probes match that question. Try keywords like 'connect', 'retransmit', 'packet loss'."], w)
  | _ =>
      let selected := select_probes question in
      let out := StdErr "Probes selected:" ::
                 map (fun p => StdErr ("  " +:+ pk_function p +:+ " (" +:+ pk_attachment p +:+ "/" +:+ pk_event_type p +:+ ")")) selected in
      if negb (connects w) then
        (Ok tt, out ++ [StdErr "No daemon running — showing knowledge base analysis only.";
                        StdErr "For live events, start the daemon: sudo jalki --sink stdout"; BLANK] ++ print_kb_answer question selected, w)
      else
        let '(deployed, lines, w) := ask_deploys selected w in
        let out := out ++ lines in
        match deployed with
        | [] => (Ok tt, out ++ [StdErr "No probes could be deployed. Showing KB analysis instead."; BLANK] ++ print_kb_answer question selected, w)
        | _ =>
            let out := out ++ [StdErr ("Collecting events for " +:+ dec collect_seconds +:+ "s...")] in
            let '(resp, w) := call_native METHOD_ASK (ask_params question collect_seconds) w in
            match resp with
            | Err e => (Err e, out, w)
            | Ok r =>
                if negb (rp_ok r) then (Ok tt, out ++ [StdErr ("Failed: " +:+ default "" (rp_error r))], w) else
                match default [] (json_events r) with
                | [] => (Ok tt, out ++ print_nothing_seen question collect_seconds selected, w)
                | events =>
                    (Ok tt, out ++ [StdErr ("Collected " +:+ dec (zlen events) +:+ " events. Interpreting..."); BLANK] ++
                            print_answer question collect_seconds selected events, w)
                end
            end
        end
  end.
End commands.

(* ------------------------------------------------------------------ *)
(** ** The knowledge base in full *)

Lemma layer_found (kb : KnowledgeBase) l : NoDup (layers kb) -> l ∈ kb -> probes_in_layer (ly_layer l) kb = ly_probes l.
Proof.
  unfold probes_in_layer, layers. induction kb as [|l' kb IH]; intros Hn Hl; [by apply not_elem_of_nil in Hl|].
  cbn [map] in Hn. apply NoDup_cons in Hn as [Hnew Hn]. cbn [find_first]. apply elem_of_cons in Hl as [<-|Hl].
  - by rewrite bool_decide_eq_true_2.
  - rewrite bool_decide_eq_false_2; [by apply IH|]. intros E. apply Hnew. rewrite E. by apply list_elem_of_fmap_2.
Qed.

(** When no two layers of the knowledge base share a name, [jalki list] prints every layer in order
    under its own heading, with every probe of it, and [jalki list --layer] the probes of that layer;
    a name that is no layer's prints nothing on standard output. *)
Theorem list_prints_every_probe debug_strs kb :
  NoDup (layers kb) ->
  list_run debug_strs kb None =
    concat (map (fun l => [StdOut ("## " +:+ ly_layer l); StdOut ""] ++ concat (map print_probe (ly_probes l))) kb) /\
  (forall l, l ∈ kb -> ly_probes l <> [] ->
     list_run debug_strs kb (Some (ly_layer l)) =
       [StdOut ("Layer: " +:+ ly_layer l); StdOut ""] ++ concat (map print_probe (ly_probes l))) /\
  (forall name, name ∉ layers kb -> exists msg, list_run debug_strs kb (Some name) = [StdErr msg]).
Proof.
  intros Hn. split_and!.
  - cbn [list_run]. f_equal. unfold layers. rewrite map_map. apply map_ext_in. intros l Hl. apply list_elem_of_In in Hl.
    by rewrite layer_found.
  - intros l Hl Hp. cbn [list_run]. rewrite layer_found by done. by destruct (ly_probes l).
  - intros name Hname. cbn [list_run]. unfold probes_in_layer.
    destruct (find_first _ kb) as [l|] eqn:Hf; [|by eexists].
    apply find_first_Some in Hf as [Hl Hd%bool_decide_eq_true]. destruct Hname. subst. by apply list_elem_of_fmap_2.
Qed.

(* ------------------------------------------------------------------ *)
(** ** Errno names *)

Lemma parse_i32_dec n : 0 <= n < 2 ^ 31 -> parse_i32 (dec n) = Some n.
Proof.
  intros Hn. pose proof (parse_uint_dec 31 n Hn) as Hp. unfold parse_i32. destruct (dec n) as [|c [|c' s]] eqn:E; try done.
  destruct (decide (c = "-"%char)) as [->|]; [|done]. discriminate Hp.
Qed.

(** The file errnos, which the client does not know the names of. *)
Definition FILE_ERRNOS : list Z := [1; 2; 6; 13; 20; 21; 40].

Ltac in_here := first [apply list_elem_of_here | apply list_elem_of_further; in_here].

(** The errnos with names. *)
Definition NAMED_ERRNOS : list Z := [111; 110; 113; 101] ++ FILE_ERRNOS.

Lemma errno_name_other n : 0 < n < 2 ^ 31 -> n ∉ NAMED_ERRNOS -> errno_name (- n) = "E" +:+ dec n.
Proof.
  intros Hn Hout. unfold errno_name. rewrite wrap_signed_small by lia. rewrite Z.opp_involutive. unfold NAMED_ERRNOS, FILE_ERRNOS in Hout.
  destruct n as [|p|p]; [lia| |lia]. clear Hn.
  repeat (match goal with |- context [match ?q with xI _ => _ | xO _ => _ | xH => _ end] => destruct q end; try done);
    destruct Hout; cbn [app]; in_here.
Qed.

Lemma errno_from_number n : 0 < n < 2 ^ 31 -> errno_from_name ("E" +:+ dec n) = - n.
Proof.
  intros Hn. pose proof (parse_uint_dec 31 n ltac:(lia)) as Hp. unfold errno_from_name.
  assert (forall s, parse_uint 31 s = None -> bool_decide ("E" +:+ dec n = String "E" s) = false) as Hne.
  { intros s Hs. apply bool_decide_eq_false_2. intros E. injection E as E. change (dec n = s) in E. rewrite E in Hp. congruence. }
  rewrite (Hne "CONNREFUSED"), (Hne "TIMEDOUT"), (Hne "HOSTUNREACH"), (Hne "NETUNREACH") by done.
  rewrite strip_prefix_app. cbn [mbind option_bind]. rewrite parse_i32_dec by lia. apply wrap_signed_small; lia.
Qed.

(** [errno_from_name] reads an errno name the way the daemon wrote it: for every error a kernel
    function returns, it gives the return value back, but for the seven errnos that file probes
    name, which it takes for -1. *)
Theorem errno_name_roundtrip ret :
  - 2 ^ 31 < ret < 0 ->
  errno_from_name (errno_name ret) = if bool_decide (- ret ∈ FILE_ERRNOS) then -1 else ret.
Proof.
  intros Hr.
  assert (exists n, ret = - n /\ 0 < n < 2 ^ 31) as (n & -> & Hn) by (exists (- ret); lia). rewrite !Z.opp_involutive. clear Hr.
  destruct (decide (n ∈ NAMED_ERRNOS)) as [Hin|Hout].
  - unfold NAMED_ERRNOS, FILE_ERRNOS in Hin. cbn [app] in Hin.
    repeat (apply elem_of_cons in Hin as [->|Hin]; [by vm_compute|]). by apply not_elem_of_nil in Hin.
  - rewrite errno_name_other by done. rewrite bool_decide_eq_false_2; [by apply errno_from_number|].
    intros H. apply Hout. apply elem_of_app. by right.
Qed.

(* ------------------------------------------------------------------ *)
(** ** What the commands show of a daemon *)

Section remote.
Context {D : Type} `{DaemonOps D}.
Variable write_value : Value -> result string (list byte).
Variable display : Value -> string.
Variable to_lowercase : string -> string.
Variable rfc3339 : Z -> string.
Variable seconds_before : Z -> Z -> Z.
Variable kb : KnowledgeBase.
Variable closed : string.
Variable sleep : Z -> Remote (D := D) -> Remote (D := D).
Variable poll_interval : Remote (D := D) -> Remote (D := D).
Variable to_string to_string_pretty : JsonValue -> result string string.
Variable parse_from_rfc3339 : string -> option Z.

Abbreviation daemon := (call_daemon write_value to_lowercase rfc3339 seconds_before kb closed).

(** An event of the daemon's, in the client's JSON. *)
Definition event_json (occ : Occurrence) : JsonValue := msgpack_to_json display (encode_compact_event kb occ).

Lemma event_is_array occ : exists l, event_json occ = JsArray l.
Proof. by eexists. Qed.

Lemma events_in_reply events :
  json_events display (Response_success (VMap [(msgpack_str "events", VArray (map (encode_compact_event kb) events));
                                               (msgpack_str "total", VInteger (zlen events))])) = Some (map event_json events).
Proof.
  unfold json_events, response_to_json. cbn [Response_success rp_result msgpack_to_json map fst snd].
  change (key_text display (msgpack_str "events")) with "events". change (key_text display (msgpack_str "total")) with "total".
  unfold js_object. cbn [foldl fst snd obj_insert String.compare]. cbn. by rewrite map_map.
Qed.

Lemma get_events_call params env d :
  daemon METHOD_GET_EVENTS params (Some (env, d)) =
    (Ok (Response_of (handle_get_events seconds_before kb params env d)), Some (env, d)).
Proof. reflexivity. Qed.

Lemma deploy_params_function f : utf8_valid (bytes_of f) = true -> get_str (deploy_params f) "function" = Some f.
Proof. apply as_str_msgpack. Qed.

(** The filter of [jalki watch], as the daemon reads it. *)
Lemma watch_filter_parsed seconds dst_port dst_ip pid :
  (forall p, dst_port = Some p -> in_width 16 p) -> (forall ip, dst_ip = Some ip -> utf8_valid (bytes_of ip) = true) ->
  (forall p, pid = Some p -> in_width 32 p) ->
  parse_event_filter (watch_params seconds dst_port dst_ip pid) =
    mkEventFilter (Some 60) None dst_ip None dst_port pid None (Some 100).
Proof.
  intros Hport Hip Hpid.
  assert (forall w (o : option Z), (forall p, o = Some p -> in_width w p) -> (wrap w <$> o) = o) as Hw.
  { intros w [p|] Ho; [|done]. cbn. f_equal. apply wrap_small. by apply Ho. }
  assert (forall w (o : option Z), (forall p, o = Some p -> in_width w p) -> (x ← o; as_u64 (VInteger x)) = o) as Hu.
  { intros w [p|] Ho; [|done]. destruct (Ho p eq_refl) as [Hp _]. cbn. by rewrite (proj2 (Z.leb_le 0 p) Hp). }
  assert ((ip ← dst_ip; as_str (msgpack_str ip)) = dst_ip) as Hs.
  { destruct dst_ip as [ip|]; [|done]. apply as_str_msgpack. by apply Hip. }
  transitivity (mkEventFilter (Some 60) None (ip ← dst_ip; as_str (msgpack_str ip)) None
                  (wrap 16 <$> (x ← dst_port; as_u64 (VInteger x))) (wrap 32 <$> (x ← pid; as_u64 (VInteger x))) None (Some 100)).
  - by destruct dst_port, dst_ip, pid.
  - by rewrite Hs, (Hu 16), (Hu 32), (Hw 16), (Hw 32).
Qed.

(** [jalki watch] prints, after a blank line, every event of the daemon's that the filter given on
    the command line matches and that is less than a minute old: of every probe, whichever
    function was named, and whatever window was asked for. It gets so far when the daemon attaches
    the function or says that it already is. *)
Theorem watch_prints_query function seconds dst_port dst_ip pid env d r d1 env2 d2 :
  utf8_valid (bytes_of function) = true -> is_Some (get_probe function kb) ->
  op_deploy function (en_clocks env) d = Some (r, d1) ->
  (forall msg, r = Err msg -> contains msg "already attached" = true) ->
  sleep seconds (Some (env, d1)) = Some (env2, d2) ->
  (forall p, dst_port = Some p -> in_width 16 p) -> (forall ip, dst_ip = Some ip -> utf8_valid (bytes_of ip) = true) ->
  (forall p, pid = Some p -> in_width 32 p) ->
  let f := mkEventFilter (Some 60) None dst_ip None dst_port pid None (Some 100) in
  let events := query_all seconds_before (en_now env2) f (op_store d2) in
  exists progress,
    watch_run daemon sleep display to_string function seconds dst_port dst_ip pid (Some (env, d)) =
      (Ok tt, map StdErr progress ++ [StdOut ""] ++ concat (map (print_json to_string) (map event_json events)), Some (env2, d2)).
Proof.
  intros Hf [p Hp] Hd Hmsg Hs Hport Hip Hpid f events.
  unfold watch_run. rewrite (call_deploy _ _ _ _ _ _ function), Hp, Hd by by apply deploy_params_function.
  set (params := watch_params seconds dst_port dst_ip pid).
  assert (handle_get_events seconds_before kb params env2 d2 =
    Ok (VMap [(msgpack_str "events", VArray (map (encode_compact_event kb) events)); (msgpack_str "total", VInteger (zlen events))])) as Hevents.
  { unfold handle_get_events. subst params. rewrite watch_filter_parsed by done. reflexivity. }
  destruct r as [id|msg]; unfold watch_deployed; cbn [rp_ok Response_success Response_err rp_error].
  all: try (change (default "" (Some msg)) with msg; rewrite (Hmsg msg eq_refl)). all: rewrite Hs, get_events_call, Hevents.
  all: cbn [Response_of rp_ok Response_success negb]; rewrite events_in_reply; cbn [default].
  all: eexists [_; _; _]; reflexivity.
Qed.

(** One turn of [jalki stream] prints every event less than a minute old, of every probe, and
    remembers nothing: the same events are printed again by the next turn, half a second later,
    whatever the function streamed and the time of the last event. *)
Theorem stream_repeats_events last_seen env d :
  let f := mkEventFilter (Some 60) None None None None None None (Some 100) in
  let events := query_all seconds_before (en_now env) f (op_store d) in
  poll_turn daemon display to_string parse_from_rfc3339 poll_interval last_seen (Some (env, d)) =
    (Ok (concat (map (print_json to_string) (map event_json events)), last_seen), poll_interval (Some (env, d))).
Proof.
  intros f events. unfold poll_turn. rewrite get_events_call.
  change (handle_get_events seconds_before kb stream_params env d) with
    (Ok (E := string) (VMap [(msgpack_str "events", VArray (map (encode_compact_event kb) events)); (msgpack_str "total", VInteger (zlen events))])).
  cbn [Response_of rp_ok Response_success]. rewrite events_in_reply. f_equal. f_equal.
  induction events as [|occ events IH]; [done|]. cbn [map stream_events concat].
  destruct (event_is_array occ) as [l E]. rewrite E. cbn [js_get mbind option_bind]. by rewrite IH.
Qed.

Lemma grouped_unknown events :
  Forall (fun e => exists l, e = JsArray l) events -> events <> [] -> group_by_source events = {["unknown" := events]}.
Proof.
  intros Ha Hne. unfold group_by_source.
  assert (forall es done, Forall (fun e => exists l, e = JsArray l) es ->
    foldl (fun m e => <[event_source e := default [] (m !! event_source e) ++ [e]]> m) ({["unknown" := done]} : gmap string (list JsonValue)) es =
      {["unknown" := done ++ es]}) as Hfold.
  { intros es. induction es as [|e es IH]; intros done Hes; [by rewrite app_nil_r|]. apply Forall_cons in Hes as [[l ->] Hes]. cbn [foldl].
    change (event_source (JsArray l)) with "unknown". rewrite lookup_singleton_eq, insert_singleton_eq, IH by done. cbn. by rewrite <- app_assoc. }
  destruct events as [|e es]; [done|]. apply Forall_cons in Ha as [[l ->] Ha]. cbn [foldl].
  change (event_source (JsArray l)) with "unknown". rewrite lookup_empty. cbn [default app]. rewrite insert_empty. by rewrite Hfold.
Qed.

Lemma never_interpreted events probe :
  Forall (fun e => exists l, e = JsArray l) events -> interpret_probe kb (group_by_source events) probe = [].
Proof.
  intros Ha. destruct events as [|e es]; [done|]. rewrite grouped_unknown by done. unfold interpret_probe.
  by rewrite !lookup_singleton_ne.
Qed.

Lemma ask_result_events interpretation severity action events probes_used kb_only :
  json_events display (Response_success (encode_ask_result interpretation severity action events probes_used kb_only)) =
    Some (map (msgpack_to_json display) events).
Proof. reflexivity. Qed.

Lemma ask_reply_events params env d v d' :
  handle_ask to_lowercase seconds_before kb params env d = Some (Ok v, d') ->
  exists occs, json_events display (Response_success v) = Some (map event_json occs).
Proof.
  intros Ha. assert (exists i s a occs used ko, v = encode_ask_result i s a (map (encode_compact_event kb) occs) used ko) as (i & s & a & occs & used & ko & ->);
    [|exists occs; by rewrite ask_result_events, map_map].
  unfold handle_ask in Ha. destruct (get_str params "question"); [|done].
  destruct (find_probes to_lowercase s kb) as [|p ps]; [injection Ha as <- _; by eexists _, _, _, [], _, _|].
  destruct (ask_deploy (take 3 (p :: ps)) env d) as [[used d1]|]; [|done]. cbn [mbind option_bind] in Ha.
  case_bool_decide; [injection Ha as <- _; by eexists _, _, _, [], _, _|].
  injection Ha as <- _. destruct (take _ _) as [|occ occs]; [by eexists _, _, _, [], _, _|].
  destruct (first_interpretation kb (occ :: occs)); by eexists _, _, _, (occ :: occs), _, _.
Qed.

(** [jalki ask] never interprets. The daemon sends events as arrays, by position; the command looks
    for a field named [source] in each, finds none, and files all under [unknown]. So whatever the
    daemon collected for a question, the answer printed is that no interpretation matched; the
    daemon's own interpretation, which comes with the reply, is not looked at. *)
Theorem ask_never_interprets params question secs selected env d v d' :
  handle_ask to_lowercase seconds_before kb params env d = Some (Ok v, d') ->
  let events := default [] (json_events display (Response_success v)) in
  events <> [] ->
  print_answer to_string_pretty kb question secs selected events =
    [StdOut ("# Question: " +:+ question); BLANK;
     StdOut ("## Events observed (" +:+ dec (zlen events) +:+ " total in " +:+ dec secs +:+ "s)"); BLANK;
     StdOut ("  unknown: " +:+ dec (zlen events) +:+ " events"); BLANK; StdOut "## Interpretation"; BLANK] ++
    NOT_INTERPRETED ++ [StdOut "## Sample events"; BLANK] ++ concat (map (print_sample to_string_pretty) (take 5 events)).
Proof.
  intros Ha events Hne. destruct (ask_reply_events _ _ _ _ _ Ha) as [occs Hoccs].
  assert (Forall (fun e => exists l, e = JsArray l) events) as Harr.
  { subst events. rewrite Hoccs. cbn [default]. apply Forall_forall. intros e [occ [-> _]]%list_elem_of_fmap. apply event_is_array. }
  clearbody events. unfold print_answer.
  replace (concat (map (interpret_probe kb (group_by_source events)) selected)) with (@nil Line).
  - rewrite grouped_unknown, map_to_list_singleton by done. reflexivity.
  - induction selected as [|p ps IH]; [done|]. cbn [map concat]. by rewrite never_interpreted.
Qed.
End remote.

(* ------------------------------------------------------------------ *)
(** ** Concrete runs *)

Definition w_cli_probe (f : string) : ProbeKnowledge := mkProbeKnowledge f "fexit" "kernel.tcp.connect" "tcp" [] ["connect"] [] "" "" [] None [].
Definition w_cli_kb : KnowledgeBase :=
  [mkLayer "1" "tcp" "" [w_cli_probe "tcp_connect"; w_cli_probe "tcp_close"]; mkLayer "1" "fs" "" [w_cli_probe "vfs_read"]].

Lemma list_prints_every_probe_witness :
  list_run (fun _ => "") w_cli_kb (Some "fs") = [StdOut "Layer: fs"; StdOut ""] ++ concat (map print_probe [w_cli_probe "vfs_read"]).
Proof.
  assert (NoDup (layers w_cli_kb)) as Hn by (apply (bool_decide_eq_true_1 (NoDup (layers w_cli_kb))); by vm_compute).
  apply (proj1 (proj2 (list_prints_every_probe (fun _ => "") w_cli_kb Hn)) (mkLayer "1" "fs" "" [w_cli_probe "vfs_read"])).
  - right. left.
  - done.
Defined.

Lemma errno_name_roundtrip_witness : errno_from_name "E42" = -42 /\ errno_from_name "EACCES" = -1.
Proof.
  split; [exact (errno_name_roundtrip (-42) ltac:(lia)) | exact (errno_name_roundtrip (-13) ltac:(lia))].
Defined.

(** A daemon with one event in its store. *)
Definition w_cli_ops : DaemonOps EventStore := {|
  op_deploy f _ d := Some (Err ("probe '" +:+ f +:+ "' already attached"), d);
  op_detach _ d := (Ok true, d);
  op_status _ := [];
  op_store d := d
|}.
Definition w_cli_store : EventStore :=
  mkEventStore 16 {["tcp_close" := mkProbeBuffer 16 [er_occurrence sample_reliability] 0 1]}.
Definition w_cli_env (now : Z) : Env (D := EventStore) := mkEnv w_ck now "01" (fun _ d => d).
Definition w_ago (now secs : Z) : Z := now - secs * 1000000000.
(** Waiting moves the clock. *)
Definition w_sleep (secs : Z) (w : Remote (D := EventStore)) : Remote (D := EventStore) :=
  match w with Some (env, d) => Some (w_cli_env (en_now env + secs * 1000000000), d) | None => None end.

Abbreviation w_cli_daemon :=
  (call_daemon (H := w_cli_ops) (fun _ => Ok []) (fun s => s) (fun _ => "") w_ago w_cli_kb "closed").

(** Watching [tcp_connect] for ten seconds shows a retransmit that [tcp_close] was asked about. *)
Lemma watch_prints_query_witness :
  exists progress,
    watch_run w_cli_daemon w_sleep (fun _ => "") (fun _ => Ok "event") "tcp_connect" 10 None None None
      (Some (w_cli_env 0, w_cli_store)) =
    (Ok tt, map StdErr progress ++ [StdOut ""; StdOut "event"], Some (w_cli_env 10000000000, w_cli_store)).
Proof.
  destruct (watch_prints_query (H := w_cli_ops) (fun _ => Ok []) (fun _ => "") (fun s => s) (fun _ => "") w_ago w_cli_kb "closed" w_sleep
    (fun _ => Ok "event") "tcp_connect" 10 None None None (w_cli_env 0) w_cli_store
    (Err "probe 'tcp_connect' already attached") w_cli_store (w_cli_env 10000000000) w_cli_store) as [progress Hp].
  - by vm_compute.
  - by eexists.
  - reflexivity.
  - intros msg [= <-]. by vm_compute.
  - reflexivity.
  - done.
  - done.
  - done.
  - exists progress. rewrite Hp. by vm_compute.
Defined.

(** Asking about connections, with a retransmit in the store. *)
Definition w_ask_params : Value := ask_params "connect" 5.
Lemma ask_never_interprets_witness :
  exists v d', handle_ask (H := w_cli_ops) (fun s => s) w_ago w_cli_kb w_ask_params (w_cli_env 0) w_cli_store = Some (Ok v, d') /\
    StdOut "  unknown: 1 events" ∈ print_answer (fun _ => Ok "") w_cli_kb "connect" 5 [w_cli_probe "tcp_connect"]
      (default [] (json_events (fun _ => "") (Response_success v))).
Proof.
  eexists _, _. split; [vm_compute; reflexivity|].
  erewrite (ask_never_interprets (H := w_cli_ops) (fun _ => "") (fun s => s) w_ago w_cli_kb (fun _ => Ok "") w_ask_params "connect" 5
    [w_cli_probe "tcp_connect"] (w_cli_env 0) w_cli_store); [|vm_compute; reflexivity|by vm_compute].
  apply elem_of_app. left. do 4 right. left.
Defined.
