(* ===== verification/Observability.v ===== *)
(** The HTTP endpoints ([serve_metrics] and below in [jalki/src/runtime.rs]): how a request is read
    from the pieces TCP delivers, what [/healthz] and [/readyz] answer, and the gauges behind them.

    The text of [/metrics] and the decimal print of a float are parameters. *)
From Stdlib Require Import Strings.Byte Strings.Ascii.
From stdpp Require Import base list strings.
From S2P Require Import Prelude Text Float Evidence Samples Retry.

(* ------------------------------------------------------------------ *)
(** ** Requests *)

Definition MAX_REQUEST_BYTES : Z := 2048.
Definition DEFAULT_READY_MAX_BACKLOG_AGE_SECS : Z := 60.

(** [ready_max_backlog_age_secs], of the environment variable. *)
Definition ready_max_backlog_age_secs (var : option string) : Z :=
  default DEFAULT_READY_MAX_BACKLOG_AGE_SECS (v ← var; parse_uint 64 (trim v)).

(** What a [read] of at most 512 bytes gives; no bytes is the end of the stream. *)
Inductive Read := Data (bs : list byte) | Failed (e : string).

Definition has_newline (bs : list byte) : bool := existsb (fun b => bool_decide (b = x0a)) bs.

(** [read_request_line], under [REQUEST_READ_TIMEOUT]: the reads are those that end before it. *)
Fixpoint read_request_line (buf : list byte) (reads : list Read) : result string (list byte) :=
  if has_newline buf || (MAX_REQUEST_BYTES <=? zlen buf) then Ok buf
  else match reads with
       | [] => Err "timed out reading request"
       | Failed e :: _ => Err e
       | Data [] :: _ => Ok buf
       | Data bs :: reads => read_request_line (buf ++ bs) reads
       end.

(** The next item of [split_whitespace], and what follows it. *)
Fixpoint take_word (s : string) : string * string :=
  match s with
  | EmptyString => ("", "")
  | String c rest =>
      match first_strip white_space s with
      | Some _ => ("", s)
      | None => let '(w, after) := take_word rest in (String c w, after)
      end
  end.
Definition next_word (s : string) : option (string * string) :=
  match trim_start s with EmptyString => None | s => Some (take_word s) end.

Definition request_path (raw : list byte) : option string :=
  if utf8_valid raw then
    line ← head (lines (string_of raw));
    '(_, rest) ← next_word line;
    '(target, _) ← next_word rest;
    head (split_char "?"%char target)
  else None.

(* ------------------------------------------------------------------ *)
(** ** Gauges and responses *)

(** The gauges the endpoints read. *)
Record Metrics := mkMetrics {
  mt_retry_queued_batches : Z;
  mt_retry_queued_records : Z;
  mt_retry_queued_bytes : Z;
  mt_retry_oldest_age_seconds : f64;
  mt_sink_queue_bytes : Z;
  mt_sink_queue_max_bytes : Z;
  mt_sink_queue_memory_pressure : Z
}.

Definition publish_backlog_metrics (m : Metrics) (rb : RetryBuffer) (now_ms : Z) : Metrics :=
  mkMetrics (wrap_signed 64 (len_batches rb)) (wrap_signed 64 (len_records rb)) (wrap_signed 64 (len_bytes rb))
    (default f_zero ((fun ms => f_div (f_of_Z ms) (f_of_Z 1000)) <$> oldest_age_ms now_ms rb))
    (mt_sink_queue_bytes m) (mt_sink_queue_max_bytes m) (mt_sink_queue_memory_pressure m).

Section server.
(** [Metrics::encode] and [{:.1}]. *)
Variable encode : Metrics -> string.
Variable show_1 : f64 -> string.
Variable max_backlog_age_secs : Z.

Definition TEXT_PLAIN : string := "text/plain; charset=utf-8".
Definition EOL : string := String NL "".
Definition CRLF : string := String CR EOL.

Definition stalled (m : Metrics) : bool := f_gt (mt_retry_oldest_age_seconds m) (f_of_Z max_backlog_age_secs).

Definition ready_body (m : Metrics) : string :=
  "queued_batches=" +:+ dec (mt_retry_queued_batches m) +:+ EOL +:+ "queued_records=" +:+ dec (mt_retry_queued_records m) +:+ EOL +:+
  "queued_bytes=" +:+ dec (mt_retry_queued_bytes m) +:+ EOL +:+
  "oldest_age_seconds=" +:+ show_1 (mt_retry_oldest_age_seconds m) +:+ EOL +:+
  "max_backlog_age_seconds=" +:+ dec max_backlog_age_secs +:+ EOL +:+
  "sink_queue_bytes=" +:+ dec (mt_sink_queue_bytes m) +:+ EOL +:+ "sink_queue_max_bytes=" +:+ dec (mt_sink_queue_max_bytes m) +:+ EOL +:+
  "sink_queue_memory_pressure=" +:+ dec (mt_sink_queue_memory_pressure m) +:+ EOL +:+
  "status=" +:+ (if stalled m then "stalled" else "ok") +:+ EOL.

(** Status, content type and body for a path. *)
Definition route (m : Metrics) (path : option string) : string * string * string :=
  match path with
  | Some path =>
      if bool_decide (path = "/metrics") then ("200 OK", "text/plain; version=0.0.4; charset=utf-8", encode m)
      else if bool_decide (path = "/healthz") then ("200 OK", TEXT_PLAIN, "ok" +:+ EOL)
      else if bool_decide (path = "/readyz") then
        (if stalled m then "503 Service Unavailable" else "200 OK", TEXT_PLAIN, ready_body m)
      else ("404 Not Found", TEXT_PLAIN, "not found" +:+ EOL)
  | None => ("404 Not Found", TEXT_PLAIN, "not found" +:+ EOL)
  end.

Definition http_response (r : string * string * string) : string :=
  let '(status, content_type, body) := r in
  "HTTP/1.1 " +:+ status +:+ CRLF +:+ "Content-Type: " +:+ content_type +:+ CRLF +:+ "Content-Length: " +:+ dec (slen body) +:+ CRLF +:+
  "Connection: close" +:+ CRLF +:+ CRLF +:+ body.

(** [handle_observability_request], up to the write. *)
Definition handle_observability_request (reads : list Read) (m : Metrics) : result string string :=
  raw <-? read_request_line [] reads ;;
  Ok (http_response (route m (request_path raw))).

(** The loop of [serve_metrics]: a failed accept is skipped, and each connection answered on its own. *)
Definition serve_metrics (accepted : list (result string (list Read * Metrics))) : list (result string string) :=
  omap (fun a => match a with Ok (reads, m) => Some (handle_observability_request reads m) | Err _ => None end) accepted.

(* ------------------------------------------------------------------ *)
(** ** Segmentation *)

Definition ascii_bytes (bs : list byte) : Prop := Forall (fun b => bZ b < 128) bs.

Lemma ascii_utf8 bs : ascii_bytes bs -> utf8_valid bs = true.
Proof.
  unfold utf8_valid. induction 1 as [|b bs Hb Hbs IH]; [done|]. cbn [length utf8_valid_fuel utf8_step].
  pose proof (bZ_range b). assert (in_byte 0 127 b = true) as -> by (unfold in_byte; apply andb_true_intro; lia). exact IH.
Qed.

Lemma has_newline_app a b : has_newline (a ++ b) = has_newline a || has_newline b.
Proof. apply existsb_app. Qed.

(** Reading stops in the piece that has the first newline. *)
Lemma read_until_newline line rest chunks buf :
  has_newline line = false -> zlen line < MAX_REQUEST_BYTES -> Forall (fun c => c <> []) chunks ->
  buf ++ concat chunks = line ++ x0a :: rest ->
  exists more, read_request_line buf (map Data chunks) = Ok (line ++ x0a :: more) /\ more `prefix_of` rest.
Proof.
  intros Hline Hlen Hne. revert buf. induction Hne as [|c chunks Hc Hne IH]; intros buf Heq.
  all: destruct (app_eq_inv _ _ _ _ Heq) as [(k & -> & Hk)|(k & -> & Hk)].
  all: cbn [map read_request_line]; rewrite ?has_newline_app in *.
  - destruct k as [|b k]; [done|]. injection Hk as <- Hk. cbn [has_newline existsb]. rewrite bool_decide_eq_true_2, !orb_true_r by done.
    exists k. split; [done|]. cbn [concat] in Hk. rewrite app_nil_r in Hk. by subst.
  - by destruct k.
  - destruct k as [|b k].
    + rewrite app_nil_r. rewrite Hline. cbn [orb]. destruct (Z.leb_spec MAX_REQUEST_BYTES (zlen line)); [lia|].
      destruct c as [|b c]; [done|]. apply IH. rewrite app_nil_r in Heq. by rewrite <- app_assoc.
    + injection Hk as <- Hk. cbn [has_newline existsb]. rewrite bool_decide_eq_true_2, !orb_true_r by done.
      exists k. split; [done|]. rewrite Hk. by eexists.
  - apply orb_false_elim in Hline as [Hbuf _]. rewrite Hbuf. cbn [orb]. rewrite zlen_app in Hlen. pose proof (zlen_nonneg k).
    destruct (Z.leb_spec MAX_REQUEST_BYTES (zlen buf)); [lia|]. destruct c as [|b c]; [done|]. apply IH. by rewrite <- app_assoc.
Qed.

Lemma no_newline_chars bs : has_newline bs = false -> NL ∉ chars (string_of bs).
Proof.
  intros Hn Hin. unfold chars, string_of, String.string_of_list_byte in Hin. rewrite String.list_ascii_of_string_of_list_ascii in Hin.
  apply list_elem_of_fmap in Hin as [b [Hb Hin]]. apply not_true_iff_false in Hn. apply Hn. apply existsb_exists.
  exists b. split; [by apply list_elem_of_In|]. apply bool_decide_eq_true. rewrite <- (byte_of_ascii_of_byte b), <- Hb. reflexivity.
Qed.

Lemma request_path_line line more :
  has_newline line = false -> ascii_bytes line -> ascii_bytes more ->
  request_path (line ++ x0a :: more) = request_path (line ++ [x0a]).
Proof.
  intros Hn Hl Hm. unfold request_path.
  rewrite !ascii_utf8 by (apply Forall_app; split; [done|constructor; [by vm_compute|try done; constructor]]).
  change (x0a :: more) with ([x0a] ++ more). rewrite !string_of_app.
  change (string_of [x0a]) with (String NL ""). change (String NL "" +:+ string_of more) with (String NL (string_of more)).
  by rewrite !lines_head by by apply no_newline_chars.
Qed.

(** A request is answered by its first line however TCP cuts it up. For an ASCII request whose
    first line is no longer than the limit, delivered in pieces of any sizes, the response is that to
    the whole line at once; in particular a liveness probe is never answered 404 for a segment that
    ends inside its path, and its answer depends on nothing the agent is doing. *)
Theorem answer_ignores_segmentation line rest chunks m :
  has_newline line = false -> zlen line < MAX_REQUEST_BYTES -> ascii_bytes (line ++ x0a :: rest) ->
  Forall (fun c => c <> []) chunks -> concat chunks = line ++ x0a :: rest ->
  let path := request_path (line ++ [x0a]) in
  handle_observability_request (map Data chunks) m = Ok (http_response (route m path)) /\
  (path = Some "/healthz" -> forall m', route m path = route m' path /\ (route m path).1.1 = "200 OK").
Proof.
  intros Hn Hl Ha Hne Heq path. split.
  - destruct (read_until_newline line rest chunks [] Hn Hl Hne Heq) as (more & Hread & Hpre).
    unfold handle_observability_request. rewrite Hread. cbn [result_bind].
    apply Forall_app in Ha as [Hla Hra]. apply Forall_cons in Hra as [_ Hra].
    rewrite request_path_line; [done..|]. destruct Hpre as [k ->]. by apply Forall_app in Hra as [Hra _].
  - intros Hp m'. by rewrite Hp.
Qed.

Lemma f_gt_zero z : is_u64 z -> f_gt f_zero (f_of_Z z) = false.
Proof.
  intros [Hl Hu]. unfold u64_max in Hu. destruct (f_of_Z_bounded z) as [Hn _]; [lia|].
  destruct (f_of_Z z) as [[]|[]| |[] m e]; try done. unfold f_gt, f_lt. cbn [f_compare f_dyadic f_zero f_of_Z binary_normalize].
  unfold dyadic_compare. cbn [fst snd]. destruct (Z.compare_spec (Z.pos m * 2 ^ (e - Z.min e 0)) (0 * 2 ^ (0 - Z.min e 0))); try done; nia.
Qed.

(** An agent with nothing to retry is ready, whatever its queue holds. *)
Theorem quiet_agent_ready m rb now_ms :
  is_u64 max_backlog_age_secs -> rb_batches rb = [] ->
  (route (publish_backlog_metrics m rb now_ms) (Some "/readyz")).1.1 = "200 OK".
Proof.
  intros Hmax Hrb. cbn [route]. unfold stalled, publish_backlog_metrics, oldest_age_ms. rewrite Hrb.
  cbn [mt_retry_oldest_age_seconds head fmap option_fmap option_map default]. cbn. by rewrite f_gt_zero.
Qed.
End server.

(* ------------------------------------------------------------------ *)
(** ** Concrete requests *)

Definition w_metrics : Metrics := mkMetrics 0 0 0 f_zero 0 33554432 0.
Definition w_head : list byte := bytes_of "GET /healthz HTTP/1.1".
Definition w_tail : list byte := bytes_of (String NL ("Host: 10.0.0.1" +:+ CRLF)).
Definition w_pieces (cuts : list nat) (bs : list byte) : list (list byte) :=
  foldr (fun n acc bs => take n bs :: acc (drop n bs)) (fun bs => [bs]) cuts bs.

(** The path cut in two, the rest in one piece. *)
Lemma answer_ignores_segmentation_witness :
  handle_observability_request (fun _ => "") (fun _ => "") 60 (map Data (w_pieces [10%nat; 7%nat] (w_head ++ w_tail))) w_metrics =
  Ok (http_response ("200 OK", TEXT_PLAIN, "ok" +:+ EOL)).
Proof.
  rewrite (proj1 (answer_ignores_segmentation (fun _ => "") (fun _ => "") 60 w_head (drop 1 w_tail)
    (w_pieces [10%nat; 7%nat] (w_head ++ w_tail)) w_metrics ltac:(by vm_compute) ltac:(by vm_compute)
    ltac:(by apply Forall_forall; intros b Hb; apply list_elem_of_In in Hb; vm_compute in Hb; repeat destruct Hb as [<-|Hb]; try done)
    ltac:(by vm_compute; repeat constructor) ltac:(by vm_compute))).
  by vm_compute.
Defined.

(** The whole buffer has to be UTF-8, not only the request line: with a two-byte character of a header
    cut by the end of the piece that has the first line, a live agent's probe is answered 404. *)
Theorem split_character_not_found :
  let request := w_head ++ bytes_of (String NL "X: ") ++ [xc3; xa9; x0a] in
  handle_observability_request (fun _ => "") (fun _ => "") 60 [Data request] w_metrics =
    Ok (http_response ("200 OK", TEXT_PLAIN, "ok" +:+ EOL)) /\
  handle_observability_request (fun _ => "") (fun _ => "") 60 [Data (take 26 request); Data (drop 26 request)] w_metrics =
    Ok (http_response ("404 Not Found", TEXT_PLAIN, "not found" +:+ EOL)).
Proof. by vm_compute. Qed.

(** A batch a minute and a millisecond old makes the agent not ready; one a minute old does not. *)
Example stalled_after_a_minute :
  map (fun now_ms => (route (fun _ => "") (fun _ => "") 60
                     (publish_backlog_metrics w_metrics w_buffer now_ms)
                     (Some "/readyz")).1.1) [60005; 60006] = ["200 OK"; "503 Service Unavailable"].
Proof. by vm_compute. Qed.
