(* ===== verification/Startup.v ===== *)
(** Bringing the daemon up: the loader ([jalki/src/loader.rs]), the offsets it takes from BTF
    ([jalki/src/file_offsets.rs]), the order of [Runtime::run] ([jalki/src/runtime.rs]) to the point
    where the daemon serves, and the probe descriptor ([jalki/src/descriptor.rs]).

    aya is a parameter, as in [Registry] and [Daemon]. *)
From Stdlib Require Import Strings.Byte.
From stdpp Require Import base gmap list strings.
From S2P Require Import Prelude Text Float Evidence Event SensitivePaths Normalize Reader Ebpf EbpfOpen Btf Knowledge Registry Daemon.

(* ------------------------------------------------------------------ *)
(** ** Offsets from BTF

    [BtfData::from_sys_fs] and what it parsed, or why there is none. A lookup that does not end, as in
    [Btf], is [None]. *)

Section offsets.
Variable display_error : CodegenError -> string.
Variable from_sys_fs : result string BtfData.

(** Two fields of a struct: [resolve], [resolve_task_offsets] and [resolve_runtime_subject_offsets]. *)
Definition resolve_two (struct field1 field2 : string) : option (result string (Z * Z)) :=
  match from_sys_fs with
  | Err e => Some (Err ("load BTF: " +:+ e))
  | Ok btf =>
      match struct_by_name btf struct with
      | None => Some (Err ("struct " +:+ struct +:+ " not found in BTF"))
      | Some id =>
          r1 ← field_offset btf id field1;
          match r1 with
          | Err e => Some (Err ("resolve " +:+ struct +:+ "." +:+ field1 +:+ ": " +:+ display_error e))
          | Ok o1 =>
              r2 ← field_offset btf id field2;
              Some (match r2 with
                    | Err e => Err ("resolve " +:+ struct +:+ "." +:+ field2 +:+ ": " +:+ display_error e)
                    | Ok o2 => Ok (o1, o2)
                    end)
          end
      end
  end.
Definition resolve : option (result string (Z * Z)) := resolve_two "file" "f_path" "f_flags".
Definition resolve_task_offsets : option (result string (Z * Z)) := resolve_two "task_struct" "real_parent" "tgid".
Definition resolve_runtime_subject_offsets : option (result string (Z * Z)) := resolve_two "task_struct" "group_leader" "start_boottime".

(** [check_file_offsets]: what it logs, the disagreeing fields. *)
Inductive OffsetCheck := OffsetsVerified (f_path f_flags : Z) | OffsetsDisagree (f_path f_flags : option Z) | OffsetsUnknown (e : string).
Definition check_file_offsets : option OffsetCheck :=
  r ← resolve;
  Some match r with
  | Err e => OffsetsUnknown e
  | Ok (f_path, f_flags) =>
      if bool_decide (f_path = FILE_F_PATH_OFFSET /\ f_flags = FILE_F_FLAGS_OFFSET) then OffsetsVerified f_path f_flags
      else OffsetsDisagree (if bool_decide (f_path = FILE_F_PATH_OFFSET) then None else Some f_path)
                           (if bool_decide (f_flags = FILE_F_FLAGS_OFFSET) then None else Some f_flags)
  end.

Section object.
Context {Ebpf AyaMap : Type}.
(** Whether the object has a map and whether it is an [Array] of words; setting one of its slots. *)
Variable is_array : string -> Ebpf -> option bool.
Variable array_set : string -> Z -> Z -> Ebpf -> option Ebpf.

Definition set_slot (i v : Z) (what : string) (e : Ebpf) : result string Ebpf :=
  match array_set "TASK_OFFSETS" i v e with Some e => Ok e | None => Err ("set " +:+ what) end.

(** Two slots, when the offsets are known. *)
Definition set_two (offsets : result string (Z * Z)) (i : Z) (what1 what2 : string) (e : Ebpf) : result string Ebpf :=
  match offsets with
  | Ok (o1, o2) => e <-? set_slot i o1 what1 e ;; set_slot (i + 1) o2 what2 e
  | Err _ => Ok e
  end.

Definition populate_task_offsets (e : Ebpf) : option (result string Ebpf) :=
  match is_array "TASK_OFFSETS" e with
  | None => Some (Err "TASK_OFFSETS map not found")
  | Some false => Some (Err "TASK_OFFSETS is not an Array")
  | Some true =>
      task ← resolve_task_offsets;
      match set_two task 0 "real_parent offset" "tgid offset" e with
      | Err msg => Some (Err msg)
      | Ok e =>
          subject ← resolve_runtime_subject_offsets;
          Some (set_two subject 2 "group_leader offset" "start_boottime offset" e)
      end
  end.

(* ------------------------------------------------------------------ *)
(** ** The loader *)

Variable program_kind : string -> Ebpf -> option HookKind.
Variable prog_load prog_attach : string -> Attachment -> Ebpf -> bool * Ebpf.
Variable take_map : string -> Ebpf -> option AyaMap * Ebpf.
Variable is_ring_buf is_per_cpu_array : AyaMap -> bool.
Variable ebpf_load : list byte -> option Ebpf.
Variable logger_init : Ebpf -> Ebpf.
Variable is_hash_map : string -> Ebpf -> option bool.
Variable map_insert : string -> Z -> Z -> Ebpf -> option Ebpf.
Variable set_prefixes : list SensitivePrefix -> Ebpf -> result string Ebpf.
Variable read_file : string -> result string (list byte).
(** Whether aya can read the kernel's BTF. *)
Variable aya_btf : bool.
Variable self_pid : Z.

(** [attach_fentry], [attach_fexit] and [attach_tracepoint]. *)
Definition loader_attach (prog_name : string) (a : Attachment) (e : Ebpf) : result string unit * Ebpf :=
  let prog_name := match a with ATracepoint program _ _ => program | _ => prog_name end in
  let kind := match a with AFentry _ => "an fentry" | AFexit _ => "an fexit" | ATracepoint _ _ _ => "a tracepoint" end in
  match program_kind prog_name e with
  | None => (Err ("program " +:+ prog_name +:+ " not found in eBPF object"), e)
  | Some k =>
      if bool_decide (k = attachment_hook_kind a) then
        let '(loaded, e) := prog_load prog_name a e in
        if loaded then
          let '(attached, e) := prog_attach prog_name a e in
          (if attached then Ok tt else Err ("failed to attach " +:+ attachment_target a), e)
        else (Err ("failed to load " +:+ attachment_target a), e)
      else (Err ("program is not " +:+ kind), e)
  end.

(** The attachments of one probe: how many worked, and whether all did. *)
Fixpoint attach_each (prog_name : string) (attachments : list Attachment) (e : Ebpf) : nat * bool * Ebpf :=
  match attachments with
  | [] => (O, true, e)
  | a :: rest =>
      let '(r, e) := loader_attach prog_name a e in
      let '(n, ok, e) := attach_each prog_name rest e in
      match r with Ok _ => (S n, ok, e) | Err _ => (n, false, e) end
  end.

(** The loop over the probes: how many attachments worked, and the probes that are skipped. *)
Fixpoint attach_probes (probes : list Probe) (e : Ebpf) : nat * list string * Ebpf :=
  match probes with
  | [] => (O, [], e)
  | p :: rest =>
      let '(n, ok, e) := attach_each (pb_program_name p) (pb_attachments p) e in
      let '(m, skipped, e) := attach_probes rest e in
      ((n + m)%nat, if ok then skipped else pb_name p :: skipped, e)
  end.

Definition NO_PROBE : string := "no probe could attach on this kernel — refusing to run a collector that observes nothing".

(** Up to the loop over the probes. *)
Definition prepare (ebpf_path : string) (sensitive_paths : list string) : option (result string Ebpf) :=
  match read_file ebpf_path with
  | Err _ => Some (Err ("failed to read eBPF object at " +:+ ebpf_path))
  | Ok data =>
      match ebpf_load data with
      | None => Some (Err "failed to load eBPF programs")
      | Some e =>
          match populate_pid_filter is_hash_map map_insert self_pid (logger_init e) with
          | Err msg => Some (Err msg)
          | Ok e =>
              match set_prefixes (populate_sensitive_prefixes sensitive_paths) e with
              | Err msg => Some (Err msg)
              | Ok e =>
                  _ ← check_file_offsets;
                  r ← populate_task_offsets e;
                  Some match r with
                  | Err msg => Err msg
                  | Ok e => if aya_btf then Ok e else Err "failed to load BTF from /sys/kernel/btf/vmlinux"
                  end
              end
          end
      end
  end.

Definition load_and_attach (ebpf_path : string) (probes : list Probe) (sensitive_paths : list string) : option (result string Ebpf) :=
  r ← prepare ebpf_path sensitive_paths;
  Some match r with
  | Err msg => Err msg
  | Ok e =>
      let '(attached, skipped, e) := attach_probes probes e in
      if (attached =? 0)%nat then Err NO_PROBE else Ok e
  end.

(** [Runtime::run] to the [DaemonHandle]. *)
Definition bring_up (ebpf_path : string) (probes : list Probe) (sensitive_paths : list string) (ck : Clocks)
  : option (result string (Daemon (Ebpf := Ebpf))) :=
  r ← load_and_attach ebpf_path probes sensitive_paths;
  Some (match r with
        | Err msg => Err msg
        | Ok e =>
            if negb aya_btf then Err "failed to load BTF from /sys/kernel/btf/vmlinux"
            else match from_sys_fs with
                 | Err _ => Err "failed to parse BTF for codegen"
                 | Ok _ =>
                     er <-? start_probes take_map is_ring_buf is_per_cpu_array probes ck e ProbeRegistry_new ;;
                     Ok (DaemonHandle_new er.1 er.2)
                 end
        end).
End object.
End offsets.

(* ------------------------------------------------------------------ *)
(** ** Degraded starts *)

Section loader.
Context {Ebpf AyaMap : Type}.
Variable display_error : CodegenError -> string.
Variable from_sys_fs : result string BtfData.
Variable is_array : string -> Ebpf -> option bool.
Variable array_set : string -> Z -> Z -> Ebpf -> option Ebpf.
Variable program_kind : string -> Ebpf -> option HookKind.
Variable prog_load prog_attach : string -> Attachment -> Ebpf -> bool * Ebpf.
Variable take_map : string -> Ebpf -> option AyaMap * Ebpf.
Variable is_ring_buf is_per_cpu_array : AyaMap -> bool.
Variable ebpf_load : list byte -> option Ebpf.
Variable logger_init : Ebpf -> Ebpf.
Variable is_hash_map : string -> Ebpf -> option bool.
Variable map_insert : string -> Z -> Z -> Ebpf -> option Ebpf.
Variable set_prefixes : list SensitivePrefix -> Ebpf -> result string Ebpf.
Variable read_file : string -> result string (list byte).
Variable aya_btf : bool.
Variable self_pid : Z.

Abbreviation load := (load_and_attach display_error from_sys_fs is_array array_set program_kind prog_load prog_attach ebpf_load
  logger_init is_hash_map map_insert set_prefixes read_file aya_btf self_pid).
Abbreviation prepared := (prepare display_error from_sys_fs is_array array_set ebpf_load logger_init is_hash_map map_insert
  set_prefixes read_file aya_btf self_pid).
Abbreviation up := (bring_up display_error from_sys_fs is_array array_set program_kind prog_load prog_attach take_map is_ring_buf
  is_per_cpu_array ebpf_load logger_init is_hash_map map_insert set_prefixes read_file aya_btf self_pid).
Abbreviation attach_one := (loader_attach program_kind prog_load prog_attach).

(** All there is to attach, in order, with the probe each belongs to. *)
Definition to_attach (probes : list Probe) : list (Probe * Attachment) :=
  concat (map (fun p => map (fun a => (p, a)) (pb_attachments p)) probes).

(** One attempt at each, on the object as the one before left it. *)
Fixpoint attempts (todo : list (Probe * Attachment)) (e : Ebpf) : list (Probe * bool) * Ebpf :=
  match todo with
  | [] => ([], e)
  | (p, a) :: rest =>
      let '(r, e) := attach_one (pb_program_name p) a e in
      let '(rs, e) := attempts rest e in
      ((p, is_ok r) :: rs, e)
  end.

Definition successes (rs : list (Probe * bool)) : list (Probe * bool) := List.filter snd rs.

Lemma attempts_app todo1 todo2 e :
  attempts (todo1 ++ todo2) e =
    let '(rs1, e) := attempts todo1 e in let '(rs2, e) := attempts todo2 e in (rs1 ++ rs2, e).
Proof.
  revert e. induction todo1 as [|[p a] todo IH]; intros e; cbn [app attempts]; [by destruct (attempts todo2 e)|].
  destruct (attach_one _ a e) as [r e1]. rewrite IH. destruct (attempts todo e1) as [rs1 e2]. by destruct (attempts todo2 e2).
Qed.

Lemma attach_each_attempts p ats e :
  attach_each program_kind prog_load prog_attach (pb_program_name p) ats e =
    let '(rs, e) := attempts (map (fun a => (p, a)) ats) e in (length (successes rs), forallb snd rs, e).
Proof.
  revert e. induction ats as [|a ats IH]; intros e; [done|]. cbn [attach_each map attempts].
  destruct (attach_one _ a e) as [r e1]. rewrite IH. destruct (attempts _ e1) as [rs e2]. by destruct r.
Qed.

Lemma attach_probes_attempts probes e :
  (attach_probes program_kind prog_load prog_attach probes e).1.1 = length (successes (attempts (to_attach probes) e).1) /\
  (attach_probes program_kind prog_load prog_attach probes e).2 = (attempts (to_attach probes) e).2.
Proof.
  revert e. induction probes as [|p ps IH]; intros e; [done|]. cbn [attach_probes to_attach map concat].
  rewrite attach_each_attempts, attempts_app. destruct (attempts (map _ _) e) as [rs1 e1]. specialize (IH e1).
  unfold to_attach in IH. destruct (attempts (concat _) e1) as [rs2 e2]. destruct (attach_probes _ _ _ ps e1) as [[m skipped] e3].
  cbn in *. destruct IH as [-> ->]. split; [|by destruct (forallb snd rs1)]. unfold successes. by rewrite List.filter_app, length_app.
Qed.

(** C37: One probe's failure is no other's, but a failed preparation is everyone's. When the object
    cannot be read or loaded, a filter, prefix or offset map is missing or cannot be filled, or the
    kernel's BTF cannot be loaded, the start ends there, and nothing is attached. Once [prepared], every
    attachment of every probe is attempted exactly once, in order, whatever became of those before
    it; the start fails only when not one of them works, and otherwise goes on with the object as
    all the attempts left it. *)
Theorem degraded_start path probes paths :
  load path probes paths =
    match prepared path paths with
    | None => None
    | Some (Err msg) => Some (Err msg)
    | Some (Ok e) =>
        let '(rs, e') := attempts (to_attach probes) e in
        Some (if existsb snd rs then Ok e' else Err NO_PROBE)
    end.
Proof.
  unfold load_and_attach. destruct (prepared path paths) as [[e|msg]|]; [|done|done]. cbn [mbind option_bind].
  pose proof (attach_probes_attempts probes e) as [Hn He]. destruct (attach_probes _ _ _ probes e) as [[n skipped] e1].
  cbn in Hn, He. destruct (attempts (to_attach probes) e) as [rs e2]. cbn in *. subst. f_equal.
  assert (existsb snd rs = negb (Nat.eqb (length (List.filter snd rs)) 0)) as ->; [|by destruct (Nat.eqb _ 0)].
  clear. induction rs as [|[p []] rs IH]; [done|done|exact IH].
Qed.

Lemma spawn_reader_entries p stats clock e r res e1 r1 :
  spawn_reader take_map is_ring_buf is_per_cpu_array p stats clock e r = (res, e1, r1) ->
  rg_attached r1 = rg_attached r /\ rg_next_id r1 = rg_next_id r.
Proof.
  unfold spawn_reader. intros H. repeat (case_match; simplify_eq; try done).
Qed.

Lemma start_probes_listed probes ck e r e' r' n :
  start_probes take_map is_ring_buf is_per_cpu_array probes ck e r = Ok (e', r') -> started_ok n r ->
  1 + Z.of_nat n + zlen probes < u64_max ->
  (forall id a, rg_attached r !! id = Some a -> rg_attached r' !! id = Some a) /\
  forall p, p ∈ probes -> exists id a, rg_attached r' !! id = Some a /\ ap_probe a = p /\ ap_stop a = None.
Proof.
  revert e r n. induction probes as [|p ps IH]; intros e r n Hs Hok Hmax.
  - injection Hs as <- <-. split; [done|]. intros p Hp. by apply not_elem_of_nil in Hp.
  - rewrite zlen_cons in Hmax. pose proof (zlen_nonneg ps).
    pose proof (start_probes_ok take_map is_ring_buf is_per_cpu_array [p] ck e r) as Hone. cbn [start_probes] in Hs, Hone.
    destruct (spawn_reader _ _ _ _ _ _ _ _) as [[[stop|msg] e1] r1] eqn:Es; [|done].
    apply spawn_reader_entries in Es as [Ea En]. cbn in Ea, En.
    set (r2 := (register_startup_probe p (length (rg_stats r)) (ck_now ck) r1).2) in *.
    assert (started_ok (S n) r2) as Hok2.
    { replace (S n) with (n + length [p])%nat by (cbn; lia). apply (Hone e1 r2 n eq_refl Hok). change (zlen [p]) with 1. lia. }
    destruct (IH e1 r2 (S n) Hs Hok2) as [Hkeep Hall]; [lia|].
    assert (rg_attached r2 = <[probe_id_of (rg_next_id r) := mkAttachedProbe p (ck_now ck) (length (rg_stats r)) None]> (rg_attached r)) as E2
      by (subst r2; cbn; by rewrite Ea, En).
    assert (rg_attached r !! probe_id_of (rg_next_id r) = None) as Hfresh.
    { destruct Hok as [[Hn Hi _ _] _ Hnext _]. cbn in Hn, Hi. apply eq_None_not_Some. intros Hsome.
      destruct (Hi _ (or_introl Hsome)) as (k & Hk & E%probe_id_of_inj); lia. }
    split.
    + intros id a Ha. apply Hkeep. rewrite E2, lookup_insert_ne; [done|]. intros <-. congruence.
    + intros p' Hp'. apply elem_of_cons in Hp' as [->|Hp']; [|by apply Hall].
      eexists _, _. split; [apply Hkeep; rewrite E2; apply lookup_insert_eq|done].
Qed.

(** A daemon that came up lists every configured probe as attached, those that were skipped too, and
    so a skipped one can be neither deployed nor detached later. *)
Theorem skipped_probe_stays_listed path probes paths ck d b :
  up path probes paths ck = Some (Ok d) -> 2 + zlen probes < u64_max -> builtin b ∈ probes ->
  (exists s, s ∈ status (dm_registry d) /\ pst_name s = pb_name (builtin b)) /\
  already_attached (pb_name (builtin b)) (dm_registry d) = true.
Proof.
  intros Hup Hmax Hb. unfold bring_up in Hup. destruct (load path probes paths) as [[e|]|]; [|done|done]. cbn [mbind option_bind] in Hup.
  destruct (negb aya_btf); [done|]. destruct from_sys_fs as [parsed|]; [|done].
  destruct (start_probes take_map is_ring_buf is_per_cpu_array probes ck e ProbeRegistry_new) as [[e' r']|] eqn:Es; [|done].
  cbn in Hup. injection Hup as <-. cbn [dm_registry DaemonHandle_new].
  destruct (start_probes_listed _ _ _ _ _ _ 0 Es new_started) as [_ Hall]; [cbn; lia|].
  destruct (Hall _ Hb) as (id & a & Ha & Hp & _). split.
  - exists (status_of r' id a). split; [|by cbn; rewrite Hp]. unfold status.
    apply (list_elem_of_fmap_2 (fun ie : string * AttachedProbe => status_of r' ie.1 ie.2) _ (id, a)). by apply elem_of_map_to_list.
  - apply already_attached_true. exists id, a. by rewrite Hp.
Qed.
End loader.

(* ------------------------------------------------------------------ *)
(** ** Offsets in the kernel's maps *)

Section task_offsets.
Variable display_error : CodegenError -> string.
Variable from_sys_fs : result string BtfData.

(** [TASK_OFFSETS] of [jalki-ebpf], an array that is there. *)
Definition maps_is_array (name : string) (m : Maps) : option bool := Some true.
Definition maps_array_set (name : string) (i v : Z) (m : Maps) : option Maps :=
  if (0 <=? i) && (i <? zlen (mp_task_offsets m)) then Some (m <| mp_task_offsets ::= <[Z.to_nat i := v]> |>) else None.

Abbreviation populate := (populate_task_offsets display_error from_sys_fs maps_is_array maps_array_set).

(** Slots [i] and [i + 1] after an attempt to resolve what goes there. *)
Definition slots_set (res : option (result string (Z * Z))) (i : nat) (m : Maps) : Prop :=
  match res with
  | Some (Ok (o1, o2)) => task_offset m i = o1 /\ task_offset m (S i) = o2
  | _ => task_offset m i = 0 /\ task_offset m (S i) = 0
  end.

(** The exec program reads the fields it says, or nothing. Filled from BTF when the daemon starts,
    the offsets in the kernel's map are those of the types of the running kernel: for the parent's
    pid those of [real_parent] and [tgid], for the start time those of [group_leader] and
    [start_boottime]; a pair of which one cannot be resolved is left zero, both of it, whatever
    becomes of the other pair, and then the program reports zero instead of what a guessed offset
    points at. Filling never fails. *)
Theorem task_offsets_from_btf m k :
  mp_task_offsets m = [0; 0; 0; 0] ->
  is_Some (resolve_task_offsets display_error from_sys_fs) -> is_Some (resolve_runtime_subject_offsets display_error from_sys_fs) ->
  exists m', populate m = Some (Ok m') /\
    slots_set (resolve_task_offsets display_error from_sys_fs) 0 m' /\
    slots_set (resolve_runtime_subject_offsets display_error from_sys_fs) 2 m' /\
    (forall e, resolve_task_offsets display_error from_sys_fs = Some (Err e) -> read_ppid k m' = 0) /\
    (forall e, resolve_runtime_subject_offsets display_error from_sys_fs = Some (Err e) -> read_leader_start_boottime_ns k m' = 0) /\
    mp_prefixes m' = mp_prefixes m /\ mp_pid_filter m' = mp_pid_filter m.
Proof.
  intros Hm [task Ht] [subject Hs]. unfold populate_task_offsets. cbn [maps_is_array]. rewrite Ht, Hs. cbn [mbind option_bind].
  destruct m as [pf offs pre infl ring]. cbn in Hm. subst offs.
  destruct task as [[p t]|et], subject as [[g s]|es]; cbn; eexists; (split; [reflexivity|]); cbn; split_and!; done || by intros e [=].
Qed.
End task_offsets.

(** A kernel whose [task_struct] has the parent and the thread group at bytes 1248 and 1236, and no
    [group_leader]. *)
Definition w_task_names : list string := ["task_struct"; "real_parent"; "tgid"].
Definition w_task_btf : BtfData := mkBtfData
  [mkBtfTypeEntry 1 BTF_KIND_STRUCT 2 9792 (ExMembers [mkBtfMember 13 1 (1248 * 8); mkBtfMember 25 1 (1236 * 8)])]
  (x00 :: concat (map (fun s => bytes_of s ++ [x00]) w_task_names)) ∅ {["task_struct" := 1]}.
Definition w_unset : Maps := Ebpf.w_maps <| mp_task_offsets := [0; 0; 0; 0] |>.

Lemma task_offsets_from_btf_witness :
  exists m', populate_task_offsets (fun _ => "no such field") (Ok w_task_btf) maps_is_array maps_array_set w_unset = Some (Ok m') /\
    mp_task_offsets m' = [1248; 1236; 0; 0] /\ forall k, read_leader_start_boottime_ns k m' = 0.
Proof.
  assert (resolve_task_offsets (fun _ => "no such field") (Ok w_task_btf) = Some (Ok (1248, 1236))) as Ht by (vm_compute; reflexivity).
  assert (exists e, resolve_runtime_subject_offsets (fun _ => "no such field") (Ok w_task_btf) = Some (Err e)) as [e Hs]
    by (eexists; vm_compute; reflexivity).
  pose proof (fun k => task_offsets_from_btf (fun _ => "no such field") (Ok w_task_btf) w_unset k eq_refl) as H.
  rewrite Ht, Hs in H. eexists. split; [vm_compute; reflexivity|]. split; [vm_compute; reflexivity|].
  intros k. destruct (H k) as (m' & Hp & _ & _ & _ & Hl & _); [by eexists..|].
  pose proof (Hl e eq_refl) as Hz. revert Hp. vm_compute. intros [= <-]. by vm_compute in Hz.
Defined.

(* ------------------------------------------------------------------ *)
(** ** Descriptors *)

Record ProbeFilter := mkProbeFilter {
  pf_dst_port : option Z;
  pf_src_ip : option string;
  pf_pid : option Z;
  pf_command : option string
}.

Record ProbeDescriptor := mkProbeDescriptor {
  pd_function : string;
  pd_attachment : string;
  pd_fields : list string;
  pd_filter : option ProbeFilter;
  pd_sample_rate : f64;
  pd_event_type : string
}.

Definition default_sample_rate : f64 := f_one.

Definition to_attachment (d : ProbeDescriptor) : Attachment :=
  if bool_decide (pd_attachment d = "fexit") then AFexit (pd_function d) else AFentry (pd_function d).

Definition descriptor_program_name (d : ProbeDescriptor) : option string :=
  if bool_decide (pd_function d = "tcp_connect") then Some "jalki_tcp_connect"
  else if bool_decide (pd_function d = "tcp_close") then Some "jalki_tcp_close"
  else if bool_decide (pd_function d = "tcp_retransmit_skb") then Some "jalki_tcp_retransmit"
  else None.

(** A program a descriptor names is the one the daemon would use; but the daemon has pre-compiled
    programs for two kernel functions a descriptor finds none for. *)
Theorem descriptor_programs d prog :
  (descriptor_program_name d = Some prog -> exists b, pre_compiled (pd_function d) = Some b /\ pb_program_name (builtin b) = prog) /\
  Forall (fun f => is_Some (pre_compiled f) /\ forall d', pd_function d' = f -> descriptor_program_name d' = None)
    ["sched_process_exec"; "security_file_open"].
Proof.
  split.
  - unfold descriptor_program_name. repeat (case_bool_decide as H; [rewrite H; intros [= <-]; by eexists|clear H]). done.
  - repeat constructor; try (by eexists); intros d' E; unfold descriptor_program_name; by rewrite E.
Qed.

(* ------------------------------------------------------------------ *)
(** ** A start in which one probe fails *)

(** The toy kernel of [Daemon], whose verifier rejects the program of [tcp_connect]. *)
Definition w_rejects (program : string) (a : Attachment) (e : list string) : bool * list string :=
  (negb (bool_decide (program = "jalki_tcp_connect")), e).
Definition w_two_probes : list Probe := [builtin PTcpConnect; builtin PTcpClose].
Definition w_object : list string := ["TCP_CONNECT_EVENTS"; "TCP_CONNECT_EVENTS_DROPS"; "TCP_CLOSE_EVENTS"; "TCP_CLOSE_EVENTS_DROPS"].

Abbreviation w_up := (bring_up (fun _ => "") (Ok Btf.w_btf) (fun _ (_ : list string) => Some true) (fun _ _ _ e => Some e)
  (fun _ _ => Some Fexit) w_rejects w_works w_take (fun _ => true) (fun _ => true) (fun _ => Some w_object) (fun e => e)
  (fun _ _ => Some true) (fun _ _ _ e => Some e) (fun _ e => Ok e) (fun _ => Ok []) true 1 "jalki-ebpf" w_two_probes [] w_ck).

(** The daemon comes up, with [tcp_connect] attached by no program and listed all the same. *)
Example degraded_start_example :
  exists d, w_up = Some (Ok d) /\ map pst_name (status (dm_registry d)) ≡ₚ ["tcp_connect"; "tcp_close"] /\
  fst (loader_attach (fun _ _ => Some Fexit) w_rejects w_works "jalki_tcp_connect" (AFexit "tcp_connect") w_object) =
    Err "failed to load fexit/tcp_connect".
Proof.
  eexists. split; [vm_compute; reflexivity|]. split; [|by vm_compute]. vm_compute. first [reflexivity | apply Permutation_swap].
Qed.
