(* ===== verification/Config.v ===== *)
(** What the daemon runs with: the command line and the environment ([jalki/src/main.rs]), the builder
    and the producer of [jalki/src/runtime.rs]. clap has parsed the command line; the environment, the
    host's files and its Kubernetes client are parameters. *)
From Stdlib Require Import Strings.Byte.
From stdpp Require Import base gmap list strings.
From S2P Require Import Prelude Protocol RuntimeSubject Evidence Samples Sink Event SensitivePaths Normalize Vartio.

(* ------------------------------------------------------------------ *)
(** ** The command line *)

(** The options that are not a subcommand's. *)
Record Cli := mkCli {
  cli_ebpf_path : string;
  cli_sink : string;
  cli_also_sink : list string;
  cli_vartio_endpoint : option string;
  cli_vartio_adapter_id : string;
  cli_cluster : option string;
  cli_k8s_enrichment : bool;
  cli_namespaces : list string;
  cli_node_name : option string;
  cli_cgroup_root : string;
  cli_sensitive_path : list string
}.

(** A sink as configured; [NewVartio] is connected, which dials nothing. *)
Inductive SinkChoice := NewStdout | NewFile (path : string) | NewVartio (cfg : VartioSinkConfig).
Record BuiltSink := mkBuiltSink { bs_primary : SinkChoice; bs_secondaries : list SinkChoice }.

Section sinks.
Variable env : string -> option string.
(** tonic's parsing of an endpoint and its TLS configuration, as in [Vartio]; [Display] of an error. *)
Variable parse_endpoint tls_config : string -> option string.
Variable display : SinkError -> string.

Definition vartio_config (cli : Cli) (endpoint : string) : VartioSinkConfig :=
  let cfg := VartioSinkConfig_new endpoint (cli_vartio_adapter_id cli) in
  let cfg := match env "VARTIO_INGRESS_TOKEN" with Some token => with_ingress_token token cfg | None => cfg end in
  let file_types := match env "JALKI_VARTIO_FILE_TYPES" with
                    | Some v => bool_decide (trim v ∈ ["1"; "true"])
                    | None => false
                    end in
  with_file_types file_types cfg.

Definition NO_ENDPOINT : string := "--sink vartio requires --vartio-endpoint (or JALKI_VARTIO_ENDPOINT)".

Definition build_vartio_sink (cli : Cli) : result string VartioSinkConfig :=
  match cli_vartio_endpoint cli with
  | None => Err NO_ENDPOINT
  | Some endpoint =>
      match connect parse_endpoint tls_config (vartio_config cli endpoint) with
      | Ok (cfg, _) => Ok cfg
      | Err e => Err ("vartio sink misconfigured: " +:+ display e)
      end
  end.

Definition sink_from_spec (spec : string) (cli : Cli) : result string SinkChoice :=
  if bool_decide (spec = "stdout") then Ok NewStdout
  else if bool_decide (spec = "file") then Ok (NewFile "jalki-events.ndjson")
  else if bool_decide (spec = "vartio") then (cfg <-? build_vartio_sink cli ;; Ok (NewVartio cfg))
  else Ok (NewFile spec).

(** The loop over [also_sink]. *)
Fixpoint build_secondaries (specs : list string) (cli : Cli) : result string (list SinkChoice) :=
  match specs with
  | [] => Ok []
  | spec :: rest => s <-? sink_from_spec spec cli ;; ss <-? build_secondaries rest cli ;; Ok (s :: ss)
  end.

Definition build_sink (cli : Cli) : result string BuiltSink :=
  primary <-? sink_from_spec (cli_sink cli) cli ;;
  match cli_also_sink cli with
  | [] => Ok (mkBuiltSink primary [])
  | specs => secondaries <-? build_secondaries specs cli ;; Ok (mkBuiltSink primary secondaries)
  end.
End sinks.

(* ------------------------------------------------------------------ *)
(** ** The builder *)

Record Runtime := mkRuntime {
  rt_probes : list Probe;
  rt_sink : option BuiltSink;
  rt_ebpf_path : string;
  rt_cluster : string;
  rt_k8s : bool;
  rt_sensitive_paths : list string;
  rt_namespace_allowlist : option (gset string);
  rt_node_identity : option string
}.
#[export] Instance eta_Runtime : Eta Runtime := fun r =>
  mkRuntime (rt_probes r) (rt_sink r) (rt_ebpf_path r) (rt_cluster r) (rt_k8s r) (rt_sensitive_paths r)
    (rt_namespace_allowlist r) (rt_node_identity r).

Definition nonblank (ns : list string) : list string := List.filter nonempty (map trim ns).

Section builder.
(** [hostname::get] as a [String]; what [/proc] says, if it can be read; the environment. *)
Variable hostname : option string.
Variable osrelease proc_boot_id : option string.
Variable env : string -> option string.
Variable version : string.

Definition Runtime_new (ebpf_path : string) : Runtime :=
  mkRuntime [] None ebpf_path (default "unknown" hostname) false DEFAULT_SENSITIVE_PATHS None None.
Definition with_probe (p : BuiltinProbe) (r : Runtime) : Runtime := r <| rt_probes ::= fun ps => ps ++ [builtin p] |>.
Definition namespace_allowlist (namespaces : list string) (r : Runtime) : Runtime :=
  let set := nonblank namespaces in
  r <| rt_namespace_allowlist := if bool_decide (set = []) then None else Some (list_to_set set) |>.
Definition with_node_identity (identity : string) (r : Runtime) : Runtime := r <| rt_node_identity := Some identity |>.

Definition producer_metadata (cluster : string) (node_identity : option string) : ProducerMetadata :=
  let p := ProducerMetadata_new version cluster (default "unknown" hostname) (default "unknown" (trim <$> osrelease)) in
  let non_blank (s : option string) := s ≫= fun v => if nonempty v then Some v else None in
  mkProducerMetadata (pm_producer p) (pm_producer_version p) (pm_cluster p) (pm_node_id p) (pm_kernel_release p)
    (non_blank (match node_identity with Some i => Some i | None => env "JALKI_NODE_IDENTITY" end))
    (non_blank (trim <$> proc_boot_id)).

(* ------------------------------------------------------------------ *)
(** ** [run_daemon] *)

Definition default_node_name : string := default "unknown" hostname.

(** Whether a Kubernetes client can be made, and the UID of a node, when it can be read and has one. *)
Variable kube_client : option string.
Variable node_uid : string -> option string.

(** [configure_k8s_enrichment], less the watcher it spawns. *)
Definition configure_k8s_enrichment (r : Runtime) (cli : Cli) : result string Runtime :=
  let node_name := default default_node_name (cli_node_name cli) in
  let r := r <| rt_k8s := true |> in
  match kube_client with
  | Some _ => Err "failed to create Kubernetes client for jalki pod enrichment"
  | None =>
      match env "JALKI_NODE_IDENTITY" with
      | Some (String _ _) => Ok r
      | _ =>
          match node_uid node_name with
          | Some (String _ _ as uid) => Ok (with_node_identity ("k8s-node-uid:" +:+ uid) r)
          | _ => Ok r
          end
      end
  end.

Variable parse_endpoint tls_config : string -> option string.
Variable display : SinkError -> string.

(** [run_daemon], up to [Runtime::run]. *)
Definition run_daemon (cli : Cli) : result string Runtime :=
  let r := Runtime_new (cli_ebpf_path cli) in
  let r := foldl (fun r p => with_probe p r) r [PProcessExec; PFileOpen; PFileOpenAttempt; PTcpConnect; PTcpClose; PTcpRetransmit] in
  let r := namespace_allowlist (cli_namespaces cli) (r <| rt_sensitive_paths := parse_sensitive_paths (cli_sensitive_path cli) |>) in
  let r := match cli_cluster cli with Some c => r <| rt_cluster := c |> | None => r end in
  r <-? (if cli_k8s_enrichment cli then configure_k8s_enrichment r cli else Ok r) ;;
  sink <-? build_sink env parse_endpoint tls_config display cli ;;
  Ok (r <| rt_sink := Some sink |>).
End builder.

(* ------------------------------------------------------------------ *)
(** ** What it comes to *)

Section facts.
Variable hostname : option string.
Variable osrelease proc_boot_id : option string.
Variable env : string -> option string.
Variable version : string.
Variable kube_client : option string.
Variable node_uid : string -> option string.
Variable parse_endpoint tls_config : string -> option string.
Variable display : SinkError -> string.

Abbreviation daemon := (run_daemon hostname env kube_client node_uid parse_endpoint tls_config display).
Abbreviation sinks := (build_sink env parse_endpoint tls_config display).

(** A name of a sink, in words. *)
Definition sink_named (spec : string) (cfg : VartioSinkConfig) : SinkChoice :=
  if bool_decide (spec = "stdout") then NewStdout
  else if bool_decide (spec = "file") then NewFile "jalki-events.ndjson"
  else if bool_decide (spec = "vartio") then NewVartio cfg else NewFile spec.

(** Whether Vartio can be named as a sink: an endpoint and an adapter id are given, and tonic makes
    something of the endpoint. *)
Definition vartio_usable (cli : Cli) : bool :=
  match cli_vartio_endpoint cli with
  | None => false
  | Some endpoint =>
      nonempty endpoint && nonempty (cli_vartio_adapter_id cli) && negb (bool_decide (is_Some (parse_endpoint endpoint))) &&
      negb (starts_with endpoint "https://" && bool_decide (is_Some (tls_config endpoint)))
  end.

Abbreviation vartio_of cli := (vartio_config env cli (default "" (cli_vartio_endpoint cli))).

Lemma vartio_config_endpoint cli endpoint :
  vc_endpoint (vartio_config env cli endpoint) = endpoint /\ vc_adapter_id (vartio_config env cli endpoint) = cli_vartio_adapter_id cli.
Proof. unfold vartio_config. by destruct (env "VARTIO_INGRESS_TOKEN"). Qed.

Lemma build_vartio_ok cli :
  build_vartio_sink env parse_endpoint tls_config display cli =
    if vartio_usable cli then Ok (vartio_of cli)
    else Err (match build_vartio_sink env parse_endpoint tls_config display cli with Err e => e | Ok _ => "" end).
Proof.
  unfold build_vartio_sink, vartio_usable. destruct (cli_vartio_endpoint cli) as [endpoint|]; [|done]. cbn [default].
  destruct (vartio_config_endpoint cli endpoint) as [He Ha]. unfold connect, VartioSinkConfig_validate. rewrite He, Ha.
  destruct (nonempty endpoint); [|done]. destruct (nonempty (cli_vartio_adapter_id cli)); [|done]. cbn [negb andb result_bind].
  destruct (parse_endpoint endpoint); [done|]. cbn.
  destruct (starts_with endpoint "https://"); cbn; [|done]. by destruct (tls_config endpoint).
Qed.

Lemma sink_from_spec_ok spec cli :
  if bool_decide (spec = "vartio") && negb (vartio_usable cli)
  then exists e, sink_from_spec env parse_endpoint tls_config display spec cli = Err e
  else sink_from_spec env parse_endpoint tls_config display spec cli = Ok (sink_named spec (vartio_of cli)).
Proof.
  unfold sink_from_spec, sink_named.
  destruct (bool_decide_reflect (spec = "stdout")) as [->|]; [done|]. destruct (bool_decide_reflect (spec = "file")) as [->|]; [done|].
  case_bool_decide; [|done]. rewrite build_vartio_ok. destruct (vartio_usable cli); [done|]. by eexists.
Qed.

Lemma named_cons s specs : bool_decide ("vartio" ∈ s :: specs) = bool_decide (s = "vartio") || bool_decide ("vartio" ∈ specs).
Proof. rewrite <- bool_decide_or. apply bool_decide_ext. rewrite elem_of_cons. split; intros [->|]; auto. Qed.

Lemma build_secondaries_ok specs cli :
  if bool_decide ("vartio" ∈ specs) && negb (vartio_usable cli)
  then exists e, build_secondaries env parse_endpoint tls_config display specs cli = Err e
  else build_secondaries env parse_endpoint tls_config display specs cli = Ok (map (fun s => sink_named s (vartio_of cli)) specs).
Proof.
  induction specs as [|s specs IH]; [done|]. cbn [build_secondaries map]. rewrite named_cons. pose proof (sink_from_spec_ok s cli) as Hs.
  destruct (vartio_usable cli); cbn [negb] in *; rewrite ?andb_false_r, ?andb_true_r in *; [by rewrite Hs, IH|].
  destruct (bool_decide (s = "vartio")); cbn [orb]; [by destruct Hs as [e ->]; eexists|]. rewrite Hs.
  destruct (bool_decide ("vartio" ∈ specs)); [by destruct IH as [e ->]; eexists|by rewrite IH].
Qed.

(** The sinks are the ones named, in order, and nothing about them but a configuration that no
    retry would fix stops the daemon: building them fails exactly when Vartio is among those named
    and has no endpoint, no adapter id, or an endpoint that does not parse. *)
Theorem sinks_as_configured cli :
  let specs := cli_sink cli :: cli_also_sink cli in
  if bool_decide ("vartio" ∈ specs) && negb (vartio_usable cli)
  then exists e, sinks cli = Err e
  else sinks cli = Ok (mkBuiltSink (sink_named (cli_sink cli) (vartio_of cli))
                                   (map (fun s => sink_named s (vartio_of cli)) (cli_also_sink cli))).
Proof.
  intros specs. subst specs. unfold build_sink. rewrite named_cons.
  pose proof (sink_from_spec_ok (cli_sink cli) cli) as Hs. pose proof (build_secondaries_ok (cli_also_sink cli) cli) as Hss.
  destruct (vartio_usable cli); cbn [negb] in *; rewrite ?andb_false_r, ?andb_true_r in *.
  { rewrite Hs. destruct (cli_also_sink cli); [done|]. cbn [result_bind]. by rewrite Hss. }
  destruct (bool_decide (cli_sink cli = "vartio")); cbn [orb]; [by destruct Hs as [e ->]; eexists|]. rewrite Hs.
  destruct (bool_decide ("vartio" ∈ cli_also_sink cli)) eqn:Ev.
  2: { destruct (cli_also_sink cli); [done|]. cbn [result_bind]. by rewrite Hss. }
  destruct Hss as [e He]. destruct (cli_also_sink cli); [done|]. exists e. cbn [result_bind]. by rewrite He.
Qed.

(** Without a node identity and a boot id, no record gets a process-lifetime identity. *)
Lemma no_anchor_no_subject sha cluster identity o :
  let p := producer_metadata hostname osrelease proc_boot_id env version cluster identity in
  pm_node_identity p = None \/ pm_boot_id p = None -> apply_runtime_subject sha o p = o.
Proof. intros p [E|E]; unfold apply_runtime_subject; rewrite E; repeat case_match; done. Qed.

(** Where the node's identity comes from. The operator's variable, when it is set to anything, is the
    producer's node identity; otherwise, with Kubernetes enrichment, it is the UID of the node named,
    if it could be read; otherwise there is none, and then no record is given a process-lifetime
    identity. Being unable to read the node never stops the daemon. *)
Theorem node_identity_resolved cli r cluster sha o :
  daemon cli = Ok r ->
  let p := producer_metadata hostname osrelease proc_boot_id env version cluster (rt_node_identity r) in
  let node := default (default_node_name hostname) (cli_node_name cli) in
  pm_node_identity p =
    match env "JALKI_NODE_IDENTITY" with
    | Some (String _ _ as identity) => Some identity
    | _ => match (if cli_k8s_enrichment cli then node_uid node else None) with
           | Some (String _ _ as uid) => Some ("k8s-node-uid:" +:+ uid)
           | _ => None
           end
    end /\
  (pm_node_identity p = None -> apply_runtime_subject sha o p = o).
Proof.
  intros Hr p node. split; [|intros E; apply no_anchor_no_subject; by left].
  assert (rt_node_identity r =
    match env "JALKI_NODE_IDENTITY" with
    | Some (String _ _) => None
    | _ => match (if cli_k8s_enrichment cli then node_uid node else None) with
           | Some (String _ _ as uid) => Some ("k8s-node-uid:" +:+ uid) | _ => None
           end
    end) as Hid.
  { unfold run_daemon in Hr. set (base := match cli_cluster cli with Some _ => _ | None => _ end) in Hr.
    assert (rt_node_identity base = None) as Hb by (subst base; by destruct (cli_cluster cli)). clearbody base.
    destruct (if cli_k8s_enrichment cli then _ else Ok base) as [r1|] eqn:E1; [|done]. cbn [result_bind] in Hr.
    destruct (sinks cli); [|done]. injection Hr as <-. cbn [rt_node_identity].
    unfold configure_k8s_enrichment in E1. destruct (cli_k8s_enrichment cli), kube_client; simplify_eq; try done.
    all: destruct (env "JALKI_NODE_IDENTITY") as [[|c i]|]; simplify_eq; try done.
    all: subst node; unfold default_node_name in E1 |- *; cbn in *; destruct (node_uid _) as [[|c i]|]; by simplify_eq. }
  subst p. unfold producer_metadata. cbn [pm_node_identity]. rewrite Hid.
  destruct (env "JALKI_NODE_IDENTITY") as [[|c i]|]; cbn; [|done|];
    by destruct (if cli_k8s_enrichment cli then _ else None) as [[|c' i']|].
Qed.
End facts.

(* ------------------------------------------------------------------ *)
(** ** A command line *)

Definition w_cli : Cli := mkCli "jalki-ebpf" "vartio" ["events.ndjson"] (Some "http://vartio:50061") "jalki" None true [" prod "; ""] None
  "/sys/fs/cgroup" [].
Definition w_uid (node : string) : option string := if bool_decide (node = "host-a") then Some "uid-1" else None.
Abbreviation w_run := (run_daemon (Some "host-a") (fun _ => None) None w_uid
  (fun _ => None) (fun _ => None) (fun _ => "") w_cli).
Abbreviation w_producer identity := (producer_metadata (Some "host-a") (Some "6.8.0") (Some "b") (fun _ => None) "0.1.0" "c" identity).

Lemma node_identity_resolved_witness :
  exists r, w_run = Ok r /\ rt_namespace_allowlist r = Some {["prod"]} /\
    pm_node_identity (w_producer (rt_node_identity r)) = Some "k8s-node-uid:uid-1".
Proof.
  eexists. split; [vm_compute; reflexivity|]. split; [by vm_compute|].
  refine (eq_trans (proj1 (node_identity_resolved (Some "host-a") (Some "6.8.0") (Some "b") (fun _ => None) "0.1.0" None
    w_uid (fun _ => None) (fun _ => None) (fun _ => "") w_cli _ "c"
    (fun _ => "") (er_occurrence sample_reliability) ltac:(vm_compute; reflexivity))) _).
  by vm_compute.
Defined.
