(* ===== verification/Reports.v ===== *)
(** Loss reports through the sink loop: what becomes of every report the queue hands over and of every
    one the loop makes itself, from [PendingGaps] to the sink ([jalki/src/runtime.rs]).

    A report is merged with the pending one of its cause, taken out of the pending ones as a batch,
    and that batch retried until the sink takes it or refuses it for good. [accounts] says where the
    losses of each class are told; every turn of the loop keeps it. *)
From Stdlib Require Import Strings.Byte.
From S2P Require Import Prelude Float Protocol Evidence Samples Sink Gap Retry Backoff Pacer Spool SinkQueue SinkLoop.

(** A batch of the agent's own, and the reports it was made of. *)
Record ReportBatch := mkReportBatch { rpb_batch : EvidenceBatch; rpb_reports : list GapReport }.

(** The losses it tells of. *)
Definition told (c : EvidenceClass) (m : ReportBatch) : Z := zsum (gap_class c) (rpb_reports m).

Definition counts (g : GapReport) : Prop := forall c, 0 <= gap_class c g.

(** The batches of reports the sink took, in order. *)
Definition accepted_report (call : SinkCall) : list EvidenceBatch :=
  match call_kind call, call_reply call with GapCall, Ok _ => [call_batch call] | _, _ => [] end.
Definition accepted_reports (log : list SinkCall) : list EvidenceBatch := concat (map accepted_report log).

(** One it refused in a way that is not retried. *)
Definition refused_for_good (log : list SinkCall) (m : ReportBatch) : Prop :=
  exists e, mkSinkCall GapCall (rpb_batch m) (Err e) ∈ log /\ should_retry e = false.

(** What the loop keeps about reports: those pending, the calls made, and all reports so far. *)
Record ReportState := mkReportState { rs_gaps : PendingGaps; rs_log : list SinkCall; rs_all : list GapReport }.

Section reports.
Variable into_batch : nat -> GapReport -> EvidenceBatch.
Variable producer : ProducerMetadata.

(** A batch made of one pending report, or of all that came in one message. *)
Definition made_of_reports (m : ReportBatch) : Prop :=
  (exists n g, m = mkReportBatch (into_batch n g) [g]) \/
  (exists n id, rpb_batch m = EvidenceBatch_new id producer (concat (map (fun g => eb_records (into_batch n g)) (rpb_reports m)))).

(** All reports of [s] are told in the batches the sink took, in those it refused for good, in the one
    in flight, or are pending. *)
Record accounts (s : ReportState) (sent refused flight : list ReportBatch) : Prop := {
  acc_made : Forall made_of_reports (sent ++ refused ++ flight);
  acc_counts : Forall (fun m => Forall counts (rpb_reports m)) (sent ++ refused ++ flight);
  acc_pending : Forall counts (pg_queued (rs_gaps s));
  acc_sent : map rpb_batch sent = accepted_reports (rs_log s);
  acc_refused : Forall (refused_for_good (rs_log s)) refused;
  acc_flight : map rpb_batch flight = option_list (pg_in_flight (rs_gaps s));
  acc_sum c : zsum (gap_class c) (rs_all s) <= usize_max ->
    zsum (gap_class c) (rs_all s) = zsum (told c) (sent ++ refused ++ flight) + zsum (gap_class c) (pg_queued (rs_gaps s))
}.

Definition accounted (s : ReportState) : Prop := exists sent refused flight, accounts s sent refused flight.

Lemma counts_zsum c gs : Forall counts gs -> 0 <= zsum (gap_class c) gs.
Proof. intros Hg. apply zsum_nonneg. intros g Hin. rewrite Forall_forall in Hg. by apply Hg. Qed.

Lemma accepted_reports_snoc log call : accepted_reports (log ++ [call]) = accepted_reports log ++ accepted_report call.
Proof. unfold accepted_reports. rewrite map_app, concat_app. cbn. by rewrite app_nil_r. Qed.

Lemma refused_for_good_snoc log call m : refused_for_good log m -> refused_for_good (log ++ [call]) m.
Proof. intros (e & Hin & He). exists e. split; [|done]. apply elem_of_app. by left. Qed.

Lemma accounted_start : accounted (mkReportState PendingGaps_default [] []).
Proof. exists [], [], []. by split; try constructor. Qed.

(** The order of the reports does not matter. *)
Lemma accounted_permutation s all : all ≡ₚ rs_all s -> accounted s -> accounted (mkReportState (rs_gaps s) (rs_log s) all).
Proof.
  intros Hp (sent & refused & flight & Ha). exists sent, refused, flight. destruct Ha as [? ? ? ? ? ? Hs]. split; try done.
  intros c. cbn. rewrite (zsum_permutation _ _ _ Hp). apply Hs.
Qed.

(** A new report is merged into the pending ones. *)
Lemma accounted_merge s gap :
  counts gap -> accounted s -> accounted (mkReportState (pg_merge gap (rs_gaps s)) (rs_log s) (rs_all s ++ [gap])).
Proof.
  intros Hg (sent & refused & flight & [Hm Hc Hp Hse Hr Hf Hs]). exists sent, refused, flight.
  split; try done; cbn [rs_gaps rs_log rs_all pg_merge].
  - apply Forall_forall. intros g Hin c.
    assert (Forall (fun g => 0 <= gap_class c g) (merge_by_cause (pg_queued (rs_gaps s)) gap)) as Hall
      by (apply merge_by_cause_nonneg; [by eapply Forall_impl|apply Hg]).
    rewrite Forall_forall in Hall. by apply Hall.
  - intros c. rewrite zsum_app, zsum_cons, zsum_nil. intros Hle. pose proof (Hg c) as Hgc.
    specialize (Hs c ltac:(lia)).
    assert (0 <= zsum (told c) (sent ++ refused ++ flight)).
    { apply zsum_nonneg. intros m Hin. rewrite Forall_forall in Hc. apply counts_zsum, Hc, Hin. }
    change (pg_queued (pg_merge gap (rs_gaps s))) with (merge_by_cause (pg_queued (rs_gaps s)) gap).
    rewrite merge_by_cause_class; [lia| |done|lia].
    intros g Hin. rewrite Forall_forall in Hp. by apply Hp.
Qed.

Lemma accounted_extend s gaps :
  Forall counts gaps -> accounted s ->
  accounted (mkReportState (pg_extend gaps (rs_gaps s)) (rs_log s) (rs_all s ++ gaps)).
Proof.
  intros Hg. revert s. induction Hg as [|g gaps Hg _ IH]; intros s Hs.
  - rewrite app_nil_r. by destruct s.
  - specialize (IH _ (accounted_merge s g Hg Hs)). cbn [rs_gaps rs_log rs_all] in IH. by rewrite <- app_assoc in IH.
Qed.

(** A call that settles nothing. *)
Lemma accounted_call s call :
  accepted_report call = [] -> accounted s -> accounted (mkReportState (rs_gaps s) (rs_log s ++ [call]) (rs_all s)).
Proof.
  intros Hq (sent & refused & flight & [Hm Hc Hp Hse Hr Hf Hs]). exists sent, refused, flight. split; try done; cbn [rs_log].
  - by rewrite accepted_reports_snoc, Hq, app_nil_r.
  - eapply Forall_impl; [exact Hr|]. intros m. apply refused_for_good_snoc.
Qed.

(** [front] takes the first pending report into flight, when nothing is. *)
Lemma accounted_front n s front pg :
  pg_front (into_batch n) (rs_gaps s) = (front, pg) -> accounted s -> accounted (mkReportState pg (rs_log s) (rs_all s)).
Proof.
  destruct s as [[[b|] [|g rest]] log all]; cbn [rs_gaps rs_log rs_all pg_front pg_in_flight pg_queued]; try by intros [= _ <-].
  intros [= _ <-] (sent & refused & flight & [Hm Hc Hp Hse Hr Hf Hs]).
  cbn [rs_gaps rs_log rs_all pg_in_flight pg_queued option_list] in *. destruct flight; [|done]. rewrite app_nil_r in *.
  apply Forall_cons in Hp as [Hg Hp]. exists sent, refused, [mkReportBatch (into_batch n g) [g]].
  split; try done; cbn [rs_gaps rs_log rs_all pg_in_flight pg_queued]; rewrite ?app_assoc.
  - apply Forall_app. split; [done|]. constructor; [|done]. left. by exists n, g.
  - apply Forall_app. split; [done|]. by repeat constructor.
  - intros c Hle. rewrite (Hs c Hle), (zsum_app _ (sent ++ refused)), !zsum_cons, zsum_nil.
    change (told c (mkReportBatch (into_batch n g) [g])) with (gap_class c g + 0). lia.
Qed.

(** The batch in flight is settled: the sink took it, or will never take it. *)
Lemma accounted_sent s b a :
  pg_in_flight (rs_gaps s) = Some b -> accounted s ->
  accounted (mkReportState (pg_pop_front (rs_gaps s)) (rs_log s ++ [mkSinkCall GapCall b (Ok a)]) (rs_all s)).
Proof.
  intros Hb (sent & refused & flight & [Hm Hc Hp Hse Hr Hf Hs]). rewrite Hb in Hf.
  destruct flight as [|m [|]]; try done. injection Hf as Hf.
  assert (sent ++ refused ++ [m] ≡ₚ (sent ++ [m]) ++ refused ++ []) as Hperm
    by (rewrite app_nil_r, <- app_assoc; apply Permutation_app_head, Permutation_app_comm).
  exists (sent ++ [m]), refused, []. split; try done; cbn [rs_gaps rs_log rs_all].
  - by rewrite <- Hperm.
  - by rewrite <- Hperm.
  - rewrite map_app, accepted_reports_snoc, Hse. cbn. by rewrite Hf.
  - eapply Forall_impl; [exact Hr|]. intros m'. apply refused_for_good_snoc.
  - intros c Hle. rewrite (Hs c Hle). f_equal. by apply zsum_permutation.
Qed.

Lemma accounted_refused s b e :
  should_retry e = false -> pg_in_flight (rs_gaps s) = Some b -> accounted s ->
  accounted (mkReportState (pg_pop_front (rs_gaps s)) (rs_log s ++ [mkSinkCall GapCall b (Err e)]) (rs_all s)).
Proof.
  intros He Hb (sent & refused & flight & [Hm Hc Hp Hse Hr Hf Hs]). rewrite Hb in Hf.
  destruct flight as [|m [|]]; try done. injection Hf as Hf.
  assert (sent ++ refused ++ [m] = sent ++ (refused ++ [m]) ++ []) as Happ by (by rewrite app_nil_r).
  exists sent, (refused ++ [m]), []. split; try done; cbn [rs_gaps rs_log rs_all]; rewrite <- ?Happ; try done.
  - rewrite accepted_reports_snoc. cbn. by rewrite app_nil_r.
  - apply Forall_app. split; [eapply Forall_impl; [exact Hr|]; intros m'; apply refused_for_good_snoc|].
    constructor; [|done]. exists e. split; [|done]. rewrite Hf. apply elem_of_app. right. by left.
Qed.
(** Reports that come while nothing waits go into flight together. *)
Lemma accounted_inline s b reports :
  pg_in_flight (rs_gaps s) = None -> Forall counts reports -> made_of_reports (mkReportBatch b reports) -> accounted s ->
  accounted (mkReportState (mkPendingGaps (Some b) (pg_queued (rs_gaps s))) (rs_log s) (rs_all s ++ reports)).
Proof.
  intros Hn Hg Hb (sent & refused & flight & [Hm Hc Hp Hse Hr Hf Hs]). rewrite Hn in Hf. destruct flight; [|done].
  rewrite app_nil_r in *. exists sent, refused, [mkReportBatch b reports].
  split; try done; cbn [rs_gaps rs_log rs_all pg_in_flight pg_queued]; rewrite ?app_assoc.
  - apply Forall_app. split; [done|]. by constructor.
  - apply Forall_app. split; [done|]. by constructor.
  - intros c Hle. rewrite (zsum_app _ (rs_all s)) in *. pose proof (counts_zsum c reports Hg).
    rewrite (Hs c ltac:(lia)), (zsum_app _ (sent ++ refused)), zsum_cons, zsum_nil. unfold told at 3. cbn [rpb_reports]. lia.
Qed.
End reports.

(* ------------------------------------------------------------------ *)
(** ** Every report counts *)

Lemma gap_for_shed_counts cause class b : counts (gap_for_shed cause class b).
Proof. pose proof (zlen_nonneg (eb_records b)). intros []; cbn; destruct class; cbn; unfold batch_len; lia. Qed.

Lemma gap_for_batch_counts cause b : counts (gap_for_batch cause b).
Proof. intros c. rewrite gap_for_batch_class. apply zlen_nonneg. Qed.

Lemma shed_while_counts fuel cause over rb : Forall counts (shed_while fuel cause over rb).1.
Proof.
  revert rb. induction fuel as [|fuel IH]; intros rb; cbn [shed_while]; [constructor|].
  destruct (over rb); [|constructor]. destruct (shed_one rb) as [[d rb1]|]; [|constructor].
  specialize (IH rb1). destruct (shed_while _ _ _ _) as [gaps rb2]. cbn in *. constructor; [apply gap_for_shed_counts|done].
Qed.

Lemma drop_expired_counts now_ms rb : Forall counts (drop_expired now_ms rb).1.
Proof.
  unfold drop_expired. generalize (length (rb_batches rb)) as fuel. intros fuel. revert rb.
  induction fuel as [|fuel IH]; intros rb; cbn [drop_expired_loop]; [constructor|].
  destruct (negb _); [constructor|]. destruct (pop_front rb) as [[d rb1]|]; [|apply IH].
  specialize (IH rb1). destruct (drop_expired_loop _ _ _) as [gaps rb2]. cbn in *. constructor; [apply gap_for_shed_counts|done].
Qed.

#[export] Hint Resolve gap_for_batch_counts gap_for_shed_counts shed_while_counts drop_expired_counts : jalki.

(* ------------------------------------------------------------------ *)
(** ** The loop keeps account *)

Section loop.
Context {W : Type} `{ByteModel}.
Variable sink : EvidenceSink W.
Variable into_batch : nat -> GapReport -> EvidenceBatch.
Variable producer : ProducerMetadata.
Variable hash : Z -> Z.
Variable to_vec : EvidenceBatch -> result string (list byte).
Variable from_slice : list byte -> option EvidenceBatch.
Variable fault : nat -> option (string * nat).

(** The reports of the loop, and those it was handed. *)
Definition reports_of (received : list GapReport) (l : Loop W) : ReportState :=
  mkReportState (lp_gaps l) (lp_log l) (received ++ lp_lost l).

Abbreviation keeps received l := (accounted into_batch producer (reports_of received l)).

Lemma lose_accounted received gaps l : Forall counts gaps -> keeps received l -> keeps received (lose gaps l).
Proof.
  intros Hg Hl. pose proof (accounted_extend _ _ _ _ Hg Hl) as He. unfold reports_of in *. cbn in *. by rewrite app_assoc.
Qed.

(** A call that settles no report. *)
Lemma sink_append_accounted received kind b l :
  (forall a, accepted_report (mkSinkCall kind b (Ok a)) = []) -> keeps received l -> keeps received (sink_append sink kind b l).2.
Proof.
  intros Hq Hl. unfold sink_append. destruct (append_batch sink b (lp_world l)) as [r w]. cbn [snd].
  apply (accounted_call _ _ (reports_of received l)); [|exact Hl]. destruct r; [apply Hq|by destruct kind].
Qed.

Lemma note_backpressure_accounted received e l : keeps received l -> keeps received (note_backpressure e l).
Proof. unfold note_backpressure. by destruct (is_backpressure e). Qed.

Lemma flush_gaps_accounted received fuel now_ms l :
  keeps received l -> keeps received (flush_gaps sink into_batch fuel now_ms l).2.
Proof.
  revert l. induction fuel as [|fuel IH]; intros l Hl; cbn [flush_gaps]; [done|].
  destruct (pg_front _ _) as [front pg] eqn:Hf.
  pose proof (accounted_front _ _ _ (reports_of received l) _ _ Hf Hl) as Hl1.
  destruct front as [batch|]; [|exact Hl1]. apply pg_front_some in Hf.
  destruct (poll _ _ _) as [[|ms] pacer]; [|exact Hl1]. unfold sink_append.
  destruct (append_batch sink batch _) as [[a|e] w].
  - apply IH. by apply (accounted_sent _ _ (mkReportState pg (lp_log l) (received ++ lp_lost l)) batch a).
  - unfold note_backpressure. destruct (should_retry e) eqn:He.
    + assert (accounted into_batch producer (mkReportState pg (lp_log l ++ [mkSinkCall GapCall batch (Err e)]) (received ++ lp_lost l)))
        by (by apply (accounted_call _ _ (mkReportState pg (lp_log l) (received ++ lp_lost l)))).
      by destruct (is_backpressure e).
    + apply IH. pose proof (accounted_refused _ _ (mkReportState pg (lp_log l) (received ++ lp_lost l)) batch e He Hf Hl1).
      by destruct (is_backpressure e).
Qed.

Lemma flush_batches_accounted received fuel now_ms l :
  keeps received l -> keeps received (flush_batches sink fuel now_ms l).2.
Proof.
  revert l. induction fuel as [|fuel IH]; intros l Hl; cbn [flush_batches]; [done|].
  destruct (rb_front (lp_buffer l)) as [b|]; [|done]. destruct (poll _ _ _) as [[|ms] pacer]; [|done].
  pose proof (sink_append_accounted received EvidenceCall b (l <| lp_pacer := pacer |>) ltac:(done) Hl) as Ha.
  destruct (sink_append sink EvidenceCall b _) as [[a|e] l2]; cbn [snd] in Ha.
  - destruct (pop_delivered _) as [[d rb]|]; apply IH, Ha.
  - apply (note_backpressure_accounted _ e) in Ha. destruct (should_retry e); [done|].
    destruct (pop_delivered _) as [[d rb]|]; [|done]. apply lose_accounted; [|exact Ha]. repeat constructor. auto with jalki.
Qed.

Lemma flush_retry_buffer_accounted received now_ms l :
  keeps received l -> keeps received (flush_retry_buffer sink into_batch now_ms l).2.
Proof.
  intros Hl. apply (flush_gaps_accounted _ (flush_fuel l) now_ms) in Hl. unfold flush_retry_buffer.
  destruct (flush_gaps _ _ _ _ _) as [[o|] l1]; [done|]. by apply flush_batches_accounted.
Qed.

Lemma age_out_accounted received now_ms l : keeps received l -> keeps received (age_out now_ms l).
Proof.
  intros Hl. unfold age_out. pose proof (drop_expired_counts now_ms (lp_buffer l)) as Hg.
  destruct (drop_expired _ _) as [gaps rb]. by apply lose_accounted.
Qed.

Lemma queue_batch_accounted received new_id b now_ms l : keeps received l -> keeps received (queue_batch new_id b now_ms l).
Proof.
  intros Hl. unfold queue_batch, enqueue.
  match goal with |- context [shed_while ?f ?c ?o ?r] => pose proof (shed_while_counts f c o r) as Hg; destruct (shed_while f c o r) end.
  by apply lose_accounted.
Qed.

Lemma under_pressure_accounted received memory hw l : keeps received l -> keeps received (under_pressure memory hw l).
Proof.
  intros Hl. unfold under_pressure, shed_under_memory_pressure. destruct memory as [v|]; [|done].
  destruct (mv_ratio v); [|by apply lose_accounted]. destruct (_ || _); [by apply lose_accounted|].
  unfold shed_to.
  match goal with |- context [shed_while ?f ?c ?o ?r] => pose proof (shed_while_counts f c o r) as Hg; destruct (shed_while f c o r) end.
  by apply lose_accounted.
Qed.

Lemma persist_accounted received l : keeps received l -> keeps received (persist to_vec fault l).
Proof. unfold persist. by destruct (sync_spool _ _ _ _ _). Qed.

Lemma reschedule_accounted received now current l : keeps received l -> keeps received (reschedule hash now current l).
Proof. unfold reschedule. by destruct (schedule_retry _ _ _ _ _). Qed.

Lemma handle_records_accounted received new_id b now_ms l :
  keeps received l -> keeps received (handle_records sink new_id b now_ms l).
Proof.
  intros Hl. unfold handle_records. destruct (_ && _); [|by apply queue_batch_accounted].
  pose proof (sink_append_accounted received EvidenceCall b (accept b l) ltac:(done) Hl) as Ha.
  destruct (sink_append sink EvidenceCall b _) as [[a|e] l2]; [exact Ha|]. cbn [snd] in Ha.
  destruct (should_retry e); [by apply queue_batch_accounted|]. apply lose_accounted; [|exact Ha]. repeat constructor. auto with jalki.
Qed.
Lemma handle_gaps_accounted received batch_id reports l :
  Forall counts reports -> keeps received l ->
  keeps (received ++ reports) (handle_gaps sink into_batch producer batch_id reports l).
Proof.
  intros Hg Hl. assert (forall gaps log all, all ≡ₚ (received ++ lp_lost l) ++ reports ->
    accounted into_batch producer (mkReportState gaps log ((received ++ lp_lost l) ++ reports)) ->
    accounted into_batch producer (mkReportState gaps log all)) as Hperm
    by (intros gaps log all Hp Ha; by apply (accounted_permutation _ _ (mkReportState gaps log _) all Hp)).
  assert ((received ++ reports) ++ lp_lost l ≡ₚ (received ++ lp_lost l) ++ reports) as Hall
    by (rewrite <- !app_assoc; apply Permutation_app_head, Permutation_app_comm).
  unfold handle_gaps. destruct (has_backlog _ _) eqn:Hb.
  { apply Hperm; [exact Hall|]. by apply (accounted_extend _ _ (reports_of received l)). }
  apply orb_false_iff in Hb as [_ Hb]. apply negb_false_iff, andb_true_iff in Hb as [Hfl _]. apply bool_decide_eq_true in Hfl.
  set (batch := EvidenceBatch_new batch_id producer _).
  pose proof (accounted_inline _ _ (reports_of received l) batch reports Hfl Hg
    ltac:(right; by exists (length (lp_log l)), batch_id) Hl) as Hin.
  unfold sink_append. destruct (append_batch sink batch (lp_world l)) as [[a|e] w]; (apply Hperm; [exact Hall|]).
  - eapply (accounted_sent _ _ _ batch a) in Hin; [|done]. cbn in *. destruct (lp_gaps l) as [fl queued]. cbn in Hfl. by subst fl.
  - by eapply (accounted_call _ _ _ (mkSinkCall GapCall batch (Err e))) in Hin.
Qed.

(** The reports a message brings. *)
Definition brought (r : Received) : list GapReport := match r with RecvGaps reports => reports | RecvRecords _ => [] end.

Lemma on_received_accounted received batch_id new_id r memory hw now now_ms l :
  Forall counts (brought r) -> keeps received l ->
  keeps (received ++ brought r) (on_received sink into_batch producer hash to_vec fault batch_id new_id r memory hw now now_ms l).
Proof.
  intros Hg Hl. unfold on_received. apply reschedule_accounted, persist_accounted, under_pressure_accounted.
  apply (age_out_accounted _ now_ms) in Hl. destruct r as [[|r rs]|reports]; cbn [brought] in *.
  - by rewrite app_nil_r.
  - rewrite app_nil_r. by apply handle_records_accounted.
  - by apply handle_gaps_accounted.
Qed.

Lemma on_timer_accounted received memory hw now now_ms l :
  keeps received l -> keeps received (on_timer sink into_batch hash to_vec fault memory hw now now_ms l).
Proof.
  intros Hl. unfold on_timer. apply (age_out_accounted _ now_ms) in Hl.
  apply (flush_retry_buffer_accounted _ now_ms) in Hl. destruct (flush_retry_buffer _ _ _ _) as [o l1]. cbn [snd] in Hl.
  match goal with |- context [under_pressure memory hw ?x] => assert (keeps received x) as Hx by (destruct (_ <? _); exact Hl); revert Hx; generalize x end.
  intros l2 Hl2. apply (under_pressure_accounted _ memory hw), persist_accounted in Hl2.
  destruct o; [by apply reschedule_accounted|exact Hl2|by apply reschedule_accounted].
Qed.

Lemma recover_accounted new_ids l : keeps [] l -> keeps [] (recover to_vec from_slice fault new_ids l).
Proof.
  intros Hl. unfold recover. destruct (lp_spool l) as [s|]; [|done]. destruct (replay _ _) as [batches report].
  match goal with |- context [foldl ?f l ?bs] => assert (keeps [] (foldl f l bs)) as Hf end.
  { generalize (imap pair batches) as bs. intros bs. revert l Hl. induction bs as [|b bs IH]; intros l Hl; [done|].
    apply IH. by apply queue_batch_accounted. }
  revert Hf. generalize (foldl (fun l ib => queue_batch (new_ids ib.1) ib.2 0 (accept ib.2 l)) l (imap pair batches)).
  intros l1 Hl1. destruct (compact _ _ _ _ _) as [[ok s'] d]. exact Hl1.
Qed.

Lemma drain_accounted received fuel clock l l' :
  drain sink into_batch fuel clock l = Some l' -> keeps received l -> keeps received l'.
Proof.
  revert clock l. induction fuel as [|fuel IH]; intros clock l; cbn [drain]; [done|].
  destruct (has_backlog _ _); [|by intros [= <-]]. intros Hd Hl.
  apply (flush_retry_buffer_accounted _ (clock 0%nat)) in Hl. destruct (flush_retry_buffer _ _ _ _) as [o l1].
  destruct o; [case_bool_decide; [by injection Hd as <-|by eapply IH]|by eapply IH|case_bool_decide; [by injection Hd as <-|by eapply IH]].
Qed.

Lemma shutdown_accounted received fuel clock l l' :
  shutdown sink into_batch to_vec fault fuel clock l = Some l' -> keeps received l -> keeps received l'.
Proof.
  unfold shutdown. destruct (drain _ _ _ _ _) as [l1|] eqn:E; [|done]. intros [= <-] Hl.
  by apply persist_accounted, (drain_accounted _ _ _ _ _ E).
Qed.

Lemma loop_start_accounted config start :
  loop_start to_vec from_slice fault config start -> keeps [] start.
Proof. intros [pacer backoff d w|new_ids pacer backoff s d w _]; [apply accounted_start|]. apply recover_accounted, accounted_start. Qed.

(* ------------------------------------------------------------------ *)
(** ** The evidence taken over *)

Lemma sink_append_accepted kind b (l : Loop W) : lp_accepted (sink_append sink kind b l).2 = lp_accepted l.
Proof. unfold sink_append. by destruct (append_batch sink b (lp_world l)). Qed.

Lemma queue_batch_accepted new_id b now_ms (l : Loop W) : lp_accepted (queue_batch new_id b now_ms l) = lp_accepted l.
Proof. unfold queue_batch. by destruct (enqueue _ _ _ _). Qed.

Lemma age_out_accepted now_ms (l : Loop W) : lp_accepted (age_out now_ms l) = lp_accepted l.
Proof. unfold age_out. by destruct (drop_expired _ _). Qed.

Lemma under_pressure_accepted memory hw (l : Loop W) : lp_accepted (under_pressure memory hw l) = lp_accepted l.
Proof. unfold under_pressure. destruct memory as [v|]; [|done]. by destruct (shed_under_memory_pressure _ _ _ _ _) as [[[p c] rb] gaps]. Qed.

Lemma persist_accepted (l : Loop W) : lp_accepted (persist to_vec fault l) = lp_accepted l.
Proof. unfold persist. by destruct (sync_spool _ _ _ _ _). Qed.

Lemma reschedule_accepted now current (l : Loop W) : lp_accepted (reschedule hash now current l) = lp_accepted l.
Proof. unfold reschedule. by destruct (schedule_retry _ _ _ _ _). Qed.

Lemma note_backpressure_accepted e (l : Loop W) : lp_accepted (note_backpressure e l) = lp_accepted l.
Proof. unfold note_backpressure. by destruct (is_backpressure e). Qed.

Lemma flush_gaps_accepted fuel now_ms (l : Loop W) : lp_accepted (flush_gaps sink into_batch fuel now_ms l).2 = lp_accepted l.
Proof. by pose proof (f_equal lg_accepted (flush_gaps_ledger sink into_batch fuel now_ms l)). Qed.

Lemma flush_batches_accepted fuel now_ms (l : Loop W) : lp_accepted (flush_batches sink fuel now_ms l).2 = lp_accepted l.
Proof.
  revert l. induction fuel as [|fuel IH]; intros l; cbn [flush_batches]; [done|].
  destruct (rb_front (lp_buffer l)) as [b|]; [|done]. destruct (poll _ _ _) as [[|ms] pacer]; [|done].
  pose proof (sink_append_accepted EvidenceCall b (l <| lp_pacer := pacer |>)) as Ha.
  destruct (sink_append sink EvidenceCall b _) as [[a|e] l2]; cbn [snd] in Ha.
  - destruct (pop_delivered _) as [[d rb]|]; rewrite IH; exact Ha.
  - rewrite <- (note_backpressure_accepted e) in Ha. destruct (should_retry e); [exact Ha|].
    destruct (pop_delivered _) as [[d rb]|]; exact Ha.
Qed.

Lemma flush_retry_buffer_accepted now_ms (l : Loop W) :
  lp_accepted (flush_retry_buffer sink into_batch now_ms l).2 = lp_accepted l.
Proof.
  unfold flush_retry_buffer. rewrite <- (flush_gaps_accepted (flush_fuel l) now_ms l).
  destruct (flush_gaps _ _ _ _ _) as [[o|] l1]; [done|apply flush_batches_accepted].
Qed.

Definition taken (r : Received) : list EvidenceRecord := match r with RecvRecords records => records | RecvGaps _ => [] end.

Lemma on_received_accepted batch_id new_id r memory hw now now_ms (l : Loop W) :
  lp_accepted (on_received sink into_batch producer hash to_vec fault batch_id new_id r memory hw now now_ms l) =
  lp_accepted l ++ taken r.
Proof.
  unfold on_received. rewrite reschedule_accepted, persist_accepted, under_pressure_accepted.
  destruct r as [[|r rs]|reports]; cbn [taken]; rewrite ?app_nil_r, <- ?(age_out_accepted now_ms l); [done| |].
  - unfold handle_records. destruct (_ && _); [|by rewrite queue_batch_accepted].
    match goal with |- context [sink_append sink EvidenceCall ?b ?x] =>
      pose proof (sink_append_accepted EvidenceCall b x) as Ha; destruct (sink_append sink EvidenceCall b x) as [[a|e] l2] end;
      [exact Ha|]. destruct (should_retry e); [by rewrite queue_batch_accepted|exact Ha].
  - by pose proof (f_equal lg_accepted (handle_gaps_ledger sink into_batch producer batch_id reports (age_out now_ms l))).
Qed.

Lemma on_timer_accepted memory hw now now_ms (l : Loop W) :
  lp_accepted (on_timer sink into_batch hash to_vec fault memory hw now now_ms l) = lp_accepted l.
Proof.
  unfold on_timer. pose proof (flush_retry_buffer_accepted now_ms (age_out now_ms l)) as Hf. rewrite age_out_accepted in Hf.
  destruct (flush_retry_buffer _ _ _ _) as [o l1]. cbn [snd] in Hf.
  destruct o; cbn; rewrite ?reschedule_accepted, persist_accepted, under_pressure_accepted; by destruct (_ <? _).
Qed.

Lemma shutdown_accepted fuel clock (l l' : Loop W) :
  shutdown sink into_batch to_vec fault fuel clock l = Some l' -> lp_accepted l' = lp_accepted l.
Proof.
  unfold shutdown. destruct (drain _ _ _ _ _) as [l1|] eqn:E; [|done]. intros [= <-]. rewrite persist_accepted.
  revert clock l E. induction fuel as [|fuel IH]; intros clock l; cbn [drain]; [done|].
  destruct (has_backlog _ _); [|by intros [= <-]]. pose proof (flush_retry_buffer_accepted (clock 0%nat) l) as Hf.
  destruct (flush_retry_buffer _ _ _ _) as [o l2]. cbn [snd] in Hf. rewrite <- Hf.
  destruct o; [case_bool_decide; [by intros [= <-]|apply IH]|apply IH|case_bool_decide; [by intros [= <-]|apply IH]].
Qed.
End loop.
