(* ===== verification/Agent.v ===== *)
(** The pipeline put together: readers, queue and sink loop, from the evidence a reader offers to the
    calls the sink answers ([Runtime::run] of [jalki/src/runtime.rs] and [run_sink_loop], over
    [jalki/src/sink_queue.rs]).

    A state is the queue's and the loop's. A reader's access to the queue and a wake-up of the loop
    interleave in any order; the loop's own turn, between two awaits of [rx.recv()], touches nothing
    readers see but the queue's pressure flag. *)
From Stdlib Require Import Strings.Byte.
From S2P Require Import Prelude Float Protocol Evidence Samples Sink Gap Retry Backoff Pacer Spool Resident SinkQueue SinkLoop Reports.

(** [ag_offered] is history: what the readers have begun to send, the namespace scope applied. *)
Record Agent (W : Type) := mkAgent {
  ag_queue : Queue;
  ag_loop : Loop W;
  ag_offered : list EvidenceRecord
}.
#[global] Arguments mkAgent {W}.
#[global] Arguments ag_queue {W}.
#[global] Arguments ag_loop {W}.
#[global] Arguments ag_offered {W}.

(** What sender [t] begins to send in a step. *)
Definition offered_by (t : nat) (q q' : Queue) : list EvidenceRecord :=
  match q_senders q !! t, q_senders q' !! t with
  | Some SIdle, Some (SPressureLoaded records _ _) => records
  | _, _ => []
  end.

(** What a sender has in hand. *)
Definition in_hand (pc : SenderPc) : list EvidenceRecord :=
  match pc with
  | SPressureLoaded records _ _ | SCurrentLoaded records _ _ _ | SReserved records _ | SCounted records _ => records
  | _ => []
  end.

Section agent.
Context {W : Type} `{MemModel}.
Variable sink : EvidenceSink W.
Variable into_batch : nat -> GapReport -> EvidenceBatch.
Variable producer : ProducerMetadata.
Variable hash : Z -> Z.
Variable to_vec : EvidenceBatch -> result string (list byte).
Variable from_slice : list byte -> option EvidenceBatch.
Variable fault : nat -> option (string * nat).
Variable config : SinkQueueConfig.
Variable scope : option (gset string).

(** [shed_under_memory_pressure] reads the queue's bytes and its pressure budget. *)
Definition views (q : Queue) (memory : option MemoryView) : Prop :=
  forall v, memory = Some v -> mv_queued_bytes v = q_bytes q /\ mv_pressure_max_bytes v = sq_pressure_max_bytes config.

(** [queue.set_memory_pressure(pressured)] *)
Definition set_pressure (l : Loop W) (q : Queue) : Queue := q <| q_under_pressure := lp_queue_pressure l |>.

Inductive agent_step : Agent W -> Agent W -> Prop :=
| ag_sender t q q' l offered :
    sender_step config scope t q q' ->
    agent_step (mkAgent q l offered) (mkAgent q' l (offered ++ offered_by t q q'))
| ag_receiving q q' l offered :
    receiver_step q q' -> q_received q' = q_received q -> q_closed q' = q_closed q ->
    q_under_pressure q' = q_under_pressure q ->
    agent_step (mkAgent q l offered) (mkAgent q' l offered)
| ag_received received batch_id new_id memory high_watermark now now_ms q q' l offered :
    receiver_step q q' -> q_received q' = q_received q ++ [received] -> views q' memory ->
    (forall records, received = RecvRecords records ->
       enqueue_fits new_id (EvidenceBatch_new batch_id producer records) (lp_buffer (age_out now_ms l))) ->
    let l' := on_received sink into_batch producer hash to_vec fault batch_id new_id received memory
                high_watermark now now_ms l in
    agent_step (mkAgent q l offered) (mkAgent (set_pressure l' q') l' offered)
| ag_timer memory high_watermark now now_ms q l offered :
    q_receiver q = RIdle -> is_Some (lp_next_retry l) -> views q memory ->
    let l' := on_timer sink into_batch hash to_vec fault memory high_watermark now now_ms l in
    agent_step (mkAgent q l offered) (mkAgent (set_pressure l' q) l' offered).

(** Up and running, or shut down once every sender is gone and the channel is empty. *)
Inductive agent_reaches (start : Agent W) : Agent W -> Prop :=
| agent_running a : rtc agent_step start a -> agent_reaches start a
| agent_finished fuel clock q l offered l' :
    rtc agent_step start (mkAgent q l offered) ->
    Forall (fun pc => pc = SIdle) (q_senders q) -> q_channel q = [] -> q_receiver q = RIdle ->
    shutdown sink into_batch to_vec fault fuel clock l = Some l' ->
    agent_reaches start (mkAgent q l' offered).

(** [n] senders, an empty queue, and the loop as it starts. *)
Definition agent_new (n : nat) (l : Loop W) : Agent W := mkAgent (Queue_new n) l [].

(* ------------------------------------------------------------------ *)
(** ** Each part runs as it runs alone *)

Lemma agent_step_queue a a' : agent_step a a' -> rtc (queue_step config scope) (ag_queue a) (ag_queue a').
Proof.
  intros [t q q' l offered Hs|q q' l offered Hs _ _ _|received batch_id new_id memory hw now now_ms q q' l offered Hs _ _ _ l'|
          memory hw now now_ms q l offered _ _ _ l']; cbn [ag_queue].
  - by eapply rtc_once, by_sender.
  - by eapply rtc_once, by_receiver.
  - eapply rtc_l; [by eapply by_receiver|]. eapply rtc_once, by_receiver, st_set_pressure.
  - eapply rtc_once, by_receiver, st_set_pressure.
Qed.

Lemma agent_run_queue a a' : rtc agent_step a a' -> rtc (queue_step config scope) (ag_queue a) (ag_queue a').
Proof. induction 1 as [|? ? ? Hs _ IH]; [done|]. etrans; [by apply agent_step_queue|done]. Qed.

Lemma agent_run_loop a a' :
  rtc agent_step a a' ->
  rtc (loop_step sink into_batch producer hash to_vec fault) (ag_loop a) (ag_loop a').
Proof.
  induction 1 as [|a a1 a' Hs _ IH]; [done|]. etrans; [|exact IH].
  destruct Hs as [t q q' l offered Hs|q q' l offered Hs _ _ _|received batch_id new_id memory hw now now_ms q q' l offered Hs _ _ Hf l'|
          memory hw now now_ms q l offered _ Hr _ l']; [done|done| |]; apply rtc_once.
  - by apply turn_received.
  - by apply turn_timer.
Qed.

Lemma sender_step_keeps t q q' :
  sender_step config scope t q q' -> q_closed q' = q_closed q /\ q_received q' = q_received q.
Proof. by intros []. Qed.

Lemma receiver_received_open q q' received :
  receiver_step q q' -> q_received q' = q_received q ++ [received] -> q_closed q' = q_closed q.
Proof.
  intros Hs Hr. destruct Hs; try done. cbn in Hr. exfalso.
  apply (f_equal length) in Hr. rewrite length_app in Hr. cbn in Hr. lia.
Qed.

Lemma agent_step_open a a' : agent_step a a' -> q_closed (ag_queue a') = q_closed (ag_queue a).
Proof.
  intros [t q q' l offered Hs|q q' l offered Hs _ Hc _|received batch_id new_id memory hw now now_ms q q' l offered Hs Hr _ _ l'|
          memory hw now now_ms q l offered _ _ _ l']; cbn [ag_queue set_pressure q_closed set]; try done.
  - by apply sender_step_keeps in Hs as [-> _].
  - by apply (receiver_received_open q q' received).
Qed.

Lemma agent_run_open a a' : rtc agent_step a a' -> q_closed (ag_queue a') = q_closed (ag_queue a).
Proof. induction 1 as [|? ? ? Hs _ IH]; [done|]. rewrite IH. by apply agent_step_open. Qed.

(* ------------------------------------------------------------------ *)
(** ** What was offered *)

(** Offered, and not yet sent or refused. *)
Definition hand (c : EvidenceClass) (pc : SenderPc) : Z := count_class c (in_hand pc).

Definition entered (c : EvidenceClass) (q : Queue) : Z :=
  count_class c (concat (q_sent q)) + count_class c (q_refused q) + zsum (hand c) (q_senders q).

Lemma sender_step_offered t q q' c :
  q_closed q = false -> sender_step config scope t q q' ->
  entered c q' = entered c q + count_class c (offered_by t q q').
Proof.
  intros Hcl Hstep. unfold entered, offered_by.
  destruct Hstep; try congruence;
    match goal with H : q_senders q !! t = Some _ |- _ =>
      cbn [q_senders q_sent q_refused set set_sender]; rewrite H, ?(zsum_insert (hand c) _ _ _ _ H),
        ?list_lookup_insert_eq by (by eapply lookup_lt_Some)
    end; rewrite ?concat_app, ?count_class_app; unfold hand; cbn [in_hand concat]; rewrite ?app_nil_r;
    change (count_class c []) with 0; try lia.
  destruct (lost_marker_queued _); cbn [in_hand]; change (count_class c []) with 0; lia.
Qed.

Lemma receiver_step_entered q q' c : receiver_step q q' -> entered c q' = entered c q.
Proof. by intros []. Qed.

(** The reports of a message are those that were pending. *)
Lemma receiver_brought q q' received :
  queue_ok config q -> receiver_step q q' -> q_received q' = q_received q ++ [received] -> Forall counts (brought received).
Proof.
  intros Hok Hs Hr.
  assert (forall out : Prop, q_received q = q_received q ++ [received] -> out) as Hno
    by (intros out E; apply (f_equal length) in E; rewrite length_app in E; cbn in E; lia).
  destruct Hs; cbn in Hr; try by apply Hno.
  - apply app_inv_head in Hr as [= <-]. constructor.
  - case_bool_decide; [by apply Hno|]. apply app_inv_head in Hr as [= <-]. cbn [brought]. apply Forall_forall. intros g Hg c.
    pose proof (qok_pending _ _ Hok c) as Hp. rewrite Forall_forall in Hp. by apply Hp.
Qed.

(** The loop has all the queue handed over, reports among it; the readers have all they offered. *)
Record agent_ok (start : Loop W) (a : Agent W) : Prop := {
  ago_reports : accounted into_batch producer (reports_of (concat (map brought (q_received (ag_queue a)))) (ag_loop a));
  ago_accepted : lp_accepted (ag_loop a) = lp_accepted start ++ concat (map taken (q_received (ag_queue a)));
  ago_offered c : entered c (ag_queue a) = count_class c (ag_offered a)
}.

Lemma agent_step_ok start a a' :
  q_closed (ag_queue a) = false -> queue_ok config (ag_queue a) -> agent_ok start a -> agent_step a a' -> agent_ok start a'.
Proof.
  intros Hcl Hq [Hrep Hacc Hoff] Hstep.
  destruct Hstep as [t q q' l offered Hs|q q' l offered Hs Hr _ _|received batch_id new_id memory hw now now_ms q q' l offered Hs Hr _ _ l'|
          memory hw now now_ms q l offered _ _ _ l']; cbn [ag_queue ag_loop ag_offered] in *.
  - destruct (sender_step_keeps t q q' Hs) as [_ Hr]. split; cbn [ag_queue ag_loop ag_offered]; rewrite ?Hr; try done.
    intros c. by rewrite (sender_step_offered t q q'), count_class_app, Hoff.
  - split; cbn [ag_queue ag_loop ag_offered]; rewrite ?Hr; try done. intros c. by rewrite (receiver_step_entered q).
  - split; cbn [ag_queue ag_loop ag_offered set_pressure q_received set].
    + rewrite Hr, map_app, concat_app. cbn [map concat]. rewrite app_nil_r.
      apply on_received_accounted; [by eapply receiver_brought|done].
    + subst l'. by rewrite on_received_accepted, Hacc, Hr, map_app, concat_app, <- app_assoc; cbn [map concat]; rewrite app_nil_r.
    + intros c. by rewrite <- (Hoff c), <- (receiver_step_entered q q' c Hs).
  - split; cbn [ag_queue ag_loop ag_offered set_pressure q_received set]; [by apply on_timer_accounted| |by intros c; rewrite <- (Hoff c)].
    subst l'. by rewrite on_timer_accepted.
Qed.

Lemma agent_run_ok rc n start a :
  sq_config_ok config -> loop_start to_vec from_slice fault rc start -> rtc agent_step (agent_new n start) a -> agent_ok start a.
Proof.
  intros Hc Hstart Hr. pattern a. revert a Hr. apply rtc_ind_r.
  - split; cbn; [by eapply loop_start_accounted|by rewrite app_nil_r|].
    intros c. unfold entered, hand. cbn. by rewrite zsum_replicate_zero.
  - intros a a' Hr Hstep Hok. pose proof (agent_run_open _ _ Hr) as Hcl. pose proof (agent_run_queue _ _ Hr) as Hq.
    apply (agent_step_ok start a a'); [exact Hcl| |exact Hok|exact Hstep]. exact (queue_reachable_ok config scope n _ Hc Hq Hcl).
Qed.

(* ------------------------------------------------------------------ *)
(** ** Conservation *)

Lemma agent_reaches_ok rc n start a :
  sq_config_ok config -> config_ok rc -> loop_start to_vec from_slice fault rc start ->
  agent_reaches (agent_new n start) a ->
  agent_ok start a /\ loop_ok rc (ag_loop a) /\ queue_ok config (ag_queue a).
Proof.
  intros Hc Hrc Hstart Hr.
  assert (forall a, rtc agent_step (agent_new n start) a ->
    agent_ok start a /\ loop_ok rc (ag_loop a) /\ queue_ok config (ag_queue a)) as Hrun.
  { intros a1 H1. split; [by eapply agent_run_ok|]. pose proof (agent_run_open _ _ H1) as Hcl. split.
    - eapply loop_reaches_ok; [done|exact Hstart|]. apply reach_running. by apply agent_run_loop in H1.
    - apply agent_run_queue in H1. exact (queue_reachable_ok config scope n _ Hc H1 Hcl). }
  destruct Hr as [a Hr|fuel clock q l offered l' Hr _ _ _ Hs]; [by apply Hrun|].
  destruct (Hrun _ Hr) as ([Hrep Hacc Hoff] & Hl & Hq). cbn [ag_queue ag_loop ag_offered] in *. split_and!; [|cbn [ag_loop]|done].
  - split; cbn [ag_queue ag_loop ag_offered]; [by eapply shutdown_accounted| |done].
    by rewrite (shutdown_accepted _ _ _ _ _ _ _ _ Hs).
  - eapply loop_reaches_ok; [done|exact Hstart|]. eapply reach_finished; [|exact Hs]. by apply agent_run_loop in Hr.
Qed.

(** Evidence still somewhere between a reader and the sink. *)
Definition on_its_way (c : EvidenceClass) (a : Agent W) : Z :=
  zsum (hand c) (q_senders (ag_queue a))
  + count_class c (concat (receiver_records (q_receiver (ag_queue a)) ++ queued_records (q_channel (ag_queue a))))
  + held c (lp_buffer (ag_loop a)).

(** Losses noted, and not yet in a batch for the sink. *)
Definition untold (c : EvidenceClass) (a : Agent W) : Z :=
  zsum (sender_lost c) (q_senders (ag_queue a)) + zsum (gap_class c) (lost_reports (q_lost (ag_queue a)))
  + zsum (gap_class c) (pg_queued (lp_gaps (ag_loop a))).

Lemma count_taken c out : count_class c (concat (map taken out)) = count_class c (concat (received_records out)).
Proof.
  induction out as [|[records|reports] out IH]; [done|..]; unfold received_records in *; cbn [map taken concat omap list_omap].
  - by rewrite !count_class_app, IH.
  - exact IH.
Qed.

Lemma zsum_brought c out : zsum (received_lost c) out = zsum (gap_class c) (concat (map brought out)).
Proof.
  induction out as [|r out IH]; [done|]. cbn [map concat]. rewrite zsum_cons, zsum_app, IH. by destruct r.
Qed.

Lemma count_class_le c l : count_class c l <= zlen l.
Proof.
  rewrite <- (count_class_total l). pose proof (count_class_nonneg Reliability l). pose proof (count_class_nonneg Attribution l).
  destruct c; lia.
Qed.

(** What the readers offered is sent, refused or in hand, so no more was refused than offered. *)
Lemma refused_le_offered start a : agent_ok start a -> zlen (q_refused (ag_queue a)) <= zlen (ag_offered a).
Proof.
  intros [_ _ Hoff]. rewrite <- (count_class_total (q_refused _)), <- (count_class_total (ag_offered a)), <- !Hoff. unfold entered.
  assert (forall c, 0 <= zsum (hand c) (q_senders (ag_queue a))) as Hh by (intros c; apply zsum_nonneg; intros; apply count_class_nonneg).
  pose proof (Hh Reliability). pose proof (Hh Attribution).
  pose proof (count_class_nonneg Reliability (concat (q_sent (ag_queue a)))).
  pose proof (count_class_nonneg Attribution (concat (q_sent (ag_queue a)))). lia.
Qed.

Lemma agent_balance rc n start a :
  sq_config_ok config -> config_ok rc -> loop_start to_vec from_slice fault rc start ->
  agent_reaches (agent_new n start) a -> zlen (lp_accepted start) + zlen (ag_offered a) <= usize_max ->
  exists sent refused flight,
    accounts into_batch producer
      (reports_of (concat (map brought (q_received (ag_queue a)))) (ag_loop a)) sent refused flight /\
    forall c,
      count_class c (lp_accepted start) + count_class c (ag_offered a) =
        count_class c (delivered_records (lp_log (ag_loop a))) + on_its_way c a
        + zsum (told c) (sent ++ refused ++ flight) + untold c a.
Proof.
  intros Hc Hrc Hstart Hr Hfit. destruct (agent_reaches_ok rc n start a Hc Hrc Hstart Hr) as (Hok & Hl & Hq).
  pose proof (refused_le_offered start a Hok) as Hrefused. pose proof Hok as [(sent & refused & flight & Hacc) Ha Hoff].
  exists sent, refused, flight. split; [exact Hacc|]. intros c.
  pose proof (acc_sum _ _ _ _ _ _ Hacc c) as Hsum. destruct Hl as [_ _ _ Hn _]. specialize (Hn c).
  cbn [ledger_of lg_buffer lg_accepted lg_gaps lg_delivered reports_of rs_all rs_gaps] in Hn, Hsum.
  pose proof (zlen_nonneg (lp_accepted start)). pose proof (qok_loss _ _ Hq c ltac:(lia)) as Hloss.
  unfold reported in Hloss. rewrite zsum_brought in Hloss.
  specialize (Hoff c). unfold entered in Hoff.
  rewrite (qok_order _ _ Hq), concat_app, count_class_app, <- count_taken in Hoff.
  rewrite Ha, count_class_app in Hn. rewrite zsum_app in Hsum.
  pose proof (count_class_le c (lp_accepted start)). pose proof (count_class_le c (ag_offered a)).
  assert (0 <= held c (lp_buffer (ag_loop a))) by apply count_class_nonneg.
  pose proof (count_class_nonneg c (delivered_records (lp_log (ag_loop a)))).
  pose proof (count_class_nonneg c (concat (receiver_records (q_receiver (ag_queue a)) ++ queued_records (q_channel (ag_queue a))))).
  assert (0 <= zsum (hand c) (q_senders (ag_queue a))) by (apply zsum_nonneg; intros; apply count_class_nonneg).
  assert (0 <= zsum (gap_class c) (lost_reports (q_lost (ag_queue a)))) by (apply Forall_zsum_nonneg, (qok_pending _ _ Hq)).
  assert (0 <= zsum (sender_lost c) (q_senders (ag_queue a))).
  { apply zsum_nonneg. intros pc Hpc. destruct (qok_items _ _ Hq) as [Hs _]. rewrite Forall_forall in Hs.
    specialize (Hs pc Hpc). destruct pc; cbn; try lia. by apply gap_consistent_class. }
  unfold on_its_way, untold. lia.
Qed.
(** The agent loses no evidence it does not report. Whatever the interleaving of readers and sink
    loop, the sink's replies, memory pressure, file-system failures and clocks, while running and
    after shutdown: of each class, the evidence recovered from the spool and the evidence the
    readers offered is exactly what the sink accepted, what is still on its way, what batches of loss
    reports tell the sink, and what reports not yet sent will tell. Each such batch is accepted by
    the sink exactly once, in order, or refused by it for good, or is the one in flight. *)
Theorem agent_conservation rc n start a :
  sq_config_ok config -> config_ok rc -> loop_start to_vec from_slice fault rc start ->
  agent_reaches (agent_new n start) a -> zlen (lp_accepted start) + zlen (ag_offered a) <= usize_max ->
  exists sent refused flight,
    map rpb_batch sent = accepted_reports (lp_log (ag_loop a)) /\
    Forall (refused_for_good (lp_log (ag_loop a))) refused /\
    map rpb_batch flight = option_list (pg_in_flight (lp_gaps (ag_loop a))) /\
    Forall (made_of_reports into_batch producer) (sent ++ refused ++ flight) /\
    forall c,
      count_class c (lp_accepted start) + count_class c (ag_offered a) =
        count_class c (delivered_records (lp_log (ag_loop a))) + on_its_way c a
        + zsum (told c) (sent ++ refused ++ flight) + untold c a.
Proof.
  intros Hc Hrc Hstart Hr Hfit.
  destruct (agent_balance rc n start a Hc Hrc Hstart Hr Hfit) as (sent & refused & flight & [Hm _ _ Hs Hre Hf _] & Hsum).
  by exists sent, refused, flight.
Qed.

(** C13: a shutdown that leaves nothing behind has told everything. When every sender is gone and the
    sink loop ends with no backlog, then of each class the evidence recovered and offered is what
    the sink accepted, what the batches of reports it accepted tell of, and what those it refused for
    good would have told. *)
Theorem clean_shutdown_tells_all rc n start q l offered fuel clock l' :
  sq_config_ok config -> config_ok rc -> loop_start to_vec from_slice fault rc start ->
  rtc agent_step (agent_new n start) (mkAgent q l offered) ->
  Forall (fun pc => pc = SIdle) (q_senders q) -> q_channel q = [] -> q_receiver q = RIdle ->
  shutdown sink into_batch to_vec fault fuel clock l = Some l' -> has_backlog (lp_buffer l') (lp_gaps l') = false ->
  zlen (lp_accepted start) + zlen offered <= usize_max ->
  exists sent refused,
    map rpb_batch sent = accepted_reports (lp_log l') /\
    Forall (refused_for_good (lp_log l')) refused /\
    forall c,
      count_class c (lp_accepted start) + count_class c offered =
        count_class c (delivered_records (lp_log l')) + zsum (told c) sent + zsum (told c) refused.
Proof.
  intros Hc Hrc Hstart Hr Hidle Hch Hrecv Hs Hb Hfit.
  assert (agent_reaches (agent_new n start) (mkAgent q l' offered)) as Hreach by (by eapply agent_finished).
  destruct (agent_reaches_ok rc n start _ Hc Hrc Hstart Hreach) as (_ & _ & Hq).
  destruct (agent_balance rc n start _ Hc Hrc Hstart Hreach Hfit) as (sent & refused & flight & [_ _ _ Hse Hre Hf _] & Hsum).
  cbn [ag_queue ag_loop ag_offered reports_of rs_gaps rs_log] in *.
  apply orb_false_iff in Hb as [Hb Hg]. apply negb_false_iff in Hb, Hg.
  apply bool_decide_eq_true in Hb. apply andb_true_iff in Hg as [Hfl Hqd]. apply bool_decide_eq_true in Hfl, Hqd.
  rewrite Hfl in Hf. destruct flight; [|done]. exists sent, refused. split_and!; [done|done|]. intros c. specialize (Hsum c).
  assert (forall f, f SIdle = 0 -> zsum f (q_senders q) = 0) as Hz.
  { intros f Hf0. clear -Hidle Hf0. induction Hidle as [|pc pcs -> _ IH]; [done|]. rewrite zsum_cons. lia. }
  assert (lost_reports (q_lost q) = []) as Hlost.
  { apply (qok_reports _ _ Hq). pose proof (qok_markers _ _ Hq) as Hm. unfold markers in Hm.
    cbn [ag_queue] in Hm. rewrite Hch, Hrecv, (Hz sender_markers eq_refl) in Hm. by destruct (lost_marker_queued _). }
  unfold on_its_way, untold, held, buffer_records in Hsum. cbn [ag_queue ag_loop] in Hsum.
  rewrite Hch, Hrecv, Hb, Hqd, Hlost, !Hz, app_nil_r, zsum_app, zsum_nil in Hsum by done.
  cbn [receiver_records queued_records omap list_omap app concat map] in Hsum. change (count_class c []) with 0 in Hsum.
  rewrite app_nil_r in Hsum. lia.
Qed.
End agent.

(* ------------------------------------------------------------------ *)
(** ** Restarts *)

(** A restart forgets the loss reports. Nothing but the retry buffer is spooled: after the sink
    rejected a message for good, the record is gone and its report pending; a process that starts
    from what this one left on disk recovers neither, and has nothing to tell. *)
Theorem restart_forgets_reports :
  let l := w_received (w_sink (Err (Rejected "vartio" "no"))) w_loop in
  let l' := recover w_to_vec w_from_slice1 (fun _ => None) (fun _ => w_ids) (w_new (lp_spool l) (lp_disk l)) in
  zsum (gap_class Attribution) (pg_queued (lp_gaps l)) = 1 /\ delivered_records (lp_log l) = [] /\
  lp_gaps l' = PendingGaps_default /\ lp_accepted l' = [].
Proof. vm_compute. split_and!; reflexivity. Qed.

(* ------------------------------------------------------------------ *)
(** ** One message from a reader to the sink *)

Definition w_agent_config : SinkQueueConfig := SinkQueueConfig_new 1000.
Definition w_accepts : EvidenceSink unit := w_sink (Ok (AppendResult_accepted "vartio" 1)).

Abbreviation w_step := (agent_step w_accepts w_into_batch sample_producer (fun c => c) w_to_vec (fun _ => None) w_agent_config None).

(** The states of the queue on the way of one message of 84 bytes. *)
Definition w_queue (bytes messages : Z) (channel : list Queued) (pc : SenderPc) (receiver : ReceiverPc)
    (sent : list (list EvidenceRecord)) (received : list Received) : Queue :=
  mkQueue bytes messages false (mkLost [] false) channel [pc] receiver false sent received [].
Definition w_message : list EvidenceRecord := [sample_attribution].
Definition w_taken : Queue := w_queue 0 0 [] SIdle RIdle [w_message] [RecvRecords w_message].

Lemma w_goes a b c a' : w_step a a' -> a' = b -> rtc w_step b c -> rtc w_step a c.
Proof. intros Hs <- Hr. by eapply rtc_l. Qed.

Ltac w_sender b step := eapply (w_goes _ b); [eapply (ag_sender _ _ _ _ _ _ _ _ 0), step; reflexivity|by vm_compute|].
Ltac w_receiver b step := eapply (w_goes _ b); [eapply ag_receiving; [eapply step; reflexivity|by vm_compute..]|by vm_compute|].

Lemma w_agent_run :
  rtc w_step (agent_new 1 w_loop) (mkAgent w_taken (w_received w_accepts w_loop) w_message).
Proof.
  set (at_ := fun q => mkAgent q w_loop w_message).
  eapply (w_goes _ (at_ (w_queue 0 0 [] (SPressureLoaded w_message 84 false) RIdle [] [])));
    [eapply (ag_sender _ _ _ _ _ _ _ _ 0), (st_load_pressure _ _ _ _ w_message); by vm_compute|by vm_compute|].
  w_sender (at_ (w_queue 0 0 [] (SCurrentLoaded w_message 84 false 0) RIdle [] [])) st_load_current.
  eapply (w_goes _ (at_ (w_queue 84 0 [] (SReserved w_message 84) RIdle [] [])));
    [eapply (ag_sender _ _ _ _ _ _ _ _ 0), st_cas_ok; [done|by vm_compute|done|by vm_compute]|by vm_compute|].
  w_sender (at_ (w_queue 84 1 [] (SCounted w_message 84) RIdle [] [])) st_count.
  w_sender (at_ (w_queue 84 1 [QRecords w_message 84] SIdle RIdle [w_message] [])) st_send.
  w_receiver (at_ (w_queue 84 1 [] SIdle (RRecords w_message 84) [w_message] [])) st_pop_records.
  w_receiver (at_ (w_queue 0 1 [] SIdle (RBytesReleased w_message) [w_message] [])) st_release_bytes.
  eapply w_goes; [|reflexivity|].
  { eapply (ag_received _ _ _ _ _ _ _ _ (RecvRecords w_message) "b" w_ids None DEFAULT_MEMORY_HIGH_WATERMARK 0 0);
      [eapply st_release_message; reflexivity|reflexivity|intros v [=]|intros records [= <-]; by vm_compute]. }
  match goal with |- rtc _ ?a ?b => assert (a = b) as ->; [by vm_compute|done] end.
Qed.

Lemma agent_conservation_witness :
  let a := mkAgent w_taken (w_received w_accepts w_loop) w_message in
  count_class Attribution (ag_offered a) = 1 /\
  exists sent refused flight,
    1 = count_class Attribution (delivered_records (lp_log (ag_loop a))) + on_its_way Attribution a
        + zsum (told Attribution) (sent ++ refused ++ flight) + untold Attribution a.
Proof.
  cbv zeta. split; [by vm_compute|].
  destruct (agent_conservation w_accepts w_into_batch sample_producer (fun c => c) w_to_vec w_from_slice1 (fun _ => None)
    w_agent_config None w_loop_config 1 w_loop _ ltac:(by vm_compute) ltac:(by vm_compute) w_start
    (agent_running _ _ _ _ _ _ _ _ _ _ w_agent_run) ltac:(by vm_compute)) as (sent & refused & flight & _ & _ & _ & _ & Hsum).
  exists sent, refused, flight. exact (Hsum Attribution).
Defined.

Lemma clean_shutdown_tells_all_witness :
  exists l' sent refused,
    shutdown w_accepts w_into_batch w_to_vec (fun _ => None) 3 (fun _ => 0) (w_received w_accepts w_loop) = Some l' /\
    1 = count_class Attribution (delivered_records (lp_log l')) + zsum (told Attribution) sent + zsum (told Attribution) refused.
Proof.
  destruct (shutdown w_accepts w_into_batch w_to_vec (fun _ => None) 3 (fun _ => 0) (w_received w_accepts w_loop)) as [l'|] eqn:E;
    [|by vm_compute in E].
  destruct (clean_shutdown_tells_all w_accepts w_into_batch sample_producer (fun c => c) w_to_vec w_from_slice1 (fun _ => None)
    w_agent_config None w_loop_config 1 w_loop _ _ _ _ _ l' ltac:(by vm_compute) ltac:(by vm_compute) w_start w_agent_run
    ltac:(by repeat constructor) eq_refl eq_refl E ltac:(vm_compute in E; by injection E as <-) ltac:(by vm_compute))
    as (sent & refused & _ & _ & Hsum).
  exists l', sent, refused. split; [done|]. exact (Hsum Attribution).
Defined.
