(* ===== verification/Node.v ===== *)
(** From ring buffer to sink: the readers of [jalki/src/reader.rs], each with its probe, put before the queue
    and the sink loop of [Agent], as [Runtime::run] of [jalki/src/runtime.rs] starts them.

    A probe deployed later is a reader whose first turn comes later, one detached a reader told to stop.
    A turn is one step, for what it does before [try_send] no other part of the agent sees: it
    writes the store under its probe's name, and nothing here reads it; from [try_send] on its
    accesses to the queue interleave with everything else. *)
From Stdlib Require Import Strings.Byte.
From S2P Require Import Prelude Float Protocol Evidence Samples Sink Gap Retry Backoff Pacer Spool Resident SinkQueue SinkLoop Event SensitivePaths Normalize Store Reader ReaderRun Reports Agent.

(* ------------------------------------------------------------------ *)
(** ** What a turn makes *)

Section makes.
Variable probe_name : string.
Variable evidence_of : string -> Z -> list byte -> result DecodeError (list EvidenceRecord).
Variable patterns : list string.
Variable sample_rate : f64.
Hypothesis evidence_single : forall id now raw l, evidence_of id now raw = Ok l -> exists r, l = [r].

Lemma intake_admit_makes resolve record r r' :
  intake_admit probe_name resolve patterns [record] r = Some r' ->
  rd_counter r' = rd_counter r /\
  rd_records r' = rd_records r ++ (if record_matches_sensitive_paths patterns record then [bind_record resolve record] else []).
Proof.
  unfold intake_admit. cbn [admit_loop]. destruct (record_matches_sensitive_paths patterns record); cbn [negb].
  - destruct (store_push _ _ _) as [store|]; [|done]. by intros [= <-].
  - intros [= <-]. by rewrite app_nil_r.
Qed.

Lemma drain_item_makes item r r' :
  drain_item probe_name evidence_of patterns sample_rate item r = Some r' ->
  rd_counter r' = next_counter sample_rate (rd_counter r) /\
  rd_records r' = rd_records r ++ (if skips sample_rate (rd_counter r) then [] else option_list (verdict evidence_of patterns item)).
Proof.
  unfold drain_item, skips, next_counter, verdict. destruct (sampling sample_rate) as [[] every]; cbn [fst snd andb].
  1: change (rd_counter (r <| rd_counter ::= fun c => wrap 64 (c + 1) |>)) with (wrap 64 (rd_counter r + 1));
    destruct (negb _); [intros [= <-]; by rewrite app_nil_r|].
  all: destruct (evidence_of _ _ _) as [evidence|] eqn:Ee; [|intros [= <-]; by rewrite app_nil_r];
    destruct (evidence_single _ _ _ _ Ee) as [record ->]; intros (Hc & Hr)%intake_admit_makes; rewrite Hc, Hr;
    by destruct (record_matches_sensitive_paths patterns record).
Qed.

Lemma drain_items_makes items r r' :
  foldl (fun acc item => r ← acc; drain_item probe_name evidence_of patterns sample_rate item r) (Some r) items = Some r' ->
  rd_counter r' = counter_after sample_rate (rd_counter r) items /\
  rd_records r' = rd_records r ++ omap (verdict evidence_of patterns) (kept sample_rate (rd_counter r) items).
Proof.
  revert r. induction items as [|item items IH]; intros r; cbn [foldl]; [intros [= <-]; cbn; by rewrite app_nil_r|].
  cbn [mbind option_bind]. destruct (drain_item _ _ _ _ item r) as [r1|] eqn:Hi.
  2:{ intros Hf. exfalso. clear -Hf. induction items as [|item items IH]; [done|]. by apply IH. }
  intros (Hc & Hr)%IH. apply drain_item_makes in Hi as (Hc1 & Hr1). rewrite Hc1 in Hc, Hr. split; [exact Hc|].
  rewrite Hr, Hr1, kept_cons, omap_app, <- app_assoc. do 2 f_equal.
  destruct (skips sample_rate (rd_counter r)); [done|]. cbn. by destruct (verdict _ _ item).
Qed.

(** What a turn adds to what was drained is what it sends, but for what an exit leaves behind; and it sends at
    most one message. *)
Lemma drain_turn_makes t u u' exit :
  drain_turn probe_name evidence_of patterns sample_rate t u = Some (u', exit) ->
  exists items messages,
    rn_drained u' = rn_drained u ++ items /\
    rd_counter (rn_reader u') = counter_after sample_rate (rd_counter (rn_reader u)) items /\
    rn_sent u' = rn_sent u ++ messages /\ (length messages <= 1)%nat /\
    concat messages ++ unsent exit u' = evidence_from evidence_of patterns sample_rate (rn_reader u) items.
Proof.
  unfold drain_turn. destruct (tu_stopped t); [intros [= <- <-]; exists [], []; cbn; rewrite !app_nil_r; auto with arith|].
  destruct (drain_cycle _ _ _ _ _ _) as [r|] eqn:Hc; [|done]. cbn [mbind option_bind]. apply drain_items_makes in Hc as (Hc & Hr).
  set (items := take MAX_DRAIN_ITEMS (tu_ready t)) in *. cbn in Hc, Hr.
  change (omap _ _) with (evidence_from evidence_of patterns sample_rate (rn_reader u) items) in Hr.
  set (u1 := u <| rn_reader := r |> <| rn_drained ::= _ |>).
  destruct (poll_turn t u1) as [u2|e] eqn:Hp.
  2:{ intros [= <- <-]. exists items, []. split_and!; [done|exact Hc|by rewrite app_nil_r|cbn; lia|exact Hr]. }
  destruct (poll_turn_frame t u1 u2 Hp) as (Hd2 & Hs2 & Hc2 & Hr2 & _). cbn in Hd2, Hs2, Hc2, Hr2.
  unfold offered. rewrite Hr2. case_bool_decide as Hnil; [|destruct (tu_open t)]; intros [= <- <-]; exists items.
  - exists []. rewrite Hc2, Hs2, app_nil_r, <- Hr, Hnil. split_and!; [exact Hd2|exact Hc|done|cbn; lia|done].
  - exists [rd_records r]. split_and!; [exact Hd2|exact (eq_trans Hc2 Hc)|cbn; by rewrite Hs2|cbn; lia|cbn; by rewrite !app_nil_r].
  - exists []. split_and!; [exact Hd2|exact (eq_trans Hc2 Hc)|by rewrite Hs2, app_nil_r|cbn; lia|cbn; by rewrite Hr2].
Qed.
End makes.

(* ------------------------------------------------------------------ *)
(** ** The node *)

(** A probe, as its reader has it. *)
Record ProbeSetup := mkProbeSetup {
  np_name : string;
  np_evidence_of : string -> Z -> list byte -> result DecodeError (list EvidenceRecord);
  np_sample_rate : f64
}.

(** A reader's run, and why it ended if it did. *)
Notation ReaderState := (Run * option Exit)%type.

(** [nd_own] is history: what senders other than readers have begun to send of the agent itself. *)
Record Node (W : Type) := mkNode {
  nd_agent : Agent W;
  nd_store : EventStore;
  nd_runs : list ReaderState;
  nd_own : list EvidenceRecord
}.
#[global] Arguments mkNode {W}.
#[global] Arguments nd_agent {W}.
#[global] Arguments nd_store {W}.
#[global] Arguments nd_runs {W}.
#[global] Arguments nd_own {W}.

(** The store is one, whichever reader writes it. *)
Definition with_store (store : EventStore) (u : Run) : Run := u <| rn_reader ::= fun r => r <| rd_store := store |> |>.

(** The messages of a turn. *)
Definition new_messages (u u' : Run) : list (list EvidenceRecord) := drop (length (rn_sent u)) (rn_sent u').

Section node.
Context {W : Type} `{MemModel}.
Variable sink : EvidenceSink W.
Variable into_batch : nat -> GapReport -> EvidenceBatch.
Variable producer : ProducerMetadata.
Variable hash : Z -> Z.
Variable to_vec : EvidenceBatch -> result string (list byte).
Variable from_slice : list byte -> option EvidenceBatch.
Variable fault : nat -> option (string * nat).
Variable config : SinkQueueConfig.
Variable scope : option (gset string).
Variable patterns : list string.
Variable probes : list ProbeSetup.

(** The start of [try_send] of each message. *)
Definition begins (t : nat) (messages : list (list EvidenceRecord)) (q q' : Queue) : Prop :=
  match messages with
  | [] => q' = q
  | message :: _ =>
      let kept := scoped scope message in
      if bool_decide (kept = []) then q' = q
      else q' = set_sender t (SPressureLoaded kept (resident_bytes kept) (q_under_pressure q)) q
  end.

Notation agent_step := (agent_step sink into_batch producer hash to_vec fault config scope).

Inductive node_step : Node W -> Node W -> Prop :=
| nd_turn t setup turn u u' exit q q' l offered store runs own :
    probes !! t = Some setup -> runs !! t = Some (u, None) -> q_senders q !! t = Some SIdle ->
    tu_open turn = negb (q_closed q) ->
    drain_turn (np_name setup) (np_evidence_of setup) patterns (np_sample_rate setup) turn (with_store store u) = Some (u', exit) ->
    begins t (new_messages u u') q q' ->
    node_step (mkNode (mkAgent q l offered) store runs own)
              (mkNode (mkAgent q' l (offered ++ offered_by t q q')) (rd_store (rn_reader u')) (<[t := (u', exit)]> runs) own)
| nd_sending t q q' l offered store runs own :
    q_senders q !! t <> Some SIdle -> sender_step config scope t q q' ->
    node_step (mkNode (mkAgent q l offered) store runs own) (mkNode (mkAgent q' l offered) store runs own)
| nd_other t q q' l offered store runs own :
    (length probes <= t)%nat -> sender_step config scope t q q' ->
    node_step (mkNode (mkAgent q l offered) store runs own)
              (mkNode (mkAgent q' l (offered ++ offered_by t q q')) store runs (own ++ offered_by t q q'))
| nd_sink a a' store runs own :
    agent_step a a' -> q_senders (ag_queue a') = q_senders (ag_queue a) -> ag_offered a' = ag_offered a ->
    node_step (mkNode a store runs own) (mkNode a' store runs own).

(** Running, or shut down: every reader has ended, every sender is gone, the channel is empty. *)
Inductive node_reaches (start : Node W) : Node W -> Prop :=
| node_running nd : rtc node_step start nd -> node_reaches start nd
| node_finished fuel clock q l offered store runs own l' :
    rtc node_step start (mkNode (mkAgent q l offered) store runs own) ->
    Forall (fun run : ReaderState => run.2 <> None) runs -> Forall (fun pc => pc = SIdle) (q_senders q) ->
    q_channel q = [] -> q_receiver q = RIdle -> shutdown sink into_batch to_vec fault fuel clock l = Some l' ->
    node_reaches start (mkNode (mkAgent q l' offered) store runs own).

(** Readers that have not turned, [others] more senders, an empty queue, and the loop as it starts. *)
Definition node_new (others : nat) (store : EventStore) (l : Loop W) : Node W :=
  mkNode (agent_new (length probes + others) l) store
    (map (fun _ => (run_new (mkReader ProbeStats_new store 0 []), None)) probes) [].

(* ------------------------------------------------------------------ *)
(** ** Readers and agent agree *)

(** The evidence there is in what a reader drained. *)
Definition captured (setup : ProbeSetup) (u : Run) : list EvidenceRecord :=
  omap (verdict (np_evidence_of setup) patterns) (kept (np_sample_rate setup) 0 (rn_drained u)).

Definition made (setup : ProbeSetup) (run : ReaderState) : Prop :=
  rd_counter (rn_reader run.1) = counter_after (np_sample_rate setup) 0 (rn_drained run.1) /\
  concat (rn_sent run.1) ++ unsent run.2 run.1 = captured setup run.1.

(** What a reader sent into the queue, and what it left behind, the namespace scope applied. *)
Definition sent_in (c : EvidenceClass) (run : ReaderState) : Z := count_class c (scoped scope (concat (rn_sent run.1))).
Definition left_in (c : EvidenceClass) (run : ReaderState) : Z := count_class c (scoped scope (unsent run.2 run.1)).
Definition captured_in (c : EvidenceClass) (probe : ProbeSetup * ReaderState) : Z :=
  count_class c (scoped scope (captured probe.1 probe.2.1)).

(** As for every built-in probe, an event is one record. *)
Hypothesis evidence_single : forall setup, setup ∈ probes ->
  forall id now raw l, np_evidence_of setup id now raw = Ok l -> exists r, l = [r].

Lemma scoped_app a b : scoped scope (a ++ b) = scoped scope a ++ scoped scope b.
Proof. unfold scoped. destruct scope; [|done]. apply filter_app. Qed.

Lemma made_captured c runs :
  Forall2 made probes runs -> zsum (captured_in c) (zip probes runs) = zsum (sent_in c) runs + zsum (left_in c) runs.
Proof.
  clear evidence_single. induction 1 as [|setup run ps rs [_ Hm] _ IH]; [done|]. cbn [zip zip_with]. rewrite !zsum_cons, IH.
  assert (captured_in c (setup, run) = sent_in c run + left_in c run) as ->; [|lia].
  unfold captured_in, sent_in, left_in. cbn [fst snd]. by rewrite <- Hm, scoped_app, count_class_app.
Qed.

(** A turn keeps a reader's account. *)
Lemma drain_turn_made setup turn store u u' exit :
  setup ∈ probes -> made setup (u, None) ->
  drain_turn (np_name setup) (np_evidence_of setup) patterns (np_sample_rate setup) turn (with_store store u) = Some (u', exit) ->
  made setup (u', exit) /\ (length (new_messages u u') <= 1)%nat /\ rn_sent u' = rn_sent u ++ new_messages u u'.
Proof.
  intros Hs [Hc Hm] Ht. cbn [fst snd unsent] in Hc, Hm. rewrite app_nil_r in Hm.
  destruct (drain_turn_makes _ _ _ _ (evidence_single setup Hs) _ _ _ _ Ht) as (items & messages & Hd' & Hc' & Hs' & Hlen & He).
  change (rn_drained (with_store store u)) with (rn_drained u) in Hd'. change (rn_sent (with_store store u)) with (rn_sent u) in Hs'.
  unfold evidence_from in He. change (rd_counter (rn_reader (with_store store u))) with (rd_counter (rn_reader u)) in Hc', He.
  assert (new_messages u u' = messages) as -> by (unfold new_messages; by rewrite Hs', drop_app_length).
  split; [|done]. split; cbn [fst snd].
  - rewrite Hc', Hc, Hd'. unfold counter_after. by rewrite foldl_app.
  - unfold captured in *. by rewrite Hs', concat_app, <- app_assoc, He, Hm, Hd', kept_app, omap_app, Hc.
Qed.

(** What begins with a turn's messages is offered by a step of the agent, or out of scope. *)
Lemma begins_step t messages q q' l offered :
  (length messages <= 1)%nat -> q_senders q !! t = Some SIdle -> q_closed q = false -> begins t messages q q' ->
  offered_by t q q' = scoped scope (concat messages) /\
  rtc agent_step (mkAgent q l offered) (mkAgent q' l (offered ++ offered_by t q q')).
Proof.
  intros Hlen Hidle Hcl Hb. unfold begins in Hb.
  assert (offered_by t q q = []) as Hnone by (unfold offered_by; by rewrite Hidle).
  destruct messages as [|message [|? ?]]; [| |cbn in Hlen; lia].
  { subst q'. rewrite Hnone, app_nil_r. cbn. unfold scoped. by destruct scope. }
  cbn [concat]. rewrite app_nil_r. case_bool_decide as Hk; subst q'; [by rewrite Hnone, app_nil_r, Hk|]. split.
  - unfold offered_by. rewrite Hidle. cbn [q_senders set_sender set]. by rewrite list_lookup_insert_eq by (by eapply lookup_lt_Some).
  - apply rtc_once. apply ag_sender. by apply st_load_pressure.
Qed.

Section run.
Variables (others : nat) (store0 : EventStore) (start : Loop W).

Record node_ok (nd : Node W) : Prop := {
  no_agent : rtc agent_step (agent_new (length probes + others) start) (nd_agent nd);
  no_runs : Forall2 made probes (nd_runs nd);
  no_offered c : count_class c (ag_offered (nd_agent nd)) = zsum (sent_in c) (nd_runs nd) + count_class c (nd_own nd)
}.

Lemma node_new_ok : node_ok (node_new others store0 start).
Proof.
  split; cbn [node_new nd_agent nd_runs nd_own agent_new ag_offered]; [done| |].
  - apply Forall2_fmap_r, Forall_Forall2_diag, Forall_forall. intros setup _. by split.
  - intros c. assert (zsum (sent_in c) (map (fun _ => (run_new (mkReader ProbeStats_new store0 0 []), None)) probes) = 0) as ->; [|done].
    clear evidence_single. induction probes as [|p ps IH]; [done|]. cbn [map]. rewrite zsum_cons, IH.
    unfold sent_in, scoped. cbn. by destruct scope.
Qed.

Lemma node_turn_ok t setup turn u u' exit q q' l offered store runs own :
  probes !! t = Some setup -> runs !! t = Some (u, None) -> q_senders q !! t = Some SIdle ->
  drain_turn (np_name setup) (np_evidence_of setup) patterns (np_sample_rate setup) turn (with_store store u) = Some (u', exit) ->
  begins t (new_messages u u') q q' ->
  node_ok (mkNode (mkAgent q l offered) store runs own) ->
  node_ok (mkNode (mkAgent q' l (offered ++ offered_by t q q')) (rd_store (rn_reader u')) (<[t := (u', exit)]> runs) own).
Proof.
  intros Hp Hrun Hidle Ht Hb [Ha Hr Ho]. cbn [nd_agent nd_runs nd_own ag_offered] in *.
  pose proof (Forall2_lookup_lr _ _ _ _ _ _ Hr Hp Hrun) as Hm.
  destruct (drain_turn_made setup turn store u u' exit (list_elem_of_lookup_2 _ _ _ Hp) Hm Ht) as (Hm' & Hlen & Hs).
  assert (q_closed q = false) as Hcl by (pose proof (agent_run_open _ _ _ _ _ _ _ _ _ _ Ha) as E; exact E).
  destruct (begins_step t _ q q' l offered Hlen Hidle Hcl Hb) as (Hof & Hstep).
  split; cbn [nd_agent nd_runs nd_own ag_offered].
  - by etrans.
  - rewrite <- (list_insert_id probes t setup Hp). by apply Forall2_insert.
  - intros c. rewrite (zsum_insert _ _ _ _ _ Hrun), count_class_app, Ho, Hof.
    assert (sent_in c (u', exit) = sent_in c (u, None) + count_class c (scoped scope (concat (new_messages u u')))) as ->; [|lia].
    unfold sent_in. cbn [fst]. by rewrite Hs at 1; rewrite concat_app, scoped_app, count_class_app.
Qed.

Lemma node_step_ok nd nd' : node_step nd nd' -> node_ok nd -> node_ok nd'.
Proof.
  intros [t setup turn u u' exit q q' l offered store runs own Hp Hrun Hidle _ Ht Hb|t q q' l offered store runs own Hn Hs|
          t q q' l offered store runs own Hge Hs|a a' store runs own Hs Hsen Hof] Hok.
  - by eapply node_turn_ok.
  - destruct Hok as [Ha Hr Ho]. split; [|done|done]. cbn [nd_agent] in *. etrans; [exact Ha|]. apply rtc_once.
    replace offered with (offered ++ offered_by t q q') at 2; [by apply ag_sender|].
    unfold offered_by. destruct (q_senders q !! t) as [[]|]; rewrite ?app_nil_r; done.
  - destruct Hok as [Ha Hr Ho]. split; cbn [nd_agent nd_runs nd_own ag_offered] in *; [|done|].
    + etrans; [exact Ha|]. apply rtc_once. by apply ag_sender.
    + intros c. rewrite !count_class_app, Ho. lia.
  - destruct Hok as [Ha Hr Ho]. split; cbn [nd_agent nd_runs nd_own ag_offered] in *; [|done|by rewrite Hof].
    etrans; [exact Ha|]. by apply rtc_once.
Qed.

Lemma node_run_ok nd :
  rtc (node_step) (node_new others store0 start) nd -> node_ok nd.
Proof.
  intros Hr. pattern nd. revert nd Hr. apply rtc_ind_r; [apply node_new_ok|]. intros nd nd' _ Hs Hok. by eapply node_step_ok.
Qed.

(** A node that was reached, as an agent that was. *)
Lemma node_reaches_ok nd :
  node_reaches (node_new others store0 start) nd ->
  agent_reaches sink into_batch producer hash to_vec fault config scope (agent_new (length probes + others) start) (nd_agent nd) /\
  Forall2 made probes (nd_runs nd) /\
  forall c, count_class c (ag_offered (nd_agent nd)) = zsum (sent_in c) (nd_runs nd) + count_class c (nd_own nd).
Proof.
  intros [nd' Hr|fuel clock q l offered store runs own l' Hr _ Hi Hch Hrc Hs].
  - apply node_run_ok in Hr as [Ha Hm Ho]. split; [by apply agent_running|done].
  - apply node_run_ok in Hr as [Ha Hm Ho]. cbn [nd_agent nd_runs nd_own ag_offered] in *. split; [by eapply agent_finished|done].
Qed.

(** C1: from the ring buffers to the sink, nothing is lost unsaid. Whatever readers, senders, queue and sink
    loop do in turn and whatever fails, while running and after shutdown, of each class: the evidence
    recovered from the spool, the evidence in scope in what the readers drained, and what the agent
    said of itself are exactly what the sink accepted, what is on its way, what batches of loss reports
    tell the sink, what reports not yet sent will tell, and what readers that ended left behind. Each
    batch of reports was accepted once and in order, refused for good, or is in flight. *)
Theorem node_conservation rc nd :
  sq_config_ok config -> config_ok rc -> loop_start to_vec from_slice fault rc start ->
  node_reaches (node_new others store0 start) nd ->
  zlen (lp_accepted start) + zlen (ag_offered (nd_agent nd)) <= usize_max ->
  let a := nd_agent nd in
  exists sent refused flight,
    map rpb_batch sent = accepted_reports (lp_log (ag_loop a)) /\
    Forall (refused_for_good (lp_log (ag_loop a))) refused /\
    map rpb_batch flight = option_list (pg_in_flight (lp_gaps (ag_loop a))) /\
    Forall (made_of_reports into_batch producer) (sent ++ refused ++ flight) /\
    forall c,
      count_class c (lp_accepted start) + zsum (captured_in c) (zip probes (nd_runs nd)) + count_class c (nd_own nd) =
        count_class c (delivered_records (lp_log (ag_loop a))) + on_its_way c a
        + zsum (told c) (sent ++ refused ++ flight) + untold c a + zsum (left_in c) (nd_runs nd).
Proof.
  intros Hc Hrc Hstart Hr Hfit. destruct (node_reaches_ok nd Hr) as (Ha & Hm & Ho).
  destruct (agent_balance sink into_batch producer hash to_vec from_slice fault config scope rc _ start _ Hc Hrc Hstart Ha Hfit)
    as (sent & refused & flight & [Hs _ _ Hrf Hre Hf _] & Hsum).
  exists sent, refused, flight. split_and!; try done. intros c. rewrite (made_captured c _ Hm). specialize (Hsum c). specialize (Ho c). lia.
Qed.
End run.
End node.

(* ------------------------------------------------------------------ *)
(** ** A node that drained an open *)

Definition w_setup : ProbeSetup := mkProbeSetup "file_open" (builtin_evidence PFileOpen "prod") f_one.
Definition w_probes : list ProbeSetup := [w_setup].
Definition w_item : Item := mkItem (raw_bytes (fun _ => x00) (w_raw_open (w_path "/root/.ssh/id_rsa"))) "01J" 5 w_resolve.
Definition w_node_turn : Turn := mkTurn false [w_item] 0 (Ok []) (Err "os error") true.

Definition w_run0 : Run := run_new (mkReader ProbeStats_new (EventStore_new 16) 0 []).
Abbreviation w_drained := (drain_turn (np_name w_setup) (np_evidence_of w_setup) DEFAULT_SENSITIVE_PATHS (np_sample_rate w_setup)
  w_node_turn (with_store (EventStore_new 16) w_run0)).
Definition w_run1 : Run := Eval vm_compute in default w_run0 (fst <$> w_drained).
Definition w_open : list EvidenceRecord := Eval vm_compute in rd_records (rn_reader w_run1).

Lemma w_drained_eq : w_drained = Some (w_run1, None).
Proof. by vm_compute. Qed.

Lemma w_probes_single setup :
  setup ∈ w_probes -> forall id now raw l, np_evidence_of setup id now raw = Ok l -> exists r, l = [r].
Proof. intros ->%list_elem_of_singleton. apply builtin_evidence_single. Qed.

Definition w_holding : Queue := set_sender 0 (SPressureLoaded w_open (resident_bytes w_open) false) (Queue_new 1).
Definition w_node : Node unit := mkNode (mkAgent w_holding w_loop w_open) (rd_store (rn_reader w_run1)) [(w_run1, None)] [].

Lemma w_begins : begins None 0 (new_messages w_run0 w_run1) (Queue_new 1) w_holding.
Proof. by vm_compute. Qed.

Lemma w_offered : offered_by 0 (Queue_new 1) w_holding = w_open.
Proof. by vm_compute. Qed.

Lemma w_node_reached :
  node_reaches w_accepts w_into_batch sample_producer (fun c => c) w_to_vec (fun _ => None) w_agent_config None
    DEFAULT_SENSITIVE_PATHS w_probes (node_new w_probes 0 (EventStore_new 16) w_loop) w_node.
Proof.
  apply node_running, rtc_once.
  assert (w_node = mkNode (mkAgent w_holding w_loop ([] ++ offered_by 0 (Queue_new 1) w_holding)) (rd_store (rn_reader w_run1)) [(w_run1, None)] []) as ->
    by (unfold w_node; cbn [app]; by rewrite w_offered).
  exact (nd_turn w_accepts w_into_batch sample_producer (fun c => c) w_to_vec (fun _ => None) w_agent_config None
    DEFAULT_SENSITIVE_PATHS w_probes 0 w_setup
    w_node_turn w_run0 w_run1 None (Queue_new 1) w_holding w_loop [] (EventStore_new 16) [(w_run0, None)] []
    eq_refl eq_refl eq_refl eq_refl w_drained_eq w_begins).
Qed.

Lemma w_captured : zsum (captured_in None DEFAULT_SENSITIVE_PATHS Attribution) (zip w_probes (nd_runs w_node)) = 1.
Proof. by vm_compute. Qed.

(** After one turn of the reader of opens the evidence of one open is in its hands. *)
Lemma node_conservation_witness :
  zsum (captured_in None DEFAULT_SENSITIVE_PATHS Attribution) (zip w_probes (nd_runs w_node)) = 1 /\
  exists sent refused flight,
    count_class Attribution (lp_accepted w_loop)
    + zsum (captured_in None DEFAULT_SENSITIVE_PATHS Attribution) (zip w_probes (nd_runs w_node)) + count_class Attribution (nd_own w_node) =
      count_class Attribution (delivered_records (lp_log (ag_loop (nd_agent w_node)))) + on_its_way Attribution (nd_agent w_node)
      + zsum (told Attribution) (sent ++ refused ++ flight) + untold Attribution (nd_agent w_node) + zsum (left_in None Attribution) (nd_runs w_node).
Proof.
  split; [exact w_captured|].
  destruct (node_conservation w_accepts w_into_batch sample_producer (fun c => c) w_to_vec w_from_slice1 (fun _ => None)
    w_agent_config None DEFAULT_SENSITIVE_PATHS w_probes w_probes_single 0 (EventStore_new 16) w_loop w_loop_config w_node
    ltac:(by vm_compute) ltac:(by vm_compute) w_start w_node_reached ltac:(by vm_compute)) as (sent & refused & flight & _ & _ & _ & _ & Hsum).
  exists sent, refused, flight. exact (Hsum Attribution).
Defined.
