(* ===== verification/KnowledgeFiles.v ===== *)
(** The documents of the knowledge base ([knowledge/*.json]), as [serde_json] reads them: what
    [KnowledgeBase::load] finds embedded in the binary, and what the repository's checks read. *)
From S2P Require Import Prelude Float Store Knowledge Registry Ipc IpcJson.

Definition tcp_json : JsonValue :=
  JsObject [
    ("description", JsString "TCP kernel functions for network observability");
    ("layer", JsString "tcp");
    ("probes", JsArray [
      JsObject [
        ("answers", JsArray [JsString "why is this service failing to connect to a backend"; JsString "which connections are being refused"; JsString "which connections are timing out"; JsString "how long does it take to establish a connection"; JsString "is a specific backend unreachable"]);
        ("attachment", JsString "fexit");
        ("combine_with", JsArray [JsString "tcp_retransmit_skb"; JsString "tcp_close"]);
        ("event_type", JsString "kernel.tcp.connect");
        ("fields", JsArray [
          JsObject [
            ("important", JsBool true);
            ("meaning", JsString "source IP address");
            ("name", JsString "src_ip");
            ("type", JsString "ipv4")];
          JsObject [
            ("important", JsBool true);
            ("meaning", JsString "destination IP address");
            ("name", JsString "dst_ip");
            ("type", JsString "ipv4")];
          JsObject [
            ("important", JsBool false);
            ("meaning", JsString "source port");
            ("name", JsString "src_port");
            ("type", JsString "u16")];
          JsObject [
            ("important", JsBool true);
            ("meaning", JsString "destination port — identifies the service");
            ("name", JsString "dst_port");
            ("type", JsString "u16")];
          JsObject [
            ("important", JsBool true);
            ("meaning", JsString "process ID making the connection");
            ("name", JsString "pid");
            ("type", JsString "u32")];
          JsObject [
            ("important", JsBool true);
            ("meaning", JsString "process name (comm)");
            ("name", JsString "command");
            ("type", JsString "string")];
          JsObject [
            ("important", JsBool true);
            ("meaning", JsString "return value — 0 success, negative = errno");
            ("name", JsString "ret");
            ("type", JsString "i32")]]);
        ("function", JsString "tcp_connect");
        ("interpretations", JsArray [
          JsObject [
            ("action", JsString "normal — correlate with tcp_close to get connection lifetime");
            ("conclusion", JsString "connection succeeded");
            ("pattern", JsString "ret == 0");
            ("severity", JsString "info")];
          JsObject [
            ("action", JsString "check if the target process is running on dst_ip. check port configuration.");
            ("conclusion", JsString "nothing is listening on dst_ip:dst_port — process crashed, wrong port, or misconfigured");
            ("errno", JsString "ECONNREFUSED");
            ("pattern", JsString "ret == -111");
            ("severity", JsString "error")];
          JsObject [
            ("action", JsString "check network path between src and dst. check if dst host is overloaded.");
            ("conclusion", JsString "host exists but is not responding — overloaded, hung, or network path is broken");
            ("errno", JsString "ETIMEDOUT");
            ("pattern", JsString "ret == -110");
            ("severity", JsString "error")];
          JsObject [
            ("action", JsString "check routing table. check if dst host is up.");
            ("conclusion", JsString "no route to host — routing problem or host is down");
            ("errno", JsString "EHOSTUNREACH");
            ("pattern", JsString "ret == -113");
            ("severity", JsString "error")];
          JsObject [
            ("action", JsString "check network interfaces and routing configuration on src host.");
            ("conclusion", JsString "network is unreachable — interface down or routing misconfiguration");
            ("errno", JsString "ENETUNREACH");
            ("pattern", JsString "ret == -101");
            ("severity", JsString "error")];
          JsObject [
            ("action", JsString "correlate with RAUTA HTTP errors on same 4-tuple in AHTI. this is a backend health issue.");
            ("conclusion", JsString "persistent failure to a specific backend — not transient");
            ("pattern", JsString "high rate of ret != 0 to same dst_ip:dst_port");
            ("severity", JsString "error")]]);
        ("keywords", JsArray [JsString "connect"; JsString "connection"; JsString "refused"; JsString "timeout"; JsString "econnrefused"; JsString "etimedout"; JsString "backend"; JsString "unreachable"]);
        ("layer", JsString "tcp");
        ("not_when", JsString "you only care about established connections — use tcp_close for lifetime, tcp_retransmit_skb for reliability.");
        ("use_when", JsString "you need to know which connections are being attempted, which are failing, and what errno the kernel returned. fexit gives you the return value so you know immediately if the connect succeeded or failed.")];
      JsObject [
        ("answers", JsArray [JsString "how long do connections to this backend last"; JsString "which connections are being closed"; JsString "which process owns a connection"; JsString "is a backend cycling connections too quickly"]);
        ("attachment", JsString "fexit");
        ("combine_with", JsArray [JsString "tcp_connect"; JsString "tcp_retransmit_skb"]);
        ("event_type", JsString "kernel.tcp.close");
        ("fields", JsArray [
          JsObject [
            ("important", JsBool true);
            ("meaning", JsString "source IP address");
            ("name", JsString "src_ip");
            ("type", JsString "ipv4")];
          JsObject [
            ("important", JsBool true);
            ("meaning", JsString "destination IP address");
            ("name", JsString "dst_ip");
            ("type", JsString "ipv4")];
          JsObject [
            ("important", JsBool true);
            ("meaning", JsString "source port — identifies the specific connection");
            ("name", JsString "src_port");
            ("type", JsString "u16")];
          JsObject [
            ("important", JsBool true);
            ("meaning", JsString "destination port — identifies the service");
            ("name", JsString "dst_port");
            ("type", JsString "u16")];
          JsObject [
            ("important", JsBool true);
            ("meaning", JsString "process ID that owned the connection");
            ("name", JsString "pid");
            ("type", JsString "u32")];
          JsObject [
            ("important", JsBool true);
            ("meaning", JsString "process name");
            ("name", JsString "command");
            ("type", JsString "string")]]);
        ("function", JsString "tcp_close");
        ("interpretations", JsArray [
          JsObject [
            ("action", JsString "normal for health check patterns. investigate if unexpected.");
            ("conclusion", JsString "connection was opened and immediately closed — likely a health check or failed handshake");
            ("pattern", JsString "tcp_close fires immediately after tcp_connect on same 4-tuple");
            ("severity", JsString "info")];
          JsObject [
            ("action", JsString "check if connection pooling is misconfigured. high churn wastes TCP handshake overhead.");
            ("conclusion", JsString "connection churn — connections being opened and closed rapidly");
            ("pattern", JsString "high rate of tcp_close to same dst_ip:dst_port");
            ("severity", JsString "warning")]]);
        ("keywords", JsArray [JsString "close"; JsString "teardown"; JsString "connection lifetime"; JsString "short-lived"; JsString "connection cycling"]);
        ("layer", JsString "tcp");
        ("not_when", JsString "you need failure reasons — tcp_connect gives you errno. you need reliability signals — use tcp_retransmit_skb.");
        ("use_when", JsString "you want to track connection lifetime or understand connection churn. combine with tcp_connect on the same 4-tuple to calculate duration.")];
      JsObject [
        ("answers", JsArray [JsString "is the network dropping packets"; JsString "why is this connection slow"; JsString "which backend has network problems"; JsString "is this a network problem or an application problem"; JsString "which specific connection is experiencing packet loss"]);
        ("attachment", JsString "fentry");
        ("combine_with", JsArray [JsString "tcp_connect"; JsString "tcp_close"]);
        ("event_type", JsString "kernel.tcp.retransmit");
        ("fields", JsArray [
          JsObject [
            ("important", JsBool true);
            ("meaning", JsString "source IP");
            ("name", JsString "src_ip");
            ("type", JsString "ipv4")];
          JsObject [
            ("important", JsBool true);
            ("meaning", JsString "destination IP");
            ("name", JsString "dst_ip");
            ("type", JsString "ipv4")];
          JsObject [
            ("important", JsBool true);
            ("meaning", JsString "source port");
            ("name", JsString "src_port");
            ("type", JsString "u16")];
          JsObject [
            ("important", JsBool true);
            ("meaning", JsString "destination port");
            ("name", JsString "dst_port");
            ("type", JsString "u16")];
          JsObject [
            ("important", JsBool true);
            ("meaning", JsString "TCP state when retransmit fired — critical for diagnosis");
            ("name", JsString "tcp_state");
            ("type", JsString "u8")];
          JsObject [
            ("important", JsBool true);
            ("meaning", JsString "process that owns the socket");
            ("name", JsString "pid");
            ("type", JsString "u32")];
          JsObject [
            ("important", JsBool true);
            ("meaning", JsString "process name");
            ("name", JsString "command");
            ("type", JsString "string")]]);
        ("function", JsString "tcp_retransmit_skb");
        ("interpretations", JsArray [
          JsObject [
            ("action", JsString "check connectivity to dst_ip from this node. this is NOT an application problem — the connection never established.");
            ("conclusion", JsString "initial handshake is failing — remote is unreachable, firewall dropping SYN packets, or host is down");
            ("pattern", JsString "tcp_state == SYN_SENT (2)");
            ("severity", JsString "error")];
          JsObject [
            ("action", JsString "check network path between src and dst nodes. this is a network problem, not application. correlate with RAUTA HTTP latency spikes on same 4-tuple.");
            ("conclusion", JsString "packets are being lost on an active connection — network congestion, switch issue, or physical layer problem between nodes");
            ("pattern", JsString "tcp_state == ESTABLISHED (1)");
            ("severity", JsString "warning")];
          JsObject [
            ("action", JsString "check application on src — it may be hung or not reading from the socket.");
            ("conclusion", JsString "remote closed the connection but local application has not read/closed — possible application hang or slow consumer");
            ("pattern", JsString "tcp_state == CLOSE_WAIT (7)");
            ("severity", JsString "warning")];
          JsObject [
            ("action", JsString "this is the kernel telling you the network between these two IPs is broken. escalate to network team. not an application bug.");
            ("conclusion", JsString "persistent packet loss to a specific backend — network path is degraded");
            ("pattern", JsString "3+ retransmits in 10s on same 4-tuple, tcp_state == ESTABLISHED");
            ("severity", JsString "error")];
          JsObject [
            ("action", JsString "the problem is at dst_ip or the network path to it, not a specific connection. check node network interface and switch port.");
            ("conclusion", JsString "all connections to this host are experiencing packet loss — host-level network issue");
            ("pattern", JsString "retransmits on multiple 4-tuples to same dst_ip");
            ("severity", JsString "error")];
          JsObject [
            ("action", JsString "check local node network interface. check upstream switch. this affects all traffic from this node.");
            ("conclusion", JsString "widespread packet loss — local node network interface issue or upstream switch");
            ("pattern", JsString "retransmits on multiple 4-tuples to multiple dst_ips");
            ("severity", JsString "critical")]]);
        ("keywords", JsArray [JsString "retransmit"; JsString "packet loss"; JsString "slow"; JsString "network"; JsString "congestion"; JsString "latency"; JsString "reliability"]);
        ("layer", JsString "tcp");
        ("not_when", JsString "you want to know if a connection succeeded or failed — use tcp_connect. retransmits mean the connection exists but packets are being lost.");
        ("tcp_states", JsObject [
          ("1", JsString "ESTABLISHED — connection is up, packets being lost mid-stream");
          ("11", JsString "CLOSING — simultaneous close, unusual");
          ("2", JsString "SYN_SENT — initial handshake failing, remote may be unreachable");
          ("3", JsString "SYN_RECV — server side handshake issue");
          ("4", JsString "FIN_WAIT1 — connection teardown, usually not critical");
          ("7", JsString "CLOSE_WAIT — remote closed but local hasn't, application may be hung");
          ("8", JsString "LAST_ACK — final teardown, usually not critical")]);
        ("use_when", JsString "you suspect network-layer problems. retransmits are the kernel's signal that packets are being lost. the tcp_state field tells you exactly what kind of problem it is.")];
      JsObject [
        ("answers", JsArray [JsString "how much data is a process sending"; JsString "which process is a heavy network sender"; JsString "is this connection saturated"]);
        ("attachment", JsString "fexit");
        ("combine_with", JsArray [JsString "tcp_connect"; JsString "tcp_retransmit_skb"]);
        ("event_type", JsString "kernel.tcp.send");
        ("fields", JsArray [
          JsObject [
            ("important", JsBool true);
            ("meaning", JsString "source IP");
            ("name", JsString "src_ip");
            ("type", JsString "ipv4")];
          JsObject [
            ("important", JsBool true);
            ("meaning", JsString "destination IP");
            ("name", JsString "dst_ip");
            ("type", JsString "ipv4")];
          JsObject [
            ("important", JsBool true);
            ("meaning", JsString "destination port");
            ("name", JsString "dst_port");
            ("type", JsString "u16")];
          JsObject [
            ("important", JsBool true);
            ("meaning", JsString "sending process");
            ("name", JsString "pid");
            ("type", JsString "u32")];
          JsObject [
            ("important", JsBool true);
            ("meaning", JsString "process name");
            ("name", JsString "command");
            ("type", JsString "string")];
          JsObject [
            ("important", JsBool true);
            ("meaning", JsString "bytes sent this call");
            ("name", JsString "bytes");
            ("type", JsString "i32")]]);
        ("function", JsString "tcp_sendmsg");
        ("interpretations", JsArray [
          JsObject [
            ("action", JsString "normal. monitor for retransmits if latency increases.");
            ("conclusion", JsString "healthy high-throughput connection");
            ("pattern", JsString "high bytes per call, low retransmits");
            ("severity", JsString "info")];
          JsObject [
            ("action", JsString "correlate with tcp_retransmit_skb. network path may be congested.");
            ("conclusion", JsString "connection is saturating and experiencing loss — possible congestion");
            ("pattern", JsString "high bytes per call, high retransmits on same 4-tuple");
            ("severity", JsString "warning")]]);
        ("keywords", JsArray [JsString "send"; JsString "bandwidth"; JsString "throughput"; JsString "bytes"; JsString "traffic"]);
        ("layer", JsString "tcp");
        ("not_when", JsString "you just need to know if a connection exists — use tcp_connect. tcp_sendmsg fires on every send call, which can be thousands per second.");
        ("use_when", JsString "you need per-connection, per-process send throughput. high frequency — consider sampling (sample_rate: 0.1) for busy nodes.")];
      JsObject [
        ("answers", JsArray [JsString "how fast is a server accepting connections"; JsString "is the accept backlog filling up"; JsString "which process is accepting connections on a port"]);
        ("attachment", JsString "fexit");
        ("combine_with", JsArray [JsString "tcp_connect"; JsString "tcp_retransmit_skb"]);
        ("event_type", JsString "kernel.tcp.accept");
        ("fields", JsArray [
          JsObject [
            ("important", JsBool true);
            ("meaning", JsString "client IP");
            ("name", JsString "src_ip");
            ("type", JsString "ipv4")];
          JsObject [
            ("important", JsBool true);
            ("meaning", JsString "listening port");
            ("name", JsString "dst_port");
            ("type", JsString "u16")];
          JsObject [
            ("important", JsBool true);
            ("meaning", JsString "accepting process");
            ("name", JsString "pid");
            ("type", JsString "u32")];
          JsObject [
            ("important", JsBool true);
            ("meaning", JsString "process name");
            ("name", JsString "command");
            ("type", JsString "string")];
          JsObject [
            ("important", JsBool true);
            ("meaning", JsString "0 success, negative errno");
            ("name", JsString "ret");
            ("type", JsString "i32")]]);
        ("function", JsString "inet_csk_accept");
        ("interpretations", JsArray [
          JsObject [
            ("action", JsString "increase listen backlog. check if server is overloaded. connections are being dropped.");
            ("conclusion", JsString "accept backlog is full — server cannot keep up with incoming connections");
            ("pattern", JsString "ret == -11 (EAGAIN) at high rate");
            ("severity", JsString "error")];
          JsObject [
            ("action", JsString "check server process health. correlate with RAUTA HTTP latency.");
            ("conclusion", JsString "server stopped accepting — process may be hung or overloaded");
            ("pattern", JsString "accept rate drops suddenly");
            ("severity", JsString "warning")]]);
        ("keywords", JsArray [JsString "accept"; JsString "server"; JsString "backlog"; JsString "listening"; JsString "incoming connections"]);
        ("layer", JsString "tcp");
        ("not_when", JsString "you only care about outbound connections — use tcp_connect.");
        ("use_when", JsString "you want to observe incoming connection acceptance from the server side. pairs with tcp_connect on the client side for full picture.")];
      JsObject [
        ("answers", JsArray [JsString "how much data is being received per connection"; JsString "receive throughput per process"; JsString "is a process reading slowly"]);
        ("attachment", JsString "fexit");
        ("combine_with", JsArray [JsString "tcp_sendmsg"; JsString "tcp_connect"]);
        ("event_type", JsString "kernel.tcp.recv");
        ("fields", JsArray [
          JsObject [
            ("important", JsBool true);
            ("meaning", JsString "source IP");
            ("name", JsString "src_ip");
            ("type", JsString "ipv4")];
          JsObject [
            ("important", JsBool true);
            ("meaning", JsString "destination IP");
            ("name", JsString "dst_ip");
            ("type", JsString "ipv4")];
          JsObject [
            ("important", JsBool true);
            ("meaning", JsString "destination port");
            ("name", JsString "dst_port");
            ("type", JsString "u16")];
          JsObject [
            ("important", JsBool true);
            ("meaning", JsString "process reading from socket");
            ("name", JsString "pid");
            ("type", JsString "u32")];
          JsObject [
            ("important", JsBool true);
            ("meaning", JsString "process name");
            ("name", JsString "command");
            ("type", JsString "string")];
          JsObject [
            ("important", JsBool true);
            ("meaning", JsString "bytes received or negative errno");
            ("name", JsString "ret");
            ("type", JsString "i32")]]);
        ("function", JsString "tcp_recvmsg");
        ("interpretations", JsArray [
          JsObject [
            ("action", JsString "no action needed. use for throughput baseline.");
            ("conclusion", JsString "normal data flow — process is actively reading from the connection");
            ("pattern", JsString "ret > 0 consistently");
            ("severity", JsString "info")];
          JsObject [
            ("action", JsString "normal for short-lived connections. investigate if unexpected for long-lived connections.");
            ("conclusion", JsString "connection closed by peer — no more data to read");
            ("pattern", JsString "ret == 0 repeatedly");
            ("severity", JsString "info")]]);
        ("keywords", JsArray [JsString "recv"; JsString "receive"; JsString "read"; JsString "throughput"; JsString "bytes"; JsString "bandwidth"]);
        ("layer", JsString "tcp");
        ("not_when", JsString "you need aggregate bandwidth — use network interface counters for that.");
        ("use_when", JsString "you need per-connection, per-process receive throughput. high frequency — use sampling (sample_rate: 0.1) for busy nodes.")];
      JsObject [
        ("answers", JsArray [JsString "is the SYN backlog full"; JsString "are incoming connections being dropped at the kernel level"; JsString "SYN flood detection"]);
        ("attachment", JsString "fexit");
        ("combine_with", JsArray [JsString "inet_csk_accept"; JsString "tcp_retransmit_skb"]);
        ("event_type", JsString "kernel.tcp.syn_recv");
        ("fields", JsArray [
          JsObject [
            ("important", JsBool true);
            ("meaning", JsString "listening port");
            ("name", JsString "dst_port");
            ("type", JsString "u16")];
          JsObject [
            ("important", JsBool true);
            ("meaning", JsString "listening process PID");
            ("name", JsString "pid");
            ("type", JsString "u32")];
          JsObject [
            ("important", JsBool true);
            ("meaning", JsString "process name");
            ("name", JsString "command");
            ("type", JsString "string")];
          JsObject [
            ("important", JsBool true);
            ("meaning", JsString "new sock pointer or NULL if backlog full");
            ("name", JsString "ret");
            ("type", JsString "i64")]]);
        ("function", JsString "tcp_v4_syn_recv_sock");
        ("interpretations", JsArray [
          JsObject [
            ("action", JsString "increase net.core.somaxconn and net.ipv4.tcp_max_syn_backlog. check if the application's accept loop is keeping up.");
            ("conclusion", JsString "SYN backlog is full — kernel is dropping incoming connections before they reach the application");
            ("pattern", JsString "ret == 0 (NULL) at high rate");
            ("severity", JsString "critical")];
          JsObject [
            ("action", JsString "no action needed. if clients still report failures, check tcp_connect on the client side.");
            ("conclusion", JsString "SYN processing is normal — connections are being accepted by the kernel");
            ("pattern", JsString "ret != 0 consistently");
            ("severity", JsString "info")]]);
        ("keywords", JsArray [JsString "syn"; JsString "backlog"; JsString "flood"; JsString "syn queue"; JsString "listen"; JsString "dropped connections"; JsString "accept queue"]);
        ("layer", JsString "tcp");
        ("not_when", JsString "the issue is outbound connections — use tcp_connect.");
        ("use_when", JsString "you suspect incoming connections are being dropped before reaching the application. ret == NULL means the SYN backlog is full.")];
      JsObject [
        ("answers", JsArray [JsString "which connections are being reset"; JsString "RST packets — abnormal connection termination"; JsString "why are connections being abruptly closed"]);
        ("attachment", JsString "fentry");
        ("combine_with", JsArray [JsString "tcp_connect"; JsString "tcp_close"]);
        ("event_type", JsString "kernel.tcp.reset");
        ("fields", JsArray [
          JsObject [
            ("important", JsBool true);
            ("meaning", JsString "source IP");
            ("name", JsString "src_ip");
            ("type", JsString "ipv4")];
          JsObject [
            ("important", JsBool true);
            ("meaning", JsString "destination IP");
            ("name", JsString "dst_ip");
            ("type", JsString "ipv4")];
          JsObject [
            ("important", JsBool true);
            ("meaning", JsString "source port");
            ("name", JsString "src_port");
            ("type", JsString "u16")];
          JsObject [
            ("important", JsBool true);
            ("meaning", JsString "destination port");
            ("name", JsString "dst_port");
            ("type", JsString "u16")];
          JsObject [
            ("important", JsBool true);
            ("meaning", JsString "process owning the socket");
            ("name", JsString "pid");
            ("type", JsString "u32")];
          JsObject [
            ("important", JsBool true);
            ("meaning", JsString "process name");
            ("name", JsString "command");
            ("type", JsString "string")]]);
        ("function", JsString "tcp_reset");
        ("interpretations", JsArray [
          JsObject [
            ("action", JsString "check server application logs. may be intentional rate limiting or auth rejection.");
            ("conclusion", JsString "server is rejecting connections from this client — application-level rejection or load shedding");
            ("pattern", JsString "RSTs from server to specific client");
            ("severity", JsString "warning")];
          JsObject [
            ("action", JsString "check service health. correlate with process exit events and container restarts.");
            ("conclusion", JsString "widespread connection resets — service may be crashing or restarting");
            ("pattern", JsString "RSTs across many connections to same port");
            ("severity", JsString "error")]]);
        ("keywords", JsArray [JsString "reset"; JsString "rst"; JsString "abort"; JsString "connection reset"; JsString "abnormal close"]);
        ("layer", JsString "tcp");
        ("not_when", JsString "you need to distinguish graceful from ungraceful closes — combine with tcp_close.");
        ("use_when", JsString "connections are being abnormally terminated. RST means one side decided to abort rather than close gracefully. different from tcp_close which is normal FIN.")]]);
    ("version", JsString "1.0")].

Definition memory_json : JsonValue :=
  JsObject [
    ("description", JsString "Memory management kernel functions for resource observability");
    ("layer", JsString "memory");
    ("probes", JsArray [
      JsObject [
        ("answers", JsArray [JsString "which process got OOM killed"; JsString "why is my container being killed"; JsString "is memory pressure causing restarts"]);
        ("attachment", JsString "fentry");
        ("combine_with", JsArray []);
        ("event_type", JsString "kernel.memory.oom_kill");
        ("fields", JsArray [
          JsObject [
            ("important", JsBool true);
            ("meaning", JsString "PID of the victim process");
            ("name", JsString "pid");
            ("type", JsString "u32")];
          JsObject [
            ("important", JsBool true);
            ("meaning", JsString "process name of the victim");
            ("name", JsString "command");
            ("type", JsString "string")];
          JsObject [
            ("important", JsBool true);
            ("meaning", JsString "total virtual memory of the victim");
            ("name", JsString "total_vm");
            ("type", JsString "u64")]]);
        ("function", JsString "oom_kill_process");
        ("interpretations", JsArray [
          JsObject [
            ("action", JsString "check container memory limits. if the limit is reasonable, investigate the application for memory leaks.");
            ("conclusion", JsString "container memory limit is too low, or the application has a memory leak");
            ("pattern", JsString "oom_kill fires for a specific container repeatedly");
            ("severity", JsString "critical")];
          JsObject [
            ("action", JsString "check node memory pressure. too many pods scheduled on this node.");
            ("conclusion", JsString "node-level memory exhaustion — not a single container's fault");
            ("pattern", JsString "oom_kill fires for multiple different processes");
            ("severity", JsString "critical")]]);
        ("keywords", JsArray [JsString "oom"; JsString "out of memory"; JsString "killed"; JsString "memory pressure"; JsString "cgroup"; JsString "restart"]);
        ("layer", JsString "memory");
        ("not_when", JsString "you're looking for gradual memory growth — this only fires when the kernel kills a process. Use memory metrics for trending.");
        ("use_when", JsString "containers are being killed unexpectedly. OOM kills are the kernel's last resort when memory is exhausted — the cgroup limit was hit or the node ran out of memory.")];
      JsObject [
        ("answers", JsArray [JsString "is memory allocation failing"; JsString "page allocation pressure"; JsString "which process is allocating the most memory"]);
        ("attachment", JsString "fexit");
        ("combine_with", JsArray [JsString "oom_kill_process"]);
        ("event_type", JsString "kernel.memory.page_alloc");
        ("fields", JsArray [
          JsObject [
            ("important", JsBool true);
            ("meaning", JsString "process allocating memory");
            ("name", JsString "pid");
            ("type", JsString "u32")];
          JsObject [
            ("important", JsBool true);
            ("meaning", JsString "process name");
            ("name", JsString "command");
            ("type", JsString "string")];
          JsObject [
            ("important", JsBool true);
            ("meaning", JsString "page pointer or 0 (failure)");
            ("name", JsString "ret");
            ("type", JsString "i64")]]);
        ("function", JsString "mm_page_alloc");
        ("interpretations", JsArray [
          JsObject [
            ("action", JsString "the kernel cannot allocate memory. this precedes OOM kills. check node memory immediately.");
            ("conclusion", JsString "page allocation failing — system is under severe memory pressure");
            ("pattern", JsString "ret == 0 at any rate");
            ("severity", JsString "critical")];
          JsObject [
            ("action", JsString "no action. use for baseline allocation rate per process.");
            ("conclusion", JsString "normal allocation — memory is available");
            ("pattern", JsString "ret != 0 consistently");
            ("severity", JsString "info")]]);
        ("keywords", JsArray [JsString "page"; JsString "alloc"; JsString "allocation"; JsString "memory"; JsString "allocation failure"]);
        ("layer", JsString "memory");
        ("not_when", JsString "you need cgroup memory usage — use cgroup metrics. this fires on every page allocation, which is millions per second.");
        ("use_when", JsString "you suspect memory allocation failures. very high frequency — always use sampling (sample_rate: 0.01 or lower). ret == 0 means allocation failed.")];
      JsObject [
        ("answers", JsArray [JsString "is a cgroup hitting its memory limit"; JsString "which cgroup is being throttled"; JsString "memory limit enforcement"]);
        ("attachment", JsString "fexit");
        ("combine_with", JsArray [JsString "oom_kill_process"]);
        ("event_type", JsString "kernel.memory.cgroup_charge");
        ("fields", JsArray [
          JsObject [
            ("important", JsBool true);
            ("meaning", JsString "process being charged");
            ("name", JsString "pid");
            ("type", JsString "u32")];
          JsObject [
            ("important", JsBool true);
            ("meaning", JsString "process name");
            ("name", JsString "command");
            ("type", JsString "string")];
          JsObject [
            ("important", JsBool true);
            ("meaning", JsString "0 success, non-zero = cgroup limit hit");
            ("name", JsString "ret");
            ("type", JsString "i32")]]);
        ("function", JsString "try_charge_memcg");
        ("interpretations", JsArray [
          JsObject [
            ("action", JsString "increase container memory limit or investigate application memory usage.");
            ("conclusion", JsString "cgroup memory limit is being hit repeatedly — container is at its memory ceiling");
            ("pattern", JsString "ret != 0 at high rate");
            ("severity", JsString "error")];
          JsObject [
            ("action", JsString "container memory limit is too low. increase limit or reduce application memory footprint.");
            ("conclusion", JsString "memory charge rejection leading to OOM kill — the cgroup has no reclaim headroom");
            ("pattern", JsString "ret != 0 followed by oom_kill");
            ("severity", JsString "critical")]]);
        ("keywords", JsArray [JsString "cgroup"; JsString "memcg"; JsString "limit"; JsString "charge"; JsString "throttle"; JsString "memory limit"]);
        ("layer", JsString "memory");
        ("not_when", JsString "you need aggregate cgroup memory usage — use cgroup metrics.");
        ("use_when", JsString "you need to know when a container's memory limit is being enforced by the kernel. ret != 0 means the cgroup memory charge was rejected.")]]);
    ("version", JsString "1.0")].

Definition fs_json : JsonValue :=
  JsObject [
    ("description", JsString "Filesystem kernel functions for I/O observability");
    ("layer", JsString "fs");
    ("probes", JsArray [
      JsObject [
        ("answers", JsArray [JsString "which sensitive files is a process opening"; JsString "did a process open a service account token"; JsString "what process touched a watched path"]);
        ("attachment", JsString "fexit");
        ("combine_with", JsArray [JsString "vfs_write"]);
        ("event_type", JsString "kernel.file.open");
        ("fields", JsArray [
          JsObject [
            ("important", JsBool true);
            ("meaning", JsString "process opening the file");
            ("name", JsString "pid");
            ("type", JsString "u32")];
          JsObject [
            ("important", JsBool true);
            ("meaning", JsString "process name");
            ("name", JsString "command");
            ("type", JsString "string")];
          JsObject [
            ("important", JsBool true);
            ("meaning", JsString "sensitive path being opened");
            ("name", JsString "path");
            ("type", JsString "string")];
          JsObject [
            ("important", JsBool true);
            ("meaning", JsString "0 allowed, negative errno denied");
            ("name", JsString "ret");
            ("type", JsString "i32")];
          JsObject [
            ("important", JsBool true);
            ("meaning", JsString "runtime binding key for enrichment");
            ("name", JsString "cgroup_id");
            ("type", JsString "u64")]]);
        ("function", JsString "security_file_open");
        ("interpretations", JsArray [
          JsObject [
            ("action", JsString "check whether the denied open is expected for the workload identity.");
            ("conclusion", JsString "permission denied — the process attempted a watched sensitive-path open that the kernel denied");
            ("errno", JsString "EACCES");
            ("pattern", JsString "ret == -13 (EACCES)");
            ("severity", JsString "warning")]]);
        ("keywords", JsArray [JsString "open"; JsString "file"; JsString "access"; JsString "path"; JsString "permission denied"; JsString "secret"; JsString "token"; JsString "ssh"; JsString "shadow"]);
        ("layer", JsString "fs");
        ("not_when", JsString "you need all file opens or I/O throughput — this probe is intentionally gated to sensitive paths only.");
        ("use_when", JsString "you need to see sensitive-path opens such as service-account tokens, kube configs, ssh keys, or /etc/shadow. fexit gives the allow/deny return value.")];
      JsObject [
        ("answers", JsArray [JsString "which process is writing to disk"; JsString "write throughput per process"; JsString "is a process writing too much"]);
        ("attachment", JsString "fexit");
        ("combine_with", JsArray [JsString "security_file_open"]);
        ("event_type", JsString "kernel.fs.write");
        ("fields", JsArray [
          JsObject [
            ("important", JsBool true);
            ("meaning", JsString "process writing");
            ("name", JsString "pid");
            ("type", JsString "u32")];
          JsObject [
            ("important", JsBool true);
            ("meaning", JsString "process name");
            ("name", JsString "command");
            ("type", JsString "string")];
          JsObject [
            ("important", JsBool true);
            ("meaning", JsString "bytes written or errno");
            ("name", JsString "ret");
            ("type", JsString "i64")]]);
        ("function", JsString "vfs_write");
        ("interpretations", JsArray [
          JsObject [
            ("action", JsString "normal for databases and log writers. investigate if unexpected.");
            ("conclusion", JsString "heavy writer — this process is generating significant disk I/O");
            ("pattern", JsString "high bytes per call from one process");
            ("severity", JsString "info")]]);
        ("keywords", JsArray [JsString "write"; JsString "disk"; JsString "io"; JsString "throughput"; JsString "bytes written"]);
        ("layer", JsString "fs");
        ("not_when", JsString "you just need to know if a sensitive file was accessed — use security_file_open.");
        ("use_when", JsString "you need per-process write throughput. high frequency — use sampling.")];
      JsObject [
        ("answers", JsArray [JsString "which process is reading from disk"; JsString "read throughput per process"; JsString "is a process reading too much"]);
        ("attachment", JsString "fexit");
        ("combine_with", JsArray [JsString "vfs_write"; JsString "security_file_open"]);
        ("event_type", JsString "kernel.fs.read");
        ("fields", JsArray [
          JsObject [
            ("important", JsBool true);
            ("meaning", JsString "process reading");
            ("name", JsString "pid");
            ("type", JsString "u32")];
          JsObject [
            ("important", JsBool true);
            ("meaning", JsString "process name");
            ("name", JsString "command");
            ("type", JsString "string")];
          JsObject [
            ("important", JsBool true);
            ("meaning", JsString "bytes read or negative errno");
            ("name", JsString "ret");
            ("type", JsString "i64")]]);
        ("function", JsString "vfs_read");
        ("interpretations", JsArray [
          JsObject [
            ("action", JsString "normal for databases and log processors. investigate if unexpected.");
            ("conclusion", JsString "heavy reader — this process is generating significant read I/O");
            ("pattern", JsString "high bytes per call from one process");
            ("severity", JsString "info")];
          JsObject [
            ("action", JsString "check filesystem health. may indicate disk errors or corrupt filesystem.");
            ("conclusion", JsString "read error — the kernel returned an error for this read operation");
            ("pattern", JsString "ret < 0");
            ("severity", JsString "warning")]]);
        ("keywords", JsArray [JsString "read"; JsString "disk"; JsString "io"; JsString "throughput"; JsString "bytes read"]);
        ("layer", JsString "fs");
        ("not_when", JsString "you just need to know if a sensitive file was accessed — use security_file_open.");
        ("use_when", JsString "you need per-process read throughput. high frequency — use sampling. pair with vfs_write for complete I/O picture.")];
      JsObject [
        ("answers", JsArray [JsString "which process is closing file descriptors"; JsString "file descriptor lifecycle"; JsString "fd leak detection"]);
        ("attachment", JsString "fentry");
        ("combine_with", JsArray [JsString "security_file_open"]);
        ("event_type", JsString "kernel.fs.close");
        ("fields", JsArray [
          JsObject [
            ("important", JsBool true);
            ("meaning", JsString "process closing the fd");
            ("name", JsString "pid");
            ("type", JsString "u32")];
          JsObject [
            ("important", JsBool true);
            ("meaning", JsString "process name");
            ("name", JsString "command");
            ("type", JsString "string")]]);
        ("function", JsString "filp_close");
        ("interpretations", JsArray [
          JsObject [
            ("action", JsString "check application for fd leaks. compare open vs close rates over time.");
            ("conclusion", JsString "possible file descriptor leak — process is opening files faster than closing them");
            ("pattern", JsString "close rate much lower than open rate for same process");
            ("severity", JsString "warning")]]);
        ("keywords", JsArray [JsString "close"; JsString "fd"; JsString "file descriptor"; JsString "cleanup"; JsString "leak"]);
        ("layer", JsString "fs");
        ("not_when", JsString "you need I/O throughput — use vfs_read/vfs_write.");
        ("use_when", JsString "you want to track file descriptor lifecycle. combine with security_file_open to detect fd leaks — opens without corresponding closes.")]]);
    ("version", JsString "1.0")].

Definition sched_json : JsonValue :=
  JsObject [
    ("description", JsString "Scheduler kernel functions for CPU and latency observability");
    ("layer", JsString "sched");
    ("probes", JsArray [
      JsObject [
        ("answers", JsArray [JsString "which process is being scheduled on/off CPU"; JsString "is a process being preempted"; JsString "CPU scheduling latency"]);
        ("attachment", JsString "fentry");
        ("combine_with", JsArray []);
        ("event_type", JsString "kernel.sched.switch");
        ("fields", JsArray [
          JsObject [
            ("important", JsBool true);
            ("meaning", JsString "PID being switched off CPU");
            ("name", JsString "prev_pid");
            ("type", JsString "u32")];
          JsObject [
            ("important", JsBool true);
            ("meaning", JsString "process name switched off");
            ("name", JsString "prev_command");
            ("type", JsString "string")];
          JsObject [
            ("important", JsBool true);
            ("meaning", JsString "PID being switched on CPU");
            ("name", JsString "next_pid");
            ("type", JsString "u32")];
          JsObject [
            ("important", JsBool true);
            ("meaning", JsString "process name switched on");
            ("name", JsString "next_command");
            ("type", JsString "string")]]);
        ("function", JsString "finish_task_switch");
        ("interpretations", JsArray [
          JsObject [
            ("action", JsString "check CPU affinity and cgroup CPU limits. consider spreading workloads across cores.");
            ("conclusion", JsString "CPU contention between two processes — they're fighting for the same core");
            ("pattern", JsString "frequent switches between same two processes");
            ("severity", JsString "warning")]]);
        ("keywords", JsArray [JsString "schedule"; JsString "context switch"; JsString "cpu"; JsString "preempt"; JsString "runqueue"; JsString "latency"]);
        ("layer", JsString "sched");
        ("not_when", JsString "you need overall CPU utilization — use /proc/stat or cgroup metrics for that.");
        ("use_when", JsString "you suspect CPU scheduling issues — a process spending too long in the runqueue, or being preempted too frequently. very high frequency — always sample.")];
      JsObject [
        ("answers", JsArray [JsString "which processes are being woken up"; JsString "wakeup latency"; JsString "is a process waiting too long to be scheduled"]);
        ("attachment", JsString "fentry");
        ("combine_with", JsArray [JsString "finish_task_switch"]);
        ("event_type", JsString "kernel.sched.wakeup");
        ("fields", JsArray [
          JsObject [
            ("important", JsBool true);
            ("meaning", JsString "PID of the process being woken");
            ("name", JsString "pid");
            ("type", JsString "u32")];
          JsObject [
            ("important", JsBool true);
            ("meaning", JsString "process name being woken");
            ("name", JsString "command");
            ("type", JsString "string")]]);
        ("function", JsString "try_to_wake_up");
        ("interpretations", JsArray [
          JsObject [
            ("action", JsString "normal for I/O-bound processes. if latency is high, check what the process is blocking on.");
            ("conclusion", JsString "process is frequently sleeping and waking — may be waiting on I/O or locks");
            ("pattern", JsString "high wakeup rate for a specific process");
            ("severity", JsString "info")];
          JsObject [
            ("action", JsString "too many runnable processes for available CPUs. check node CPU pressure and pod scheduling.");
            ("conclusion", JsString "process was woken but did not get scheduled — runqueue congestion");
            ("pattern", JsString "wakeup events without corresponding task switch");
            ("severity", JsString "warning")]]);
        ("keywords", JsArray [JsString "wake"; JsString "wakeup"; JsString "sleep"; JsString "latency"; JsString "scheduling"; JsString "runqueue"]);
        ("layer", JsString "sched");
        ("not_when", JsString "you need CPU utilization metrics — use /proc/stat or cgroup metrics.");
        ("use_when", JsString "you suspect scheduling latency — a process is being woken but taking too long to get CPU time. very high frequency — always use sampling (sample_rate: 0.01).")]]);
    ("version", JsString "1.0")].

Definition process_json : JsonValue :=
  JsObject [
    ("description", JsString "Process lifecycle kernel functions");
    ("layer", JsString "process");
    ("probes", JsArray [
      JsObject [
        ("answers", JsArray [JsString "what programs is a container executing"; JsString "is something running unexpected binaries"; JsString "process execution audit"]);
        ("attachment", JsString "fentry");
        ("combine_with", JsArray []);
        ("event_type", JsString "kernel.process.exec");
        ("fields", JsArray [
          JsObject [
            ("important", JsBool true);
            ("meaning", JsString "PID of the executing process");
            ("name", JsString "pid");
            ("type", JsString "u32")];
          JsObject [
            ("important", JsBool true);
            ("meaning", JsString "current process name");
            ("name", JsString "command");
            ("type", JsString "string")];
          JsObject [
            ("important", JsBool true);
            ("meaning", JsString "binary being executed");
            ("name", JsString "filename");
            ("type", JsString "string")]]);
        ("function", JsString "sched_process_exec");
        ("interpretations", JsArray [
          JsObject [
            ("action", JsString "investigate the source of the binary. may indicate compromise or misconfiguration.");
            ("conclusion", JsString "a process is executing a binary that was not part of the container image");
            ("pattern", JsString "unexpected binary execution in a container");
            ("severity", JsString "warning")]]);
        ("keywords", JsArray [JsString "exec"; JsString "execute"; JsString "binary"; JsString "process"; JsString "spawn"; JsString "run"]);
        ("layer", JsString "process");
        ("not_when", JsString "you need process resource usage — use cgroup metrics.");
        ("use_when", JsString "you need to audit what binaries are being executed in a container. critical for security observability — an AI agent container should not be running unexpected binaries.")];
      JsObject [
        ("answers", JsArray [JsString "which processes are exiting"; JsString "what exit code did a process return"; JsString "is a process crashing repeatedly"]);
        ("attachment", JsString "fentry");
        ("combine_with", JsArray [JsString "sched_process_exec"; JsString "oom_kill_process"]);
        ("event_type", JsString "kernel.process.exit");
        ("fields", JsArray [
          JsObject [
            ("important", JsBool true);
            ("meaning", JsString "PID of the exiting process");
            ("name", JsString "pid");
            ("type", JsString "u32")];
          JsObject [
            ("important", JsBool true);
            ("meaning", JsString "process name");
            ("name", JsString "command");
            ("type", JsString "string")];
          JsObject [
            ("important", JsBool true);
            ("meaning", JsString "exit code — 0 normal, signal-based if killed");
            ("name", JsString "exit_code");
            ("type", JsString "i32")]]);
        ("function", JsString "do_exit");
        ("interpretations", JsArray [
          JsObject [
            ("action", JsString "correlate with oom_kill_process. if OOM kill, increase memory limits.");
            ("conclusion", JsString "process was killed by SIGKILL — likely OOM killed or manually terminated");
            ("pattern", JsString "exit_code == 137 (128 + SIGKILL)");
            ("severity", JsString "warning")];
          JsObject [
            ("action", JsString "check application logs. correlate with container restart events in TAPIO.");
            ("conclusion", JsString "process is crashing repeatedly");
            ("pattern", JsString "exit_code != 0 and repeated for same command");
            ("severity", JsString "error")]]);
        ("keywords", JsArray [JsString "exit"; JsString "crash"; JsString "terminate"; JsString "exit code"; JsString "signal"; JsString "killed"]);
        ("layer", JsString "process");
        ("not_when", JsString "you need to know why the process exited — correlate with other probes or application logs.");
        ("use_when", JsString "you want to observe process termination. exit codes above 128 indicate the process was killed by a signal (exit_code - 128 = signal number).")];
      JsObject [
        ("answers", JsArray [JsString "which processes are forking"; JsString "is fork failing"; JsString "process/thread creation rate"]);
        ("attachment", JsString "fexit");
        ("combine_with", JsArray [JsString "sched_process_exec"; JsString "do_exit"]);
        ("event_type", JsString "kernel.process.clone");
        ("fields", JsArray [
          JsObject [
            ("important", JsBool true);
            ("meaning", JsString "parent PID");
            ("name", JsString "pid");
            ("type", JsString "u32")];
          JsObject [
            ("important", JsBool true);
            ("meaning", JsString "parent process name");
            ("name", JsString "command");
            ("type", JsString "string")];
          JsObject [
            ("important", JsBool true);
            ("meaning", JsString "child PID or negative errno");
            ("name", JsString "ret");
            ("type", JsString "i64")]]);
        ("function", JsString "sys_clone");
        ("interpretations", JsArray [
          JsObject [
            ("action", JsString "check cgroup pids limit, system PID max, and memory. EAGAIN = resource limit, ENOMEM = no memory.");
            ("conclusion", JsString "fork/clone failed — system cannot create new processes. may be out of PIDs, memory, or hitting cgroup pids limit");
            ("pattern", JsString "ret < 0");
            ("severity", JsString "error")];
          JsObject [
            ("action", JsString "investigate the process. set cgroup pids limit to prevent fork bombs.");
            ("conclusion", JsString "process is forking rapidly — possible fork bomb or poorly designed spawning");
            ("pattern", JsString "high clone rate from one process");
            ("severity", JsString "warning")]]);
        ("keywords", JsArray [JsString "fork"; JsString "clone"; JsString "thread"; JsString "spawn"; JsString "process creation"]);
        ("layer", JsString "process");
        ("not_when", JsString "you need to know what the child process does — use sched_process_exec for that.");
        ("use_when", JsString "you need to track process or thread creation. ret < 0 means fork failed — system may be out of PIDs or memory.")]]);
    ("version", JsString "1.0")].
