(* ===== verification/Shipped.v ===== *)
(** The knowledge base the binary ships: [KnowledgeBase::load] of [jalki/src/knowledge.rs] over the
    documents in [KnowledgeFiles], and which of its interpretations an event can ever be given.

    The derived [Deserialize] of a struct takes an object, reads each field by its name, ignores
    names it does not know, and takes a missing or null [Option] for [None]. *)
From Stdlib Require Import Strings.Byte.
From S2P Require Import Prelude Text Float Protocol Evidence Event Normalize Store Knowledge Registry Daemon Ipc IpcJson KnowledgeFiles.

(* ------------------------------------------------------------------ *)
(** ** Loading *)

Definition de_field {A} (de : JsonValue -> option A) (key : string) (v : JsonValue) : option A := js_get key v ≫= de.
Definition de_string : string -> JsonValue -> option string := de_field js_as_str.
Definition de_bool : string -> JsonValue -> option bool := de_field (fun v => match v with JsBool b => Some b | _ => None end).
Definition de_list {A} (de : JsonValue -> option A) : string -> JsonValue -> option (list A) :=
  de_field (fun v => l ← js_as_array v; mapM de l).
Definition de_strings : string -> JsonValue -> option (list string) := de_list js_as_str.
Definition de_option {A} (de : JsonValue -> option A) (key : string) (v : JsonValue) : option (option A) :=
  match js_get key v with None | Some JsNull => Some None | Some x => Some <$> de x end.

Definition field_of_json (v : JsonValue) : option FieldKnowledge :=
  name ← de_string "name" v;
  field_type ← de_string "type" v;
  meaning ← de_string "meaning" v;
  important ← de_bool "important" v;
  Some (mkFieldKnowledge name field_type meaning important).

Definition interpretation_of_json (v : JsonValue) : option Interpretation :=
  pattern ← de_string "pattern" v;
  conclusion ← de_string "conclusion" v;
  severity ← de_string "severity" v;
  action ← de_string "action" v;
  errno ← de_option js_as_str "errno" v;
  Some (mkInterpretation pattern conclusion severity action errno).

(** A [HashMap<String, String>]. *)
Definition string_map_of_json (v : JsonValue) : option (list (string * string)) :=
  match v with JsObject l => mapM (fun kv : string * JsonValue => s ← js_as_str kv.2; Some (kv.1, s)) l | _ => None end.

Definition probe_of_json (v : JsonValue) : option ProbeKnowledge :=
  function ← de_string "function" v;
  attachment ← de_string "attachment" v;
  event_type ← de_string "event_type" v;
  layer ← de_string "layer" v;
  answers ← de_strings "answers" v;
  keywords ← de_strings "keywords" v;
  fields ← de_list field_of_json "fields" v;
  use_when ← de_string "use_when" v;
  not_when ← de_string "not_when" v;
  combine_with ← de_strings "combine_with" v;
  tcp_states ← de_option string_map_of_json "tcp_states" v;
  interpretations ← de_list interpretation_of_json "interpretations" v;
  Some (mkProbeKnowledge function attachment event_type layer answers keywords fields use_when not_when combine_with
          tcp_states interpretations).

Definition layer_of_json (v : JsonValue) : option Layer :=
  version ← de_string "version" v;
  layer ← de_string "layer" v;
  description ← de_string "description" v;
  probes ← de_list probe_of_json "probes" v;
  Some (mkLayer version layer description probes).

(** [KnowledgeBase::load] of five documents; [None] is its panic. *)
Definition load_documents (documents : list JsonValue) : option KnowledgeBase := mapM layer_of_json documents.
Definition KnowledgeBase_load : option KnowledgeBase :=
  load_documents [tcp_json; memory_json; fs_json; sched_json; process_json].

Definition shipped : KnowledgeBase := Eval vm_compute in default [] KnowledgeBase_load.

Lemma shipped_loads : KnowledgeBase_load = Some shipped.
Proof. by vm_compute. Qed.

(* ------------------------------------------------------------------ *)
(** ** What an event can be told *)

(** The conditions [interpretation_matches] knows. *)
Definition conditions : list string :=
  ["ret == 0"; "ret == -111"; "ret == -110"; "ret == -113"; "ret == -101"; "ret != 0";
   "SYN_SENT (2)"; "ESTABLISHED (1)"; "CLOSE_WAIT (7)"].

Definition reachable (i : Interpretation) : bool := existsb (contains (in_pattern i)) conditions.

#[local] Arguments contains : simpl never.

(** An event that meets a condition. *)
Definition meets (condition : string) : EventFields :=
  if String.eqb condition "ret == 0" then mkEventFields (Some 0) None
  else if String.eqb condition "ret == -111" then mkEventFields (Some (-111)) None
  else if String.eqb condition "ret == -110" then mkEventFields (Some (-110)) None
  else if String.eqb condition "ret == -113" then mkEventFields (Some (-113)) None
  else if String.eqb condition "ret == -101" then mkEventFields (Some (-101)) None
  else if String.eqb condition "ret != 0" then mkEventFields (Some 1) None
  else if String.eqb condition "SYN_SENT (2)" then mkEventFields None (Some 2)
  else if String.eqb condition "ESTABLISHED (1)" then mkEventFields None (Some 1)
  else mkEventFields None (Some 7).

(** Which interpretations an event can ever be given. An interpretation matches some event if and
    only if its pattern contains one of nine conditions, whatever else it says; one whose pattern
    has none of them is never given, whatever the event. *)
Theorem interpretation_reachable i :
  (exists fields, interpretation_matches i fields = true) <-> reachable i = true.
Proof.
  split.
  - intros [[ret state] Hm]. destruct (reachable i) eqn:Hr; [done|]. unfold reachable, conditions in Hr. cbn [existsb] in Hr.
    rewrite !orb_false_iff in Hr. destruct Hr as (H1 & H2 & H3 & H4 & H5 & H6 & H7 & H8 & H9 & _).
    unfold interpretation_matches, ret_matches, state_matches in Hm. rewrite H1, H2, H3, H4, H5, H6, H7, H8, H9 in Hm.
    by destruct ret, state.
  - unfold reachable. rewrite existsb_exists. intros (c & Hin & Hc). exists (meets c).
    unfold interpretation_matches, ret_matches, state_matches.
    unfold conditions in Hin. repeat (destruct Hin as [<- | Hin]; [rewrite Hc; cbn; rewrite ?andb_true_r, ?andb_false_r, ?orb_true_r; try done|..]).
    done.
Qed.

(** The advice of the shipped documents, by function and pattern. *)
Definition advice (kb : KnowledgeBase) : list (string * Interpretation) :=
  concat (map (fun p => map (fun i => (pk_function p, i)) (pk_interpretations p)) (all_probes kb)).

Definition never_given (kb : KnowledgeBase) : list (string * string) :=
  map (fun a => (a.1, in_pattern a.2)) (List.filter (fun a => negb (reachable a.2)) (advice kb)).

(** Of the 43 interpretations shipped, 27 are never given to any event. Two of them name the very value
    they are for: an open refused with EACCES and an exit by SIGKILL are explained by nothing. *)
Theorem advice_never_given :
  length (advice shipped) = 43%nat /\ length (never_given shipped) = 27%nat /\
  ("security_file_open", "ret == -13 (EACCES)") ∈ never_given shipped /\
  ("do_exit", "exit_code == 137 (128 + SIGKILL)") ∈ never_given shipped /\
  forall fields, explain "security_file_open" fields shipped = [] /\ explain "do_exit" fields shipped = [].
Proof.
  split_and!; [by vm_compute|by vm_compute| | |].
  1, 2: apply (bool_decide_unpack _); by vm_compute.
  intros [[ret|] [state|]]; split; reflexivity.
Qed.

(** One refused connection is explained as a high rate of them: a pattern's condition on the return
    value is all that is looked at. *)
Theorem one_failure_reads_as_many ret :
  ret <> 0 ->
  "high rate of ret != 0 to same dst_ip:dst_port" ∈ map in_pattern (explain "tcp_connect" (mkEventFields (Some ret) None) shipped).
Proof.
  intros Hr. change (explain "tcp_connect" ?f shipped) with (List.filter (fun i => interpretation_matches i f) (default [] (pk_interpretations <$> get_probe "tcp_connect" shipped))).
  assert (existsb (fun i => bool_decide (in_pattern i = "high rate of ret != 0 to same dst_ip:dst_port"))
            (default [] (pk_interpretations <$> get_probe "tcp_connect" shipped)) = true) as Hex by (by vm_compute).
  apply existsb_exists in Hex as (i & Hi & Ep). apply bool_decide_eq_true in Ep.
  rewrite <- Ep. apply (list_elem_of_fmap_2 in_pattern). apply list_elem_of_In, filter_In. split; [exact Hi|].
  unfold interpretation_matches. cbn [ef_ret ef_tcp_state]. rewrite orb_false_r, Ep. unfold ret_matches.
  apply Z.eqb_neq in Hr. rewrite Hr. vm_compute. by rewrite ?orb_true_r.
Qed.

(** What the documents say of the functions with a program of their own is what those programs
    report. *)
Theorem documents_agree_with_probes :
  Forall (fun p => forall b, pre_compiled (pk_function p) = Some b -> pk_event_type p = pb_occurrence_type (builtin b)) (all_probes shipped) /\
  forall b, b <> PFileOpenAttempt -> exists p, p ∈ all_probes shipped /\ pre_compiled (pk_function p) = Some b.
Proof.
  split.
  - apply Forall_forall. intros p Hp b Hb.
    assert (forallb (fun p => match pre_compiled (pk_function p) with
                              | Some b => bool_decide (pk_event_type p = pb_occurrence_type (builtin b)) | None => true end)
              (all_probes shipped) = true) as Hall by (by vm_compute).
    rewrite forallb_forall in Hall. specialize (Hall p (proj1 (list_elem_of_In _ _) Hp)). rewrite Hb in Hall.
    by apply bool_decide_eq_true in Hall.
  - assert (forall f b, f ∈ all_functions shipped -> pre_compiled f = Some b ->
              exists p, p ∈ all_probes shipped /\ pre_compiled (pk_function p) = Some b) as Hex.
    { intros f b Hf Hb. apply list_elem_of_fmap in Hf as (p & -> & Hp). by exists p. }
    assert (forall f, bool_decide (f ∈ all_functions shipped) = true -> f ∈ all_functions shipped) as Hin
      by (intros f; apply bool_decide_eq_true).
    intros [] Hne; try done.
    + apply (Hex "sched_process_exec"); [apply Hin|]; by vm_compute.
    + apply (Hex "security_file_open"); [apply Hin|]; by vm_compute.
    + apply (Hex "tcp_connect"); [apply Hin|]; by vm_compute.
    + apply (Hex "tcp_close"); [apply Hin|]; by vm_compute.
    + apply (Hex "tcp_retransmit_skb"); [apply Hin|]; by vm_compute.
Qed.

(** The return values the daemon tells from the error code of an occurrence. *)
Definition EXPLAINED_RETS : list Z := [-111; -110; -113; -101].

(** No number is printed as the letters after the first of an errno name. *)
Lemma number_is_no_name n s : parse_digits s 0 = None -> strip_prefix "-" s = None -> "E" +:+ dec n <> "E" +:+ s.
Proof.
  intros Hd Hs [= E]. change (dec n = s) in E. destruct (decide (0 <= n)) as [Hn|Hn].
  - pose proof (dec_digits n Hn) as Hp. rewrite E in Hp. congruence.
  - destruct n as [|p|p]; [lia|lia|]. rewrite <- E in Hs.
    change (dec (Z.neg p)) with ("-" +:+ pretty (Npos p)) in Hs. by rewrite strip_prefix_app in Hs.
Qed.

(** The return value of a connection, as it is read back from the name its error is given. *)
Lemma connect_ret id now cluster e :
  i32_ok (tc_ret e) ->
  ef_ret (extract_event_fields (tcp_connect_to_occurrence id now e cluster)) =
    if bool_decide (tc_ret e ∈ EXPLAINED_RETS) then Some (tc_ret e) else None.
Proof.
  intros Hr. unfold extract_event_fields, tcp_connect_to_occurrence. cbn [ef_ret].
  destruct (Z.eqb_spec (tc_ret e) 0) as [E0|Hne]; cbn; [by rewrite E0|].
  destruct (decide (tc_ret e ∈ EXPLAINED_RETS)) as [Hin|Hout].
  - rewrite (bool_decide_true (tc_ret e ∈ _)) by done. unfold EXPLAINED_RETS in Hin. rewrite !elem_of_cons, elem_of_nil in Hin.
    by destruct Hin as [E|[E|[E|[E|[]]]]]; rewrite E; vm_compute.
  - rewrite (bool_decide_false (tc_ret e ∈ _)) by done.
    assert (forall n, n ∈ [111; 110; 113; 101] -> wrap_signed 32 (- tc_ret e) <> n) as Hn.
    { intros n Hin E. apply Hout. unfold EXPLAINED_RETS. unfold i32_ok in Hr.
      destruct (decide (tc_ret e = - 2 ^ 31)) as [Em|Hm]; [rewrite Em in E; vm_compute in E|rewrite wrap_signed_small in E by lia];
        rewrite !elem_of_cons, elem_of_nil in *; lia. }
    destruct (errno_name_cases (tc_ret e)) as [Hc|Hc]; cbv zeta in Hc.
    + revert Hn Hc. generalize (wrap_signed 32 (- tc_ret e)), (errno_name (tc_ret e)). intros n name Hn Hc. unfold ERRNO_NAMES in Hc.
      rewrite !elem_of_cons, elem_of_nil in Hc.
      repeat (destruct Hc as [[= -> ->] | Hc]; [first [by vm_compute|exfalso; eapply Hn; [|reflexivity]; apply (bool_decide_unpack _); by vm_compute]|]).
      done.
    + rewrite Hc. rewrite !bool_decide_false; [done|..]; apply number_is_no_name; done.
Qed.

Lemma connect_state id now cluster e : ef_tcp_state (extract_event_fields (tcp_connect_to_occurrence id now e cluster)) = None.
Proof. unfold extract_event_fields, tcp_connect_to_occurrence. by destruct (negb (tc_ret e =? 0)). Qed.

(** What the shipped documents tell of an event, by its patterns. *)
Definition explained (k : KernelEvent) : list string :=
  match k with
  | TcpConnect e =>
      if bool_decide (tc_ret e ∈ EXPLAINED_RETS)
      then ["ret == " +:+ dec (tc_ret e); "high rate of ret != 0 to same dst_ip:dst_port"] else []
  | _ => []
  end.

(** The documents have no advice for the other probes, by the names they go by. *)
Lemma explains_nothing function fields :
  function ∈ ["process_exec"; "file_open"; "file_open_attempt"; "tcp_close"; "tcp_retransmit"] -> explain function fields shipped = [].
Proof.
  rewrite !elem_of_cons, elem_of_nil. intros [-> | [-> | [-> | [-> | [-> | []]]]]]; destruct fields as [[ret|] [state|]]; reflexivity.
Qed.

(** C36: what the daemon ever explains of its own probes' events, exactly. With the shipped documents,
    the interpretations an event of a builtin probe is given are these: a connection that ended in
    ECONNREFUSED, ETIMEDOUT, EHOSTUNREACH or ENETUNREACH gets the one of that very return value and
    the one for a high rate of failures. A connection that succeeded, or failed in any other way, and
    every retransmit, open, exec and close, gets none, whatever the documents say of them. *)
Theorem daemon_explains p raw k id now cluster :
  decode_event p raw = Ok k ->
  map in_pattern (interpretations shipped (to_occurrence id now k cluster)) = explained k.
Proof.
  intros Hk. destruct (to_occurrence_frame id now cluster p raw k Hk) as (Hs & _).
  pose proof (decode_event_ok _ _ _ Hk) as Hok.
  assert (source_function (to_occurrence id now k cluster) = pb_name (builtin p)) as E
    by (unfold source_function; by rewrite Hs, strip_prefix_app).
  unfold interpretations. rewrite E. clear E Hs. unfold decode_event in Hk.
  destruct p; apply result_bind_ok in Hk as (e & _ & [= <-]);
    try (rewrite explains_nothing; [done|apply (bool_decide_unpack _); by vm_compute]).
  destruct Hok as (_ & _ & Hr). cbn [to_occurrence]. pose proof (connect_ret id now cluster e Hr) as Eret.
  pose proof (connect_state id now cluster e) as Estate.
  destruct (extract_event_fields _) as [ret state]. cbn in Eret, Estate. subst ret state. cbn [explained].
  destruct (decide (tc_ret e ∈ EXPLAINED_RETS)) as [Hin|Hout]; [|by rewrite bool_decide_false].
  rewrite bool_decide_true by done. unfold EXPLAINED_RETS in Hin. rewrite !elem_of_cons, elem_of_nil in Hin.
  by destruct Hin as [-> | [-> | [-> | [-> | []]]]]; vm_compute.
Qed.

(** A connection to 10.0.0.2:5432, refused. *)
Definition w_address (host : Z) : list byte := map byte_of_Z [10; 0; 0; host] ++ repeat x00 12.
Definition w_refused_connect : list byte :=
  raw_bytes (fun _ => x00)
    (RawConnect (mkRawTcpConnect 123 456 457 (w_address 1) (w_address 2) 40000 5432 2 0 (-111) 42 (w_comm "curl") 7 0)).

Lemma daemon_explains_witness :
  exists k, decode_event PTcpConnect w_refused_connect = Ok k /\
    map in_pattern (interpretations shipped (to_occurrence "01J" 5 k "prod")) =
      ["ret == -111"; "high rate of ret != 0 to same dst_ip:dst_port"].
Proof.
  destruct (decode_event PTcpConnect w_refused_connect) as [k|e] eqn:Hk; [|by vm_compute in Hk].
  exists k. split; [done|]. rewrite (daemon_explains PTcpConnect w_refused_connect k "01J" 5 "prod" Hk).
  vm_compute in Hk. by injection Hk as <-.
Defined.
