(* ===== verification/Sdk.v ===== *)
(** The SDK's source of truth ([jalki-sdk-meta/src]): the types of the compact event, the constants of the
    wire, the generators that write both for a language, and the conformance cases every SDK is held
    to; and that all of it is what the daemon does.

    Version 0.1.0, the workspace's. *)
From Stdlib Require Import Strings.Byte.
From stdpp Require Import base gmap list strings.
From S2P Require Import Prelude Text Float Protocol Evidence Event Normalize Store Knowledge Registry Daemon Ipc IpcJson KnowledgeFiles Shipped.

(* ------------------------------------------------------------------ *)
(** ** The wire ([protocol.rs]) *)

Inductive MsgType := Request | Response | StreamStart | StreamEvent | StreamEnd | Error | Ping | Pong.
Definition msg_type_code (m : MsgType) : Z :=
  match m with
  | Request => 1 | Response => 2 | StreamStart => 3 | StreamEvent => 4 | StreamEnd => 5 | Error => 6 | Ping => 7 | Pong => 8
  end.

Inductive Method := Find | Deploy | Subscribe | Unsubscribe | Status | Ask | GetEvents | Detach.
Definition method_code (m : Method) : Z :=
  match m with
  | Find => 1 | Deploy => 2 | Subscribe => 3 | Unsubscribe => 4 | Status => 5 | Ask => 6 | GetEvents => 7 | Detach => 8
  end.

Definition FLAGS_COMPRESSED : Z := 1.
Definition FLAGS_INTERPRETED : Z := 2.
Definition FLAGS_FULL_PROTOCOL : Z := 4.

Definition FRAME_HEADER_LEN : Z := 6.
Definition FRAME_MAX_LEN : Z := 1024 * 1024.

Definition POS_ID : nat := 0.
Definition POS_PROBE_IDX : nat := 1.
Definition POS_TS : nat := 2.
Definition POS_SEVERITY : nat := 3.
Definition POS_OUTCOME : nat := 4.
Definition POS_NET_SRC : nat := 5.
Definition POS_NET_DST : nat := 6.
Definition POS_PROTO : nat := 7.
Definition POS_PID : nat := 8.
Definition POS_CMD : nat := 9.
Definition POS_LABELS : nat := 10.
Definition POS_INTERP : nat := 11.

Definition KEEPALIVE_INTERVAL_SECS : Z := 30.
Definition KEEPALIVE_TIMEOUT_SECS : Z := 5.
Definition REQUEST_TIMEOUT_SECS : Z := 30.
Definition RECONNECT_BASE_MS : Z := 100.
Definition RECONNECT_MAX_MS : Z := 5000.

(* ------------------------------------------------------------------ *)
(** ** Types ([types.rs]) *)

Inductive Severity := Info | Warning | ErrorSeverity | Critical | Debug.
Definition severity_repr (s : Severity) : Z := match s with Info => 0 | Warning => 1 | ErrorSeverity => 2 | Critical => 3 | Debug => 4 end.

Inductive Outcome := Success | Failure | Unknown | Timeout | InProgress.
Definition outcome_repr (o : Outcome) : Z := match o with Success => 0 | Failure => 1 | Unknown => 2 | Timeout => 3 | InProgress => 4 end.

Inductive Proto := Tcp | Udp.
Definition proto_repr (p : Proto) : Z := match p with Tcp => 0 | Udp => 1 end.

Record NetData := mkNetData { nd_src : string; nd_dst : string; nd_proto : Proto }.
Record ProcData := mkProcData { pr_pid : Z; pr_cmd : string }.
Record Interp := mkInterp { ip_conclusion : string; ip_action : string }.

(** [labels] is what the labels are kept as: a map of texts, as declared, or what a client without types
    makes of them. *)
Record Sdk_Event (labels : Type) := mkSdk_Event {
  ev_id : string;
  ev_ts : Z;
  ev_probe : string;
  ev_severity : Severity;
  ev_outcome : Outcome;
  ev_net : option NetData;
  ev_proc : option ProcData;
  ev_labels : option labels;
  ev_interp : option Interp
}.
#[global] Arguments mkSdk_Event {labels}.
#[global] Arguments ev_id {labels}.
#[global] Arguments ev_ts {labels}.
#[global] Arguments ev_probe {labels}.
#[global] Arguments ev_severity {labels}.
#[global] Arguments ev_outcome {labels}.
#[global] Arguments ev_net {labels}.
#[global] Arguments ev_proc {labels}.
#[global] Arguments ev_labels {labels}.
#[global] Arguments ev_interp {labels}.

(** The enumeration value a code stands for. *)
Definition of_repr {A} (repr : A -> Z) (all : list A) (z : Z) : option A := find_first (fun a => repr a =? z) all.
Definition sdk_severity_of : Z -> option Severity := of_repr severity_repr [Info; Warning; ErrorSeverity; Critical; Debug].
Definition sdk_outcome_of : Z -> option Outcome := of_repr outcome_repr [Success; Failure; Unknown; Timeout; InProgress].
Definition proto_of : Z -> option Proto := of_repr proto_repr [Tcp; Udp].

(* ------------------------------------------------------------------ *)
(** ** A client of the wire ([_decode_stream_event] of the Python SDK)

    What it is given is unpacked MessagePack: nil is [None], an array a list, a map a dict, an extension
    a pair, a text a [str]. Every exception is [None]. *)
Section client.
(** [str(v)] and [int(v)]. *)
Variable py_str : Value -> string.
Variable py_int : Value -> option Z.

Definition truthy (v : Value) : bool :=
  match v with
  | VNil => false
  | VBoolean b => b
  | VInteger z => negb (z =? 0)
  | VF32 f | VF64 f => match f_compare f f_zero with Some Eq => false | _ => true end
  | VString bs | VBinary bs => negb (bool_decide (bs = []))
  | VArray l => match l with [] => false | _ => true end
  | VMap l => match l with [] => false | _ => true end
  | VExt _ _ => true
  end.

(** [str(v) if v else ""] *)
Definition text_or_empty (v : Value) : string := if truthy v then py_str v else "".

(** [f(v) if v is not None else d] *)
Definition unless_none {A} (v : Value) (d : A) (f : Value -> option A) : option A :=
  match v with VNil => Some d | _ => f v end.

(** [l[i]] *)
Definition py_index {A} (l : list A) (i : Z) : option A :=
  if 0 <=? i then l !! Z.to_nat i else if - zlen l <=? i then l !! Z.to_nat (zlen l + i) else None.

(** A list or a tuple. *)
Definition elements (v : Value) : option (list Value) :=
  match v with
  | VArray l => Some l
  | VExt tag bs => if tag =? -1 then None else Some [VInteger tag; VBinary bs]
  | _ => None
  end.

Definition is_none (v : Value) : bool := match v with VNil => true | _ => false end.

Definition net_of (net_src net_dst proto_val : Value) : option (option NetData) :=
  if is_none net_src && is_none net_dst then Some None
  else proto ← unless_none proto_val Tcp (fun v => py_int v ≫= proto_of);
       Some (Some (mkNetData (text_or_empty net_src) (text_or_empty net_dst) proto)).

Definition proc_of (pid_val cmd_val : Value) : option (option ProcData) :=
  unless_none pid_val None (fun v => pid ← py_int v; Some (Some (mkProcData pid (text_or_empty cmd_val)))).

Definition interp_of (interp_val : Value) : option Interp :=
  match elements interp_val with
  | Some (conclusion :: action :: _) => Some (mkInterp (py_str conclusion) (py_str action))
  | _ => None
  end.

Definition decode_stream_event (probe_names : list string) (raw : list Value) : option (Sdk_Event (list (Value * Value))) :=
  let _get idx := default VNil (raw !! idx) in
  probe ← unless_none (_get POS_PROBE_IDX) "unknown" (fun v =>
    i ← py_int v; if i <? zlen probe_names then py_index probe_names i else Some "unknown");
  net ← net_of (_get POS_NET_SRC) (_get POS_NET_DST) (_get POS_PROTO);
  proc ← proc_of (_get POS_PID) (_get POS_CMD);
  severity ← unless_none (_get POS_SEVERITY) Info (fun v => py_int v ≫= sdk_severity_of);
  outcome ← unless_none (_get POS_OUTCOME) Unknown (fun v => py_int v ≫= sdk_outcome_of);
  ts ← (if truthy (_get POS_TS) then py_int (_get POS_TS) else Some 0);
  Some {| ev_id := text_or_empty (_get POS_ID);
          ev_ts := ts;
          ev_probe := probe;
          ev_severity := severity;
          ev_outcome := outcome;
          ev_net := net;
          ev_proc := proc;
          ev_labels := match _get POS_LABELS with VMap l => Some l | _ => None end;
          ev_interp := interp_of (_get POS_INTERP) |}.
End client.

(* ------------------------------------------------------------------ *)
(** ** Streamed events read back *)

Definition sdk_severity (s : Protocol.Severity) : Severity :=
  match s with SevInfo => Info | SevWarning => Warning | SevError => ErrorSeverity | SevCritical => Critical | SevDebug => Debug end.
Definition sdk_outcome (o : option Protocol.Outcome) : Outcome :=
  match o with
  | Some OutSuccess => Success | Some OutFailure => Failure | Some OutTimeout => Timeout | Some OutInProgress => InProgress
  | Some OutUnknown | None => Unknown
  end.

(** What the SDK is to see of an occurrence. *)
Definition compact_event (probe : string) (proto : NetworkEventData -> Proto) (interp : option Interpretation) (occ : Occurrence) : Sdk_Event (gmap string string) :=
  {| ev_id := occ_id occ;
     ev_ts := ts_ns (occ_timestamp occ);
     ev_probe := probe;
     ev_severity := sdk_severity (occ_severity occ);
     ev_outcome := sdk_outcome (occ_outcome occ);
     ev_net := (fun n => mkNetData (endpoint (net_src_ip n) (net_src_port n)) (endpoint (net_dst_ip n) (net_dst_port n)) (proto n))
                 <$> occ_network_data occ;
     ev_proc := (fun p => mkProcData (proc_pid p) (proc_command p)) <$> occ_process_data occ;
     ev_labels := if bool_decide (occ_labels occ = ∅) then None else Some (occ_labels occ);
     ev_interp := (fun i => mkInterp (in_conclusion i) (in_action i)) <$> interp |}.

Definition stream_proto (n : NetworkEventData) : Proto := if bool_decide (net_protocol n = "tcp") then Tcp else Udp.

(** The event with its labels as they are declared, when they are texts. *)
Definition text_of (v : Value) : option string := match v with VString bs => Some (string_of bs) | _ => None end.
Definition labels_of (l : list (Value * Value)) : option (gmap string string) :=
  list_to_map <$> mapM (fun kv : Value * Value => k ← text_of kv.1; x ← text_of kv.2; Some (k, x)) l.
Definition typed (e : Sdk_Event (list (Value * Value))) : option (Sdk_Event (gmap string string)) :=
  labels ← match ev_labels e with None => Some None | Some l => Some <$> labels_of l end;
  Some (mkSdk_Event (ev_id e) (ev_ts e) (ev_probe e) (ev_severity e) (ev_outcome e) (ev_net e) (ev_proc e)
          labels (ev_interp e)).

Lemma text_of_str s : text_of (msgpack_str s) = Some s.
Proof. unfold text_of, msgpack_str. by rewrite string_of_bytes_of. Qed.

Lemma labels_read labels :
  labels_of (map (fun kv : string * string => (msgpack_str kv.1, msgpack_str kv.2)) (map_to_list labels)) = Some labels.
Proof.
  unfold labels_of.
  assert (mapM (fun kv : Value * Value => k ← text_of kv.1; x ← text_of kv.2; Some (k, x))
            (map (fun kv : string * string => (msgpack_str kv.1, msgpack_str kv.2)) (map_to_list labels)) = Some (map_to_list labels)) as ->.
  { generalize (map_to_list labels) as l. induction l as [|[k x] l IH]; [done|]. cbn [map mapM fst snd].
    rewrite !text_of_str. cbn [mbind option_bind]. by rewrite IH. }
  cbn. by rewrite list_to_map_to_list.
Qed.

(** [str] of a text is the text, [int] of an integer the integer. *)
Section read.
Variable py_str : Value -> string.
Variable py_int : Value -> option Z.
Hypothesis py_str_text : forall bs, py_str (VString bs) = string_of bs.
Hypothesis py_int_integer : forall z, py_int (VInteger z) = Some z.

Lemma text_or_empty_text s : text_or_empty py_str (msgpack_str s) = s.
Proof.
  unfold text_or_empty, msgpack_str, truthy. rewrite py_str_text, string_of_bytes_of. case_bool_decide as E; [|done].
  by rewrite <- (string_of_bytes_of s), E.
Qed.

Lemma integer_or_zero z : (if truthy (VInteger z) then py_int (VInteger z) else Some 0) = Some z.
Proof. cbn. destruct (z =? 0) eqn:E; cbn; [|done]. apply Z.eqb_eq in E. by rewrite E. Qed.

Lemma net_read (net : option NetworkEventData) :
  net_of py_str py_int (opt_value (fun n => msgpack_str (endpoint (net_src_ip n) (net_src_port n))) net)
    (opt_value (fun n => msgpack_str (endpoint (net_dst_ip n) (net_dst_port n))) net)
    (opt_value (fun n => VInteger (if bool_decide (net_protocol n = "tcp") then 0 else 1)) net) =
  Some ((fun n => mkNetData (endpoint (net_src_ip n) (net_src_port n)) (endpoint (net_dst_ip n) (net_dst_port n)) (stream_proto n)) <$> net).
Proof.
  destruct net as [n|]; [|done]. unfold net_of, stream_proto. cbn [opt_value].
  change (is_none (msgpack_str ?s)) with false. cbn [andb unless_none]. rewrite py_int_integer, !text_or_empty_text.
  cbn [fmap option_fmap option_map]. by destruct (bool_decide (net_protocol n = "tcp")).
Qed.

Lemma proc_read (process : option ProcessEventData) :
  proc_of py_str py_int (opt_value (fun p => VInteger (proc_pid p)) process) (opt_value (fun p => msgpack_str (proc_command p)) process) =
  Some ((fun p => mkProcData (proc_pid p) (proc_command p)) <$> process).
Proof.
  destruct process as [p|]; [|done]. unfold proc_of. cbn [opt_value unless_none]. by rewrite py_int_integer, text_or_empty_text.
Qed.

Lemma interp_read (interp : option Interpretation) :
  interp_of py_str (opt_value interp_value interp) = (fun i => mkInterp (in_conclusion i) (in_action i)) <$> interp.
Proof.
  destruct interp as [i|]; [|done]. unfold interp_of, interp_value, msgpack_str. cbn [opt_value elements].
  by rewrite !py_str_text, !string_of_bytes_of.
Qed.

Lemma severity_read s : sdk_severity_of (severity_code s) = Some (sdk_severity s).
Proof. by destruct s. Qed.

Lemma outcome_read o : sdk_outcome_of (outcome_code o) = Some (sdk_outcome o).
Proof. by destruct o as [[]|]. Qed.

(** C35: a client sees the event the daemon streams. From the values of a streamed event the Python SDK
    makes an event with its identifier, its time, the name of its probe, its severity and outcome, the
    endpoints, the process, all its labels and the interpretation, each present exactly when the
    event has it. *)
Theorem stream_event_read name occ interp raw :
  event_value occ 0 (fun n => if bool_decide (net_protocol n = "tcp") then 0 else 1) interp = VArray raw ->
  decode_stream_event py_str py_int [name] raw ≫= typed = Some (compact_event name stream_proto interp occ).
Proof.
  intros [= <-]. unfold decode_stream_event, POS_ID, POS_PROBE_IDX, POS_TS, POS_SEVERITY, POS_OUTCOME, POS_NET_SRC,
    POS_NET_DST, POS_PROTO, POS_PID, POS_CMD, POS_LABELS, POS_INTERP.
  cbn [lookup list_lookup default from_option id unless_none].
  rewrite integer_or_zero, text_or_empty_text, net_read, proc_read, interp_read, !py_int_integer.
  cbn [mbind option_bind]. rewrite severity_read, outcome_read. cbn [mbind option_bind].
  change (if 0 <? zlen [name] then py_index [name] 0 else Some "unknown") with (Some name). cbn [mbind option_bind].
  unfold typed, compact_event, labels_value. cbn [ev_labels ev_id ev_ts ev_probe ev_severity ev_outcome ev_net ev_proc ev_interp].
  case_bool_decide; [done|]. cbn iota. rewrite labels_read. done.
Qed.
End read.

(* ------------------------------------------------------------------ *)
(** ** Generated code ([codegen])

    Double quotes are written as backquotes, of which the texts have none. *)

Definition quoted (s : string) : string := replace "`" (String (Ascii.ascii_of_N 34) "") s.

Definition CARGO_PKG_VERSION : string := "0.1.0".

Class CodegenTarget := {
  language : string;
  generate_types : string;
  generate_protocol : string;
  types_filename : string;
  protocol_filename : string
}.

Definition python_types : string :=
  quoted "# GENERATED by jalki-sdk-meta v"
    +:+ CARGO_PKG_VERSION +:+
  quoted ". DO NOT EDIT.
#
# Canonical type definitions for the jälki Python SDK.
# Change jalki-sdk-meta/src/types.rs, regenerate, commit.

from __future__ import annotations

from dataclasses import dataclass, field
from enum import IntEnum, StrEnum
from typing import Optional


class Severity(IntEnum):
    # DEBUG is appended, not inserted before INFO: values 0-3 are the wire
    # contract (POS_SEVERITY), so renumbering would break existing clients.
    INFO = 0
    WARNING = 1
    ERROR = 2
    CRITICAL = 3
    DEBUG = 4


class Outcome(IntEnum):
    # TIMEOUT/IN_PROGRESS appended after UNKNOWN for wire stability.
    SUCCESS = 0
    FAILURE = 1
    UNKNOWN = 2
    TIMEOUT = 3
    IN_PROGRESS = 4


class Proto(IntEnum):
    TCP = 0
    UDP = 1


class Attachment(StrEnum):
    # Lowercase string values match Rust's serde rename_all = `lowercase`.
    FENTRY = `fentry`
    FEXIT = `fexit`


@dataclass
class NetData:
    ```Network data — combined ip:port strings for minimal token cost.```

    src: str
    dst: str
    proto: Proto


@dataclass
class ProcData:
    ```Process data.```

    pid: int
    cmd: str


@dataclass
class Interpretation:
    ```KB interpretation of an event.```

    conclusion: str
    action: str


@dataclass
class EventFilter:
    ```Filter applied server-side — events not matching never cross the wire.```

    src_ip: Optional[str] = None
    dst_ip: Optional[str] = None
    src_port: Optional[int] = None
    dst_port: Optional[int] = None
    pid: Optional[int] = None
    command: Optional[str] = None
    last_seconds: Optional[int] = None
    limit: Optional[int] = None


@dataclass
class FieldInfo:
    ```A field in a probe's event.```

    name: str
    meaning: str
    important: bool


@dataclass
class ProbeMatch:
    ```Result from find() — a matching probe from the knowledge base.```

    function: str
    attachment: str
    event_type: str
    why: str
    fields: list[FieldInfo]
    combine_with: list[str]


@dataclass
class ProbeHandle:
    ```Handle to a deployed probe, used for streaming.```

    probe_id: str
    function: str


@dataclass
class Event:
    ```Compact SDK event — NOT a full FALSE Protocol Occurrence.```

    id: str
    ts: int
    probe: str
    severity: Severity
    outcome: Outcome
    net: Optional[NetData] = None
    proc: Optional[ProcData] = None
    labels: Optional[dict[str, str]] = None
    interp: Optional[Interpretation] = None
    _client: object = field(default=None, repr=False)

    async def full(self) -> dict:
        ```Lazy fetch of full FALSE Protocol Occurrence. Call only when needed.```
        if self._client is None:
            raise RuntimeError(`no client — event was not received via stream`)
        return await self._client._fetch_full(self.id)


@dataclass
class AskResult:
    ```Result from ask() — interpretation + collected events.```

    interpretation: str
    severity: Severity
    action: str
    events: list[Event]
    probes_used: list[str]
    kb_only: bool = False


@dataclass
class AskOptions:
    ```Options for ask().```

    collect_seconds: Optional[int] = None
    max_events: Optional[int] = None
    filter: Optional[EventFilter] = None


@dataclass
class DeployOptions:
    ```Options for deploy().```

    sample_rate: Optional[float] = None
    filter: Optional[EventFilter] = None


@dataclass
class StreamOptions:
    ```Options for stream().```

    filter: Optional[EventFilter] = None
    interpreted: Optional[bool] = None
".

Definition python_protocol : string :=
  quoted "# GENERATED by jalki-sdk-meta v"
    +:+ CARGO_PKG_VERSION +:+
  quoted ". DO NOT EDIT.
#
# Wire protocol constants for the jälki Python SDK.
# Change jalki-sdk-meta/src/protocol.rs, regenerate, commit.

from enum import IntEnum


class MsgType(IntEnum):
    ```Wire message types.```

    REQUEST = 0x01
    RESPONSE = 0x02
    STREAM_START = 0x03
    STREAM_EVENT = 0x04
    STREAM_END = 0x05
    ERROR = 0x06
    PING = 0x07
    PONG = 0x08


class Method(IntEnum):
    ```RPC methods.```

    FIND = 0x01
    DEPLOY = 0x02
    SUBSCRIBE = 0x03
    UNSUBSCRIBE = 0x04
    STATUS = 0x05
    ASK = 0x06
    GET_EVENTS = 0x07
    DETACH = 0x08


class Flags:
    ```Frame flags.```

    COMPRESSED: int = 0x01
    INTERPRETED: int = 0x02
    FULL_PROTOCOL: int = 0x04


# Frame layout:
# [frame_len: u32 big-endian][msg_type: u8][flags: u8][payload: msgpack]
# frame_len includes msg_type and flags bytes.
FRAME_HEADER_LEN: int = 6  # 4 (len) + 1 (type) + 1 (flags)
FRAME_MAX_LEN: int = 1024 * 1024  # 1MB

# STREAM_EVENT wire positions (positional MessagePack array).
# No field names on wire — SDK maps positions to struct fields.
POS_ID: int = 0  # str (ULID)
POS_PROBE_IDX: int = 1  # u8 — index into probe name table from STREAM_START
POS_TS: int = 2  # u64 nanoseconds
POS_SEVERITY: int = 3  # u8 (Severity enum)
POS_OUTCOME: int = 4  # u8 (Outcome enum)
POS_NET_SRC: int = 5  # str|nil `ip:port`
POS_NET_DST: int = 6  # str|nil `ip:port`
POS_PROTO: int = 7  # u8|nil (Proto enum)
POS_PID: int = 8  # u32|nil
POS_CMD: int = 9  # str|nil
POS_LABELS: int = 10  # map|nil
POS_INTERP: int = 11  # [str, str]|nil — [conclusion, action]

# Timing constants.
KEEPALIVE_INTERVAL_SECS: int = 30
KEEPALIVE_TIMEOUT_SECS: int = 5
REQUEST_TIMEOUT_SECS: int = 30
RECONNECT_BASE_MS: int = 100
RECONNECT_MAX_MS: int = 5000
".

Definition PythonTarget : CodegenTarget := {|
  language := "python";
  generate_types := python_types;
  generate_protocol := python_protocol;
  types_filename := "types.py";
  protocol_filename := "protocol.py"
|}.

Definition GoTarget : CodegenTarget := {|
  language := "go";
  generate_types := "// GENERATED STUB — jalki-sdk-meta Go codegen not yet implemented
package jalki
";
  generate_protocol := "// GENERATED STUB — jalki-sdk-meta Go codegen not yet implemented
package jalki
";
  types_filename := "types.go";
  protocol_filename := "protocol.go"
|}.

Definition ElixirTarget : CodegenTarget := {|
  language := "elixir";
  generate_types := "# GENERATED STUB — jalki-sdk-meta Elixir codegen not yet implemented
";
  generate_protocol := "# GENERATED STUB — jalki-sdk-meta Elixir codegen not yet implemented
";
  types_filename := "types.ex";
  protocol_filename := "protocol.ex"
|}.

Definition TypescriptTarget : CodegenTarget := {|
  language := "typescript";
  generate_types := "// GENERATED STUB — jalki-sdk-meta TypeScript codegen not yet implemented
";
  generate_protocol := "// GENERATED STUB — jalki-sdk-meta TypeScript codegen not yet implemented
";
  types_filename := "types.ts";
  protocol_filename := "protocol.ts"
|}.


(** [CodegenTarget::write] and [main]: the directory, then the two files. *)
Section write.
Context {Fs : Type}.
Variable create_dir_all : Fs -> result string Fs.
Variable fs_write : string -> string -> Fs -> result string Fs.

Definition write (target : CodegenTarget) (fs : Fs) : result string Fs :=
  fs <-? fs_write types_filename generate_types fs ;;
  fs_write protocol_filename generate_protocol fs.

Definition target_of (lang : string) : option CodegenTarget :=
  if bool_decide (lang = "python") then Some PythonTarget
  else if bool_decide (lang = "go") then Some GoTarget
  else if bool_decide (lang = "elixir") then Some ElixirTarget
  else if bool_decide (lang = "typescript") then Some TypescriptTarget
  else None.

Definition codegen_main (lang : string) (fs : Fs) : result string Fs :=
  match target_of lang with
  | None => Err ("unknown language: " +:+ lang)
  | Some target => fs <-? create_dir_all fs ;; write target fs
  end.
End write.

(* ------------------------------------------------------------------ *)
(** ** Reading the generated Python

    As far as the texts go: classes of assignments, and assignments at the top level. *)

Definition hex_value (s : string) : option Z :=
  foldl (fun acc c => z ← acc; d ← position (Ascii.eqb c) (chars HEX); Some (16 * z + Z.of_nat d)) (Some 0) (chars s).
Definition py_atom (s : string) : option Z :=
  match strip_prefix "0x" s with Some digits => hex_value digits | None => parse_uint 64 s end.
Definition py_int (s : string) : option Z :=
  match split_once " * " s with
  | Some (a, b) => x ← py_atom a; y ← py_atom b; Some (x * y)
  | None => py_atom s
  end.

(** [NAME = value] or [NAME: int = value], with a comment perhaps. *)
Definition assignment (line : string) : option (string * Z) :=
  match split_once " = " line with
  | None => None
  | Some (lhs, rhs) =>
      let name := match split_once ":" lhs with Some (name, _) => name | None => lhs end in
      let rhs := match split_once "  #" rhs with Some (value, _) => value | None => rhs end in
      v ← py_int rhs; Some (trim name, v)
  end.

Definition indented (line : string) : bool := starts_with line " " || bool_decide (line = "").
Fixpoint take_while_string (f : string -> bool) (l : list string) : list string :=
  match l with [] => [] | x :: rest => if f x then x :: take_while_string f rest else [] end.
Fixpoint after_line (f : string -> bool) (l : list string) : list string :=
  match l with [] => [] | x :: rest => if f x then rest else after_line f rest end.

Definition class_constants (name text : string) : list (string * Z) :=
  omap assignment (take_while_string indented (after_line (fun l => starts_with l ("class " +:+ name)) (lines text))).
Definition module_constants (text : string) : list (string * Z) :=
  omap assignment (List.filter (fun l => negb (indented l)) (lines text)).

(** No drift. The Python the generator writes has exactly the message types, methods, flags, frame
    limits, positions and times of the SDK's source of truth, and its enumerations have the source's
    numbers; and those are the daemon's: the frames, methods and flags it dispatches on, and the codes it
    writes for every severity and outcome. *)
Theorem generated_protocol_agrees :
  (class_constants "MsgType" python_protocol =
     [("REQUEST", msg_type_code Request); ("RESPONSE", msg_type_code Response); ("STREAM_START", msg_type_code StreamStart);
      ("STREAM_EVENT", msg_type_code StreamEvent); ("STREAM_END", msg_type_code StreamEnd); ("ERROR", msg_type_code Error);
      ("PING", msg_type_code Ping); ("PONG", msg_type_code Pong)] /\
   class_constants "Method" python_protocol =
     [("FIND", method_code Find); ("DEPLOY", method_code Deploy); ("SUBSCRIBE", method_code Subscribe);
      ("UNSUBSCRIBE", method_code Unsubscribe); ("STATUS", method_code Status); ("ASK", method_code Ask);
      ("GET_EVENTS", method_code GetEvents); ("DETACH", method_code Detach)] /\
   class_constants "Flags" python_protocol =
     [("COMPRESSED", FLAGS_COMPRESSED); ("INTERPRETED", FLAGS_INTERPRETED); ("FULL_PROTOCOL", FLAGS_FULL_PROTOCOL)] /\
   module_constants python_protocol =
     [("FRAME_HEADER_LEN", FRAME_HEADER_LEN); ("FRAME_MAX_LEN", FRAME_MAX_LEN); ("POS_ID", Z.of_nat POS_ID);
      ("POS_PROBE_IDX", Z.of_nat POS_PROBE_IDX); ("POS_TS", Z.of_nat POS_TS); ("POS_SEVERITY", Z.of_nat POS_SEVERITY);
      ("POS_OUTCOME", Z.of_nat POS_OUTCOME); ("POS_NET_SRC", Z.of_nat POS_NET_SRC); ("POS_NET_DST", Z.of_nat POS_NET_DST);
      ("POS_PROTO", Z.of_nat POS_PROTO); ("POS_PID", Z.of_nat POS_PID); ("POS_CMD", Z.of_nat POS_CMD);
      ("POS_LABELS", Z.of_nat POS_LABELS); ("POS_INTERP", Z.of_nat POS_INTERP);
      ("KEEPALIVE_INTERVAL_SECS", KEEPALIVE_INTERVAL_SECS); ("KEEPALIVE_TIMEOUT_SECS", KEEPALIVE_TIMEOUT_SECS);
      ("REQUEST_TIMEOUT_SECS", REQUEST_TIMEOUT_SECS); ("RECONNECT_BASE_MS", RECONNECT_BASE_MS); ("RECONNECT_MAX_MS", RECONNECT_MAX_MS)] /\
   class_constants "Severity" python_types =
     [("INFO", severity_repr Info); ("WARNING", severity_repr Warning); ("ERROR", severity_repr ErrorSeverity);
      ("CRITICAL", severity_repr Critical); ("DEBUG", severity_repr Debug)] /\
   class_constants "Outcome" python_types =
     [("SUCCESS", outcome_repr Success); ("FAILURE", outcome_repr Failure); ("UNKNOWN", outcome_repr Unknown);
      ("TIMEOUT", outcome_repr Timeout); ("IN_PROGRESS", outcome_repr InProgress)] /\
   class_constants "Proto" python_types = [("TCP", proto_repr Tcp); ("UDP", proto_repr Udp)]) /\
  (map msg_type_code [Request; Response; StreamStart; StreamEvent; StreamEnd; Error; Ping; Pong] =
     [MSG_REQUEST; MSG_RESPONSE; MSG_STREAM_START; MSG_STREAM_EVENT; MSG_STREAM_END; MSG_ERROR; MSG_PING; MSG_PONG] /\
   map method_code [Find; Deploy; Subscribe; Unsubscribe; Status; Ask; GetEvents; Detach] =
     [METHOD_FIND; METHOD_DEPLOY; METHOD_SUBSCRIBE; METHOD_UNSUBSCRIBE; METHOD_STATUS; METHOD_ASK; METHOD_GET_EVENTS; METHOD_DETACH] /\
   FLAGS_INTERPRETED = FLAG_INTERPRETED /\ FRAME_HEADER_LEN = Z.of_nat Ipc.FRAME_HEADER_LEN /\ FRAME_MAX_LEN = Ipc.FRAME_MAX_LEN /\
   (forall s, severity_repr (sdk_severity s) = severity_code s) /\ (forall o, outcome_repr (sdk_outcome o) = outcome_code o)).
Proof.
  split.
  - split_and!; vm_compute; reflexivity.
  - split_and!; try reflexivity; [by intros []|by intros [[]|]].
Qed.

(* ------------------------------------------------------------------ *)
(** ** Conformance cases ([conformance.rs]) *)

Inductive ConformanceInput :=
| InFind (question : string)
| InDeploy (function : string)
| InStream (function : string) (collect_ms : Z)
| InStreamWithFilter (function : string) (dst_port collect_ms : Z)
| InAsk (question : string).

Inductive ConformanceExpected :=
| ExFindResult (first_function : string) (min_results : nat)
| ExHandle (has_probe_id : bool)
| ExEvents (min_count : nat) (fields_present : list string)
| ExAskResult (has_interpretation has_action : bool)
| ExEventShape (has_field no_field : list string)
| ExFilteredEvents (dst_port : Z).

Record ConformanceCase := mkConformanceCase {
  cc_id : string;
  cc_description : string;
  cc_requires_daemon : bool;
  cc_input : ConformanceInput;
  cc_expected : ConformanceExpected
}.

Definition CASES : list ConformanceCase := [
  mkConformanceCase "find_tcp_connect" "find returns tcp_connect for connection failure question" false
    (InFind "why are connections failing")
    (ExFindResult "tcp_connect" 1);
  mkConformanceCase "find_retransmit" "find returns tcp_retransmit_skb for packet loss question" false
    (InFind "packet loss")
    (ExFindResult "tcp_retransmit_skb" 1);
  mkConformanceCase "find_no_daemon" "find works without any daemon running" false
    (InFind "connection refused")
    (ExFindResult "tcp_connect" 1);
  mkConformanceCase "deploy_returns_handle" "deploy returns handle with non-empty probe_id" true
    (InDeploy "tcp_connect")
    (ExHandle true);
  mkConformanceCase "stream_required_fields" "stream events have id, ts, probe, severity, outcome" true
    (InStream "tcp_connect" 2000)
    (ExEvents 0 ["id"; "ts"; "probe"; "severity"; "outcome"]);
  mkConformanceCase "compact_no_false_protocol_fields" "events must not contain full FALSE Protocol fields" true
    (InStream "tcp_connect" 1000)
    (ExEventShape ["id"; "ts"; "probe"; "severity"; "outcome"] ["source"; "enrichment_state"; "entity_ids"; "correlation_keys"; "occurrence_type"]);
  mkConformanceCase "filter_server_side" "filter is applied server-side — non-matching events never arrive" true
    (InStreamWithFilter "tcp_connect" 9999 2000)
    (ExFilteredEvents 9999);
  mkConformanceCase "ask_with_daemon" "ask returns non-empty interpretation and action" true
    (InAsk "why are connections failing")
    (ExAskResult true true);
  mkConformanceCase "ask_fallback_no_daemon" "ask falls back to KB when daemon not running, still returns result" false
    (InAsk "why are connections failing")
    (ExAskResult true true)
].

Section find.
Variable to_lowercase : string -> string.

(** A case about [find], on a knowledge base. *)
Definition find_case_holds (kb : KnowledgeBase) (c : ConformanceCase) : bool :=
  match cc_input c, cc_expected c with
  | InFind question, ExFindResult first_function min_results =>
      let found := find_probes to_lowercase question kb in
      (min_results <=? length found)%nat && bool_decide (pk_function <$> head found = Some first_function)
  | _, _ => true
  end.

(** The questions of the cases, and what the documents say they answer to. *)
Definition questions : list string :=
  omap (fun c => match cc_input c with InFind q | InAsk q => Some q | _ => None end) CASES.
Definition texts (kb : KnowledgeBase) : list string :=
  concat (map (fun p => pk_answers p ++ pk_keywords p) (all_probes kb)).

(** Lowering the case of these, Unicode's way, is lowering their ASCII letters: the few other
    characters in them have no case. *)
Hypothesis lower_texts : forall s, s ∈ questions ++ texts shipped -> to_lowercase s = to_ascii_lowercase s.

Lemma find_lower kb question :
  (forall s, s ∈ question :: texts kb -> to_lowercase s = to_ascii_lowercase s) ->
  find_probes to_lowercase question kb = find_probes to_ascii_lowercase question kb.
Proof.
  intros Hl. unfold find_probes. rewrite (Hl question) by (by left). set (q := to_ascii_lowercase question).
  assert (scored_matches to_lowercase q kb = scored_matches to_ascii_lowercase q kb) as ->; [|done].
  unfold scored_matches. assert (forall p, p ∈ all_probes kb -> score to_lowercase q p = score to_ascii_lowercase q p) as Hs.
  { intros p Hp. assert (forall s, s ∈ pk_answers p ++ pk_keywords p -> to_lowercase s = to_ascii_lowercase s) as Ht.
    { intros s Hin. apply Hl. right. apply list_elem_of_In, in_concat. exists (pk_answers p ++ pk_keywords p).
      split; [|by apply list_elem_of_In]. by apply (in_map (fun p => pk_answers p ++ pk_keywords p)), list_elem_of_In. }
    unfold score. f_equal. f_equal; apply zsum_ext; intros s Hin; unfold answer_matches; rewrite Ht; try done; apply elem_of_app; auto. }
  assert (map (fun p => (p, score to_lowercase q p)) (all_probes kb) = map (fun p => (p, score to_ascii_lowercase q p)) (all_probes kb)) as Hm.
  { apply map_ext_in. intros p Hp. f_equal. apply Hs. by apply list_elem_of_In. }
  by rewrite Hm.
Qed.

(** The shipped knowledge base passes the conformance cases of [find]: for each question the function
    an SDK is to name first comes first, out of at least as many as asked for. *)
Theorem find_conformance c : c ∈ CASES -> find_case_holds shipped c = true.
Proof.
  intros Hc. unfold find_case_holds. destruct (cc_input c) as [question| | | |] eqn:Hi; try done.
  destruct (cc_expected c) as [first_function min_results| | | | |] eqn:He; try done.
  rewrite find_lower.
  2:{ intros s [->|Hs]%elem_of_cons; apply lower_texts, elem_of_app; [left|by right].
      apply list_elem_of_omap. exists c. by rewrite Hi. }
  cbv zeta.
  assert (forallb (fun c => match cc_input c, cc_expected c with
      | InFind question, ExFindResult first_function min_results =>
          let found := find_probes to_ascii_lowercase question shipped in
          (min_results <=? length found)%nat && bool_decide (pk_function <$> head found = Some first_function)
      | _, _ => true end) CASES = true) as Hall by (by vm_compute).
  rewrite forallb_forall in Hall. specialize (Hall c (proj1 (list_elem_of_In _ _) Hc)). by rewrite Hi, He in Hall.
Qed.
End find.

Lemma find_conformance_witness :
  (forall s, s ∈ questions ++ texts shipped -> to_ascii_lowercase s = to_ascii_lowercase s) /\
  forall c, c ∈ CASES -> find_case_holds to_ascii_lowercase shipped c = true.
Proof. split; [done|]. intros c Hc. exact (find_conformance to_ascii_lowercase (fun s _ => eq_refl) c Hc). Defined.

(** A question is matched by the letters of a keyword anywhere in it: asked why connections fail, the
    knowledge base also proposes the programs for file reads and writes, whose keyword [io] is in
    [connections]. *)
Theorem keywords_match_inside_words :
  map pk_function (find_probes to_ascii_lowercase "why are connections failing" shipped) = ["tcp_connect"; "vfs_write"; "vfs_read"] /\
  contains "connections" "io" = true /\ Forall (fun f => exists p, get_probe f shipped = Some p /\ "io" ∈ pk_keywords p) ["vfs_write"; "vfs_read"].
Proof.
  split; [by vm_compute|]. split; [by vm_compute|]. repeat constructor.
  - eexists. split; [vm_compute; reflexivity|]. apply (bool_decide_unpack _). by vm_compute.
  - eexists. split; [vm_compute; reflexivity|]. apply (bool_decide_unpack _). by vm_compute.
Qed.

Lemma stream_event_read_witness :
  let py_str v := match v with VString bs => string_of bs | _ => "" end in
  let py_int v := match v with VInteger z => Some z | _ => None end in
  exists k raw, decode_event PTcpConnect w_refused_connect = Ok k /\
    event_value (to_occurrence "01J" 5 k "prod") 0 (fun n => if bool_decide (net_protocol n = "tcp") then 0 else 1) None = VArray raw /\
    decode_stream_event py_str py_int ["tcp_connect"] raw ≫= typed =
      Some (compact_event "tcp_connect" stream_proto None (to_occurrence "01J" 5 k "prod")).
Proof.
  intros py_str py_int. destruct (decode_event PTcpConnect w_refused_connect) as [k|e] eqn:Hk; [|by vm_compute in Hk]. eexists k, _.
  split; [done|]. split; [reflexivity|]. by apply (stream_event_read py_str py_int).
Defined.
