(* ===== verification/Metrics.v ===== *)
(** The metrics ([jalki/src/metrics.rs]): what [Metrics::new] registers, the names it is scraped by, and the
    labelled counters with the places that count.

    The registry and its text are the Prometheus client's: that it appends [_total] to the names of
    counters is the one thing taken from it. *)
From stdpp Require Import base gmap list strings.
From S2P Require Import Prelude Float Protocol Evidence Samples Gap Event SensitivePaths Normalize Store Reader SinkQueue.

(* ------------------------------------------------------------------ *)
(** ** The registry *)

(** The label of a family ([EncodeLabelSet] of [ProbeLabel], [SinkLabel] and [UnboundDropLabel]). *)
Definition PROBE_LABEL : string := "probe".
Definition SINK_LABEL : string := "sink".
Definition UNBOUND_DROP_LABEL : string := "reason".

Inductive MetricKind := CounterFamily (label : string) | IntGauge | FloatGauge.

Record Registration := mkRegistration { rg_name : string; rg_kind : MetricKind; rg_help : string }.

(** [Metrics::new], in the order of its registrations. *)
Definition registry : list Registration := [
  mkRegistration "jalki_events" (CounterFamily PROBE_LABEL)
    "Records captured per probe: past the sensitive-path gate and into the local store, before the namespace scope (the count `jalki status` shows as events_total)";
  mkRegistration "jalki_ring_buffer_drops" (CounterFamily PROBE_LABEL)
    "Events dropped due to full ring buffer per probe";
  mkRegistration "jalki_attach_errors" (CounterFamily PROBE_LABEL)
    "Failed probe attachments";
  mkRegistration "jalki_sink_errors" (CounterFamily SINK_LABEL)
    "Append failures per evidence sink";
  mkRegistration "jalki_unbound_dropped_total" (CounterFamily UNBOUND_DROP_LABEL)
    "Plane B records dropped because runtime binding was missing or weak";
  mkRegistration "jalki_binding_cache_entries" IntGauge
    "Current number of cached runtime container bindings";
  mkRegistration "jalki_binding_cache_hit_ratio" FloatGauge
    "Runtime binding cache hit ratio since process start";
  mkRegistration "jalki_retry_queued_batches" IntGauge
    "Evidence batches held in the retry buffer awaiting delivery";
  mkRegistration "jalki_retry_queued_records" IntGauge
    "Evidence records held in the retry buffer awaiting delivery";
  mkRegistration "jalki_retry_queued_bytes" IntGauge
    "Approximate bytes held in the retry buffer (the bound that keeps a sink outage from OOMing the agent)";
  mkRegistration "jalki_retry_oldest_age_seconds" FloatGauge
    "Age of the oldest batch in the retry buffer; 0 when empty";
  mkRegistration "jalki_spool_bytes" IntGauge
    "Bytes of undelivered evidence persisted to disk";
  mkRegistration "jalki_memory_ceiling_no_shed" IntGauge
    "1 while memory is at/above the shed watermark and neither shedding the whole retry buffer nor draining the reader→sink queue to its pressure budget could bring it back below it — growth is the process working set, not buffered evidence (jalki#76)";
  mkRegistration "jalki_memory_usage_ratio" FloatGauge
    "Fraction of the pod memory limit in use; 0 when the cgroup limit could not be resolved";
  mkRegistration "jalki_sink_queue_bytes" IntGauge
    "Estimated resident bytes of evidence waiting in the reader→sink queue (bounded by JALKI_QUEUE_MAX_BYTES)";
  mkRegistration "jalki_sink_queue_messages" IntGauge
    "Messages waiting in the reader→sink queue, including a pending gap marker";
  mkRegistration "jalki_sink_queue_max_bytes" IntGauge
    "Configured budget of the reader→sink queue (JALKI_QUEUE_MAX_BYTES)";
  mkRegistration "jalki_sink_queue_memory_pressure" IntGauge
    "1 while memory pressure holds the reader→sink queue to its smaller pressure budget (max_bytes / 8, at least 4 MiB)";
  mkRegistration "jalki_sink_queue_dropped" (CounterFamily PROBE_LABEL)
    "Records the reader→sink queue refused because it was full, per probe; each refusal is also reported as jalki.agent.gap evidence"
].

Definition series_label (r : Registration) : option string :=
  match rg_kind r with CounterFamily label => Some label | _ => None end.

(** The name of each metric, with its label, in section 7 of [docs/jalki/local-agent-state.md]. *)
Definition documented : list (string * option string) := [
  ("jalki_events_total", Some "probe"); ("jalki_ring_buffer_drops", Some "probe"); ("jalki_attach_errors", Some "probe");
  ("jalki_sink_errors", Some "sink"); ("jalki_unbound_dropped_total", Some "reason"); ("jalki_binding_cache_entries", None);
  ("jalki_binding_cache_hit_ratio", None); ("jalki_sink_queue_bytes", None); ("jalki_sink_queue_messages", None);
  ("jalki_sink_queue_max_bytes", None); ("jalki_sink_queue_memory_pressure", None); ("jalki_sink_queue_dropped_total", Some "probe")
].

Section exposition.
(** The name the client gives a metric in its text: [_total] is appended to counters, and gauges keep theirs. *)
Variable exposed_name : MetricKind -> string -> string.
Hypothesis counter_name : forall label name, exposed_name (CounterFamily label) name = name +:+ "_total".
Hypothesis gauge_name : forall kind name, (forall label, kind <> CounterFamily label) -> exposed_name kind name = name.

Definition exposed (r : Registration) : string := exposed_name (rg_kind r) (rg_name r).

Lemma exposed_eq r : exposed r = match rg_kind r with CounterFamily _ => rg_name r +:+ "_total" | _ => rg_name r end.
Proof. unfold exposed. destruct (rg_kind r); [apply counter_name|by apply gauge_name..]. Qed.

(** No two metrics are scraped by one name. Of the twelve the documentation names, four are not scraped
    by the name it gives: the counters it names without the suffix, and the one registered with it. *)
Theorem documented_names_missing :
  NoDup (map exposed registry) /\
  List.filter (fun d => negb (existsb (fun r => bool_decide ((exposed r, series_label r) = d)) registry)) documented =
    [("jalki_ring_buffer_drops", Some "probe"); ("jalki_attach_errors", Some "probe"); ("jalki_sink_errors", Some "sink");
     ("jalki_unbound_dropped_total", Some "reason")] /\
  "jalki_unbound_dropped_total_total" ∈ map exposed registry.
Proof.
  assert (map exposed registry = map (fun r => match rg_kind r with CounterFamily _ => rg_name r +:+ "_total" | _ => rg_name r end) registry) as E
    by (apply map_ext, exposed_eq).
  assert (forall d, existsb (fun r => bool_decide ((exposed r, series_label r) = d)) registry =
    existsb (fun r => bool_decide ((match rg_kind r with CounterFamily _ => rg_name r +:+ "_total" | _ => rg_name r end, series_label r) = d)) registry) as Ed.
  { intros d. generalize registry as l. induction l as [|r l IH]; [done|]. cbn [existsb]. by rewrite exposed_eq, IH. }
  rewrite E. split; [apply (bool_decide_unpack _); by vm_compute|]. split; [|apply (bool_decide_unpack _); by vm_compute].
  rewrite (filter_ext _ _ (fun d => f_equal negb (Ed d))). by vm_compute.
Qed.
End exposition.

(* ------------------------------------------------------------------ *)
(** ** Labelled counters *)

(** A family: its series, by the value of the label. *)
Notation Family := (gmap string Z).

Definition series (label : string) (f : Family) : Z := default 0 (f !! label).

(** [get_or_create]: the series exists from here on. *)
Definition get_or_create (label : string) (f : Family) : Family := <[label := series label f]> f.

Definition inc_by (label : string) (n : Z) (f : Family) : Family := <[label := add64 (series label f) n]> f.

Lemma series_inc_by label n f : series label (inc_by label n f) = add64 (series label f) n.
Proof. unfold series at 1, inc_by. by rewrite lookup_insert_eq. Qed.

Lemma series_get_or_create label f : series label (get_or_create label f) = series label f.
Proof. unfold series at 1, get_or_create. by rewrite lookup_insert_eq. Qed.

(** The counters of the agent. *)
Record Counters := mkCounters {
  mc_events_total : Family;
  mc_ring_buffer_drops : Family;
  mc_attach_errors : Family;
  mc_sink_errors : Family;
  mc_unbound_dropped_total : Family;
  mc_sink_queue_dropped : Family
}.
#[export] Instance eta_Counters : Eta Counters :=
  fun c => mkCounters (mc_events_total c) (mc_ring_buffer_drops c) (mc_attach_errors c) (mc_sink_errors c)
             (mc_unbound_dropped_total c) (mc_sink_queue_dropped c).

Definition Counters_new : Counters := mkCounters ∅ ∅ ∅ ∅ ∅ ∅.

(** [RecordIntake::new] *)
Definition intake_new (probe_name : string) (c : Counters) : Counters :=
  c <| mc_events_total ::= get_or_create probe_name |> <| mc_sink_queue_dropped ::= get_or_create probe_name |>.

(** [record_sink_error] *)
Definition record_sink_error (sink : string) (c : Counters) : Counters := c <| mc_sink_errors ::= inc_by sink 1 |>.

(** [record_unbound_drops] *)
Definition count_unbound_drops (records : list EvidenceRecord) (c : Counters) : Counters :=
  c <| mc_unbound_dropped_total ::= fun f => foldl (fun f rn => inc_by (reason_as_str rn.1) rn.2 f) f (record_unbound_drops records) |>.

Section intake.
Variable probe_name : string.
Variable resolve : Z -> Z -> RuntimeBinding.
Variable patterns : list string.

(** [RecordIntake::admit], with the metric it counts in. *)
Definition metered_admit (evidence : list EvidenceRecord) (rc : Reader * Counters) : option (Reader * Counters) :=
  '(emitted, r) ← admit_loop probe_name resolve patterns evidence 0 rc.1;
  Some (if 0 <? emitted then (count_emitted emitted r, rc.2 <| mc_events_total ::= inc_by probe_name emitted |>) else (r, rc.2)).

Definition metered_admits (evidences : list (list EvidenceRecord)) (rc : Reader * Counters) : option (Reader * Counters) :=
  foldl (fun acc evidence => rc ← acc; metered_admit evidence rc) (Some rc) evidences.

(** The counting aside, it is [RecordIntake::admit]. *)
Lemma metered_admit_reader evidence rc :
  fst <$> metered_admit evidence rc = intake_admit probe_name resolve patterns evidence rc.1.
Proof.
  unfold metered_admit, intake_admit. destruct (admit_loop _ _ _ _ _ _) as [[emitted r]|]; [|done]. cbn [mbind option_bind].
  by destruct (0 <? emitted).
Qed.

Lemma admit_loop_emitted_stats records emitted r emitted' r' :
  admit_loop probe_name resolve patterns records emitted r = Some (emitted', r') ->
  ps_events_emitted (rd_stats r') = ps_events_emitted (rd_stats r).
Proof.
  revert emitted r. induction records as [|record records IH]; intros emitted r; cbn [admit_loop]; [by intros [= _ <-]|].
  destruct (negb _); [by intros ->%IH|]. destruct (store_push _ _ _) as [store|]; [|done]. by intros ->%IH.
Qed.

(** The metric counts from [base] what the statistics count from nothing, as 64-bit counters do. *)
Lemma metered_admits_agree base evidences r c r' c' :
  series probe_name (mc_events_total c) = add64 base (ps_events_emitted (rd_stats r)) ->
  metered_admits evidences (r, c) = Some (r', c') ->
  series probe_name (mc_events_total c') = add64 base (ps_events_emitted (rd_stats r')).
Proof.
  unfold metered_admits. revert r c. induction evidences as [|evidence evidences IH]; intros r c H; cbn [foldl]; [by intros [= <- <-]|].
  cbn [mbind option_bind]. destruct (metered_admit evidence (r, c)) as [[r1 c1]|] eqn:E.
  2:{ intros Hf. exfalso. clear -Hf. induction evidences as [|e es IH]; [done|]. by apply IH. }
  apply IH. unfold metered_admit in E. cbn [fst snd] in E. destruct (admit_loop _ _ _ _ _ _) as [[emitted r2]|] eqn:Ha; [|done].
  apply admit_loop_emitted_stats in Ha. cbn [mbind option_bind] in E. destruct (0 <? emitted); injection E as <- <-.
  - cbn [mc_events_total]. rewrite series_inc_by, H. change (ps_events_emitted (rd_stats (count_emitted emitted r2))) with (add64 (ps_events_emitted (rd_stats r2)) emitted). rewrite Ha. unfold add64, wrap. rewrite Zplus_mod_idemp_l, Zplus_mod_idemp_r. f_equal. lia.
  - by rewrite Ha.
Qed.

(** The metric of a probe and its statistics: whatever a reader admits from attach, [jalki_events_total] is
    what the series held at attach plus what [jalki status] shows. A series outlives its reader, and
    the statistics do not, so for a probe detached and deployed again the two differ by all that the
    reader before it emitted. *)
Theorem events_metric_counts_status evidences store counter c r' c' :
  is_u64 (series probe_name (mc_events_total c)) ->
  metered_admits evidences (mkReader ProbeStats_new store counter [], intake_new probe_name c) = Some (r', c') ->
  series probe_name (mc_events_total c') = add64 (series probe_name (mc_events_total c)) (ps_events_emitted (rd_stats r')).
Proof.
  intros Hb. apply metered_admits_agree. cbn. rewrite series_get_or_create, Z.add_0_r || rewrite series_get_or_create.
  unfold is_u64 in Hb. rewrite add64_small; lia.
Qed.
End intake.
