(* ===== verification/Oracle.v ===== *)
(** The evaluation oracle ([eval/oracle/src/main.rs]): its cases over the knowledge documents, and what passing
    them is worth.

    A case is a function of the documents, with their file names; one that panics fails. The case about
    serde_json itself and those about files outside the documents and the generated Python are left
    out. *)
From Stdlib Require Import Strings.Ascii.
From stdpp Require Import base list strings.
From S2P Require Import Prelude Text Knowledge Ipc IpcJson Mcp KnowledgeFiles Shipped Sdk.

(* ------------------------------------------------------------------ *)
(** ** Reading documents *)

(** [v[key]] *)
Definition index (key : string) (v : JsonValue) : JsonValue := default JsNull (js_get key v).

Definition is_str (v : JsonValue) (s : string) : bool := match v with JsString x => bool_decide (x = s) | _ => false end.
Definition str_field (key : string) (v : JsonValue) : option string := js_as_str (index key v).
Definition array_field (key : string) (v : JsonValue) : option (list JsonValue) := js_as_array (index key v).
Definition has_field (key : string) (v : JsonValue) : bool := bool_decide (is_Some (js_get key v)).
Definition has_str (key : string) (v : JsonValue) : bool := bool_decide (is_Some (js_get key v ≫= js_as_str)).

(** [as_str().unwrap_or("")] *)
Definition str_or_empty_field (key : string) (v : JsonValue) : string := default "" (str_field key v).

(** A case that panics fails. *)
Definition holds (o : option bool) : bool := default false o.
Definition every {A} (f : A -> option bool) (l : list A) : bool := forallb (fun x => holds (f x)) l.

Definition Documents : Type := list (string * JsonValue).

(** [all_layers], [load_knowledge] and [all_probes] *)
Definition all_layers : Documents :=
  [("tcp.json", tcp_json); ("memory.json", memory_json); ("fs.json", fs_json); ("sched.json", sched_json); ("process.json", process_json)].
Definition load_knowledge (filename : string) (docs : Documents) : option JsonValue :=
  snd <$> find_first (fun d : string * JsonValue => bool_decide (d.1 = filename)) docs.
Definition documents_probes (docs : Documents) : list JsonValue :=
  concat (map (fun d : string * JsonValue => default [] (array_field "probes" d.2)) docs).

Definition probe_named (function : string) (docs : Documents) : option JsonValue :=
  find_first (fun p => is_str (index "function" p) function) (documents_probes docs).

Definition mcp_tools_list : list string :=
  ["jalki_find_probe"; "jalki_deploy_probe"; "jalki_get_events"; "jalki_explain_event"; "jalki_probe_status"; "jalki_deploy_descriptor"].

(* ------------------------------------------------------------------ *)
(** ** Schema (001-010) *)

Definition case_001 (docs : Documents) : bool :=
  forallb (fun d : string * JsonValue =>
    match d.2 with JsObject _ => true | _ => false end && has_field "version" d.2 && has_field "layer" d.2 &&
    bool_decide (is_Some (js_get "probes" d.2 ≫= js_as_array))) docs.

Definition required : list string :=
  ["function"; "attachment"; "event_type"; "layer"; "answers"; "keywords"; "fields"; "use_when"; "not_when"; "combine_with"; "interpretations"].

Definition case_002 (docs : Documents) : bool :=
  forallb (fun probe => forallb (fun field => has_field field probe) required) (documents_probes docs).

Definition case_003 (docs : Documents) : bool :=
  forallb (fun probe => bool_decide (str_or_empty_field "attachment" probe ∈ ["fentry"; "fexit"])) (documents_probes docs).

Definition case_004 (docs : Documents) : bool :=
  holds (functions ← mapM (str_field "function") (documents_probes docs); Some (bool_decide (NoDup functions))).

Definition case_005 (docs : Documents) : bool :=
  forallb (fun probe =>
    let event_type := str_or_empty_field "event_type" probe in
    starts_with event_type "kernel." && (3 <=? length (split_char "." event_type))%nat) (documents_probes docs).

Definition case_006 (docs : Documents) : bool :=
  every (fun probe =>
    fields ← array_field "fields" probe;
    Some (forallb (fun field => has_str "name" field && has_str "type" field && has_str "meaning" field && has_field "important" field) fields))
    (documents_probes docs).

Definition case_007 (docs : Documents) : bool :=
  every (fun probe =>
    interps ← array_field "interpretations" probe;
    Some (forallb (fun interp => has_str "pattern" interp && has_str "conclusion" interp && has_str "action" interp && has_str "severity" interp) interps))
    (documents_probes docs).

Definition case_008 (docs : Documents) : bool :=
  every (fun probe =>
    interps ← array_field "interpretations" probe;
    Some (forallb (fun interp => bool_decide (str_or_empty_field "severity" interp ∈ ["info"; "warning"; "error"; "critical"])) interps))
    (documents_probes docs).

Definition non_empty (s : string) : bool := negb (bool_decide (s = "")).

Definition case_009 (docs : Documents) : bool :=
  every (fun probe =>
    answers ← array_field "answers" probe;
    Some (negb (bool_decide (answers = [])) && forallb (fun answer => non_empty (default "" (js_as_str answer))) answers))
    (documents_probes docs).

Section cases.
(** [str::to_lowercase] *)
Variable to_lowercase : string -> string.

Definition case_010 (docs : Documents) : bool :=
  every (fun probe =>
    keywords ← array_field "keywords" probe;
    Some (negb (bool_decide (keywords = [])) &&
          forallb (fun kw => let s := default "" (js_as_str kw) in non_empty s && bool_decide (s = to_lowercase s)) keywords))
    (documents_probes docs).

(* ------------------------------------------------------------------ *)
(** ** Meaning (011-020) *)

Definition case_011 (docs : Documents) : bool :=
  holds (p ← probe_named "tcp_connect" docs; a ← str_field "attachment" p; Some (bool_decide (a = "fexit"))).

Definition case_012 (docs : Documents) : bool :=
  holds (p ← probe_named "tcp_retransmit_skb" docs; a ← str_field "attachment" p; Some (bool_decide (a = "fentry"))).

Definition case_013 (docs : Documents) : bool :=
  holds (p ← probe_named "tcp_retransmit_skb" docs;
         fields ← array_field "fields" p;
         field ← find_first (fun f => is_str (index "name" f) "tcp_state") fields;
         Some (match index "important" field with JsBool b => b | _ => false end)).

(** The first interpretation of a probe with such a pattern. *)
Definition interp_of_pattern (f : string -> bool) (interps : list JsonValue) : option JsonValue :=
  find_first (fun i => f (str_or_empty_field "pattern" i)) interps.

Definition lower_field (key : string) (v : JsonValue) : option string := to_lowercase <$> str_field key v.

(** The start of the cases about an interpretation of retransmits. *)
Definition retransmit_interp (f : string -> bool) (docs : Documents) : option JsonValue :=
  p ← probe_named "tcp_retransmit_skb" docs;
  interps ← array_field "interpretations" p;
  interp_of_pattern f interps.

Definition case_014 (docs : Documents) : bool :=
  holds (i ← retransmit_interp (fun p => contains p "ESTABLISHED" && contains p "1") docs;
         conclusion ← lower_field "conclusion" i;
         Some (contains conclusion "network" && (negb (contains conclusion "application bug") || contains conclusion "not"))).

Definition case_015 (docs : Documents) : bool :=
  holds (i ← retransmit_interp (fun p => contains p "SYN_SENT" && contains p "2") docs;
         conclusion ← lower_field "conclusion" i;
         Some (contains conclusion "handshake" || contains conclusion "unreachable")).

(** The interpretation of a refused connection. *)
Definition refused_interp (docs : Documents) : option JsonValue :=
  p ← probe_named "tcp_connect" docs;
  interps ← array_field "interpretations" p;
  find_first (fun i => bool_decide (js_get "errno" i ≫= js_as_str = Some "ECONNREFUSED")) interps.

Definition case_016 (docs : Documents) : bool :=
  holds (i ← refused_interp docs;
         conclusion ← lower_field "conclusion" i;
         Some (contains conclusion "listening" || contains conclusion "not running")).

Definition case_017 (docs : Documents) : bool :=
  holds (functions ← mapM (str_field "function") (documents_probes docs);
         Some (every (fun probe =>
           combine_with ← array_field "combine_with" probe;
           names ← mapM js_as_str combine_with;
           Some (forallb (fun name => bool_decide (name ∈ functions)) names)) (documents_probes docs))).

Definition case_018 (docs : Documents) : bool :=
  every (fun probe =>
    if is_str (index "layer" probe) "tcp" then
      _ ← str_field "function" probe;
      fields ← array_field "fields" probe;
      names ← mapM (str_field "name") fields;
      Some (bool_decide ("dst_ip" ∈ names) || bool_decide ("dst_port" ∈ names))
    else Some true) (documents_probes docs).

Definition case_019 (docs : Documents) : bool :=
  holds (p ← probe_named "oom_kill_process" docs;
         interps ← array_field "interpretations" p;
         Some (existsb (fun i => is_str (index "severity" i) "critical") interps)).

Definition case_020 (docs : Documents) : bool :=
  every (fun d : string * JsonValue => probes ← array_field "probes" d.2; Some (negb (bool_decide (probes = [])))) docs.

(* ------------------------------------------------------------------ *)
(** ** Tools and events (021-032) *)

Definition case_021 : bool := bool_decide (length mcp_tools_list = 6%nat).
Definition case_022 : bool :=
  forallb (fun tool => bool_decide (tool ∈ mcp_tools_list))
    ["jalki_find_probe"; "jalki_deploy_probe"; "jalki_get_events"; "jalki_explain_event"; "jalki_probe_status"; "jalki_deploy_descriptor"].

Definition case_032 (docs : Documents) : bool :=
  every (fun probe =>
    _ ← str_field "function" probe;
    event_type ← str_field "event_type" probe;
    Some (starts_with event_type "kernel.")) (documents_probes docs).

(* ------------------------------------------------------------------ *)
(** ** Accuracy (041-045) *)

Definition case_041 (docs : Documents) : bool :=
  holds (i ← refused_interp docs;
         conclusion ← lower_field "conclusion" i;
         action ← lower_field "action" i;
         Some (negb (contains conclusion "network problem") && negb (contains conclusion "packet loss") &&
               (contains action "process" || contains action "running" || contains action "port"))).

Definition case_042 (docs : Documents) : bool :=
  holds (i ← retransmit_interp (fun p => contains p "ESTABLISHED" && contains p "1") docs;
         action ← lower_field "action" i;
         Some (contains action "network" || contains action "switch" || contains action "path")).

Definition case_043 (docs : Documents) : bool :=
  holds (i ← retransmit_interp (fun p => contains p "CLOSE_WAIT" && contains p "7") docs;
         conclusion ← lower_field "conclusion" i;
         Some (contains conclusion "application" || contains conclusion "local" || contains conclusion "hung")).

Definition case_044 (docs : Documents) : bool :=
  match probe_named "tcp_sendmsg" docs with
  | None => true
  | Some p => holds (use_when ← lower_field "use_when" p; Some (contains use_when "sampl" || contains use_when "high frequency"))
  end.

Definition case_045 (docs : Documents) : bool :=
  match probe_named "do_exit" docs with
  | None => true
  | Some p =>
      holds (interps ← array_field "interpretations" p;
             Some (bool_decide (is_Some (interp_of_pattern (fun s => contains s "137" || contains s "SIGKILL") interps))))
  end.

(* ------------------------------------------------------------------ *)
(** ** Consistency and counts (051-065) *)

Definition case_051 (docs : Documents) : bool :=
  every (fun d : string * JsonValue => layer ← str_field "layer" d.2; Some (bool_decide (layer = replace ".json" "" d.1))) docs.

Definition case_052 (docs : Documents) : bool :=
  every (fun d : string * JsonValue =>
    layer_name ← str_field "layer" d.2;
    probes ← array_field "probes" d.2;
    Some (every (fun probe => _ ← str_field "function" probe; layer ← str_field "layer" probe; Some (bool_decide (layer = layer_name))) probes)) docs.

Definition case_053 (docs : Documents) : bool :=
  every (fun probe =>
    _ ← str_field "function" probe;
    interps ← array_field "interpretations" probe;
    Some (negb (bool_decide (interps = [])))) (documents_probes docs).

Definition case_054 (docs : Documents) : bool :=
  holds (event_types ← mapM (str_field "event_type") (documents_probes docs);
         _ ← mapM (str_field "function") (documents_probes docs);
         Some (bool_decide (NoDup event_types))).

Definition case_055 (docs : Documents) : bool :=
  every (fun d : string * JsonValue => version ← str_field "version" d.2; Some (contains version ".")) docs.

Definition case_060 (docs : Documents) : bool := (20 <=? length (documents_probes docs))%nat.

Definition at_least (n : nat) (filename : string) (docs : Documents) : bool :=
  holds (layer ← load_knowledge filename docs; probes ← array_field "probes" layer; Some (n <=? length probes)%nat).
Definition case_061 : Documents -> bool := at_least 8 "tcp.json".
Definition case_062 : Documents -> bool := at_least 3 "memory.json".
Definition case_063 : Documents -> bool := at_least 4 "fs.json".
Definition case_064 : Documents -> bool := at_least 3 "process.json".
Definition case_065 : Documents -> bool := at_least 2 "sched.json".

(* ------------------------------------------------------------------ *)
(** ** Relevance and advice (070-082) *)

Definition case_070 (docs : Documents) : bool :=
  holds (p ← probe_named "tcp_connect" docs;
         answers ← array_field "answers" p;
         texts ← mapM js_as_str answers;
         Some (existsb (fun a => contains a "connect" || contains a "failing" || contains a "refused") (map to_lowercase texts))).

Definition case_071 (docs : Documents) : bool :=
  holds (p ← probe_named "tcp_retransmit_skb" docs;
         keywords ← array_field "keywords" p;
         texts ← mapM js_as_str keywords;
         Some (bool_decide ("packet loss" ∈ texts) || bool_decide ("retransmit" ∈ texts))).

Definition case_072 (docs : Documents) : bool :=
  holds (keywords ← mapM (array_field "keywords") (List.filter (fun p => is_str (index "layer" p) "fs") (documents_probes docs));
         texts ← mapM js_as_str (concat keywords);
         Some (existsb (fun k => contains k "file" || contains k "disk" || contains k "read" || contains k "write") texts)).

Definition case_080 (docs : Documents) : bool :=
  holds (p ← probe_named "tcp_connect" docs;
         interps ← array_field "interpretations" p;
         i ← interp_of_pattern (fun s => contains s "-111") interps;
         conclusion ← lower_field "conclusion" i;
         Some (contains conclusion "listening")).

Definition case_081 (docs : Documents) : bool :=
  holds (i ← retransmit_interp (fun p => contains p "ESTABLISHED") docs;
         action ← lower_field "action" i;
         Some (contains action "network" && negb (contains action "application bug"))).

Definition case_082 (docs : Documents) : bool :=
  holds (i ← retransmit_interp (fun p => contains p "SYN_SENT") docs;
         action ← lower_field "action" i;
         Some (contains action "connect" || contains action "reach" || contains action "not an application")).

(* ------------------------------------------------------------------ *)
(** ** Generated Python (090-091) *)

(** [None]: the file does not exist. *)
Definition text_has (parts : list string) (content : option string) : bool :=
  match content with Some content => forallb (contains content) parts | None => true end.

Definition case_090 : option string -> bool :=
  text_has ["GENERATED"; "DO NOT EDIT"; "class Severity"; "class Event"; "class EventFilter"; "class ProbeMatch"; "class AskResult"].
Definition case_091 : option string -> bool := text_has ["GENERATED"; "class MsgType"; "POS_ID"; "FRAME_HEADER_LEN"].

(** All the cases over the documents. *)
Definition cases : list (Documents -> bool) :=
  [case_001; case_002; case_003; case_004; case_005; case_006; case_007; case_008; case_009; case_010; case_011; case_012; case_013;
   case_014; case_015; case_016; case_017; case_018; case_019; case_020; case_032; case_041; case_042; case_043; case_044; case_045;
   case_051; case_052; case_053; case_054; case_055; case_060; case_061; case_062; case_063; case_064; case_065; case_070; case_071;
   case_072; case_080; case_081; case_082].

Definition oracle_passes (docs : Documents) : bool := forallb (fun case => case docs) cases.
End cases.

(* ------------------------------------------------------------------ *)
(** ** What the shipped files pass *)

(** The shipped documents pass every case, so does the Python the generator writes, and the tools the
    oracle lists by hand are the ones the MCP server advertises, in its order. *)
Theorem shipped_passes_oracle :
  oracle_passes to_ascii_lowercase all_layers = true /\ case_021 = true /\ case_022 = true /\
  case_090 (Some python_types) = true /\ case_091 (Some python_protocol) = true /\
  (list ← match handle_tools_list with Ok v => array_field "tools" v | Err _ => None end; mapM (str_field "name") list) = Some mcp_tools_list.
Proof. split_and!; vm_compute; reflexivity. Qed.

(* ------------------------------------------------------------------ *)
(** ** What passing is worth

    [KnowledgeBase::load] panics on a document it cannot read, when the agent starts. *)

Definition is_bool (v : JsonValue) : bool := match v with JsBool _ => true | _ => false end.

(** What the loader needs and no case looks at. *)
Definition unchecked_field (v : JsonValue) : bool := is_bool (index "important" v).
Definition unchecked_interpretation (v : JsonValue) : bool := bool_decide (is_Some (de_option js_as_str "errno" v)).
Definition unchecked_probe (v : JsonValue) : bool :=
  has_str "use_when" v && has_str "not_when" v && bool_decide (is_Some (de_option string_map_of_json "tcp_states" v)) &&
  holds (l ← array_field "fields" v; Some (forallb unchecked_field l)) &&
  holds (l ← array_field "interpretations" v; Some (forallb unchecked_interpretation l)).
Definition unchecked (docs : Documents) : bool :=
  forallb (fun d : string * JsonValue => has_str "description" d.2) docs && forallb unchecked_probe (documents_probes docs).

Lemma str_field_de key v : str_field key v = de_string key v.
Proof. unfold str_field, index, de_string, de_field. by destruct (js_get key v). Qed.

Lemma array_field_de key v : array_field key v = js_get key v ≫= js_as_array.
Proof. unfold array_field, index. by destruct (js_get key v). Qed.

Lemma has_str_de key v : has_str key v = true <-> is_Some (de_string key v).
Proof. unfold has_str, de_string, de_field. apply bool_decide_eq_true. Qed.

Lemma de_list_loads {A} (de : JsonValue -> option A) key v l :
  array_field key v = Some l -> Forall (fun x => is_Some (de x)) l -> is_Some (de_list de key v).
Proof.
  rewrite array_field_de. unfold de_list, de_field. destruct (js_get key v) as [x|]; [|done]. cbn [mbind option_bind].
  intros ->. cbn [mbind option_bind]. by rewrite mapM_is_Some.
Qed.

Lemma holds_true (o : option bool) : holds o = true <-> o = Some true.
Proof. destruct o as [[]|]; cbn; split; congruence. Qed.

Lemma every_true {A} (f : A -> option bool) l : every f l = true <-> forall x, x ∈ l -> f x = Some true.
Proof.
  unfold every. rewrite forallb_forall. setoid_rewrite holds_true. by setoid_rewrite list_elem_of_In.
Qed.

Lemma forallb_elem {A} (f : A -> bool) l : forallb f l = true <-> forall x, x ∈ l -> f x = true.
Proof. rewrite forallb_forall. by setoid_rewrite list_elem_of_In. Qed.

(** A case that is a guarded read of an array. *)
Lemma every_array key (f : list JsonValue -> bool) probes probe :
  every (fun probe => l ← array_field key probe; Some (f l)) probes = true -> probe ∈ probes ->
  exists l, array_field key probe = Some l /\ f l = true.
Proof.
  rewrite every_true. intros H Hp. specialize (H probe Hp). cbv beta in H. destruct (array_field key probe) as [l|]; [|done].
  injection H as H. by exists l.
Qed.

Lemma field_loads v :
  has_str "name" v && has_str "type" v && has_str "meaning" v && has_field "important" v = true -> unchecked_field v = true ->
  is_Some (field_of_json v).
Proof.
  rewrite !andb_true_iff, !has_str_de. intros [[[[name E1] [type E2]] [meaning E3]] _] Hb. unfold field_of_json.
  rewrite E1, E2, E3. cbn [mbind option_bind]. unfold unchecked_field, index in Hb. unfold de_bool, de_field.
  destruct (js_get "important" v) as [x|]; [|done]. by destruct x.
Qed.

Lemma interpretation_loads v :
  has_str "pattern" v && has_str "conclusion" v && has_str "action" v && has_str "severity" v = true -> unchecked_interpretation v = true ->
  is_Some (interpretation_of_json v).
Proof.
  rewrite !andb_true_iff, !has_str_de. intros [[[[pattern E1] [conclusion E2]] [action E3]] [severity E4]] Hu.
  apply bool_decide_eq_true in Hu as [errno Hu]. unfold interpretation_of_json. rewrite E1, E2, E3, E4, Hu. by eexists.
Qed.

(** What a list of texts is, to a case and to the loader. *)
Lemma strings_load key v l : array_field key v = Some l -> Forall (fun x => is_Some (js_as_str x)) l -> is_Some (de_strings key v).
Proof. apply de_list_loads. Qed.

Lemma text_is_str v : non_empty (default "" (js_as_str v)) = true -> is_Some (js_as_str v).
Proof. destruct (js_as_str v); [by eexists|done]. Qed.

Section worth.
Variable to_lowercase : string -> string.
Variable docs : Documents.
Hypothesis passes : oracle_passes to_lowercase docs = true.

Lemma passes_case case : case ∈ cases to_lowercase -> case docs = true.
Proof. unfold oracle_passes in passes. rewrite forallb_elem in passes. apply passes. Qed.

Ltac passed c H := assert (c docs = true) as H by (apply passes_case; repeat first [apply list_elem_of_here | apply list_elem_of_further]).

Lemma probe_in_document probe : probe ∈ documents_probes docs -> exists d l, d ∈ docs /\ array_field "probes" d.2 = Some l /\ probe ∈ l.
Proof.
  unfold documents_probes. rewrite list_elem_of_In, in_concat. intros (l & Hl & Hp). apply in_map_iff in Hl as (d & <- & Hd).
  exists d. destruct (array_field "probes" d.2) as [l|]; [|done]. exists l. by rewrite !list_elem_of_In.
Qed.

(** The names of a probe are texts. *)
Lemma probe_names probe :
  probe ∈ documents_probes docs ->
  is_Some (de_string "function" probe) /\ is_Some (de_string "attachment" probe) /\ is_Some (de_string "event_type" probe) /\
  is_Some (de_string "layer" probe).
Proof.
  intros Hp. rewrite <- !str_field_de. passed case_003 H3. passed case_032 H32. passed case_052 H52.
  unfold case_003 in H3. rewrite forallb_elem in H3. specialize (H3 probe Hp). apply bool_decide_eq_true in H3. unfold str_or_empty_field in H3.
  destruct (str_field "attachment" probe) as [attachment|]; [|set_solver].
  unfold case_032 in H32. rewrite every_true in H32. specialize (H32 probe Hp). cbv beta in H32.
  destruct (str_field "function" probe) as [function|] eqn:Ef; [|done]. cbn [mbind option_bind] in H32.
  destruct (str_field "event_type" probe) as [event_type|]; [|done].
  destruct (probe_in_document probe Hp) as (d & l & Hd & El & Hin). unfold case_052 in H52. rewrite every_true in H52. specialize (H52 d Hd).
  cbv beta in H52. rewrite El in H52. destruct (str_field "layer" d.2) as [layer_name|]; [|done]. cbn [mbind option_bind] in H52.
  injection H52 as H52. rewrite every_true in H52. specialize (H52 probe Hin). cbv beta in H52. rewrite Ef in H52. cbn [mbind option_bind] in H52.
  destruct (str_field "layer" probe) as [layer|]; [|done]. by split_and!; eexists.
Qed.

(** Its lists are lists of texts. *)
Lemma probe_texts probe :
  probe ∈ documents_probes docs ->
  is_Some (de_strings "answers" probe) /\ is_Some (de_strings "keywords" probe) /\ is_Some (de_strings "combine_with" probe).
Proof.
  intros Hp. passed case_009 H9. passed (case_010 to_lowercase) H10. passed case_017 H17.
  destruct (every_array _ _ _ _ H9 Hp) as (answers & Eans & Hans). destruct (every_array _ _ _ _ H10 Hp) as (keywords & Ekw & Hkw).
  apply andb_true_iff in Hans as [_ Hans], Hkw as [_ Hkw]. rewrite forallb_elem in Hans, Hkw.
  unfold case_017 in H17. rewrite holds_true in H17. destruct (mapM _ _) as [functions|]; [|done]. cbn [mbind option_bind] in H17.
  injection H17 as H17. rewrite every_true in H17. specialize (H17 probe Hp). cbv beta in H17.
  destruct (array_field "combine_with" probe) as [combine|] eqn:Ecw; [|done]. cbn [mbind option_bind] in H17.
  destruct (mapM js_as_str combine) as [names|] eqn:En; [|done]. split_and!.
  - apply (strings_load _ _ answers Eans), Forall_forall. intros x Hx. by apply text_is_str, Hans.
  - apply (strings_load _ _ keywords Ekw), Forall_forall. intros x Hx. apply text_is_str.
    specialize (Hkw x Hx). by apply andb_true_iff in Hkw as [Hkw _].
  - apply (strings_load _ _ combine Ecw). apply (proj1 (mapM_is_Some js_as_str combine)). by eexists.
Qed.

Lemma probe_loads probe : probe ∈ documents_probes docs -> unchecked_probe probe = true -> is_Some (probe_of_json probe).
Proof.
  intros Hp Hu. unfold unchecked_probe in Hu. rewrite !andb_true_iff, !has_str_de in Hu.
  destruct Hu as [[[[[use_when Euw] [not_when Enw]] Ets] Hf] Hi]. apply bool_decide_eq_true in Ets as [tcp_states Ets].
  passed case_006 H6. passed case_007 H7.
  destruct (every_array _ _ _ _ H6 Hp) as (fields & Efl & Hfl). destruct (every_array _ _ _ _ H7 Hp) as (interps & Ein & Hin').
  rewrite Efl in Hf. rewrite Ein in Hi. cbn in Hf, Hi. rewrite forallb_elem in Hf, Hi, Hfl, Hin'.
  destruct (de_list_loads field_of_json "fields" probe fields Efl) as [fields' Efl'].
  { apply Forall_forall. intros x Hx. apply field_loads; auto. }
  destruct (de_list_loads interpretation_of_json "interpretations" probe interps Ein) as [interps' Ein'].
  { apply Forall_forall. intros x Hx. apply interpretation_loads; auto. }
  destruct (probe_names probe Hp) as ([? E1] & [? E2] & [? E3] & [? E4]). destruct (probe_texts probe Hp) as ([? E5] & [? E6] & [? E7]).
  unfold probe_of_json. rewrite E1, E2, E3, E4, E5, E6, Efl', Euw, Enw, E7, Ets, Ein'. by eexists.
Qed.

Lemma document_loads d :
  d ∈ docs -> has_str "description" d.2 = true -> (forall l probe, array_field "probes" d.2 = Some l -> probe ∈ l -> is_Some (probe_of_json probe)) ->
  is_Some (layer_of_json d.2).
Proof.
  intros Hd Hdesc Hp. apply has_str_de in Hdesc as [description Ed]. passed case_020 H20. passed case_051 H51. passed case_055 H55.
  unfold case_020 in H20. unfold case_051 in H51. unfold case_055 in H55. rewrite every_true in H20, H51, H55.
  specialize (H20 d Hd). specialize (H51 d Hd). specialize (H55 d Hd). cbv beta in H20, H51, H55.
  destruct (array_field "probes" d.2) as [l|] eqn:El; [|done]. destruct (str_field "layer" d.2) as [layer|] eqn:Ely; [|done].
  destruct (str_field "version" d.2) as [version|] eqn:Ev; [|done]. rewrite str_field_de in Ely, Ev.
  destruct (de_list_loads probe_of_json "probes" d.2 l El) as [probes Ep].
  { apply Forall_forall. intros x Hx. by apply (Hp l). }
  unfold layer_of_json. rewrite Ev, Ely, Ed, Ep. by eexists.
Qed.

Lemma probe_of_json_fields v p :
  probe_of_json v = Some p ->
  str_field "function" v = Some (pk_function p) /\ str_field "attachment" v = Some (pk_attachment p) /\
  de_strings "combine_with" v = Some (pk_combine_with p) /\ de_list interpretation_of_json "interpretations" v = Some (pk_interpretations p).
Proof.
  rewrite !str_field_de. unfold probe_of_json.
  repeat match goal with |- context [?x ≫= _] => destruct x; [cbn [mbind option_bind]|done] end. by intros [= <-].
Qed.

Lemma layer_of_json_probes v ly : layer_of_json v = Some ly -> de_list probe_of_json "probes" v = Some (ly_probes ly).
Proof.
  unfold layer_of_json. repeat match goal with |- context [?x ≫= _] => destruct x; [cbn [mbind option_bind]|done] end. by intros [= <-].
Qed.

Lemma de_list_Some {A} (de : JsonValue -> option A) key v l :
  de_list de key v = Some l <-> exists vs, array_field key v = Some vs /\ Forall2 (fun x y => de x = Some y) vs l.
Proof.
  rewrite array_field_de. unfold de_list, de_field. destruct (js_get key v) as [x|]; cbn [mbind option_bind]; [|split; [done|by intros (? & ? & _)]].
  destruct (js_as_array x) as [vs|]; cbn [mbind option_bind]; [|split; [done|by intros (? & ? & _)]].
  split; [intros H; exists vs; split; [done|by apply mapM_Some]|]. intros (? & [= <-] & H). by apply mapM_Some.
Qed.

(** The probes of the knowledge base are those of the documents. *)
Lemma loaded_probes kb :
  load_documents (map snd docs) = Some kb -> Forall2 (fun v p => probe_of_json v = Some p) (documents_probes docs) (all_probes kb).
Proof.
  clear passes. unfold load_documents. intros H%mapM_Some. revert kb H. unfold documents_probes, all_probes.
  induction docs as [|d ds IH]; intros kb H; inversion H as [|? ly ? kb' Hly Hkb]; subst; [constructor|]. cbn [map concat].
  apply Forall2_app; [|by apply IH]. apply layer_of_json_probes, de_list_Some in Hly as (vs & -> & Hvs). exact Hvs.
Qed.

(** With distinct names, a probe is found by its own. *)
Lemma get_probe_unique kb p : NoDup (all_functions kb) -> p ∈ all_probes kb -> get_probe (pk_function p) kb = Some p.
Proof.
  unfold all_functions, get_probe. induction (all_probes kb) as [|q l IH]; [by intros _ ?%not_elem_of_nil|].
  cbn [map find_first]. intros [Hq Hn]%NoDup_cons [->|Hp]%elem_of_cons; [by rewrite bool_decide_true|].
  rewrite bool_decide_false; [by apply IH|]. intros E. apply Hq. rewrite E. by apply list_elem_of_fmap_2.
Qed.

Lemma functions_loaded kb :
  Forall2 (fun v p => probe_of_json v = Some p) (documents_probes docs) (all_probes kb) ->
  mapM (str_field "function") (documents_probes docs) = Some (all_functions kb).
Proof.
  intros H. apply mapM_Some. unfold all_functions. induction H as [|v p vs ps Hv _ IH]; [constructor|]. constructor; [|exact IH].
  by apply probe_of_json_fields in Hv as (-> & _).
Qed.

Lemma Forall2_elem_r {A B} (R : A -> B -> Prop) l k y : Forall2 R l k -> y ∈ k -> exists x, x ∈ l /\ R x y.
Proof.
  intros H Hy. apply list_elem_of_lookup in Hy as [i Hi]. destruct (Forall2_lookup_r _ _ _ _ _ H Hi) as (x & Hx & HR).
  exists x. split; [by eapply list_elem_of_lookup_2|exact HR].
Qed.

(** C40: what the oracle's cases are worth. Documents that pass them, and have the few things no case looks
    at (a description, texts on when to use a probe, a boolean for what is important, texts for errno
    values and TCP states), load: the agent does not panic on them. And the knowledge base they make
    answers for every function it names: each probe is found by its own name, is a fentry or fexit one,
    has something to say, and names only probes of the knowledge base to combine it with. *)
Theorem oracle_passes_loads :
  unchecked docs = true ->
  exists kb, load_documents (map snd docs) = Some kb /\ (20 <= length (all_probes kb))%nat /\ forall p, p ∈ all_probes kb ->
    get_probe (pk_function p) kb = Some p /\ pk_attachment p ∈ ["fentry"; "fexit"] /\ pk_interpretations p <> [] /\
    Forall (fun name => exists q, get_probe name kb = Some q /\ pk_function q = name) (pk_combine_with p).
Proof.
  intros Hu. apply andb_true_iff in Hu as [Hdesc Hun]. rewrite forallb_elem in Hdesc. pose proof (proj1 (forallb_elem unchecked_probe _) Hun) as Hprobe.
  assert (is_Some (load_documents (map snd docs))) as [kb Hkb].
  { unfold load_documents. apply mapM_is_Some_2, Forall_forall. intros v (d & -> & Hd)%list_elem_of_fmap.
    apply (document_loads d Hd (Hdesc d Hd)). intros l probe El Hp.
    assert (probe ∈ documents_probes docs) as Hin.
    { apply list_elem_of_In, in_concat. exists l. split; [|by apply list_elem_of_In]. apply in_map_iff. exists d.
      rewrite El. split; [done|by apply list_elem_of_In]. }
    apply probe_loads; auto. }
  exists kb. split; [done|]. pose proof (loaded_probes kb Hkb) as Hall. pose proof (functions_loaded kb Hall) as Hfun.
  passed case_003 H3. passed case_004 H4. passed case_017 H17. passed case_053 H53. passed case_060 H60.
  unfold case_004 in H4. rewrite Hfun in H4. cbn [mbind option_bind holds default from_option] in H4. apply bool_decide_eq_true in H4.
  split. { rewrite <- (Forall2_length _ _ _ Hall). by apply Nat.leb_le in H60. }
  intros p Hp. split; [by apply get_probe_unique|]. destruct (Forall2_elem_r _ _ _ _ Hall Hp) as (v & Hv & Epv).
  apply probe_of_json_fields in Epv as (Ef & Ea & Ec & Ei). split_and!.
  - unfold case_003 in H3. rewrite forallb_elem in H3. specialize (H3 v Hv). apply bool_decide_eq_true in H3.
    unfold str_or_empty_field in H3. by rewrite Ea in H3.
  - unfold case_053 in H53. rewrite every_true in H53. specialize (H53 v Hv). cbv beta in H53. rewrite Ef in H53. cbn [mbind option_bind] in H53.
    apply de_list_Some in Ei as (vs & El & Hvs). rewrite El in H53. intros E. rewrite E in Hvs. inversion Hvs; subst. done.
  - unfold case_017 in H17. rewrite Hfun in H17. cbn [mbind option_bind holds default from_option id] in H17. rewrite every_true in H17.
    specialize (H17 v Hv). cbv beta in H17. apply de_list_Some in Ec as (vs & El & Hvs). rewrite El in H17. cbn [mbind option_bind] in H17.
    apply mapM_Some in Hvs. rewrite Hvs in H17. cbn [mbind option_bind] in H17. injection H17 as H17. rewrite forallb_elem in H17.
    apply Forall_forall. intros name Hname. specialize (H17 name Hname). apply bool_decide_eq_true in H17.
    apply list_elem_of_fmap in H17 as (q & -> & Hq). exists q. split; [by apply get_probe_unique|done].
Qed.
End worth.

Lemma oracle_passes_loads_witness :
  oracle_passes to_ascii_lowercase all_layers = true /\ unchecked all_layers = true /\
  exists kb, load_documents (map snd all_layers) = Some kb /\ (20 <= length (all_probes kb))%nat /\ forall p, p ∈ all_probes kb ->
    get_probe (pk_function p) kb = Some p /\ pk_attachment p ∈ ["fentry"; "fexit"] /\ pk_interpretations p <> [] /\
    Forall (fun name => exists q, get_probe name kb = Some q /\ pk_function q = name) (pk_combine_with p).
Proof.
  split; [by vm_compute|]. split; [by vm_compute|]. apply (oracle_passes_loads to_ascii_lowercase all_layers); by vm_compute.
Defined.

(** What no case looks at does matter: without the descriptions of the layers the documents still pass,
    and the agent panics at its start. *)
Fixpoint without (key : string) (l : list (string * JsonValue)) : list (string * JsonValue) :=
  match l with [] => [] | kv :: rest => if bool_decide (kv.1 = key) then without key rest else kv :: without key rest end.
Definition undescribed : Documents :=
  map (fun d : string * JsonValue => (d.1, match d.2 with JsObject l => JsObject (without "description" l) | v => v end)) all_layers.

Theorem oracle_passes_unloadable :
  oracle_passes to_ascii_lowercase undescribed = true /\ load_documents (map snd undescribed) = None.
Proof. split; by vm_compute. Qed.

